(* ===== verification/_CoqProject ===== *)
-Q . S2P
Prelude.v
Abi.v
Kernel.v
UserMem.v
Firmware.v
ModuleInit.v
Registers.v
StructRW.v
NoStructRW.v
Ioctl.v
OpenRelease.v
Proc.v
ProcDump.v
Locking.v
Concurrency.v
Atomic.v
Driver.v
ProcFile.v
Serial.v
Progress.v
Process.v
Returns.v
ReaderWriter.v
StructReaderWriter.v
NormalReaderWriter.v
TestProgram.v
Library.v
TestSuite.v
ManualTest.v
