(* ===== verification/Prelude.v ===== *)
(** * The mtcadummy kernel driver

    A model of the Linux driver of this repository, a character driver whose
    seven "devices" emulate MTCA PCIe boards in memory, and of the programs that
    come with it to test it, with proofs of what the driver promises to the
    programs that use it and of what those programs do.

    ** The program and its parts

    - [mtcadummy_drv.c] holds the global data (an array of seven
      [mtcaDummyData], one control structure with four error flags, one control
      mutex), loading and unloading, the tables of file operations, and for the
      devices of the mtcadummy and llrfdummy type [read] and [write] through a
      request structure ([device_rw]), [open], [release] and three [ioctl]
      handlers.
    - [mtcadummy_rw_no_struct.c] holds [read] and [write] of the pcieunidummy
      device, which take the bar and the offset from the file position.
    - [mtcadummy_firmware.c] emulates the board: the start values of the
      registers and the action that a write to a register triggers. Both write
      paths call it after each word they stored.
    - [mtcadummy_proc.c] is the file /proc/mtcadummy: reading it dumps the
      devices in use, writing it sets the error flags, which [open], [read],
      [write] and the firmware consult.
    - The headers define the constants and structures shared with user space.
    - [automatic_test] is a small library with two classes, one for the request
      structure ([StructReaderWriter.cc]) and one for file positions
      ([NormalReaderWriter.cc]), behind one abstract class ([ReaderWriter.cc]),
      and a test program over it ([executables_src/testMtcaDummy.cpp]).
    - [test/testMtcaDummy.cpp] is a program for trying the driver by hand.

    The parts interact through the shared data. A device mutex protects the
    registers and the DMA memory of a device, the control mutex protects the
    flags; a write takes the device mutex and, nested in it, the control mutex
    (for the flag and again in the firmware). [inUse] is an atomic counter.

    ** The files

    - [Prelude] (this file): machine integers with their wrap-around ([+u32],
      [+u64], [to_int]), arrays of words indexed by integers ([nthz], [setz]),
      tactics and the lemmas the components share.
    - [Abi]: the constants of the headers, [device_rw] and the ioctl
      structures with their layout in memory. The byte order is the interface
      [ByteOrder], with the little-endian instance.
    - [Kernel]: the data of [mtcadummy.h]; the operations a driver function
      performs ([kop]: taking and releasing a mutex, loads and stores in a bar,
      copies from and to user space, atomic operations, the flags); programs
      made of them ([prog]); the meaning of one operation ([step_op]) and of a
      whole program run without interference ([exec]). An access outside a bar,
      the release of a mutex that is not held and the use of a device that does
      not exist are [Oops]; taking a mutex held by somebody else is [Blocked];
      signals are an explicit sequence of answers. User memory is the interface
      [UserSpace] (what [copy_from_user], [copy_to_user] and [access_ok]
      promise).
    - [UserMem]: an implementation of [UserSpace], on which the examples run.
    - [Firmware]: [mtcadummy_firmware.c], with the register-by-register
      specification [fw_reg], [fw_dma] and the refinement between them.
    - [Registers]: what writing each register does, as seen by a user.
    - [ModuleInit]: [mtcaDummy_init_module] with its error labels and
      [mtcaDummy_cleanup_module], over the set of kernel resources held; the
      state of the loaded driver.
    - [StructRW]: [mtcaDummy_read] and [mtcaDummy_write], specified by the
      functions [struct_reply] and [struct_effect].
    - [NoStructRW]: [mtcadummy_rw_no_struct.c], specified by [transfer_spec],
      [area_read] and [area_write].
    - [Ioctl]: the three handlers, specified by [ioctl_outcome] over a table of
      commands. The encoding of ioctl numbers is the interface [IoctlEncoding].
    - [OpenRelease]: [mtcaDummy_open] and [mtcaDummy_release].
    - [Proc], [ProcDump]: writing and reading the proc file. The conversion
      [%i] of the kernel's [sscanf] is the parameter [scan_i].
    - [Locking]: a weakest precondition ([wp]) that tracks the mutexes a thread
      holds, and the locking discipline of every entry point.
    - [Concurrency]: any number of threads inside the driver, interleaved
      operation by operation, with signals and changes of user memory in
      between ([step], [reachable]).
    - [Atomic]: the same machine with the history of a run ([history]: calls that
      enter, operations, calls that return), the serial runs in which every call
      performs its whole program alone on its device at one moment ([serially]),
      and the simulation between them, which rests on one critical section per
      call ([one_section]).
    - [Driver]: the tables of file operations and sequences of whole system
      calls on open files ([sys_step], [sys_reachable]). What the kernel
      answers where a table has no entry is the interface [Vfs].
    - [ProcFile]: the rest of [mtcadummy_proc.c]: opening the proc file, its two
      tables, and what a process reads from it. The kernel's [seq_open] and
      [PDE_DATA] are the interface [SeqLibrary].
    - [Serial]: what a call that runs alone does to the bars of its device and
      what it returns ([call_effect]), in terms of the flags, the request or the
      words and the signals it found; a logic for such calls ([awp]); the
      specification of the concurrent driver made of them ([specified]).
    - [Progress]: every schedule of the threads inside the driver ends.
    - [Process]: a process that uses the driver: the device names, the system
      calls as functions on the [system] of [Driver], and programs ([client])
      that make them, access the memory of the process and throw exceptions.
      Every run of such a program is a run of [Driver] ([stays_reachable]).
    - [Returns]: a logic for results in any environment, and what a call that is
      to be restarted has done.
    - [ReaderWriter]: the abstract class of the test library as a record of
      functions ([reader_writer]), and its contract as a class
      ([IsReaderWriter]), stated with the device in isolation ([read_word],
      [write_word], [read_area], [write_area]).
    - [StructReaderWriter], [NormalReaderWriter]: the two classes, and the
      instances of [IsReaderWriter] for them.
    - [TestProgram], [TestSuite]: the automatic test as a program over
      [reader_writer], and the proof that it passes.
    - [Library]: arbitrary sequences of calls of the library, with the messages
      of the exceptions and with empty areas.
    - [ManualTest]: the program of [test/].

    A function of the source is a definition of the same name. The functions
    [mtcaDummy_read] and [mtcaDummy_write] are split by request mode
    ([read_info], [read_d32], [read_dma], [write_d32]), the ioctl handlers by
    request ([ioctl_physical_slot], [ioctl_version], [ioctl_read_dma], whose text
    the source repeats in each handler), the loops are definitions of their own
    ([read_words], [write_words], [sample_loop], [init_loop], ...). An early
    return after [mutex_unlock] is [unlock_return]. A pointer to a device is the
    index of the device, a pointer into a bar is the bar with a word index.

    ** What the theorems show

    - Functional correctness on every branch, errors included:
      [struct_read_correct], [struct_write_correct], [no_struct_read_correct],
      [no_struct_write_correct], [ioctl_handlers_correct], [proc_write_correct],
      [seq_show_correct], [action_on_write_correct], [transfer_check_correct],
      [proc_file_read].
      They hold for a call that starts with free mutexes and is not
      interrupted, and give its exact result and its effect on the state.
    - The behaviour a user relies on: reading back what was written
      ([struct_write_then_read], [dma_write_then_read]), the agreement of the
      two interfaces ([interfaces_write_alike]), the registers
      ([adc_ena_samples], [spi_handshake], [clk_rst_clears_counters],
      [read_only_register_restored], [struct_write_keeps_read_only]), the error
      flags ([proc_write_last_option_wins], [proc_write_sets_any_flags]), the
      ioctl interfaces ([pcieuni_ioctl_like_pciedev],
      [ioctl_interfaces_disjoint]), layouts and positions
      ([device_rw_layout_roundtrip], [bar_offsets_roundtrip]).
    - Loading and unloading: [init_all_or_nothing],
      [unload_releases_everything], [loaded_device_image]. A load that succeeds
      may lack what the code does not check, device nodes and the proc entry.
    - The whole driver: [driver_invariant] and [in_use_iff_open] for sequences
      of system calls, with signals; [interleavings_safe], [some_thread_goes_on]
      and [mutexes_free_when_quiet] for arbitrary interleavings. The one fault
      that can happen is a DMA transfer whose size and offset overflow 32 bits;
      when the user's memory never holds such a request, nothing faults
      ([interleavings_without_overflow_never_fault]).
    - Concurrent calls: each takes effect at one moment, as if its program ran
      alone ([interleaved_calls_are_serial]), with the effect and the result that
      the flags, the request or words it read and the signals it met determine
      ([driver_refines_atomic_calls]). So they do not touch words they do not
      address ([unaddressed_words_stay]) and without signals keep the constant
      registers ([constants_in_every_interleaving]). Every call returns, unless a
      transfer overflows ([turns_terminate], [calls_return]), and those that ask
      to be restarted can be ([restarted_calls_change_nothing]).
    - The programs: both classes of the library implement its interface
      ([struct_class_implements_interface], [normal_class_implements_interface]),
      so a client observes a device in isolation ([library_refines_device],
      [library_write_then_read]), and can tell the classes apart by certain calls
      only, those with a bar number above 5 and those with an empty area at a
      place in no bar ([classes_agree_on_portable_calls]). The automatic test
      passes while no errors are injected, no signal is pending and the constant
      registers are intact ([test_program_passes],
      [suite_passes_with_any_implementation]); the manual test leaves what its
      comments announce ([main_correct]).
    - What the code does and should not: the DMA requests that leave the bar
      ([struct_read_out_of_bounds_iff], [ioctl_dma_out_of_bounds_iff]), the
      device whose table of operations is misspelt
      ([device_without_operations]), the effects of a signal or a fault in the
      middle of a write ([interrupted_action_leaves_raw_value],
      [faulting_write_clears_word]), the register that does not keep its content
      ([broken_register_clobbered]), an error of [device_create] that is
      missed ([device_create_error_ignored]) and a read that returns more than
      was asked for ([dma_read_ignores_count]).

    ** Bounds and fuel

    The loops of the transfers and of the sampling run a number of times known
    before they start (25 samples; the number of bytes divided by 4) and recurse
    on it. The loops of the dump compare an unsigned counter with a bound and
    take fuel, one more than the 32 registers ([register_fuel]) and than the 256
    lines of four words ([dma_fuel]); [seq_show_correct] includes that this
    suffices. A file position is at most [LOFF_MAX] and a count at most
    [MAX_RW_COUNT], which the kernel ensures before it calls a driver.

    ** What is not modelled

    The debug output, which changes nothing else; the buffering and the chunks
    of seq_file, which belong to the kernel; the variants for kernels before 5.0
    and 5.6, which differ in the signatures of kernel functions; the console
    input and output of the programs and the bookkeeping of Boost.Test (a test
    passes when its checks hold and no exception leaves it); the build files and
    the packaging. Pointers are 64 bits wide, and [unsigned long] is too. The
    local variables of the library's functions lie at an address [frame] that is
    an argument; vectors are arrays at given addresses that do not overlap.

    ** Plan

    To extend: the return values of concurrent calls that only read (in [Serial]
    their effect is exact and their result is open), the read-only registers under
    concurrent calls of the interface without structure, the results of
    interrupted calls branch by branch, and clients that share a device. *)

From Stdlib Require Export ZArith Lia Strings.Byte.
From stdpp Require Export base list gmap strings numbers option.

#[export] Set Default Goal Selector "!".

(** [lia] also decides divisions and remainders by constants. *)
Ltac Zify.zify_post_hook ::= Z.to_euclidean_division_equations.

Declare Scope c_scope.
Delimit Scope c_scope with C.
Local Open Scope Z_scope.

(** ** Machine integers *)

(** C's [unsigned int] and [u32]: arithmetic modulo 2^32. *)
Definition wrap32 (z : Z) : Z := z mod 4294967296.

(** C's [unsigned long] and [size_t] on a 64-bit kernel: modulo 2^64. *)
Definition wrap64 (z : Z) : Z := z mod 18446744073709551616.

(** C's [int] as stored by a conversion from a wider value (two's complement). *)
Definition to_int (z : Z) : Z := (z + 2147483648) mod 4294967296 - 2147483648.

Definition is_u32 (z : Z) : Prop := 0 <= z < 4294967296.

#[global] Instance is_u32_dec z : Decision (is_u32 z).
Proof. unfold is_u32. apply _. Defined.

Notation "a +u32 b" := (wrap32 (a + b)) (at level 50, left associativity) : c_scope.
Notation "a +u64 b" := (wrap64 (a + b)) (at level 50, left associativity) : c_scope.

(** Reading a C array of words; the default is only met outside the array. *)
Definition nthz (l : list Z) (i : Z) : Z := default 0 (l !! Z.to_nat i).

(** Writing one element of a C array of words. *)
Definition setz (i v : Z) (l : list Z) : list Z := <[Z.to_nat i := v]> l.

#[export] Instance byte_eq_dec : EqDecision byte.
Proof. exact Byte.byte_eq_dec. Defined.

(** ** Generic lemmas *)

Create HintDb mtca discriminated.
Create Rewrite HintDb mtca_rw.

Lemma wrap32_range z : is_u32 (wrap32 z).
Proof. unfold is_u32, wrap32. lia. Qed.

Lemma wrap32_small z : is_u32 z → wrap32 z = z.
Proof. unfold is_u32, wrap32. lia. Qed.

Lemma wrap64_small z : 0 <= z < 18446744073709551616 → wrap64 z = z.
Proof. unfold wrap64. lia. Qed.

Lemma is_u32_0 : is_u32 0.
Proof. unfold is_u32. lia. Qed.

#[export] Hint Resolve wrap32_range is_u32_0 : mtca.

Lemma nthz_setz_eq i v l :
  0 <= i < Z.of_nat (length l) → nthz (setz i v l) i = v.
Proof.
  intros Hi. unfold nthz, setz. rewrite list_lookup_insert_eq by lia. done.
Qed.

Lemma nthz_setz_ne i j v l :
  0 <= i → 0 <= j → i ≠ j → nthz (setz i v l) j = nthz l j.
Proof.
  intros ???. unfold nthz, setz. rewrite list_lookup_insert_ne by lia. done.
Qed.

Lemma length_setz i v l : length (setz i v l) = length l.
Proof. unfold setz. apply length_insert. Qed.

Lemma setz_setz i v w l : setz i v (setz i w l) = setz i v l.
Proof. unfold setz. apply list_insert_insert_eq. Qed.

Lemma setz_nthz i l :
  0 <= i < Z.of_nat (length l) → setz i (nthz l i) l = l.
Proof.
  intros Hi. unfold setz, nthz. apply list_insert_id.
  destruct (lookup_lt_is_Some_2 l (Z.to_nat i)) as [x Hx]; [lia|].
  by rewrite Hx.
Qed.

Lemma Forall_setz (P : Z → Prop) i v l : Forall P l → P v → Forall P (setz i v l).
Proof. intros. unfold setz. by apply Forall_insert. Qed.

Lemma Forall_nthz (P : Z → Prop) l i : Forall P l → P 0 → P (nthz l i).
Proof.
  intros Hl H0. unfold nthz. destruct (l !! Z.to_nat i) eqn:E; [|done].
  by eapply Forall_lookup_1 in E.
Qed.

Lemma lookup_nthz l i :
  0 <= i < Z.of_nat (length l) → l !! Z.to_nat i = Some (nthz l i).
Proof.
  intros Hi. unfold nthz.
  destruct (lookup_lt_is_Some_2 l (Z.to_nat i)) as [x Hx]; [lia|].
  by rewrite Hx.
Qed.

#[export] Hint Resolve Forall_setz : mtca.

(** Equality of word arrays, word by word. *)
Lemma list_eq_nthz (l k : list Z) :
  length l = length k →
  (∀ i, 0 <= i < Z.of_nat (length l) → nthz l i = nthz k i) → l = k.
Proof.
  intros Hlen H. apply list_eq. intros i.
  destruct (decide (i < length l)%nat) as [Hi|Hi].
  - pose proof (H (Z.of_nat i) ltac:(lia)) as E.
    rewrite <-(Nat2Z.id i), !lookup_nthz by lia. by rewrite E.
  - rewrite !lookup_ge_None_2 by lia. done.
Qed.

Lemma list_alter_insert_eq {A} (f : A → A) (l : list A) i x :
  l !! i = Some x → alter f i l = <[i := f x]> l.
Proof.
  intros Hx. apply list_eq. intros j. destruct (decide (i = j)) as [<-|Hne].
  - rewrite list_lookup_alter_eq, Hx, list_lookup_insert_eq; [done|].
    by apply lookup_lt_Some in Hx.
  - by rewrite list_lookup_alter_ne, list_lookup_insert_ne.
Qed.

(** Case analysis on a C integer comparison. *)
Ltac case_Z :=
  match goal with
  | |- context [Z.eqb ?a ?b] => destruct (Z.eqb_spec a b)
  | |- context [Z.ltb ?a ?b] => destruct (Z.ltb_spec a b)
  | |- context [Z.leb ?a ?b] => destruct (Z.leb_spec a b)
  end.
