(* ===== verification/Abi.v ===== *)
(** * The user-space interface of the driver

    Constants of [mtcadummy.h], [mtcadummy_firmware.h], [pciedev_io.h],
    [llrfdrv_io_compat.h], [pcieuni_io_compat.h] and [version.h.in]; the
    structures exchanged with user space, with their layout in memory; the
    byte order and the ioctl number encoding, which the C compiler and the
    kernel headers supply, as interfaces ([Class]) with the instances of the
    usual platforms. *)

From S2P Require Import Prelude.
Local Open Scope Z_scope.

(** ** Error numbers the driver returns (negated) *)

Definition EIO : Z := 5.
Definition EWOULDBLOCK : Z := 11.
Definition EFAULT : Z := 14.
Definition EINVAL : Z := 22.
Definition ENOTTY : Z := 25.
Definition ERESTARTSYS : Z := 512.

(** ** mtcadummy.h *)

Definition MTCADUMMY_NR_DEVS : Z := 7.
Definition MTCADUMMY_DMMY_AS_ASCII : Z := 0x444D4D59.
Definition MTCADUMMY_N_REGISTERS : Z := 32.
Definition MTCADUMMY_DMA_SIZE : Z := 4096.

(** ** version.h, generated from version.h.in with the numbers of CMakeLists.txt *)

Definition MTCADUMMY_DRV_VERSION_MAJ : Z := 0.
Definition MTCADUMMY_DRV_VERSION_MIN : Z := 10.

(** ** mtcadummy_firmware.h: register offsets in bytes *)

Definition MTCADUMMY_WORD_FIRMWARE : Z := 0x00.
Definition MTCADUMMY_WORD_COMPILATION : Z := 0x04.
Definition MTCADUMMY_WORD_STATUS : Z := 0x08.
Definition MTCADUMMY_WORD_USER : Z := 0x0C.
Definition MTCADUMMY_WORD_CLK_CNT : Z := 0x10.
Definition MTCADUMMY_WORD_CLK_CNT_0 : Z := 0x10.
Definition MTCADUMMY_WORD_CLK_CNT_1 : Z := 0x14.
Definition MTCADUMMY_WORD_CLK_MUX : Z := 0x20.
Definition MTCADUMMY_WORD_CLK_MUX_0 : Z := 0x20.
Definition MTCADUMMY_WORD_CLK_MUX_1 : Z := 0x24.
Definition MTCADUMMY_WORD_CLK_MUX_2 : Z := 0x28.
Definition MTCADUMMY_WORD_CLK_MUX_3 : Z := 0x2C.
Definition MTCADUMMY_WORD_DUMMY : Z := 0x3C.
Definition MTCADUMMY_WORD_CLK_RST : Z := 0x40.
Definition MTCADUMMY_WORD_ADC_ENA : Z := 0x44.
Definition MTCADUMMY_BROKEN_REGISTER : Z := 0x48.
Definition MTCADUMMY_BROKEN_WRITE : Z := 0x4C.
Definition MTCADUMMY_WORD_SPI_WRITE : Z := 0x50.
Definition MTCADUMMY_WORD_SPI_READ : Z := 0x54.
Definition MTCADUMMY_WORD_SPI_SYNC : Z := 0x58.

Definition MTCADUMMY_SPI_SYNC_OK : Z := 0.
Definition MTCADUMMY_SPI_SYNC_REQUESTED : Z := 0xFF.
Definition MTCADUMMY_SPI_SYNC_ERROR : Z := 0xAA.

(** ** pciedev_io.h: access modes and the structures *)

Definition RW_D8 : Z := 0.
Definition RW_D16 : Z := 1.
Definition RW_D32 : Z := 2.
Definition RW_DMA : Z := 3.
Definition RW_INFO : Z := 4.

Record device_rw := DeviceRw {
  offset_rw : Z;
  data_rw : Z;
  mode_rw : Z;
  barx_rw : Z;
  size_rw : Z;
  rsrvd_rw : Z;
}.

Record device_ioctrl_data := DeviceIoctrlData {
  ioctrl_offset : Z;
  ioctrl_data : Z;
  ioctrl_cmd : Z;
  ioctrl_reserved : Z;
}.

Record device_ioctrl_dma := DeviceIoctrlDma {
  dma_offset : Z;
  dma_size : Z;
  dma_cmd : Z;
  dma_pattern : Z;
  dma_reserved1 : Z;
  dma_reserved2 : Z;
}.

Definition sizeof_u32 : Z := 4.
Definition sizeof_device_rw : Z := 24.
Definition sizeof_device_ioctrl_data : Z := 16.
Definition sizeof_device_ioctrl_dma : Z := 24.

Definition is_device_rw (r : device_rw) : Prop :=
  is_u32 (offset_rw r) ∧ is_u32 (data_rw r) ∧ is_u32 (mode_rw r) ∧
  is_u32 (barx_rw r) ∧ is_u32 (size_rw r) ∧ is_u32 (rsrvd_rw r).

(** ** The byte order of the machine

    The driver copies words between kernel arrays and user buffers byte by
    byte; how a word is laid out is the machine's choice. *)
Class ByteOrder := {
  bytes_of_u32 : Z → list byte;
  u32_of_bytes : list byte → Z;
  length_bytes_of_u32 z : length (bytes_of_u32 z) = 4%nat;
  u32_of_bytes_of_u32 z : u32_of_bytes (bytes_of_u32 z) = wrap32 z;
  bytes_of_u32_of_bytes bs :
    length bs = 4%nat → bytes_of_u32 (u32_of_bytes bs) = bs;
  u32_of_bytes_range bs : length bs = 4%nat → is_u32 (u32_of_bytes bs);
}.

Section Layout.
Context `{ByteOrder}.

(** A C array of 32-bit words as it lies in memory. *)
Definition bytes_of_words (ws : list Z) : list byte := ws ≫= bytes_of_u32.

(** The word at byte position [p] of a memory block. *)
Definition u32_at (bs : list byte) (p : nat) : Z :=
  u32_of_bytes (take 4 (drop p bs)).

Definition bytes_of_device_rw (r : device_rw) : list byte :=
  bytes_of_words
    [offset_rw r; data_rw r; mode_rw r; barx_rw r; size_rw r; rsrvd_rw r].

Definition device_rw_of_bytes (bs : list byte) : device_rw :=
  DeviceRw (u32_at bs 0) (u32_at bs 4) (u32_at bs 8) (u32_at bs 12)
    (u32_at bs 16) (u32_at bs 20).

Definition bytes_of_ioctrl_data (r : device_ioctrl_data) : list byte :=
  bytes_of_words
    [ioctrl_offset r; ioctrl_data r; ioctrl_cmd r; ioctrl_reserved r].

Definition ioctrl_data_of_bytes (bs : list byte) : device_ioctrl_data :=
  DeviceIoctrlData (u32_at bs 0) (u32_at bs 4) (u32_at bs 8) (u32_at bs 12).

Definition ioctrl_dma_of_bytes (bs : list byte) : device_ioctrl_dma :=
  DeviceIoctrlDma (u32_at bs 0) (u32_at bs 4) (u32_at bs 8) (u32_at bs 12)
    (u32_at bs 16) (u32_at bs 20).

Definition bytes_of_ioctrl_dma (r : device_ioctrl_dma) : list byte :=
  bytes_of_words
    [dma_offset r; dma_size r; dma_cmd r; dma_pattern r; dma_reserved1 r;
     dma_reserved2 r].

Lemma length_bytes_of_words ws : length (bytes_of_words ws) = (4 * length ws)%nat.
Proof.
  induction ws as [|w ws IH]; [done|].
  unfold bytes_of_words in *. cbn. rewrite length_app, length_bytes_of_u32, IH. lia.
Qed.

Lemma bytes_of_words_app ws vs :
  bytes_of_words (ws ++ vs) = bytes_of_words ws ++ bytes_of_words vs.
Proof. apply bind_app. Qed.

Lemma drop_bytes_of_words i ws :
  drop (4 * i) (bytes_of_words ws) = bytes_of_words (drop i ws).
Proof.
  revert ws. induction i as [|i IH]; intros ws; [by rewrite !drop_0|].
  destruct ws as [|w ws]; [by rewrite !drop_nil|].
  replace (4 * S i)%nat with (length (bytes_of_u32 w) + 4 * i)%nat
    by (rewrite length_bytes_of_u32; lia).
  change (bytes_of_words (w :: ws)) with (bytes_of_u32 w ++ bytes_of_words ws).
  by rewrite drop_app_add, IH.
Qed.

Lemma take_bytes_of_words i ws :
  take (4 * i) (bytes_of_words ws) = bytes_of_words (take i ws).
Proof.
  revert ws. induction i as [|i IH]; intros ws; [by rewrite !take_0|].
  destruct ws as [|w ws]; [by rewrite !take_nil|].
  replace (4 * S i)%nat with (length (bytes_of_u32 w) + 4 * i)%nat
    by (rewrite length_bytes_of_u32; lia).
  change (bytes_of_words (w :: ws)) with (bytes_of_u32 w ++ bytes_of_words ws).
  by rewrite take_app_add, IH.
Qed.

Lemma u32_at_bytes_of_words ws i w :
  ws !! i = Some w → u32_at (bytes_of_words ws) (4 * i) = wrap32 w.
Proof.
  intros Hw. unfold u32_at. rewrite drop_bytes_of_words.
  rewrite (drop_S _ w) by done.
  change (bytes_of_words (w :: ?l)) with (bytes_of_u32 w ++ bytes_of_words l).
  rewrite take_app_length' by (by rewrite length_bytes_of_u32).
  apply u32_of_bytes_of_u32.
Qed.

Lemma u32_at_words ws p i w :
  p = (4 * i)%nat → ws !! i = Some w → u32_at (bytes_of_words ws) p = wrap32 w.
Proof. intros ->. apply u32_at_bytes_of_words. Qed.

Lemma u32_at_range bs p : (p + 4 <= length bs)%nat → is_u32 (u32_at bs p).
Proof.
  intros Hp. apply u32_of_bytes_range. rewrite length_take, length_drop. lia.
Qed.

Lemma bytes_of_u32_at bs p :
  (p + 4 <= length bs)%nat → bytes_of_u32 (u32_at bs p) = take 4 (drop p bs).
Proof.
  intros Hp. apply bytes_of_u32_of_bytes. rewrite length_take, length_drop. lia.
Qed.

Lemma device_rw_of_bytes_range bs :
  length bs = 24%nat → is_device_rw (device_rw_of_bytes bs).
Proof.
  intros Hl. unfold is_device_rw. cbn.
  repeat split; apply u32_at_range; lia.
Qed.

Lemma device_rw_of_bytes_of r :
  is_device_rw r → device_rw_of_bytes (bytes_of_device_rw r) = r.
Proof.
  destruct r as [a b c d e f].
  unfold is_device_rw, device_rw_of_bytes, bytes_of_device_rw.
  cbn [offset_rw data_rw mode_rw barx_rw size_rw rsrvd_rw].
  intros (?&?&?&?&?&?).
  rewrite (u32_at_words _ 0 0 a), (u32_at_words _ 4 1 b), (u32_at_words _ 8 2 c),
    (u32_at_words _ 12 3 d), (u32_at_words _ 16 4 e), (u32_at_words _ 20 5 f)
    by reflexivity.
  by rewrite !wrap32_small.
Qed.

Lemma length_bytes_of_device_rw r : length (bytes_of_device_rw r) = 24%nat.
Proof. apply length_bytes_of_words. Qed.

Lemma length_bytes_of_ioctrl_data r : length (bytes_of_ioctrl_data r) = 16%nat.
Proof. apply length_bytes_of_words. Qed.
End Layout.

#[export] Hint Rewrite @length_bytes_of_device_rw @length_bytes_of_ioctrl_data
  @length_bytes_of_words @length_bytes_of_u32 : mtca_rw.

(** ** The two byte orders *)

Definition byte_of_Z (z : Z) : byte := default x00 (Byte.of_N (Z.to_N (z mod 256))).
Definition Z_of_byte (b : byte) : Z := Z.of_N (Byte.to_N b).

Definition le_bytes (z : Z) : list byte :=
  [byte_of_Z z; byte_of_Z (z / 256); byte_of_Z (z / 65536); byte_of_Z (z / 16777216)].

Definition le_value (bs : list byte) : Z :=
  foldr (λ b z, Z_of_byte b + 256 * z) 0 bs.

Lemma Z_of_byte_of_Z z : Z_of_byte (byte_of_Z z) = z mod 256.
Proof.
  unfold Z_of_byte, byte_of_Z.
  pose proof (Byte.to_of_N_option_map (Z.to_N (z mod 256))) as E.
  destruct (N.leb_spec (Z.to_N (z mod 256)) 255); [|lia].
  destruct (Byte.of_N _) as [b|]; simplify_eq/=. lia.
Qed.

Lemma Z_of_byte_range b : 0 <= Z_of_byte b < 256.
Proof. unfold Z_of_byte. pose proof (Byte.to_N_bounded b). lia. Qed.

Lemma byte_of_Z_of_byte b : byte_of_Z (Z_of_byte b) = b.
Proof.
  pose proof (Z_of_byte_range b). unfold byte_of_Z.
  rewrite Z.mod_small by done. unfold Z_of_byte. by rewrite N2Z.id, Byte.of_to_N.
Qed.

Lemma le_value_le_bytes z : le_value (le_bytes z) = wrap32 z.
Proof. cbn. rewrite !Z_of_byte_of_Z. unfold wrap32. lia. Qed.

Lemma byte_of_Z_add b z : byte_of_Z (Z_of_byte b + 256 * z) = b.
Proof.
  rewrite <-(byte_of_Z_of_byte b) at 2. unfold byte_of_Z.
  pose proof (Z_of_byte_range b). do 3 f_equal. lia.
Qed.

Lemma le_bytes_le_value bs : length bs = 4%nat → le_bytes (le_value bs) = bs.
Proof.
  intros Hl. destruct bs as [|a [|b [|c [|d [|]]]]]; try discriminate.
  pose proof (Z_of_byte_range a). pose proof (Z_of_byte_range b).
  pose proof (Z_of_byte_range c). pose proof (Z_of_byte_range d).
  unfold le_bytes. cbn [le_value foldr]. f_equal; [apply byte_of_Z_add|].
  assert (∀ x y, 0 <= x < 256 → (x + 256 * y) / 256 = y) as Hd by lia.
  change 65536 with (256 * 256). change 16777216 with (256 * 256 * 256).
  rewrite <-!Z.div_div, !Hd by lia.
  f_equal; [apply byte_of_Z_add|]. f_equal; [apply byte_of_Z_add|].
  f_equal. apply byte_of_Z_add.
Qed.

Lemma le_value_range bs : length bs = 4%nat → is_u32 (le_value bs).
Proof.
  intros Hl. destruct bs as [|a [|b [|c [|d [|]]]]]; try discriminate.
  pose proof (Z_of_byte_range a). pose proof (Z_of_byte_range b).
  pose proof (Z_of_byte_range c). pose proof (Z_of_byte_range d).
  unfold is_u32. cbn. lia.
Qed.

#[refine, local] Instance little_endian : ByteOrder := {
  bytes_of_u32 := le_bytes;
  u32_of_bytes := le_value;
}.
Proof.
  - done.
  - apply le_value_le_bytes.
  - apply le_bytes_le_value.
  - apply le_value_range.
Defined.

#[refine, local] Instance big_endian : ByteOrder := {
  bytes_of_u32 z := rev (le_bytes z);
  u32_of_bytes bs := le_value (rev bs);
}.
Proof.
  - done.
  - intros z. rewrite rev_involutive. apply le_value_le_bytes.
  - intros bs Hl. rewrite le_bytes_le_value by by rewrite length_rev.
    apply rev_involutive.
  - intros bs Hl. apply le_value_range. by rewrite length_rev.
Defined.

(** ** Properties *)

(** The structure [device_rw] and its 24 bytes in user memory
    determine each other, on either byte order: reading the bytes of a
    structure gives the structure back, and every block of 24 bytes is the
    image of the structure read from it. *)
Theorem device_rw_layout_roundtrip `{ByteOrder} (r : device_rw) (bs : list byte)
    (Hr : is_device_rw r) (Hbs : length bs = 24%nat) :
  length (bytes_of_device_rw r) = 24%nat ∧ device_rw_of_bytes (bytes_of_device_rw r) = r ∧
  is_device_rw (device_rw_of_bytes bs) ∧ bytes_of_device_rw (device_rw_of_bytes bs) = bs.
Proof.
  split; [apply length_bytes_of_device_rw|]. split; [by apply device_rw_of_bytes_of|].
  split; [by apply device_rw_of_bytes_range|].
  unfold bytes_of_device_rw, device_rw_of_bytes, bytes_of_words.
  cbn [offset_rw data_rw mode_rw barx_rw size_rw rsrvd_rw mbind list_bind].
  rewrite !bytes_of_u32_at by lia.
  do 24 (destruct bs as [|? bs]; [discriminate|]). destruct bs; [|discriminate]. reflexivity.
Qed.

Lemma device_rw_layout_roundtrip_witness :
  @device_rw_of_bytes big_endian (@bytes_of_device_rw big_endian (DeviceRw 0x48 7 RW_D32 0 1 2)) =
    DeviceRw 0x48 7 RW_D32 0 1 2.
Proof.
  apply (@device_rw_layout_roundtrip big_endian _ (replicate 24 x01));
    [repeat split; vm_compute; congruence | reflexivity].
Defined.
