(* ===== verification/Kernel.v ===== *)
(** * The driver's data and the kernel services it runs on

    The data of [mtcadummy.h] (one [mtcaDummyData] per device, the control
    flags), the operations a driver function performs on it or asks the kernel
    for ([kop]), programs made of these operations ([prog]), the meaning of one
    operation ([step_op]) and of a program run without interference ([exec]).
    What the kernel promises about user memory is the interface [UserSpace]. *)

From S2P Require Import Prelude Abi.
Local Open Scope Z_scope.

(** ** Data of mtcadummy.h *)

(** Which [struct file_operations] of [mtcadummy_drv.c] a [cdev] points to. *)
Inductive cdev_ops :=
  | mtcaDummyFileOps
  | llrfDummyFileOps
  | noIoctlDummyFileOps
  | pcieuniDummyFileOps.

#[export] Instance cdev_ops_eq_dec : EqDecision cdev_ops.
Proof. solve_decision. Defined.

(** One device. [devMutex] is the thread that holds the mutex, if any; the two
    bars are the allocated arrays of words. *)
Record mtcaDummyData := MtcaDummyData {
  inUse : Z;
  cdev : cdev_ops;
  devMutex : option nat;
  slotNr : Z;
  minor : Z;
  major : Z;
  systemBar : list Z;
  dmaBar : list Z;
}.

Record mtcaDummyControl := MtcaDummyControl {
  open_error : bool;
  read_error : bool;
  write_error : bool;
  spi_error : bool;
}.

Inductive ctl_field := OpenError | ReadError | WriteError | SpiError.

#[export] Instance ctl_field_eq_dec : EqDecision ctl_field.
Proof. solve_decision. Defined.

Definition ctl_get (f : ctl_field) (c : mtcaDummyControl) : bool :=
  match f with
  | OpenError => open_error c
  | ReadError => read_error c
  | WriteError => write_error c
  | SpiError => spi_error c
  end.

Definition ctl_set (f : ctl_field) (b : bool) (c : mtcaDummyControl) : mtcaDummyControl :=
  match f with
  | OpenError => MtcaDummyControl b (read_error c) (write_error c) (spi_error c)
  | ReadError => MtcaDummyControl (open_error c) b (write_error c) (spi_error c)
  | WriteError => MtcaDummyControl (open_error c) (read_error c) b (spi_error c)
  | SpiError => MtcaDummyControl (open_error c) (read_error c) (write_error c) b
  end.

(** The bars a device implements: number 0 and number 2. *)
Inductive bar_id := SystemBar | DmaBar.

#[export] Instance bar_id_eq_dec : EqDecision bar_id.
Proof. solve_decision. Defined.

Definition get_bar (b : bar_id) (dev : mtcaDummyData) : list Z :=
  match b with SystemBar => systemBar dev | DmaBar => dmaBar dev end.

Definition set_bar (b : bar_id) (ws : list Z) (dev : mtcaDummyData) : mtcaDummyData :=
  match b with
  | SystemBar => MtcaDummyData (inUse dev) (cdev dev) (devMutex dev) (slotNr dev)
                   (minor dev) (major dev) ws (dmaBar dev)
  | DmaBar => MtcaDummyData (inUse dev) (cdev dev) (devMutex dev) (slotNr dev)
                (minor dev) (major dev) (systemBar dev) ws
  end.

Definition set_owner (o : option nat) (dev : mtcaDummyData) : mtcaDummyData :=
  MtcaDummyData (inUse dev) (cdev dev) o (slotNr dev) (minor dev) (major dev)
    (systemBar dev) (dmaBar dev).

Definition set_inUse (n : Z) (dev : mtcaDummyData) : mtcaDummyData :=
  MtcaDummyData n (cdev dev) (devMutex dev) (slotNr dev) (minor dev) (major dev)
    (systemBar dev) (dmaBar dev).

(** ** User memory

    What the kernel documents of [copy_from_user] and [copy_to_user]: they
    return the number of bytes that could not be copied, 0 when every byte is
    accessible; the bytes before that point are copied; [copy_from_user] pads
    the rest of the destination with zeros. *)
Class UserSpace (U : Type) := {
  user_byte : U → Z → option byte;
  user_writable : U → Z → bool;
  access_ok : U → Z → Z → bool;
  copy_from_user : U → Z → nat → list byte * Z;
  copy_to_user : U → Z → list byte → U * Z;

  copy_from_user_length u a n : length (copy_from_user u a n).1 = n;
  copy_from_user_left u a n : 0 <= (copy_from_user u a n).2 <= Z.of_nat n;
  copy_from_user_copied u a n i :
    Z.of_nat i < Z.of_nat n - (copy_from_user u a n).2 →
    user_byte u (a + Z.of_nat i) = (copy_from_user u a n).1 !! i;
  copy_from_user_padded u a n i :
    Z.of_nat n - (copy_from_user u a n).2 <= Z.of_nat i < Z.of_nat n →
    (copy_from_user u a n).1 !! i = Some x00;
  copy_from_user_ok u a n :
    (∀ i, (i < n)%nat → is_Some (user_byte u (a + Z.of_nat i))) →
    (copy_from_user u a n).2 = 0;

  copy_to_user_left u a bs : 0 <= (copy_to_user u a bs).2 <= Z.of_nat (length bs);
  copy_to_user_byte u a bs x :
    user_byte (copy_to_user u a bs).1 x =
      if (0 <=? x - a) && (x - a <? Z.of_nat (length bs) - (copy_to_user u a bs).2)
      then bs !! Z.to_nat (x - a) else user_byte u x;
  copy_to_user_writable u a bs x :
    user_writable (copy_to_user u a bs).1 x = user_writable u x;
  copy_to_user_ok u a bs :
    (∀ i, (i < length bs)%nat → user_writable u (a + Z.of_nat i) = true) →
    (copy_to_user u a bs).2 = 0;
}.

(** ** Programs *)

Inductive mutex := controlMutex | deviceMutex (d : nat).

#[export] Instance mutex_eq_dec : EqDecision mutex.
Proof. solve_decision. Defined.

(** The operations of the driver's functions, with the type of their result. A
    device is named by its index in [dummyPrivateData]. *)
Inductive kop : Type → Type :=
  (** [mutex_lock_interruptible]: [true] when a signal interrupted it *)
  | MutexLockInterruptible (m : mutex) : kop bool
  | MutexUnlock (m : mutex) : kop unit
  | ControlGet (f : ctl_field) : kop bool
  | ControlSet (f : ctl_field) (b : bool) : kop unit
  | AtomicAdd (d : nat) (k : Z) : kop unit
  | AtomicRead (d : nat) : kop Z
  | GetSlotNr (d : nat) : kop Z
  | BarLoad (d : nat) (b : bar_id) (i : Z) : kop Z
  | BarStore (d : nat) (b : bar_id) (i v : Z) : kop unit
  (** [copy_from_user] into a local variable, [copy_to_user] from one *)
  | CopyFromUser (addr : Z) (n : nat) : kop (list byte * Z)
  | CopyToUser (addr : Z) (bs : list byte) : kop Z
  (** [copy_to_user] of [n] bytes starting at word [i] of a bar, and
      [copy_from_user] of one word into word [i] of a bar *)
  | CopyBarToUser (addr : Z) (d : nat) (b : bar_id) (i n : Z) : kop Z
  | CopyUserToBar (d : nat) (b : bar_id) (i addr : Z) : kop Z
  | AccessOk (addr n : Z) : kop bool.

Inductive prog (A : Type) : Type :=
  | Ret (a : A)
  | Vis {X : Type} (o : kop X) (k : X → prog A).
Arguments Ret {_}.
Arguments Vis {_ _}.

Fixpoint prog_bind {A B} (f : A → prog B) (p : prog A) : prog B :=
  match p with
  | Ret a => f a
  | Vis o k => Vis o (λ x, prog_bind f (k x))
  end.

#[export] Instance prog_mret : MRet prog := λ A, Ret.
#[export] Instance prog_mbind : MBind prog := λ A B, prog_bind.

Definition call {X} (o : kop X) : prog X := Vis o Ret.

(** [mutex_unlock(&privData->devMutex); return r;] *)
Definition unlock_return (d : nat) (r : Z) : prog Z :=
  call (MutexUnlock (deviceMutex d)) ;; mret r.

(** ** Meaning of the operations *)

(** Why a kernel thread goes wrong: an access outside an allocated array, a
    device that does not exist, or an access to shared data, a lock or an unlock
    against the locking discipline. *)
Inductive oops := OutOfBounds | BadDevice | LockMisuse.

Inductive outcome (A : Type) : Type :=
  | Done (a : A)
  | Blocked
  | Oops (r : oops).
Arguments Done {_}.
Arguments Blocked {_}.
Arguments Oops {_}.

Definition outcome_bind {A B} (f : A → outcome B) (o : outcome A) : outcome B :=
  match o with
  | Done a => f a
  | Blocked => Blocked
  | Oops r => Oops r
  end.

(** The memory the driver works on. [signals] says for the next calls of
    [mutex_lock_interruptible] whether a signal interrupts them; none does
    after the end of the list. *)
Record kstate (U : Type) := KState {
  devs : list mtcaDummyData;
  control : mtcaDummyControl;
  control_owner : option nat;
  user : U;
  signals : list bool;
}.
Arguments KState {_}.
Arguments devs {_}.
Arguments control {_}.
Arguments control_owner {_}.
Arguments user {_}.
Arguments signals {_}.

Section Exec.
Context {U : Type} `{UserSpace U} `{ByteOrder}.

Definition with_devs (ds : list mtcaDummyData) (st : kstate U) : kstate U :=
  KState ds (control st) (control_owner st) (user st) (signals st).
Definition with_control (c : mtcaDummyControl) (st : kstate U) : kstate U :=
  KState (devs st) c (control_owner st) (user st) (signals st).
Definition with_control_owner (o : option nat) (st : kstate U) : kstate U :=
  KState (devs st) (control st) o (user st) (signals st).
Definition with_user (u : U) (st : kstate U) : kstate U :=
  KState (devs st) (control st) (control_owner st) u (signals st).
Definition with_signals (s : list bool) (st : kstate U) : kstate U :=
  KState (devs st) (control st) (control_owner st) (user st) s.

Definition upd_dev (d : nat) (dev : mtcaDummyData) (st : kstate U) : kstate U :=
  with_devs (<[d := dev]> (devs st)) st.

(** The thread that holds a mutex. *)
Definition owner (m : mutex) (st : kstate U) : option (option nat) :=
  match m with
  | controlMutex => Some (control_owner st)
  | deviceMutex d => devMutex <$> devs st !! d
  end.

Definition set_mutex (m : mutex) (o : option nat) (st : kstate U) : kstate U :=
  match m with
  | controlMutex => with_control_owner o st
  | deviceMutex d => with_devs (alter (set_owner o) d (devs st)) st
  end.

(** [f] on device [d], which must exist. *)
Definition on_dev {A} (d : nat) (st : kstate U)
    (f : mtcaDummyData → outcome (A * kstate U)) : outcome (A * kstate U) :=
  match devs st !! d with
  | Some dev => f dev
  | None => Oops BadDevice
  end.

(** [f] on word [i] of a bar of device [d], by thread [t]: the thread must hold
    the device's mutex and [n] bytes from word [i] on must lie in the array. *)
Definition on_bar {A} (t d : nat) (b : bar_id) (i n : Z) (st : kstate U)
    (f : mtcaDummyData → outcome (A * kstate U)) : outcome (A * kstate U) :=
  on_dev d st (λ dev,
    if decide (devMutex dev = Some t) then
      if (0 <=? i) && (4 * i + n <=? 4 * Z.of_nat (length (get_bar b dev)))
      then f dev else Oops OutOfBounds
    else Oops LockMisuse).

(** The [n] bytes of a bar from word [i] on. *)
Definition bar_bytes (i n : Z) (ws : list Z) : list byte :=
  take (Z.to_nat n) (bytes_of_words (drop (Z.to_nat i) ws)).

Definition step_lock (t : nat) (m : mutex) (st : kstate U) : outcome (bool * kstate U) :=
  match owner m st with
  | None => Oops BadDevice
  | Some o =>
      if default false (head (signals st))
      then Done (true, with_signals (tail (signals st)) st)
      else match o with
           | Some _ => Blocked
           | None =>
               Done (false,
                 set_mutex m (Some t) (with_signals (tail (signals st)) st))
           end
  end.

Definition step_unlock (t : nat) (m : mutex) (st : kstate U) : outcome (unit * kstate U) :=
  match owner m st with
  | None => Oops BadDevice
  | Some o => if decide (o = Some t) then Done (tt, set_mutex m None st)
              else Oops LockMisuse
  end.

Definition step_op {X} (t : nat) (o : kop X) (st : kstate U) : outcome (X * kstate U) :=
  match o in kop X return outcome (X * kstate U) with
  | MutexLockInterruptible m => step_lock t m st
  | MutexUnlock m => step_unlock t m st
  | ControlGet f =>
      if decide (control_owner st = Some t)
      then Done (ctl_get f (control st), st) else Oops LockMisuse
  | ControlSet f b =>
      if decide (control_owner st = Some t)
      then Done (tt, with_control (ctl_set f b (control st)) st) else Oops LockMisuse
  | AtomicAdd d k =>
      on_dev d st (λ dev, Done (tt, upd_dev d (set_inUse (to_int (inUse dev + k)) dev) st))
  | AtomicRead d => on_dev d st (λ dev, Done (inUse dev, st))
  | GetSlotNr d => on_dev d st (λ dev, Done (slotNr dev, st))
  | BarLoad d b i => on_bar t d b i 4 st (λ dev, Done (nthz (get_bar b dev) i, st))
  | BarStore d b i v =>
      on_bar t d b i 4 st (λ dev,
        Done (tt, upd_dev d (set_bar b (setz i v (get_bar b dev)) dev) st))
  | CopyFromUser a n => Done (copy_from_user (user st) a n, st)
  | CopyToUser a bs =>
      let '(u, nleft) := copy_to_user (user st) a bs in Done (nleft, with_user u st)
  | CopyBarToUser a d b i n =>
      on_bar t d b i n st (λ dev,
        let '(u, nleft) := copy_to_user (user st) a (bar_bytes i n (get_bar b dev)) in
        Done (nleft, with_user u st))
  | CopyUserToBar d b i a =>
      on_bar t d b i 4 st (λ dev,
        let '(bs, nleft) := copy_from_user (user st) a 4 in
        Done (nleft,
          upd_dev d (set_bar b (setz i (u32_of_bytes bs) (get_bar b dev)) dev) st))
  | AccessOk a n => Done (access_ok (user st) a n, st)
  end.

(** A program run by thread [t] to its end with no other thread in between. *)
Fixpoint exec {A} (t : nat) (p : prog A) (st : kstate U) : outcome (A * kstate U) :=
  match p with
  | Ret a => Done (a, st)
  | Vis o k => outcome_bind (λ '(x, st'), exec t (k x) st') (step_op t o st)
  end.

Lemma exec_bind {A B} t (p : prog A) (f : A → prog B) st :
  exec t (p ≫= f) st = outcome_bind (λ '(a, st'), exec t (f a) st') (exec t p st).
Proof.
  revert st. induction p as [a|X o k IH]; intros st; [done|].
  cbn. destruct (step_op t o st) as [[x st']| |]; cbn; [apply IH|done|done].
Qed.

Lemma exec_ret {A} t (a : A) st : exec t (mret a) st = Done (a, st).
Proof. done. Qed.

Lemma exec_call {A X} t (o : kop X) (f : X → prog A) st :
  exec t (call o ≫= f) st =
    outcome_bind (λ '(x, st'), exec t (f x) st') (step_op t o st).
Proof. done. Qed.
End Exec.

(** ** Well-formed states *)

(** A device as the driver sets it up: its slot number is its index, and its
    bars have their fixed sizes and hold words. *)
Definition wf_dev (d : nat) (dev : mtcaDummyData) : Prop :=
  slotNr dev = Z.of_nat d ∧
  Z.of_nat (length (systemBar dev)) = MTCADUMMY_N_REGISTERS ∧
  4 * Z.of_nat (length (dmaBar dev)) = MTCADUMMY_DMA_SIZE ∧
  Forall is_u32 (systemBar dev) ∧ Forall is_u32 (dmaBar dev).

Definition wf_devs (ds : list mtcaDummyData) : Prop :=
  Z.of_nat (length ds) = MTCADUMMY_NR_DEVS ∧
  ∀ d dev, ds !! d = Some dev → wf_dev d dev.

#[export] Instance wf_dev_dec d dev : Decision (wf_dev d dev).
Proof. unfold wf_dev. apply _. Defined.

(** Executable form of [wf_devs]. *)
Definition wf_devsb (ds : list mtcaDummyData) : bool :=
  (Z.of_nat (length ds) =? MTCADUMMY_NR_DEVS) &&
  forallb (λ '(d, dev), bool_decide (wf_dev d dev)) (imap pair ds).

Lemma wf_devsb_correct ds : wf_devsb ds = true → wf_devs ds.
Proof.
  unfold wf_devsb, wf_devs. intros [Hl Hf]%andb_true_iff. split; [lia|].
  intros d dev Hd. rewrite forallb_forall in Hf.
  specialize (Hf (d, dev)). cbn in Hf.
  eapply bool_decide_eq_true_1, Hf.
  apply list_elem_of_In, list_elem_of_lookup. exists d.
  by rewrite list_lookup_imap, Hd.
Qed.

(** Thread [t] holds the mutex of device [d], whose data is [dev]. *)
Definition holds {U} (t d : nat) (dev : mtcaDummyData) (st : kstate U) : Prop :=
  devs st !! d = Some dev ∧ devMutex dev = Some t.

(** No mutex is held: the state between two system calls. *)
Definition idle {U} (st : kstate U) : Prop :=
  control_owner st = None ∧ Forall (λ dev, devMutex dev = None) (devs st).

Lemma get_set_bar b ws dev : get_bar b (set_bar b ws dev) = ws.
Proof. by destruct b. Qed.

Lemma get_set_bar_ne b b' ws dev : b ≠ b' → get_bar b' (set_bar b ws dev) = get_bar b' dev.
Proof. by destruct b, b'. Qed.

Lemma set_bar_set_bar b ws ws' dev : set_bar b ws (set_bar b ws' dev) = set_bar b ws dev.
Proof. by destruct b. Qed.

Lemma set_bar_get_bar b dev : set_bar b (get_bar b dev) dev = dev.
Proof. by destruct b, dev. Qed.

Lemma set_systemBar_id dev : set_bar SystemBar (systemBar dev) dev = dev.
Proof. apply (set_bar_get_bar SystemBar). Qed.

Lemma set_dmaBar_id dev : set_bar DmaBar (dmaBar dev) dev = dev.
Proof. apply (set_bar_get_bar DmaBar). Qed.

Lemma get_bar_set_owner b o dev : get_bar b (set_owner o dev) = get_bar b dev.
Proof. by destruct b. Qed.

Lemma set_owner_set_bar o b ws dev :
  set_owner o (set_bar b ws dev) = set_bar b ws (set_owner o dev).
Proof. by destruct b. Qed.

Lemma set_owner_set_owner o o' dev : set_owner o (set_owner o' dev) = set_owner o dev.
Proof. done. Qed.

Lemma set_owner_id dev : set_owner (devMutex dev) dev = dev.
Proof. by destruct dev. Qed.

Lemma get_set_ctl f b c : ctl_get f (ctl_set f b c) = b.
Proof. by destruct f. Qed.

Lemma get_set_ctl_ne f f' b c : f ≠ f' → ctl_get f' (ctl_set f b c) = ctl_get f' c.
Proof. by destruct f, f'. Qed.

Lemma wf_dev_set_bar d dev b ws :
  wf_dev d dev → length ws = length (get_bar b dev) → Forall is_u32 ws →
  wf_dev d (set_bar b ws dev).
Proof. unfold wf_dev. destruct b; cbn; intros; destruct_and!; split_and!; congruence. Qed.

Lemma wf_dev_set_owner d dev o : wf_dev d (set_owner o dev) ↔ wf_dev d dev.
Proof. done. Qed.

Lemma wf_dev_set_inUse d dev n : wf_dev d (set_inUse n dev) ↔ wf_dev d dev.
Proof. done. Qed.

Lemma wf_dev_bar_words d dev b : wf_dev d dev → Forall is_u32 (get_bar b dev).
Proof. unfold wf_dev. intros. destruct_and!. by destruct b. Qed.

Lemma wf_dev_bar_length d dev b :
  wf_dev d dev →
  Z.of_nat (length (get_bar b dev)) = match b with SystemBar => 32 | DmaBar => 1024 end.
Proof.
  unfold wf_dev, MTCADUMMY_N_REGISTERS, MTCADUMMY_DMA_SIZE.
  intros. destruct_and!. destruct b; cbn; lia.
Qed.

Lemma wf_devs_insert ds d dev :
  wf_devs ds → wf_dev d dev → wf_devs (<[d := dev]> ds).
Proof.
  intros [Hl Hd] Hdev. split; [by rewrite length_insert|].
  intros d' dev' Hlk. destruct (decide (d = d')) as [->|Hne].
  - apply list_lookup_insert_Some in Hlk as [(_ & <- & _)|[[] _]]; done.
  - rewrite list_lookup_insert_ne in Hlk by done. eauto.
Qed.

#[export] Hint Resolve wf_devs_insert wf_dev_set_bar wf_dev_bar_words : mtca.

Section ExecLemmas.
Context {U : Type} `{UserSpace U} `{ByteOrder}.
Implicit Types st : kstate U.

Lemma devs_upd_dev d dev st :
  (d < length (devs st))%nat → devs (upd_dev d dev st) !! d = Some dev.
Proof. intros. cbn. by rewrite list_lookup_insert_eq. Qed.

Lemma devs_upd_dev_ne d d' dev st :
  d ≠ d' → devs (upd_dev d dev st) !! d' = devs st !! d'.
Proof. intros. cbn. by rewrite list_lookup_insert_ne. Qed.

Lemma upd_dev_upd_dev d dev dev' st : upd_dev d dev (upd_dev d dev' st) = upd_dev d dev st.
Proof. unfold upd_dev, with_devs. cbn. by rewrite list_insert_insert_eq. Qed.

Lemma upd_dev_id d dev st : devs st !! d = Some dev → upd_dev d dev st = st.
Proof.
  destruct st. cbn. intros. unfold upd_dev, with_devs. cbn.
  by rewrite list_insert_id.
Qed.

Lemma holds_upd_dev t d dev dev' st :
  holds t d dev st → devMutex dev' = Some t → holds t d dev' (upd_dev d dev' st).
Proof.
  intros [Hd _] Ho. split; [|done].
  apply devs_upd_dev. by apply lookup_lt_Some in Hd.
Qed.

Lemma holds_upd_bar t d dev b ws st :
  holds t d dev st → holds t d (set_bar b ws dev) (upd_dev d (set_bar b ws dev) st).
Proof. intros Hh. eapply holds_upd_dev; [done|]. destruct Hh. by destruct b. Qed.

(** Accesses under the device's mutex. *)
Lemma exec_load {A} t d dev b i (k : Z → prog A) st :
  holds t d dev st → 0 <= i < Z.of_nat (length (get_bar b dev)) →
  exec t (call (BarLoad d b i) ≫= k) st = exec t (k (nthz (get_bar b dev) i)) st.
Proof.
  intros [Hd Ho] Hi. rewrite exec_call. cbn. unfold on_bar, on_dev.
  rewrite Hd. rewrite decide_True by done.
  replace ((0 <=? i) && _) with true by lia. done.
Qed.

Lemma exec_store {A} t d dev b i v (k : unit → prog A) st :
  holds t d dev st → 0 <= i < Z.of_nat (length (get_bar b dev)) →
  exec t (call (BarStore d b i v) ≫= k) st =
    exec t (k tt) (upd_dev d (set_bar b (setz i v (get_bar b dev)) dev) st).
Proof.
  intros [Hd Ho] Hi. rewrite exec_call. cbn. unfold on_bar, on_dev.
  rewrite Hd. rewrite decide_True by done.
  replace ((0 <=? i) && _) with true by lia. done.
Qed.

Lemma exec_slotNr {A} t d dev (k : Z → prog A) st :
  devs st !! d = Some dev →
  exec t (call (GetSlotNr d) ≫= k) st = exec t (k (slotNr dev)) st.
Proof. intros Hd. rewrite exec_call. cbn. unfold on_dev. by rewrite Hd. Qed.

(** Taking and releasing the device's mutex. *)
Lemma exec_lock_dev {A} t d dev (k : bool → prog A) st :
  devs st !! d = Some dev → devMutex dev = None → signals st = [] →
  exec t (call (MutexLockInterruptible (deviceMutex d)) ≫= k) st =
    exec t (k false) (upd_dev d (set_owner (Some t) dev) st).
Proof.
  intros Hd Ho Hs. rewrite exec_call. cbn. unfold step_lock. cbn.
  rewrite Hd. cbn. rewrite Ho, Hs. cbn. unfold upd_dev, with_devs, with_signals. cbn.
  rewrite (list_alter_insert_eq _ _ _ _ Hd). destruct st; cbn in *. by subst.
Qed.

Lemma exec_unlock_dev {A} t d dev (k : unit → prog A) st :
  holds t d dev st →
  exec t (call (MutexUnlock (deviceMutex d)) ≫= k) st =
    exec t (k tt) (upd_dev d (set_owner None dev) st).
Proof.
  intros [Hd Ho]. rewrite exec_call. cbn. unfold step_unlock. cbn.
  rewrite Hd. cbn. rewrite Ho, decide_True by done. cbn. unfold upd_dev, with_devs.
  by rewrite (list_alter_insert_eq _ _ _ _ Hd).
Qed.

(** Reading a flag of the control data under its mutex, the block that opens
    every handler. *)
Lemma exec_control_flag {A} t f (e : prog A) (k : bool → prog A) st :
  control_owner st = None → signals st = [] →
  exec t (interrupted ← call (MutexLockInterruptible controlMutex);
          if (interrupted : bool) then e else
          flag ← call (ControlGet f);
          call (MutexUnlock controlMutex) ;; k flag) st =
    exec t (k (ctl_get f (control st))) st.
Proof.
  destruct st as [ds c o u s]. intros Ho Hs. cbn in Ho, Hs. subst.
  cbn. rewrite decide_True by done. cbn.
  unfold step_unlock. cbn. by rewrite decide_True.
Qed.

Lemma exec_control_flag_interrupted {A} t (e : prog A) (k : bool → prog A) st s :
  signals st = true :: s →
  exec t (interrupted ← call (MutexLockInterruptible controlMutex);
          if (interrupted : bool) then e else k interrupted) st =
    exec t e (with_signals s st).
Proof. intros Hs. cbn. unfold step_lock. cbn. by rewrite Hs. Qed.

(** The same two steps when signals are pending for later calls. *)
Lemma exec_control_flag_pending {A} t f (e : prog A) (k : bool → prog A) st s :
  control_owner st = None → signals st = false :: s →
  exec t (interrupted ← call (MutexLockInterruptible controlMutex);
          if (interrupted : bool) then e else
          flag ← call (ControlGet f);
          call (MutexUnlock controlMutex) ;; k flag) st =
    exec t (k (ctl_get f (control st))) (with_signals s st).
Proof.
  destruct st as [ds c o u s']. intros Ho Hs. cbn in Ho, Hs. subst.
  cbn. rewrite decide_True by done. cbn.
  unfold step_unlock. cbn. by rewrite decide_True.
Qed.

Lemma exec_lock_dev_pending {A} t d dev (k : bool → prog A) st s :
  devs st !! d = Some dev → devMutex dev = None → signals st = false :: s →
  exec t (call (MutexLockInterruptible (deviceMutex d)) ≫= k) st =
    exec t (k false) (upd_dev d (set_owner (Some t) dev) (with_signals s st)).
Proof.
  intros Hd Ho Hs. rewrite exec_call. cbn. unfold step_lock. cbn.
  rewrite Hd. cbn. rewrite Ho, Hs. cbn. unfold upd_dev, with_devs, with_signals. cbn.
  by rewrite (list_alter_insert_eq _ _ _ _ Hd).
Qed.

(** [mutex_unlock(&privData->devMutex); return r;] *)
Lemma exec_unlock_return t d dev r st :
  holds t d dev st →
  exec t (unlock_return d r) st = Done (r, upd_dev d (set_owner None dev) st).
Proof. intros Hh. unfold unlock_return. by rewrite (exec_unlock_dev _ _ _ _ _ Hh). Qed.

Lemma holds_locked t d dev st :
  devs st !! d = Some dev →
  holds t d (set_owner (Some t) dev) (upd_dev d (set_owner (Some t) dev) st).
Proof. intros Hd. split; [|done]. apply devs_upd_dev. by apply lookup_lt_Some in Hd. Qed.

Lemma holds_with_user t d dev u st : holds t d dev st → holds t d dev (with_user u st).
Proof. done. Qed.

(** Locking, then unlocking with nothing in between, is the identity. *)
Lemma unlock_locked t d dev st :
  devs st !! d = Some dev → devMutex dev = None →
  upd_dev d (set_owner None (set_owner (Some t) dev))
    (upd_dev d (set_owner (Some t) dev) st) = st.
Proof.
  intros Hd Ho. rewrite upd_dev_upd_dev, set_owner_set_owner, <-Ho, set_owner_id.
  by apply upd_dev_id.
Qed.

(** Bytes copied to a writable buffer are read back from it. *)
Lemma copy_to_then_from u a bs :
  (∀ i, (i < length bs)%nat → user_writable u (a + Z.of_nat i) = true) →
  copy_from_user (copy_to_user u a bs).1 a (length bs) = (bs, 0).
Proof.
  intros Hw. pose proof (copy_to_user_ok u a bs Hw) as Hl.
  assert (∀ i, (i < length bs)%nat →
    user_byte (copy_to_user u a bs).1 (a + Z.of_nat i) = bs !! i) as Hb.
  { intros i Hi. rewrite copy_to_user_byte, Hl.
    replace ((0 <=? _) && _) with true by lia. f_equal. lia. }
  set (u' := (copy_to_user u a bs).1) in *.
  pose proof (copy_from_user_length u' a (length bs)) as Hn.
  pose proof (copy_from_user_ok u' a (length bs)) as Hz.
  pose proof (copy_from_user_copied u' a (length bs)) as Hc.
  destruct (copy_from_user u' a (length bs)) as [bs' nleft]. cbn [fst snd] in *.
  rewrite Hz in * by (intros i Hi; rewrite Hb by done; by apply lookup_lt_is_Some).
  f_equal. apply list_eq. intros i. destruct (decide (i < length bs)%nat) as [Hi|Hi].
  - rewrite <-Hc by lia. by apply Hb.
  - by rewrite !lookup_ge_None_2 by lia.
Qed.

(** Nothing is copied from a buffer whose first byte is unreadable. *)
Lemma copy_from_user_unreadable u a n :
  user_byte u a = None →
  copy_from_user u a (S n) = (replicate (S n) x00, Z.of_nat (S n)).
Proof.
  intros Hu. pose proof (copy_from_user_length u a (S n)) as Hn.
  pose proof (copy_from_user_left u a (S n)) as Hl.
  pose proof (copy_from_user_copied u a (S n) 0) as Hc. rewrite Z.add_0_r, Hu in Hc.
  pose proof (copy_from_user_padded u a (S n)) as Hp.
  destruct (copy_from_user u a (S n)) as [bs nleft]. cbn [fst snd] in *.
  assert (nleft = Z.of_nat (S n)) as ->.
  { destruct (decide (nleft = Z.of_nat (S n))); [done|]. specialize (Hc ltac:(lia)).
    destruct (lookup_lt_is_Some_2 bs 0) as [x Hx]; [lia|]. congruence. }
  f_equal. apply list_eq. intros i. destruct (decide (i < S n)%nat).
  - rewrite Hp by lia. by rewrite lookup_replicate_2.
  - by rewrite !lookup_ge_None_2 by (rewrite ?length_replicate; lia).
Qed.

Lemma idle_dev d dev st : idle st → devs st !! d = Some dev → devMutex dev = None.
Proof. intros [_ Hf] Hd. by eapply Forall_lookup_1 in Hf. Qed.

Lemma idle_upd_dev d dev st : idle st → devMutex dev = None → idle (upd_dev d dev st).
Proof. intros [Hc Hf] Ho. split; [done|]. by apply Forall_insert. Qed.

Lemma idle_with_user u st : idle st → idle (with_user u st).
Proof. done. Qed.
End ExecLemmas.
