(* ===== verification/UserMem.v ===== *)
(** * A concrete user memory

    An implementation of the interface [UserSpace]: a finite map from addresses
    to bytes whose entries are the mapped, readable and writable bytes. Copies
    stop at the first address that is not mapped. The examples of the
    development run on it. *)

From S2P Require Import Prelude Abi Kernel.
Local Open Scope Z_scope.

Fixpoint read_prefix (m : gmap Z byte) (a : Z) (n : nat) : list byte :=
  match n with
  | O => []
  | S n' => match m !! a with
            | Some b => b :: read_prefix m (a + 1) n'
            | None => []
            end
  end.

Definition umem_copy_from (m : gmap Z byte) (a : Z) (n : nat) : list byte * Z :=
  let p := read_prefix m a n in
  (p ++ replicate (n - length p) x00, Z.of_nat (n - length p)).

Fixpoint umem_copy_to (m : gmap Z byte) (a : Z) (bs : list byte) : gmap Z byte * Z :=
  match bs with
  | [] => (m, 0)
  | b :: bs' => match m !! a with
                | Some _ => umem_copy_to (<[a := b]> m) (a + 1) bs'
                | None => (m, Z.of_nat (length bs))
                end
  end.

(** [bs] written at address [a] of the memory [m]. *)
Fixpoint umem_put (a : Z) (bs : list byte) (m : gmap Z byte) : gmap Z byte :=
  match bs with
  | [] => m
  | b :: bs' => <[a := b]> (umem_put (a + 1) bs' m)
  end.

Definition is_mapped (m : gmap Z byte) (a : Z) : bool := bool_decide (is_Some (m !! a)).

Lemma read_prefix_length m a n : (length (read_prefix m a n) <= n)%nat.
Proof.
  revert a. induction n as [|n IH]; intros a; cbn; [done|].
  destruct (m !! a); cbn; [|lia]. specialize (IH (a + 1)). lia.
Qed.

Lemma read_prefix_lookup m a n i :
  (i < length (read_prefix m a n))%nat → m !! (a + Z.of_nat i) = read_prefix m a n !! i.
Proof.
  revert a i. induction n as [|n IH]; intros a i; cbn; [lia|].
  destruct (m !! a) as [b|] eqn:E; cbn; [|lia]. destruct i as [|i]; cbn.
  - by rewrite Z.add_0_r.
  - intros Hi. etrans; [|apply (IH (a + 1) i); lia]. f_equal. lia.
Qed.

Lemma read_prefix_full m a n :
  (∀ i, (i < n)%nat → is_Some (m !! (a + Z.of_nat i))) → length (read_prefix m a n) = n.
Proof.
  revert a. induction n as [|n IH]; intros a Hm; cbn; [done|].
  destruct (Hm 0%nat) as [b Hb]; [lia|]. rewrite Z.add_0_r in Hb. rewrite Hb. cbn.
  f_equal. apply IH. intros i Hi. destruct (Hm (S i)) as [b' Hb']; [lia|].
  exists b'. rewrite <-Hb'. f_equal. lia.
Qed.

Lemma umem_copy_to_left m a bs :
  0 <= (umem_copy_to m a bs).2 <= Z.of_nat (length bs).
Proof.
  revert m a. induction bs as [|b bs IH]; intros m a; cbn; [lia|].
  destruct (m !! a); cbn; [|lia]. specialize (IH (<[a:=b]> m) (a + 1)). lia.
Qed.

Lemma umem_copy_to_before m a bs x : x < a → (umem_copy_to m a bs).1 !! x = m !! x.
Proof.
  revert m a. induction bs as [|b bs IH]; intros m a Hx; cbn; [done|].
  destruct (m !! a) eqn:E; cbn; [|done]. rewrite IH by lia.
  by rewrite lookup_insert_ne by lia.
Qed.

Lemma umem_copy_to_byte m a bs x :
  (umem_copy_to m a bs).1 !! x =
    if (0 <=? x - a) && (x - a <? Z.of_nat (length bs) - (umem_copy_to m a bs).2)
    then bs !! Z.to_nat (x - a) else m !! x.
Proof.
  revert m a. induction bs as [|b bs IH]; intros m a; cbn [umem_copy_to length].
  - cbn [fst snd]. change (Z.of_nat 0 - 0) with 0. destruct (_ && _) eqn:E; [lia|done].
  - destruct (m !! a) as [c|] eqn:E; cbn [fst snd].
    2: { destruct (_ && _) eqn:E'; [lia|done]. }
    destruct (decide (x < a)) as [Hlt|Hge].
    { rewrite umem_copy_to_before, lookup_insert_ne by lia.
      by replace ((0 <=? x - a) && _) with false by lia. }
    pose proof (umem_copy_to_left (<[a:=b]> m) (a + 1) bs) as Hleft.
    destruct (decide (x = a)) as [->|Hne].
    { rewrite umem_copy_to_before by lia. rewrite lookup_insert_eq, Z.sub_diag.
      change (0 <=? 0) with true. cbn [andb]. by rewrite (proj2 (Z.ltb_lt _ _)) by lia. }
    rewrite IH, lookup_insert_ne by lia.
    replace (Z.to_nat (x - a)) with (S (Z.to_nat (x - (a + 1)))) by lia. cbn.
    rewrite (proj2 (Z.leb_le 0 (x - a))), (proj2 (Z.leb_le 0 (x - (a + 1)))) by lia.
    cbn [andb].
    destruct (Z.ltb_spec (x - (a + 1))
      (Z.of_nat (length bs) - (umem_copy_to (<[a:=b]> m) (a + 1) bs).2)).
    + by rewrite (proj2 (Z.ltb_lt _ _)) by lia.
    + by rewrite (proj2 (Z.ltb_ge _ _)) by lia.
Qed.

Lemma umem_copy_to_mapped m a bs x : is_mapped (umem_copy_to m a bs).1 x = is_mapped m x.
Proof.
  revert m a. induction bs as [|b bs IH]; intros m a; cbn; [done|].
  destruct (m !! a) eqn:E; cbn; [|done]. rewrite IH. unfold is_mapped.
  apply bool_decide_ext. destruct (decide (a = x)) as [->|].
  - rewrite lookup_insert_eq, E. split; eauto.
  - by rewrite lookup_insert_ne.
Qed.

Lemma umem_copy_to_full m a bs :
  (∀ i, (i < length bs)%nat → is_mapped m (a + Z.of_nat i) = true) →
  (umem_copy_to m a bs).2 = 0.
Proof.
  revert m a. induction bs as [|b bs IH]; intros m a Hm; cbn; [done|].
  pose proof (Hm 0%nat ltac:(cbn; lia)) as H0. rewrite Z.add_0_r in H0.
  unfold is_mapped in H0. apply bool_decide_eq_true in H0 as [c Hc]. rewrite Hc.
  apply IH. intros i Hi. specialize (Hm (S i) ltac:(cbn; lia)).
  replace (a + 1 + Z.of_nat i) with (a + Z.of_nat (S i)) by lia.
  unfold is_mapped in *. rewrite lookup_insert_ne by lia. done.
Qed.

#[refine, export] Instance umem : UserSpace (gmap Z byte) := {
  user_byte m a := m !! a;
  user_writable := is_mapped;
  access_ok m a n := (0 <=? a) && (a + n <=? 140737488355328);
  copy_from_user := umem_copy_from;
  copy_to_user := umem_copy_to;
}.
Proof.
  - intros m a n. cbn. pose proof (read_prefix_length m a n).
    rewrite length_app, length_replicate. lia.
  - intros m a n. cbn. lia.
  - intros m a n i. cbn. intros Hi. rewrite lookup_app_l by lia.
    apply read_prefix_lookup. lia.
  - intros m a n i. cbn. intros Hi. pose proof (read_prefix_length m a n).
    rewrite lookup_app_r by lia. apply lookup_replicate_2. lia.
  - intros m a n Hm. cbn. rewrite read_prefix_full by done. lia.
  - apply umem_copy_to_left.
  - apply umem_copy_to_byte.
  - apply umem_copy_to_mapped.
  - apply umem_copy_to_full.
Defined.
