(* ===== verification/Firmware.v ===== *)
(** * The emulated firmware ([mtcadummy_firmware.c])

    The three functions of the file, as programs over the device they act on,
    and [fw_reg], the register-by-register specification of what a write does.
    [performActionOnWrite_refines] is the refinement between the two; the
    behaviour of the single registers follows from the specification. *)

From S2P Require Import Prelude Abi Kernel.
Local Open Scope Z_scope.

(** ** Model *)

(** The macro [REG(mem, addr)]: the index of the word at byte address [addr]. *)
Definition REG (addr : Z) : Z := addr / sizeof_u32.

(** [mtcadummy_initialiseSystemBar]: the stores into the freshly zeroed bar. *)
Definition mtcadummy_initialiseSystemBar (systemBarBaseAddress : list Z) : list Z :=
  let bar := systemBarBaseAddress in
  let bar := setz (REG MTCADUMMY_WORD_FIRMWARE) MTCADUMMY_DRV_VERSION_MAJ bar in
  let bar := setz (REG MTCADUMMY_WORD_COMPILATION) MTCADUMMY_DRV_VERSION_MIN bar in
  let bar := setz (REG MTCADUMMY_WORD_STATUS) 0 bar in
  let bar := setz (REG MTCADUMMY_WORD_USER) 0 bar in
  let bar := setz (REG MTCADUMMY_WORD_DUMMY) MTCADUMMY_DMMY_AS_ASCII bar in
  let bar := setz (REG MTCADUMMY_WORD_CLK_RST) 1 bar in
  setz (REG MTCADUMMY_BROKEN_WRITE) MTCADUMMY_BROKEN_WRITE bar.

Definition reg_load (d : nat) (addr : Z) : prog Z := call (BarLoad d SystemBar (REG addr)).
Definition reg_store (d : nat) (addr v : Z) : prog unit :=
  call (BarStore d SystemBar (REG addr) v).

(** The sampling loop [for(sample = 0; sample < nSamples; ++sample)], [n]
    iterations from [sample] on. *)
Fixpoint sample_loop (d : nat) (n : nat) (sample : Z) : prog unit :=
  match n with
  | O => mret tt
  | S n' =>
      call (BarStore d DmaBar sample (wrap32 (sample * sample))) ;;
      sample_loop d n' (sample + 1)
  end.

Definition nSamples : Z := 25.

(** [mtcadummy_performActionOnWrite] *)
Definition mtcadummy_performActionOnWrite (offset barNumber slotNumber : Z) : prog Z :=
  if negb (barNumber =? 0) then mret 0 else
  interrupted ← call (MutexLockInterruptible controlMutex);
  if (interrupted : bool) then mret (- ERESTARTSYS) else
  spiFail ← call (ControlGet SpiError);
  call (MutexUnlock controlMutex) ;;
  let d := Z.to_nat slotNumber in
  if offset =? MTCADUMMY_WORD_CLK_RST then
    clk_rst ← reg_load d MTCADUMMY_WORD_CLK_RST;
    if negb (clk_rst =? 0) then
      reg_store d MTCADUMMY_WORD_CLK_CNT_0 0 ;;
      reg_store d MTCADUMMY_WORD_CLK_CNT_1 0 ;;
      reg_store d MTCADUMMY_WORD_CLK_MUX_0 0 ;;
      reg_store d MTCADUMMY_WORD_CLK_MUX_1 0 ;;
      reg_store d MTCADUMMY_WORD_CLK_MUX_2 0 ;;
      reg_store d MTCADUMMY_WORD_CLK_MUX_3 0 ;;
      mret 0
    else mret 0
  else if offset =? MTCADUMMY_WORD_ADC_ENA then
    adc_ena ← reg_load d MTCADUMMY_WORD_ADC_ENA;
    if negb (adc_ena =? 0) then
      sample_loop d (Z.to_nat nSamples) 0 ;;
      reg_store d MTCADUMMY_WORD_CLK_CNT_0 nSamples ;;
      reg_store d MTCADUMMY_WORD_CLK_RST 0 ;;
      mret 0
    else mret 0
  else if offset =? MTCADUMMY_WORD_FIRMWARE then
    reg_store d MTCADUMMY_WORD_FIRMWARE MTCADUMMY_DRV_VERSION_MAJ ;; mret 0
  else if offset =? MTCADUMMY_WORD_COMPILATION then
    reg_store d MTCADUMMY_WORD_COMPILATION MTCADUMMY_DRV_VERSION_MIN ;; mret 0
  else if offset =? MTCADUMMY_WORD_DUMMY then
    reg_store d MTCADUMMY_WORD_DUMMY MTCADUMMY_DMMY_AS_ASCII ;; mret 0
  else if (offset =? MTCADUMMY_BROKEN_REGISTER) || (offset =? MTCADUMMY_BROKEN_WRITE) then
    mret (-1)
  else if offset =? MTCADUMMY_WORD_SPI_WRITE then
    sync ← reg_load d MTCADUMMY_WORD_SPI_SYNC;
    if (sync =? MTCADUMMY_SPI_SYNC_REQUESTED) && negb spiFail then
      spi_write ← reg_load d MTCADUMMY_WORD_SPI_WRITE;
      reg_store d MTCADUMMY_WORD_SPI_READ spi_write ;;
      reg_store d MTCADUMMY_WORD_SPI_SYNC MTCADUMMY_SPI_SYNC_OK ;;
      mret 0
    else
      reg_store d MTCADUMMY_WORD_SPI_SYNC MTCADUMMY_SPI_SYNC_ERROR ;; mret 0
  else mret 0.

(** [mtcadummy_performPreReadAction] *)
Definition mtcadummy_performPreReadAction (offset barNumber slotNumber : Z) : prog Z :=
  if negb (barNumber =? 0) then mret 0 else
  if offset =? MTCADUMMY_BROKEN_REGISTER then mret (-1) else mret 0.

(** ** Specification *)

(** The registers the clock reset clears. *)
Definition clock_registers : list Z :=
  [MTCADUMMY_WORD_CLK_CNT_0; MTCADUMMY_WORD_CLK_CNT_1; MTCADUMMY_WORD_CLK_MUX_0;
   MTCADUMMY_WORD_CLK_MUX_1; MTCADUMMY_WORD_CLK_MUX_2; MTCADUMMY_WORD_CLK_MUX_3].

(** The constant a read-only register always shows. *)
Definition ro_value (addr : Z) : option Z :=
  if addr =? MTCADUMMY_WORD_FIRMWARE then Some MTCADUMMY_DRV_VERSION_MAJ
  else if addr =? MTCADUMMY_WORD_COMPILATION then Some MTCADUMMY_DRV_VERSION_MIN
  else if addr =? MTCADUMMY_WORD_DUMMY then Some MTCADUMMY_DMMY_AS_ASCII
  else None.

(** Writing [addr] triggers an I/O error. *)
Definition fw_broken (addr : Z) : bool :=
  (addr =? MTCADUMMY_BROKEN_REGISTER) || (addr =? MTCADUMMY_BROKEN_WRITE).

(** The value of register [r] after the action on a write to [addr], from the
    registers [sys] the write left behind. *)
Definition fw_reg (spiFail : bool) (addr : Z) (sys : list Z) (r : Z) : Z :=
  let reg a := nthz sys (REG a) in
  let handshake := (reg MTCADUMMY_WORD_SPI_SYNC =? MTCADUMMY_SPI_SYNC_REQUESTED) && negb spiFail in
  if (addr =? MTCADUMMY_WORD_CLK_RST) && negb (reg addr =? 0) &&
     existsb (Z.eqb r) clock_registers then 0
  else if (addr =? MTCADUMMY_WORD_ADC_ENA) && negb (reg addr =? 0) &&
     (r =? MTCADUMMY_WORD_CLK_CNT_0) then nSamples
  else if (addr =? MTCADUMMY_WORD_ADC_ENA) && negb (reg addr =? 0) &&
     (r =? MTCADUMMY_WORD_CLK_RST) then 0
  else if (addr =? MTCADUMMY_WORD_SPI_WRITE) && (r =? MTCADUMMY_WORD_SPI_READ) && handshake
  then reg MTCADUMMY_WORD_SPI_WRITE
  else if (addr =? MTCADUMMY_WORD_SPI_WRITE) && (r =? MTCADUMMY_WORD_SPI_SYNC)
  then if handshake then MTCADUMMY_SPI_SYNC_OK else MTCADUMMY_SPI_SYNC_ERROR
  else if addr =? r then default (reg r) (ro_value addr)
  else reg r.

Definition register_addresses : list Z := (λ i, 4 * i) <$> seqZ 0 MTCADUMMY_N_REGISTERS.

Definition fw_system (spiFail : bool) (addr : Z) (sys : list Z) : list Z :=
  fw_reg spiFail addr sys <$> register_addresses.

(** The parabola the sampling writes to the beginning of the DMA bar. *)
Definition parabola : list Z := (λ i, i * i) <$> seqZ 0 nSamples.

Definition fw_dma (addr : Z) (sys dma : list Z) : list Z :=
  if (addr =? MTCADUMMY_WORD_ADC_ENA) && negb (nthz sys (REG addr) =? 0)
  then parabola ++ drop (Z.to_nat nSamples) dma else dma.

Definition fw_dev (spiFail : bool) (addr : Z) (dev : mtcaDummyData) : mtcaDummyData :=
  set_bar DmaBar (fw_dma addr (systemBar dev) (dmaBar dev))
    (set_bar SystemBar (fw_system spiFail addr (systemBar dev)) dev).

(** What a completed store of [v] at byte offset [off] of a bar does: whether it
    ends in an I/O error, and the device afterwards. *)
Definition word_write (spiFail : bool) (b : bar_id) (off v : Z) (dev : mtcaDummyData) :
    bool * mtcaDummyData :=
  let stored := set_bar b (setz (off / 4) v (get_bar b dev)) dev in
  match b with
  | DmaBar => (false, stored)
  | SystemBar => (fw_broken off, fw_dev spiFail off stored)
  end.

(** ** Refinement *)

(** Turns the array of the 32 registers into its elements. *)
Ltac explode l :=
  do 32 (destruct l as [|? l]; [discriminate|]); destruct l; [|discriminate].

Section Refinement.
Context {U : Type} `{UserSpace U} `{ByteOrder}.
Implicit Types st : kstate U.

Lemma length_fw_system spi a sys : length (fw_system spi a sys) = 32%nat.
Proof. reflexivity. Qed.

(** Word [i] of the bar after the action. *)
Lemma nthz_fw_system spi a sys i :
  0 <= i < 32 → nthz (fw_system spi a sys) i = fw_reg spi a sys (4 * i).
Proof.
  intros Hi. unfold fw_system, nthz. rewrite list_lookup_fmap.
  unfold register_addresses. rewrite list_lookup_fmap, lookup_seqZ_lt by
    (unfold MTCADUMMY_N_REGISTERS; lia). cbn. f_equal. lia.
Qed.

Lemma fw_system_case spi a sys sys' :
  length sys = 32%nat → length sys' = 32%nat →
  (∀ i, 0 <= i < 32 → fw_reg spi a sys (4 * i) = nthz sys' i) →
  fw_system spi a sys = sys'.
Proof.
  intros Hl Hl' Hreg. apply list_eq_nthz; [by rewrite length_fw_system|].
  intros i. rewrite length_fw_system. intros Hi. rewrite nthz_fw_system by lia. auto.
Qed.

(** [n] samples from sample [s] on, the first [s] words being done. *)
Lemma sample_loop_correct t d n s dev st :
  holds t d dev st → 0 <= s → Z.of_nat n + s <= Z.of_nat (length (dmaBar dev)) →
  Z.of_nat n + s <= 65536 →
  exec t (sample_loop d n s) st =
    Done (tt, upd_dev d
      (set_bar DmaBar (take (Z.to_nat s) (dmaBar dev) ++ ((λ i, i * i) <$> seqZ s (Z.of_nat n))
                       ++ drop (Z.to_nat s + n) (dmaBar dev)) dev) st).
Proof.
  revert s dev st. induction n as [|n IH]; intros s dev st Hh Hs Hn Hm.
  - rewrite seqZ_nil, Nat.add_0_r by lia. cbn [fmap list_fmap app]. rewrite take_drop.
    rewrite set_dmaBar_id, upd_dev_id by apply Hh. done.
  - cbn [sample_loop]. rewrite (exec_store _ _ _ _ _ _ _ _ Hh) by (cbn; lia).
    rewrite (IH (s + 1) _ _ (holds_upd_bar _ _ _ _ _ _ Hh))
      by (cbn; rewrite ?length_setz; lia).
    rewrite upd_dev_upd_dev, set_bar_set_bar. cbn [get_bar set_bar dmaBar].
    do 4 f_equal. rewrite wrap32_small by (unfold is_u32; nia).
    rewrite (seqZ_cons s) by lia. unfold setz.
    replace (Z.to_nat (s + 1)) with (S (Z.to_nat s)) by lia.
    rewrite (take_S_r _ _ (s * s)) by (apply list_lookup_insert_eq; lia).
    rewrite take_insert_ge, drop_insert_lt by lia. rewrite <-app_assoc. cbn.
    replace (Z.pred (Z.of_nat (S n))) with (Z.of_nat n) by lia.
    replace (Z.succ s) with (s + 1) by lia. do 3 f_equal.
    f_equal. lia.
Qed.

(** The whole sampling: the parabola, the other words as they were. *)
Lemma sampling_correct t d dev st :
  wf_dev d dev → holds t d dev st →
  exec t (sample_loop d (Z.to_nat nSamples) 0) st =
    Done (tt, upd_dev d
      (set_bar DmaBar (parabola ++ drop (Z.to_nat nSamples) (dmaBar dev)) dev) st).
Proof.
  intros Hw Hh. pose proof (wf_dev_bar_length _ _ DmaBar Hw) as Hl. cbn in Hl.
  rewrite (sample_loop_correct _ _ _ _ _ _ Hh) by (unfold nSamples; lia). done.
Qed.

Lemma exec_reg_load {A} t d dev a (k : Z → prog A) st :
  holds t d dev st → length (systemBar dev) = 32%nat → 0 <= REG a < 32 →
  exec t (reg_load d a ≫= k) st = exec t (k (nthz (systemBar dev) (REG a))) st.
Proof.
  intros Hh Hl Ha. unfold reg_load. rewrite (exec_load _ _ _ _ _ _ _ Hh); [done|].
  cbn. by rewrite Hl.
Qed.

Lemma exec_reg_store {A} t d dev a v (k : unit → prog A) st :
  holds t d dev st → length (systemBar dev) = 32%nat → 0 <= REG a < 32 →
  exec t (reg_store d a v ≫= k) st =
    exec t (k tt) (upd_dev d (set_bar SystemBar (setz (REG a) v (systemBar dev)) dev) st).
Proof.
  intros Hh Hl Ha. unfold reg_store. rewrite (exec_store _ _ _ _ _ _ _ _ Hh); [done|].
  cbn. by rewrite Hl.
Qed.

Ltac reg_side :=
  first [ done | by (cbn; rewrite ?length_setz) | by eauto using holds_upd_bar
        | by (unfold REG, sizeof_u32; vm_compute; split; intros; discriminate) ].

Ltac reg_steps :=
  repeat first
    [ erewrite exec_reg_load by reg_side
    | erewrite exec_reg_store by reg_side
    | rewrite exec_bind; erewrite sampling_correct by reg_side; cbn [outcome_bind]
    | rewrite upd_dev_upd_dev | rewrite set_bar_set_bar ];
  rewrite ?exec_ret.

Lemma fw_system_plain spi a sys :
  length sys = 32%nat → a ∉ [MTCADUMMY_WORD_CLK_RST; MTCADUMMY_WORD_ADC_ENA;
    MTCADUMMY_WORD_FIRMWARE; MTCADUMMY_WORD_COMPILATION; MTCADUMMY_WORD_DUMMY;
    MTCADUMMY_WORD_SPI_WRITE] →
  fw_system spi a sys = sys.
Proof.
  intros Hl Ha. rewrite !not_elem_of_cons in Ha. destruct_and!.
  apply fw_system_case; [done..|]. intros i Hi. 
  assert (ro_value a = None) as Hro
    by (unfold ro_value; by rewrite !(proj2 (Z.eqb_neq a _)) by done).
  unfold fw_reg. cbv zeta beta. rewrite Hro, !(proj2 (Z.eqb_neq a _)) by done. cbn [andb].
  replace (REG (4 * i)) with i by (unfold REG, sizeof_u32; lia).
  by destruct (a =? 4 * i).
Qed.

(** The specification computed on the elements of the bar; [H] gives the value
    of the test the action makes on a register. *)
Ltac fw_compute sys H :=
  explode sys; unfold nthz in H; cbn in H;
  unfold fw_system, fw_reg, nthz; cbn; rewrite ?H; cbn; reflexivity.

Lemma fw_clk_rst spi sys :
  length sys = 32%nat → (nthz sys (REG MTCADUMMY_WORD_CLK_RST) =? 0) = false →
  fw_system spi MTCADUMMY_WORD_CLK_RST sys =
    setz (REG MTCADUMMY_WORD_CLK_MUX_3) 0 (setz (REG MTCADUMMY_WORD_CLK_MUX_2) 0
    (setz (REG MTCADUMMY_WORD_CLK_MUX_1) 0 (setz (REG MTCADUMMY_WORD_CLK_MUX_0) 0
    (setz (REG MTCADUMMY_WORD_CLK_CNT_1) 0 (setz (REG MTCADUMMY_WORD_CLK_CNT_0) 0 sys))))).
Proof. intros Hl Hz. fw_compute sys Hz. Qed.

Lemma fw_adc_ena spi sys :
  length sys = 32%nat → (nthz sys (REG MTCADUMMY_WORD_ADC_ENA) =? 0) = false →
  fw_system spi MTCADUMMY_WORD_ADC_ENA sys =
    setz (REG MTCADUMMY_WORD_CLK_RST) 0 (setz (REG MTCADUMMY_WORD_CLK_CNT_0) nSamples sys).
Proof. intros Hl Hz. fw_compute sys Hz. Qed.

Lemma fw_zero_trigger spi a sys :
  length sys = 32%nat → a = MTCADUMMY_WORD_CLK_RST ∨ a = MTCADUMMY_WORD_ADC_ENA →
  (nthz sys (REG a) =? 0) = true → fw_system spi a sys = sys.
Proof. intros Hl [-> | ->] Hz; fw_compute sys Hz. Qed.

Lemma fw_read_only spi a v sys :
  length sys = 32%nat → ro_value a = Some v → fw_system spi a sys = setz (REG a) v sys.
Proof.
  intros Hl. unfold ro_value.
  destruct (Z.eqb_spec a MTCADUMMY_WORD_FIRMWARE) as [->|_];
    [intros [= <-]; explode sys; reflexivity|].
  destruct (Z.eqb_spec a MTCADUMMY_WORD_COMPILATION) as [->|_];
    [intros [= <-]; explode sys; reflexivity|].
  destruct (Z.eqb_spec a MTCADUMMY_WORD_DUMMY) as [->|_];
    [intros [= <-]; explode sys; reflexivity|done].
Qed.

Lemma fw_spi_write spi sys :
  length sys = 32%nat →
  fw_system spi MTCADUMMY_WORD_SPI_WRITE sys =
    if (nthz sys (REG MTCADUMMY_WORD_SPI_SYNC) =? MTCADUMMY_SPI_SYNC_REQUESTED) && negb spi
    then setz (REG MTCADUMMY_WORD_SPI_SYNC) MTCADUMMY_SPI_SYNC_OK
           (setz (REG MTCADUMMY_WORD_SPI_READ) (nthz sys (REG MTCADUMMY_WORD_SPI_WRITE)) sys)
    else setz (REG MTCADUMMY_WORD_SPI_SYNC) MTCADUMMY_SPI_SYNC_ERROR sys.
Proof.
  intros Hl. destruct (_ && _) eqn:Hs; fw_compute sys Hs.
Qed.

Lemma fw_dma_other a sys dma : a ≠ MTCADUMMY_WORD_ADC_ENA → fw_dma a sys dma = dma.
Proof. intros Ha. unfold fw_dma. by rewrite (proj2 (Z.eqb_neq _ _) Ha). Qed.

Lemma fw_dev_of spi a dev ws :
  a ≠ MTCADUMMY_WORD_ADC_ENA → fw_system spi a (systemBar dev) = ws →
  fw_dev spi a dev = set_bar SystemBar ws dev.
Proof.
  intros Ha <-. unfold fw_dev. rewrite fw_dma_other by done. by destruct dev.
Qed.

Lemma fw_dev_plain spi a d dev st :
  length (systemBar dev) = 32%nat → devs st !! d = Some dev →
  a ∉ [MTCADUMMY_WORD_CLK_RST; MTCADUMMY_WORD_ADC_ENA;
    MTCADUMMY_WORD_FIRMWARE; MTCADUMMY_WORD_COMPILATION; MTCADUMMY_WORD_DUMMY;
    MTCADUMMY_WORD_SPI_WRITE] →
  upd_dev d (fw_dev spi a dev) st = st.
Proof.
  intros Hl Hd Ha. erewrite fw_dev_of; [|set_solver|by apply fw_system_plain].
  by rewrite set_systemBar_id, upd_dev_id.
Qed.

Lemma fw_dev_zero_trigger spi a d dev st :
  length (systemBar dev) = 32%nat → devs st !! d = Some dev →
  a = MTCADUMMY_WORD_CLK_RST ∨ a = MTCADUMMY_WORD_ADC_ENA →
  (nthz (systemBar dev) (REG a) =? 0) = true →
  upd_dev d (fw_dev spi a dev) st = st.
Proof.
  intros Hl Hd Ha Hz. unfold fw_dev. rewrite fw_zero_trigger by done.
  unfold fw_dma. rewrite Hz, andb_false_r.
  rewrite set_systemBar_id, set_dmaBar_id.
  by apply upd_dev_id.
Qed.

Lemma wf_dev_system_length d dev : wf_dev d dev → length (systemBar dev) = 32%nat.
Proof. unfold wf_dev, MTCADUMMY_N_REGISTERS. intros. destruct_and!. lia. Qed.

Theorem performActionOnWrite_refines t d dev off slot st :
  wf_dev d dev → holds t d dev st →
  Z.to_nat slot = d → control_owner st = None → signals st = [] →
  exec t (mtcadummy_performActionOnWrite off 0 slot) st =
    Done (if fw_broken off then -1 else 0,
          upd_dev d (fw_dev (spi_error (control st)) off dev) st).
Proof.
  intros Hw Hh Hslot Hc Hs. pose proof (wf_dev_system_length _ _ Hw) as Hl.
  pose proof (proj1 Hh) as Hd.
  unfold mtcadummy_performActionOnWrite. cbn [negb Z.eqb].
  rewrite exec_control_flag by done. cbv zeta. rewrite Hslot. cbn [ctl_get].
  set (spi := spi_error _).
  destruct (Z.eqb_spec off MTCADUMMY_WORD_CLK_RST) as [->|N1].
  { reg_steps. destruct (_ =? 0) eqn:E; cbn [negb]; reg_steps.
    - by rewrite fw_dev_zero_trigger by auto.
    - by rewrite (fw_dev_of spi MTCADUMMY_WORD_CLK_RST _ _ ltac:(by vm_compute) (fw_clk_rst _ _ Hl E)). }
  destruct (Z.eqb_spec off MTCADUMMY_WORD_ADC_ENA) as [->|N2].
  { reg_steps. destruct (_ =? 0) eqn:E; cbn [negb]; reg_steps.
    - by rewrite fw_dev_zero_trigger by auto.
    - unfold fw_dev. rewrite fw_adc_ena by done. unfold fw_dma. by rewrite E. }
  destruct (Z.eqb_spec off MTCADUMMY_WORD_FIRMWARE) as [->|N3].
  { reg_steps. by rewrite (fw_dev_of spi MTCADUMMY_WORD_FIRMWARE _ _ ltac:(by vm_compute)
      (fw_read_only spi MTCADUMMY_WORD_FIRMWARE _ _ Hl eq_refl)). }
  destruct (Z.eqb_spec off MTCADUMMY_WORD_COMPILATION) as [->|N4].
  { reg_steps. by rewrite (fw_dev_of spi MTCADUMMY_WORD_COMPILATION _ _ ltac:(by vm_compute)
      (fw_read_only spi MTCADUMMY_WORD_COMPILATION _ _ Hl eq_refl)). }
  destruct (Z.eqb_spec off MTCADUMMY_WORD_DUMMY) as [->|N5].
  { reg_steps. by rewrite (fw_dev_of spi MTCADUMMY_WORD_DUMMY _ _ ltac:(by vm_compute)
      (fw_read_only spi MTCADUMMY_WORD_DUMMY _ _ Hl eq_refl)). }
  destruct (Z.eqb_spec off MTCADUMMY_WORD_SPI_WRITE) as [->|N6].
  { change (_ || _) with false. cbv iota. reg_steps. rewrite (fw_dev_of spi MTCADUMMY_WORD_SPI_WRITE _ _ ltac:(by vm_compute) (fw_spi_write _ _ Hl)).
    destruct (_ && _) eqn:E; reg_steps; done. }
  unfold fw_broken.
  rewrite fw_dev_plain by (done || by rewrite !not_elem_of_cons; auto 10 using not_elem_of_nil).
  by destruct (_ || _).
Qed.

(** With a bar number other than 0 the action does nothing. *)
Lemma exec_performActionOnWrite {A} t d dev off bar slot (k : Z → prog A) st :
  wf_dev d dev → holds t d dev st →
  Z.to_nat slot = d → control_owner st = None → signals st = [] →
  exec t (mtcadummy_performActionOnWrite off bar slot ≫= k) st =
    if bar =? 0
    then exec t (k (if fw_broken off then -1 else 0))
           (upd_dev d (fw_dev (spi_error (control st)) off dev) st)
    else exec t (k 0) st.
Proof.
  intros Hw Hh Hslot Hc Hs. destruct (Z.eqb_spec bar 0) as [->|Hb].
  - by rewrite exec_bind, (performActionOnWrite_refines _ _ _ _ _ _ Hw Hh Hslot Hc Hs).
  - unfold mtcadummy_performActionOnWrite. by rewrite (proj2 (Z.eqb_neq _ _) Hb).
Qed.

Lemma fw_dev_set_owner spi a o dev :
  fw_dev spi a (set_owner o dev) = set_owner o (fw_dev spi a dev).
Proof. done. Qed.

Lemma length_fw_dma a sys dma :
  length dma = 1024%nat → length (fw_dma a sys dma) = 1024%nat.
Proof.
  intros Hl. unfold fw_dma. destruct (_ && _); [|done].
  rewrite length_app, length_drop, Hl. done.
Qed.

Lemma parabola_u32 : Forall is_u32 parabola.
Proof. apply (bool_decide_unpack _). by vm_compute. Qed.

Lemma fw_reg_u32 spi a sys r : Forall is_u32 sys → is_u32 (fw_reg spi a sys r).
Proof.
  intros Hs. assert (∀ x, is_u32 (nthz sys x)) as Hn
    by (intros; apply Forall_nthz; auto with mtca).
  unfold fw_reg, ro_value. cbv zeta beta.
  repeat match goal with |- context [if ?b then _ else _] => destruct b end; cbn [default];
    try apply Hn; unfold is_u32; by vm_compute.
Qed.

(** The firmware keeps a device well-formed. *)
Lemma wf_fw_dev spi a d dev : wf_dev d dev → wf_dev d (fw_dev spi a dev).
Proof.
  intros Hw. pose proof (wf_dev_bar_length _ _ DmaBar Hw) as Hl. cbn in Hl.
  unfold fw_dev. apply wf_dev_set_bar; [apply wf_dev_set_bar; [done| |]| |].
  - rewrite length_fw_system. symmetry. by apply (wf_dev_system_length d).
  - apply Forall_fmap, Forall_true. intros r. cbn. by apply fw_reg_u32, (wf_dev_bar_words d dev SystemBar).
  - cbn. rewrite length_fw_dma; lia.
  - unfold fw_dma. destruct (_ && _); [|by apply (wf_dev_bar_words d dev DmaBar)].
    apply Forall_app_2; [apply parabola_u32|].
    by apply Forall_drop, (wf_dev_bar_words d dev DmaBar).
Qed.

Lemma wf_set_word d dev b i v :
  wf_dev d dev → is_u32 v → wf_dev d (set_bar b (setz i v (get_bar b dev)) dev).
Proof.
  intros Hw Hv. apply wf_dev_set_bar; [done|by rewrite length_setz|].
  apply Forall_setz; [|done]. by eapply wf_dev_bar_words.
Qed.

Lemma wf_word_write spi b off v d dev :
  wf_dev d dev → is_u32 v → wf_dev d (word_write spi b off v dev).2.
Proof.
  intros Hw Hv. pose proof (wf_set_word _ _ b (off / 4) v Hw Hv).
  unfold word_write. destruct b; cbn [snd]; [by apply wf_fw_dev|done].
Qed.

Lemma devMutex_set_bar b ws dev : devMutex (set_bar b ws dev) = devMutex dev.
Proof. by destruct b. Qed.

Lemma devMutex_word_write spi b off v dev :
  devMutex (word_write spi b off v dev).2 = devMutex dev.
Proof. by destruct b. Qed.

Lemma word_write_set_owner spi b off v o dev :
  word_write spi b off v (set_owner o dev) =
    ((word_write spi b off v dev).1, set_owner o (word_write spi b off v dev).2).
Proof. by destruct b. Qed.

(** The action after a store of [v] into word [off / 4] completes the write. *)
Lemma exec_action_after_store {A} t d dev b off bar v (k : Z → prog A) st :
  wf_dev d dev → devMutex dev = Some t → is_u32 v → (d < length (devs st))%nat →
  control_owner st = None → signals st = [] → (bar =? 0) = bool_decide (b = SystemBar) →
  exec t (slotNr ← call (GetSlotNr d);
          error ← mtcadummy_performActionOnWrite off bar slotNr; k error)
    (upd_dev d (set_bar b (setz (off / 4) v (get_bar b dev)) dev) st) =
  let '(err, dev') := word_write (spi_error (control st)) b off v dev in
  exec t (k (if err then -1 else 0)) (upd_dev d dev' st).
Proof.
  intros Hw Ho Hv Hd Hc Hs Hb. pose proof (wf_set_word _ _ b (off / 4) v Hw Hv) as Hw'.
  set (stored := set_bar b _ dev) in *.
  assert (holds t d stored (upd_dev d stored st)) as Hh.
  { split; [by apply devs_upd_dev|]. unfold stored. by rewrite devMutex_set_bar. }
  rewrite (exec_slotNr _ _ _ _ _ (proj1 Hh)).
  rewrite (exec_performActionOnWrite _ _ _ _ _ _ _ _ Hw' Hh)
    by (done || by rewrite (proj1 Hw'), Nat2Z.id).
  rewrite Hb, upd_dev_upd_dev. unfold word_write. fold stored.
  by destruct b; [rewrite bool_decide_eq_true_2|rewrite bool_decide_eq_false_2].
Qed.
End Refinement.

#[export] Hint Resolve wf_fw_dev wf_word_write : mtca.
