(* ===== verification/ModuleInit.v ===== *)
(** * Loading and unloading the module ([mtcadummy_drv.c])

    [mtcaDummy_init_module], with its error labels, and
    [mtcaDummy_cleanup_module]. The state is the set of kernel resources the
    module holds, which an acquisition adds to and a release removes from, and
    the device data. What the kernel answers to each request is the argument
    [env]. Releasing what is not held, or acquiring what is held already, makes
    the run undefined ([None]). *)

From S2P Require Import Prelude Abi Kernel Firmware.
Local Open Scope Z_scope.

(** ** Resources *)

(** [&controlData]: the only object whose address the driver passes on. *)
Inductive control_pointer := controlData.

(** The entry of the proc file system carries the pointer it was created with. *)
Inductive resource :=
  | ChrdevRegion
  | DeviceClass
  | SystemBarMem (i : nat)
  | DmaBarMem (i : nat)
  | DevMutexInit (i : nat)
  | CdevAdded (i : nat)
  | DeviceNode (i : nat)
  | ProcEntry (data : control_pointer).

#[export] Instance control_pointer_eq_dec : EqDecision control_pointer.
Proof. solve_decision. Defined.

#[export] Instance resource_eq_dec : EqDecision resource.
Proof. solve_decision. Defined.

Definition resource_code (r : resource) : nat * nat :=
  match r with
  | ChrdevRegion => (0, 0) | DeviceClass => (1, 0) | SystemBarMem i => (2, i)
  | DmaBarMem i => (3, i) | DevMutexInit i => (4, i) | CdevAdded i => (5, i)
  | DeviceNode i => (6, i) | ProcEntry _ => (7, 0)
  end%nat.

Definition resource_decode (c : nat * nat) : resource :=
  match c with
  | (0, _) => ChrdevRegion | (1, _) => DeviceClass | (2, i) => SystemBarMem i
  | (3, i) => DmaBarMem i | (4, i) => DevMutexInit i | (5, i) => CdevAdded i
  | (6, i) => DeviceNode i | _ => ProcEntry controlData
  end%nat.

#[export] Instance resource_countable : Countable resource.
Proof. apply (inj_countable' resource_code resource_decode). by intros [| | | | | | |[]]. Defined.

(** The pointer [device_create] returns: a device, an [ERR_PTR], or [NULL]. *)
Inductive created := CreatedDevice | CreatedError | CreatedNull.

(** The kernel's answers. *)
Record init_env := InitEnv {
  alloc_chrdev_region_status : Z;
  allocated_major : Z;
  class_create_is_err : bool;
  kmalloc_null : nat → bar_id → bool;
  cdev_add_status : nat → Z;
  device_create_result : nat → created;
  proc_create_ok : bool;
}.

Record init_state := InitState {
  held : gset resource;
  dummyPrivateData : list mtcaDummyData;
}.

(** ** The monad of the two functions *)

Definition init_m (A : Type) : Type := init_state → option (A * init_state).

#[export] Instance init_m_ret : MRet init_m := λ A a s, Some (a, s).
#[export] Instance init_m_bind : MBind init_m := λ A B f m s,
  match m s with Some (a, s') => f a s' | None => None end.

Definition acquire (r : resource) : init_m unit := λ s,
  if decide (r ∈ held s) then None
  else Some (tt, InitState ({[r]} ∪ held s) (dummyPrivateData s)).

Definition release (r : resource) : init_m unit := λ s,
  if decide (r ∈ held s)
  then Some (tt, InitState (held s ∖ {[r]}) (dummyPrivateData s)) else None.

(** [device_destroy] and [remove_proc_entry] do nothing when there is nothing to
    remove. *)
Definition release_if_held (r : resource) : init_m unit := λ s,
  Some (tt, InitState (held s ∖ {[r]}) (dummyPrivateData s)).

Definition set_data (ds : list mtcaDummyData) : init_m unit := λ s,
  Some (tt, InitState (held s) ds).
Definition store_device (i : nat) (dev : mtcaDummyData) : init_m unit := λ s,
  Some (tt, InitState (held s) (<[i := dev]> (dummyPrivateData s))).

(** ** Model *)

(** The [switch(i)] over the file operations. *)
Definition device_ops (i : nat) : cdev_ops :=
  match i with
  | 4%nat => llrfDummyFileOps
  | 5%nat => noIoctlDummyFileOps
  | 6%nat => pcieuniDummyFileOps
  | _ => mtcaDummyFileOps
  end.

Definition mtcaDummyMinorNr : Z := 0.

(** Device [i] with its memory allocated and zeroed, the registers initialised,
    the mutex free and the numbers set. *)
Definition fresh_device (major : Z) (i : nat) : mtcaDummyData :=
  let systemBar := replicate (Z.to_nat MTCADUMMY_N_REGISTERS) 0 in
  let dmaBar := replicate (Z.to_nat (MTCADUMMY_DMA_SIZE / sizeof_u32)) 0 in
  MtcaDummyData 0 (device_ops i) None (Z.of_nat i) (mtcaDummyMinorNr + Z.of_nat i) major
    (mtcadummy_initialiseSystemBar systemBar) dmaBar.

(** A device after [memset(dummyPrivateData, 0, ...)]: without memory (the
    arrays are empty). Its [cdev] is a placeholder; nobody looks at it before
    [cdev_init], with which [init_device] replaces it. *)
Definition zeroed_device : mtcaDummyData :=
  MtcaDummyData 0 mtcaDummyFileOps None 0 0 0 [] [].

Inductive init_label :=
  | err_device_create
  | err_cdev_init
  | err_allocate_dmaBar
  | err_allocate_systemBar.

(** One iteration of the initialisation loop: the label it jumps to, if any. The
    stores into the device are one step; when an allocation fails before them,
    the pointers the code has stored already are freed by the error path and
    nobody reads them. *)
Definition init_device (env : init_env) (i : nat) : init_m (option init_label) :=
  if kmalloc_null env i SystemBar then mret (Some err_allocate_systemBar) else
  acquire (SystemBarMem i) ;;
  if kmalloc_null env i DmaBar then mret (Some err_allocate_dmaBar) else
  acquire (DmaBarMem i) ;;
  acquire (DevMutexInit i) ;;
  store_device i (fresh_device (allocated_major env) i) ;;
  if negb (cdev_add_status env i =? 0) then mret (Some err_cdev_init) else
  acquire (CdevAdded i) ;;
  match device_create_result env i with
  | CreatedNull => mret (Some err_device_create)
  | CreatedError => mret None
  | CreatedDevice => acquire (DeviceNode i) ;; mret None
  end.

(** [for(i = 0; i < MTCADUMMY_NR_DEVS; i++)], [n] iterations from [i] on: the
    label and the value of [i] at the jump. *)
Fixpoint init_loop (env : init_env) (n i : nat) : init_m (option (init_label * nat)) :=
  match n with
  | O => mret None
  | S n' =>
      jump ← init_device env i;
      match jump with
      | Some label => mret (Some (label, i))
      | None => init_loop env n' (S i)
      end
  end.

(** The statements between the labels, each falling through to the next. *)
Definition undo_systemBar (i : nat) : init_m unit := release (SystemBarMem i).
Definition undo_cdev_init (i : nat) : init_m unit :=
  release (DevMutexInit i) ;; release (DmaBarMem i) ;; undo_systemBar i.
Definition undo_device (label : init_label) (i : nat) : init_m unit :=
  match label with
  | err_device_create => release (CdevAdded i) ;; undo_cdev_init i
  | err_cdev_init => undo_cdev_init i
  | err_allocate_dmaBar => undo_systemBar i
  | err_allocate_systemBar => mret tt
  end.

(** Giving up device [j], in the loops of the error path and of the cleanup. *)
Definition destroy_device (j : nat) : init_m unit :=
  release_if_held (DeviceNode j) ;;
  release (CdevAdded j) ;;
  release (DevMutexInit j) ;;
  release (SystemBarMem j) ;;
  release (DmaBarMem j).

Fixpoint destroy_devices (n j : nat) : init_m unit :=
  match n with
  | O => mret tt
  | S n' => destroy_device j ;; destroy_devices n' (S j)
  end.

(** [mtcadummy_create_proc] and [mtcadummy_remove_proc] of [mtcadummy_proc.c]:
    [proc_create_data] may fail unnoticed; removing an entry that was not
    registered is no problem. *)
Definition mtcadummy_create_proc (env : init_env) (data : control_pointer) : init_m unit :=
  if proc_create_ok env then acquire (ProcEntry data) else mret tt.

(** The entry is named in the call; the only one the module creates carries
    [&controlData]. *)
Definition mtcadummy_remove_proc : init_m unit := release_if_held (ProcEntry controlData).

Definition mtcaDummy_init_module (env : init_env) : init_m Z :=
  if negb (alloc_chrdev_region_status env =? 0) then mret (-1) else
  acquire ChrdevRegion ;;
  if class_create_is_err env then
    release ChrdevRegion ;; mret (-1)
  else
  acquire DeviceClass ;;
  set_data (replicate (Z.to_nat MTCADUMMY_NR_DEVS) zeroed_device) ;;
  jump ← init_loop env (Z.to_nat MTCADUMMY_NR_DEVS) 0;
  match jump with
  | Some (label, i) =>
      undo_device label i ;;
      destroy_devices i 0 ;;
      release DeviceClass ;;
      release ChrdevRegion ;;
      mret (-1)
  | None =>
      mtcadummy_create_proc env controlData ;;
      mret 0
  end.

Definition mtcaDummy_cleanup_module : init_m unit :=
  mtcadummy_remove_proc ;;
  destroy_devices (Z.to_nat MTCADUMMY_NR_DEVS) 0 ;;
  release DeviceClass ;;
  release ChrdevRegion.

(** The state before the module is loaded. *)
Definition unloaded : init_state := InitState ∅ [].

(** ** Resources of a device *)

(** What a fully initialised device holds; the node is missing when
    [device_create] failed with an [ERR_PTR]. *)
Definition device_resources (env : init_env) (i : nat) : gset resource :=
  {[SystemBarMem i; DmaBarMem i; DevMutexInit i; CdevAdded i]} ∪
  (if device_create_result env i is CreatedDevice then {[DeviceNode i]} else ∅).

(** The resources of the devices [i], ..., [i + n - 1]. *)
Fixpoint devices_resources (env : init_env) (n i : nat) : gset resource :=
  match n with
  | O => ∅
  | S n' => device_resources env i ∪ devices_resources env n' (S i)
  end.

(** The device a resource belongs to. *)
Definition resource_device (r : resource) : option nat :=
  match r with
  | SystemBarMem i | DmaBarMem i | DevMutexInit i | CdevAdded i | DeviceNode i => Some i
  | _ => None
  end.

(** No resource of device [i] or of a later one is held. *)
Definition fresh_from (i : nat) (L : gset resource) : Prop :=
  ∀ r j, resource_device r = Some j → (i <= j)%nat → r ∉ L.

(** Whether the code sees no failure while it sets up device [i]. An [ERR_PTR]
    from [device_create] passes for a device. *)
Definition device_ok (env : init_env) (i : nat) : bool :=
  negb (kmalloc_null env i SystemBar) && negb (kmalloc_null env i DmaBar) &&
  (cdev_add_status env i =? 0) &&
  (if device_create_result env i is CreatedNull then false else true).

(** Whether the code sees no failure at all: the failures of [device_create] and
    [proc_create_data] that it does not notice are [unnoticed] below. *)
Definition load_ok (env : init_env) : bool :=
  (alloc_chrdev_region_status env =? 0) && negb (class_create_is_err env) &&
  forallb (device_ok env) (seq 0 (Z.to_nat MTCADUMMY_NR_DEVS)).

(** ** Acquiring and releasing *)

Lemma acquire_fresh r L ds :
  r ∉ L → acquire r (InitState L ds) = Some (tt, InitState ({[r]} ∪ L) ds).
Proof. intros. unfold acquire. cbn. by rewrite decide_False. Qed.

Lemma release_held r L ds :
  r ∈ L → release r (InitState L ds) = Some (tt, InitState (L ∖ {[r]}) ds).
Proof. intros. unfold release. cbn. by rewrite decide_True. Qed.

(** An acquisition is undone by the release of the same resource. *)
Lemma release_acquired r L ds :
  r ∉ L → release r (InitState ({[r]} ∪ L) ds) = Some (tt, InitState L ds).
Proof. intros. rewrite release_held by set_solver. do 3 f_equal. set_solver. Qed.

Lemma init_bind_Some {A B} (m : init_m A) (f : A → init_m B) s a s' :
  m s = Some (a, s') → (m ≫= f) s = f a s'.
Proof. intros E. unfold mbind, init_m_bind. by rewrite E. Qed.

Lemma fresh_from_not_held i r L :
  fresh_from i L → resource_device r = Some i → r ∉ L.
Proof. intros Hf Hr. by eapply Hf. Qed.

Lemma device_resources_device env i r :
  r ∈ device_resources env i → resource_device r = Some i.
Proof.
  unfold device_resources. destruct (device_create_result env i);
    rewrite !elem_of_union, !elem_of_singleton;
    intros Hr; by repeat (destruct Hr as [Hr|Hr]; try subst r; try set_solver).
Qed.

Lemma devices_resources_device env n i r :
  r ∈ devices_resources env n i → ∃ j, resource_device r = Some j ∧ (i <= j < i + n)%nat.
Proof.
  revert i. induction n as [|n IH]; intros i; cbn; [set_solver|].
  intros [Hr|Hr]%elem_of_union.
  - exists i. split; [by eapply device_resources_device|lia].
  - destruct (IH _ Hr) as (j & Hj & ?). exists j. split; [done|lia].
Qed.

(** The next device is still fresh once device [i] is set up. *)
Lemma fresh_from_step env i L :
  fresh_from i L → fresh_from (S i) (device_resources env i ∪ L).
Proof.
  intros Hf r j Hr Hj [Hin|Hin]%elem_of_union.
  - apply device_resources_device in Hin. rewrite Hr in Hin. injection Hin. lia.
  - eapply (Hf r j); [done|lia|done].
Qed.

Ltac init_step :=
  first
    [ erewrite init_bind_Some by (apply acquire_fresh; set_solver)
    | erewrite init_bind_Some by (apply release_acquired; set_solver)
    | erewrite init_bind_Some by (apply release_held; set_solver)
    | erewrite init_bind_Some by reflexivity ].

(** One iteration either sets the device up or jumps to a label behind which
    exactly what it acquired is released. *)
Lemma init_device_spec env i L ds :
  fresh_from i L →
  (device_ok env i = true ∧
   init_device env i (InitState L ds) =
     Some (None, InitState (device_resources env i ∪ L)
                   (<[i := fresh_device (allocated_major env) i]> ds))) ∨
  (∃ label s, device_ok env i = false ∧ init_device env i (InitState L ds) = Some (Some label, s) ∧
     undo_device label i s = Some (tt, InitState L (dummyPrivateData s))).
Proof.
  intros Hf.
  assert (∀ r, resource_device r = Some i → r ∉ L) as Hn
    by (intros; by eapply fresh_from_not_held).
  pose proof (Hn (SystemBarMem i) eq_refl). pose proof (Hn (DmaBarMem i) eq_refl).
  pose proof (Hn (DevMutexInit i) eq_refl). pose proof (Hn (CdevAdded i) eq_refl).
  pose proof (Hn (DeviceNode i) eq_refl).
  unfold init_device, device_ok.
  destruct (kmalloc_null env i SystemBar).
  { right. do 2 eexists. split_and!; done. }
  init_step. destruct (kmalloc_null env i DmaBar).
  { right. do 2 eexists. split_and!; [done..|]. cbn. apply release_acquired. done. }
  do 3 init_step. cbn [held dummyPrivateData].
  destruct (cdev_add_status env i =? 0); cbn [negb].
  2: { right. do 2 eexists. split_and!; [done..|]. cbn. unfold undo_cdev_init, undo_systemBar.
    do 2 init_step. apply release_acquired. done. }
  init_step. destruct (device_create_result env i) eqn:Ed.
  - left. split; [done|]. init_step. unfold device_resources. rewrite Ed. cbn. unfold mret, init_m_ret.
    do 3 f_equal. set_solver.
  - left. split; [done|]. unfold device_resources. rewrite Ed. cbn. unfold mret, init_m_ret.
    do 3 f_equal. set_solver.
  - right. do 2 eexists. split_and!; [done..|]. cbn. unfold undo_cdev_init, undo_systemBar.
    do 3 init_step. apply release_acquired. done.
Qed.

Lemma destroy_device_spec env j L ds :
  (∀ r, resource_device r = Some j → r ∉ L) →
  destroy_device j (InitState (device_resources env j ∪ L) ds) = Some (tt, InitState L ds).
Proof.
  intros Hn.
  pose proof (Hn (SystemBarMem j) eq_refl). pose proof (Hn (DmaBarMem j) eq_refl).
  pose proof (Hn (DevMutexInit j) eq_refl). pose proof (Hn (CdevAdded j) eq_refl).
  pose proof (Hn (DeviceNode j) eq_refl).
  unfold destroy_device, device_resources. init_step. cbn [held dummyPrivateData].
  do 3 init_step. rewrite release_held by (destruct (device_create_result env j); set_solver).
  do 3 f_equal. destruct (device_create_result env j); set_solver.
Qed.

Lemma destroy_devices_spec env n j L ds :
  fresh_from j L →
  destroy_devices n j (InitState (devices_resources env n j ∪ L) ds) =
    Some (tt, InitState L ds).
Proof.
  revert j. induction n as [|n IH]; intros j Hf; cbn.
  { unfold mret, init_m_ret. do 3 f_equal. set_solver. }
  rewrite <-(assoc_L (∪)).
  erewrite init_bind_Some; [|apply destroy_device_spec].
  - apply IH. intros r k Hk ?. apply (Hf r k); [done|lia].
  - intros r Hr [Hin|Hin]%elem_of_union.
    + apply devices_resources_device in Hin as (k & Hk & ?). rewrite Hr in Hk.
      injection Hk. lia.
    + by apply (Hf r j) in Hin.
Qed.

(** ** The loop *)

(** The device data after [n] iterations from [i] on. *)
Definition fresh_devices (major : Z) (n i : nat) : list mtcaDummyData :=
  fresh_device major <$> seq i n.

Lemma init_loop_spec env n i L ds :
  fresh_from i L → length ds = (i + n)%nat →
  (forallb (device_ok env) (seq i n) = true ∧
   init_loop env n i (InitState L ds) =
     Some (None, InitState (devices_resources env n i ∪ L)
                   (take i ds ++ fresh_devices (allocated_major env) n i))) ∨
  (∃ label k s, forallb (device_ok env) (seq i n) = false ∧
     init_loop env n i (InitState L ds) = Some (Some (label, (i + k)%nat), s) ∧
     undo_device label (i + k) s =
       Some (tt, InitState (devices_resources env k i ∪ L) (dummyPrivateData s))).
Proof.
  revert i L ds. induction n as [|n IH]; intros i L ds Hf Hl.
  { left. split; [done|]. cbn. rewrite app_nil_r, take_ge by lia. unfold mret, init_m_ret.
    do 3 f_equal. set_solver. }
  cbn [init_loop devices_resources seq forallb].
  destruct (init_device_spec env i L ds Hf) as [[Hok E]|(label & s & Hok & E & Hu)];
    rewrite Hok, (init_bind_Some _ _ _ _ _ E); cbn beta iota.
  2: { right. exists label, 0%nat, s. rewrite Nat.add_0_r. split_and!; [done..|].
       rewrite Hu. do 3 f_equal. cbn. set_solver. }
  edestruct (IH (S i) (device_resources env i ∪ L)
               (<[i:=fresh_device (allocated_major env) i]> ds))
    as [[Hoks E']|(label & k & s & Hoks & E' & Hu)].
  - by apply fresh_from_step.
  - rewrite length_insert. lia.
  - left. split; [done|]. rewrite E'. do 3 f_equal; [set_solver|].
    unfold fresh_devices. cbn. rewrite (take_S_r _ _ (fresh_device (allocated_major env) i)).
    + rewrite <-app_assoc, take_insert_ge by lia. done.
    + apply list_lookup_insert_eq. lia.
  - right. exists label, (S k), s. rewrite <-Nat.add_succ_comm. split_and!; [done..|].
    rewrite Hu. do 3 f_equal. cbn. set_solver.
Qed.

(** ** Loading and unloading *)

(** What the module holds after a successful load. *)
Definition loaded_resources (env : init_env) : gset resource :=
  (if proc_create_ok env then {[ProcEntry controlData]} else ∅) ∪
  (devices_resources env (Z.to_nat MTCADUMMY_NR_DEVS) 0 ∪ {[DeviceClass; ChrdevRegion]}).

Lemma fresh_from_globals i : fresh_from i {[DeviceClass; ChrdevRegion]}.
Proof. intros r j Hr _ [->%elem_of_singleton| ->%elem_of_singleton]%elem_of_union; done. Qed.

Lemma globals_swap : {[DeviceClass]} ∪ ({[ChrdevRegion]} ∪ ∅) = ({[DeviceClass; ChrdevRegion]} : gset resource).
Proof. set_solver. Qed.

(** Both ends of the load: everything of a loaded module, or nothing. *)
Lemma init_module_cases env ds :
  (load_ok env = true ∧ mtcaDummy_init_module env (InitState ∅ ds) =
     Some (0, InitState (loaded_resources env)
                (fresh_devices (allocated_major env) (Z.to_nat MTCADUMMY_NR_DEVS) 0))) ∨
  (∃ ds', load_ok env = false ∧ mtcaDummy_init_module env (InitState ∅ ds) = Some (-1, InitState ∅ ds')).
Proof.
  unfold mtcaDummy_init_module, load_ok.
  destruct (alloc_chrdev_region_status env =? 0); cbn [negb andb].
  2: { right. by eexists. }
  init_step. destruct (class_create_is_err env); cbn [negb andb].
  { right. erewrite init_bind_Some by (apply release_acquired; set_solver). by eexists. }
  do 2 init_step. cbn [held]. rewrite globals_swap.
  destruct (init_loop_spec env (Z.to_nat MTCADUMMY_NR_DEVS) 0 {[DeviceClass; ChrdevRegion]}
              (replicate (Z.to_nat MTCADUMMY_NR_DEVS) zeroed_device))
    as [[Hoks E]|(label & k & s & Hoks & E & Hu)].
  - apply fresh_from_globals.
  - by rewrite length_replicate.
  - left. split; [done|]. rewrite (init_bind_Some _ _ _ _ _ E). cbn beta iota.
    rewrite take_0, app_nil_l. unfold loaded_resources, mtcadummy_create_proc.
    destruct (proc_create_ok env).
    + erewrite init_bind_Some; [reflexivity|]. apply acquire_fresh.
      intros [(j & ? & _)%devices_resources_device|]%elem_of_union; [done|set_solver].
    + erewrite init_bind_Some by reflexivity. unfold mret, init_m_ret.
      do 3 f_equal. set_solver.
  - right. exists (dummyPrivateData s). split; [done|]. rewrite (init_bind_Some _ _ _ _ _ E). cbn beta iota.
    rewrite (init_bind_Some _ _ _ _ _ Hu). cbn [Nat.add].
    erewrite init_bind_Some by (apply destroy_devices_spec, fresh_from_globals).
    erewrite init_bind_Some by (apply release_acquired; set_solver).
    rewrite (init_bind_Some _ _ _ tt (InitState ∅ (dummyPrivateData s))); [done|].
    rewrite release_held by set_solver. by do 3 f_equal.
Qed.

Lemma cleanup_loaded env ds :
  mtcaDummy_cleanup_module (InitState (loaded_resources env) ds) = Some (tt, InitState ∅ ds).
Proof.
  unfold mtcaDummy_cleanup_module.
  rewrite (init_bind_Some _ _ _ tt (InitState
    (devices_resources env (Z.to_nat MTCADUMMY_NR_DEVS) 0 ∪ {[DeviceClass; ChrdevRegion]}) ds)).
  - erewrite init_bind_Some by (apply destroy_devices_spec, fresh_from_globals).
    erewrite init_bind_Some by (apply release_acquired; set_solver).
    rewrite release_held by set_solver. by do 3 f_equal.
  - unfold mtcadummy_remove_proc, release_if_held, loaded_resources. cbn. do 3 f_equal.
    assert (ProcEntry controlData ∉ devices_resources env 7 0).
    { by intros (j & ? & _)%devices_resources_device. }
    change (Z.to_nat MTCADUMMY_NR_DEVS) with 7%nat.
    destruct (proc_create_ok env); set_solver.
Qed.

(** ** The state after loading *)

(** [mtcaDummyControl controlData]: a global, all flags clear. *)
Definition initial_control : mtcaDummyControl := MtcaDummyControl false false false false.

(** The driver as [mtcaDummy_init_module] leaves it, with the user memory [u]. *)
Definition loaded_state {U} (major : Z) (u : U) : kstate U :=
  KState (fresh_devices major (Z.to_nat MTCADUMMY_NR_DEVS) 0) initial_control None u [].

Lemma fresh_systemBar_u32 : Forall is_u32 (mtcadummy_initialiseSystemBar (replicate 32 0)).
Proof. apply (bool_decide_unpack _). by vm_compute. Qed.

Lemma wf_fresh_device major i : wf_dev i (fresh_device major i).
Proof.
  unfold wf_dev, fresh_device. cbn [slotNr systemBar dmaBar].
  change (Z.to_nat MTCADUMMY_N_REGISTERS) with 32%nat.
  split_and!; [done|by vm_compute..|apply fresh_systemBar_u32|].
  apply Forall_replicate. apply is_u32_0.
Qed.

Lemma fresh_devices_lookup major n d :
  (d < n)%nat → fresh_devices major n 0 !! d = Some (fresh_device major d).
Proof.
  intros Hd. unfold fresh_devices. rewrite list_lookup_fmap, lookup_seq_lt by done. done.
Qed.

Lemma length_fresh_devices major n i : length (fresh_devices major n i) = n.
Proof. unfold fresh_devices. by rewrite length_fmap, length_seq. Qed.

Lemma wf_fresh_devices major : wf_devs (fresh_devices major (Z.to_nat MTCADUMMY_NR_DEVS) 0).
Proof.
  split; [rewrite length_fresh_devices; done|]. intros d dev Hd.
  pose proof (lookup_lt_Some _ _ _ Hd) as Hl. rewrite length_fresh_devices in Hl.
  rewrite fresh_devices_lookup in Hd by done. injection Hd as <-. apply wf_fresh_device.
Qed.

Lemma loaded_lookup {U} major (u : U) d :
  (d < 7)%nat → devs (loaded_state major u) !! d = Some (fresh_device major d).
Proof. apply fresh_devices_lookup. Qed.

Lemma loaded_idle {U} major (u : U) : idle (loaded_state major u).
Proof.
  split; [done|]. apply Forall_forall. intros dev (i & -> & _)%list_elem_of_In%list_elem_of_fmap.
  done.
Qed.

#[export] Hint Resolve wf_fresh_device wf_fresh_devices loaded_idle : mtca.

(** ** Properties *)

(** The value of register [a] before anything is written. *)
Definition initial_value (a : Z) : Z :=
  if a =? MTCADUMMY_WORD_CLK_RST then 1
  else if a =? MTCADUMMY_BROKEN_WRITE then MTCADUMMY_BROKEN_WRITE
  else default 0 (ro_value a).

Lemma devices_resources_node env n i j :
  (i <= j < i + n)%nat → device_create_result env j = CreatedError →
  DeviceNode j ∉ devices_resources env n i.
Proof.
  revert i. induction n as [|n IH]; intros i Hj He; cbn; [lia|].
  rewrite not_elem_of_union. split.
  - intros Hin. pose proof (device_resources_device _ _ _ Hin) as [= <-].
    unfold device_resources in Hin. rewrite He in Hin. set_solver.
  - destruct (decide (i = j)) as [<-|]; [|apply IH; [lia|done]].
    intros (k & [= <-] & ?)%devices_resources_device. lia.
Qed.

(** All a module with every request granted holds. *)
Definition all_resources : gset resource :=
  {[DeviceClass; ChrdevRegion; ProcEntry controlData]} ∪
  ⋃ ((λ i, {[SystemBarMem i; DmaBarMem i; DevMutexInit i; CdevAdded i; DeviceNode i]}) <$>
    seq 0 (Z.to_nat MTCADUMMY_NR_DEVS)).

(** The failures that the code does not look for. *)
Definition unnoticed (env : init_env) (r : resource) : bool :=
  match r with
  | DeviceNode i => if device_create_result env i is CreatedError then true else false
  | ProcEntry _ => negb (proc_create_ok env)
  | _ => false
  end.

Lemma elem_of_device_resources env i r :
  device_create_result env i ≠ CreatedNull →
  r ∈ device_resources env i ↔
  r ∈ ({[SystemBarMem i; DmaBarMem i; DevMutexInit i; CdevAdded i; DeviceNode i]} : gset _) ∧
  unnoticed env r = false.
Proof.
  intros Hnull. split.
  - intros Hr. pose proof (device_resources_device env i r Hr) as Hi.
    unfold device_resources in Hr. split.
    + destruct (device_create_result env i); set_solver.
    + destruct r; simplify_eq/=; try done. destruct (device_create_result env i); set_solver.
  - unfold device_resources.
    intros [Hr Hu]. destruct (device_create_result env i) eqn:E; [set_solver| |done].
    assert (r ≠ DeviceNode i) by (intros ->; cbn in Hu; by rewrite E in Hu). set_solver.
Qed.

Lemma elem_of_devices_resources env n i r :
  r ∈ devices_resources env n i ↔ ∃ j, (i <= j < i + n)%nat ∧ r ∈ device_resources env j.
Proof.
  revert i. induction n as [|n IH]; intros i; cbn.
  - split; [set_solver|]. intros (j & ? & _). lia.
  - rewrite elem_of_union, IH. split.
    + intros [Hr|(j & Hj & Hr)]; [by exists i; split; [lia|]|exists j; split; [lia|done]].
    + intros (j & Hj & Hr). destruct (decide (j = i)) as [->|]; [by left|right].
      exists j. split; [lia|done].
Qed.

(** What is missing after a load is what failed unnoticed. *)
Lemma loaded_resources_spec env :
  load_ok env = true →
  loaded_resources env = filter (λ r, unnoticed env r = false) all_resources.
Proof.
  unfold load_ok. intros [_ Hok]%andb_true_iff. rewrite forallb_forall in Hok.
  apply set_eq. intros r. unfold loaded_resources, all_resources.
  rewrite elem_of_filter, !elem_of_union, elem_of_devices_resources, elem_of_union_list.
  split.
  - intros [Hr|[(j & Hj & Hr)|Hr]].
    + destruct (proc_create_ok env) eqn:E; [|set_solver]. apply elem_of_singleton in Hr as ->.
      cbn. rewrite E. split; [done|left; set_solver].
    + assert (device_ok env j = true) as Hd by (apply Hok, in_seq; lia).
      apply elem_of_device_resources in Hr as [Hr Hu].
      * split; [done|]. right. eexists. split; [|exact Hr].
        apply list_elem_of_fmap. exists j. split; [done|]. apply elem_of_seq. lia.
      * intros E. unfold device_ok in Hd. rewrite E, andb_false_r in Hd. done.
    + split; [|left; set_solver]. set_unfold. by destruct Hr as [->| ->].
  - intros [Hu [Hr|(X & HX & Hr)]].
    + destruct Hr as [Hr|Hr%elem_of_singleton]; [right; right; set_solver|].
      subst r. left. cbn in Hu. by destruct (proc_create_ok env); [set_solver|].
    + apply list_elem_of_fmap in HX as (j & -> & Hj%elem_of_seq). right. left. exists j.
      split; [lia|]. apply elem_of_device_resources; [|done].
      assert (device_ok env j = true) as Hd by (apply Hok, in_seq; lia).
      intros E. unfold device_ok in Hd. rewrite E, andb_false_r in Hd. done.
Qed.

(** C13: whatever the kernel answers to the requests of
    [mtcaDummy_init_module], the function neither releases a resource it does
    not hold nor acquires one twice. When it sees a failure it returns -1 with
    every resource given back. Otherwise it returns 0 with all seven devices
    initialised and holds every resource except those whose failure it does not
    look for: the node of a device for which [device_create] answered an
    [ERR_PTR], and the entry in the proc file system. *)
Theorem init_all_or_nothing (env : init_env) :
  (load_ok env = true ∧
   mtcaDummy_init_module env unloaded =
     Some (0, InitState (filter (λ r, unnoticed env r = false) all_resources)
                (fresh_devices (allocated_major env) (Z.to_nat MTCADUMMY_NR_DEVS) 0))) ∨
  (load_ok env = false ∧
   ∃ ds, mtcaDummy_init_module env unloaded = Some (-1, InitState ∅ ds)).
Proof.
  destruct (init_module_cases env []) as [[Hok E]|(ds & ? & ?)]; [left|right; eauto].
  by rewrite <-loaded_resources_spec.
Qed.

(** A kernel that grants everything, with [device_create] for device [bad]
    answering [ERR_PTR]. *)
Definition sample_env (bad : nat) : init_env :=
  InitEnv 0 240 false (λ _ _, false) (λ _, 0)
    (λ i, if decide (i = bad) then CreatedError else CreatedDevice) true.

(** C35: unloading a successfully loaded module gives back everything it
    holds, and the module can be loaded again with the same success. *)
Theorem unload_releases_everything (env env' : init_env) (Hok : load_ok env = true) :
  (mtcaDummy_init_module env ;; mtcaDummy_cleanup_module) unloaded =
    Some (tt, InitState ∅ (fresh_devices (allocated_major env) 7 0)) ∧
  fst <$> (mtcaDummy_init_module env ;; mtcaDummy_cleanup_module ;;
           mtcaDummy_init_module env') unloaded = Some (if load_ok env' then 0 else -1).
Proof.
  destruct (init_module_cases env []) as [[_ E]|(? & E & _)]; [|congruence].
  fold unloaded in E. rewrite !(init_bind_Some _ _ _ _ _ E).
  split; [apply cleanup_loaded|]. rewrite (init_bind_Some _ _ _ _ _ (cleanup_loaded _ _)).
  by destruct (init_module_cases env'
    (fresh_devices (allocated_major env) (Z.to_nat MTCADUMMY_NR_DEVS) 0))
    as [[-> ->]|(ds & -> & ->)].
Qed.

Lemma unload_releases_everything_witness :
  load_ok (sample_env 7) = true ∧
  (mtcaDummy_init_module (sample_env 7) ;; mtcaDummy_cleanup_module) unloaded =
    Some (tt, InitState ∅ (fresh_devices 240 7 0)).
Proof.
  split; [vm_compute; reflexivity|].
  apply (unload_releases_everything (sample_env 7) (sample_env 3)). vm_compute. reflexivity.
Defined.

(** C40: an [ERR_PTR] from [device_create] goes unnoticed, since the code
    compares with [NULL]: the module reports success although the device has no
    node. *)
Theorem device_create_error_ignored (env : init_env) (i : nat)
    (Hok : load_ok env = true) (Hi : (i < 7)%nat)
    (He : device_create_result env i = CreatedError) :
  ∃ s, mtcaDummy_init_module env unloaded = Some (0, s) ∧
       CdevAdded i ∈ held s ∧ DeviceNode i ∉ held s.
Proof.
  destruct (init_module_cases env []) as [[_ E]|(? & E & _)]; [|congruence].
  eexists. split; [exact E|]. cbn [held]. unfold loaded_resources.
  change (Z.to_nat MTCADUMMY_NR_DEVS) with 7%nat. split.
  - assert (CdevAdded i ∈ devices_resources env 7 0).
    { do 7 (destruct i as [|i]; [cbn; unfold device_resources; set_solver|]). lia. }
    set_solver.
  - pose proof (devices_resources_node env 7 0 i ltac:(lia) He).
    destruct (proc_create_ok env); set_solver.
Qed.

Lemma device_create_error_ignored_witness :
  load_ok (sample_env 3) = true ∧
  ∃ s, mtcaDummy_init_module (sample_env 3) unloaded = Some (0, s) ∧
       CdevAdded 3 ∈ held s ∧ DeviceNode 3 ∉ held s.
Proof.
  split; [vm_compute; reflexivity|].
  apply (device_create_error_ignored (sample_env 3) 3);
    [vm_compute; reflexivity | lia | reflexivity].
Defined.

(** After loading, device [d] is in slot [d] with minor number [d], no
    user and a free mutex; its registers hold the documented start values (the
    read-only constants, 1 in CLK_RST, its own address in BROKEN_WRITE, 0
    elsewhere), and its DMA bar is zero. *)
Theorem loaded_device_image {U} (major : Z) (u : U) (d : nat) (Hd : (d < 7)%nat) :
  ∃ dev, devs (loaded_state major u) !! d = Some dev ∧ wf_dev d dev ∧
    slotNr dev = Z.of_nat d ∧ minor dev = Z.of_nat d ∧ inUse dev = 0 ∧ devMutex dev = None ∧
    systemBar dev = initial_value <$> register_addresses ∧
    dmaBar dev = replicate 1024 0.
Proof.
  exists (fresh_device major d). split; [by apply loaded_lookup|].
  split; [apply wf_fresh_device|]. by split_and!.
Qed.

Lemma loaded_device_image_witness :
  ∃ dev, devs (loaded_state 240 tt) !! 6%nat = Some dev ∧ wf_dev 6 dev ∧
    slotNr dev = Z.of_nat 6 ∧ minor dev = Z.of_nat 6 ∧ inUse dev = 0 ∧ devMutex dev = None ∧
    systemBar dev = initial_value <$> register_addresses ∧
    dmaBar dev = replicate 1024 0.
Proof. apply (loaded_device_image 240 tt 6). lia. Defined.
