(* ===== verification/Registers.v ===== *)
(** * The registers of the emulated firmware

    What a write to each register of [mtcadummy_firmware.h] triggers, as
    properties of [mtcadummy_performActionOnWrite] running under the mutex of
    its device, after the word has been stored. *)

From S2P Require Import Prelude Abi Kernel UserMem Firmware ModuleInit.
Local Open Scope Z_scope.

(** The registers whose writing triggers something. *)
Definition trigger_registers : list Z :=
  [MTCADUMMY_WORD_CLK_RST; MTCADUMMY_WORD_ADC_ENA; MTCADUMMY_WORD_FIRMWARE;
   MTCADUMMY_WORD_COMPILATION; MTCADUMMY_WORD_DUMMY; MTCADUMMY_WORD_SPI_WRITE].

(** The value of register [a] of a device. *)
Definition register (dev : mtcaDummyData) (a : Z) : Z := nthz (systemBar dev) (REG a).

(** The device differs from [dev] in no register but those of [except], and not
    in its DMA bar. *)
Definition same_except (except : list Z) (dev dev' : mtcaDummyData) : Prop :=
  (∀ i, 0 <= i < 32 → 4 * i ∉ except → nthz (systemBar dev') i = nthz (systemBar dev) i) ∧
  dmaBar dev' = dmaBar dev.

Lemma REG_word i : REG (4 * i) = i.
Proof. unfold REG, sizeof_u32. lia. Qed.

Lemma register_word dev i : register dev (4 * i) = nthz (systemBar dev) i.
Proof. unfold register. by rewrite REG_word. Qed.

Lemma fw_reg_other spi a sys r :
  (a = MTCADUMMY_WORD_CLK_RST → r ∉ clock_registers) →
  (a = MTCADUMMY_WORD_ADC_ENA → r ∉ [MTCADUMMY_WORD_CLK_CNT_0; MTCADUMMY_WORD_CLK_RST]) →
  (a = MTCADUMMY_WORD_SPI_WRITE → r ∉ [MTCADUMMY_WORD_SPI_READ; MTCADUMMY_WORD_SPI_SYNC]) →
  (ro_value a ≠ None → a ≠ r) →
  fw_reg spi a sys r = nthz sys (REG r).
Proof.
  intros H1 H2 H3 H4. unfold fw_reg. cbv zeta.
  assert (existsb (Z.eqb r) clock_registers = true → r ∈ clock_registers) as Hc.
  { intros (x & Hx & ->%Z.eqb_eq)%existsb_exists. by apply list_elem_of_In. }
  repeat match goal with
    | |- context [if ?a =? ?r then default _ (ro_value _) else _] =>
        destruct (Z.eqb_spec a r) as [->|];
          [destruct (ro_value r); [by destruct H4|done]|done]
    | |- context [if ?b then _ else _] => destruct b eqn:?
    end; exfalso;
    rewrite ?andb_true_iff, ?Z.eqb_eq in *; destruct_and?; set_solver.
Qed.

(** [a] is the address of a register. *)
Definition is_register (a : Z) : bool := (a mod 4 =? 0) && (0 <=? a) && (a <? 128).

Lemma register_of_words dev' (f : Z → Z) :
  (∀ i, 0 <= i < 32 → nthz (systemBar dev') i = f (4 * i)) →
  ∀ a, is_register a = true → register dev' a = f a.
Proof.
  intros Hf a Ha. unfold is_register in Ha. assert (a = 4 * (a / 4)) as Ea by lia.
  rewrite Ea at 2. rewrite <-Hf by lia. rewrite Ea at 1. apply register_word.
Qed.

(** Word [i] of the DMA bar after a sampling. *)
Lemma nthz_sampled dma i :
  0 <= i → 25 <= Z.of_nat (length dma) →
  nthz (parabola ++ drop (Z.to_nat nSamples) dma) i = if i <? 25 then i * i else nthz dma i.
Proof.
  intros Hi Hl. unfold nthz. assert (length parabola = 25%nat) as Hp by done.
  destruct (Z.ltb_spec i 25).
  - rewrite lookup_app_l by lia. unfold parabola.
    rewrite list_lookup_fmap, lookup_seqZ_lt by (unfold nSamples; lia). cbn. lia.
  - rewrite lookup_app_r by lia. rewrite lookup_drop, Hp. do 2 f_equal.
    unfold nSamples. lia.
Qed.

Section Actions.
Context {U : Type} `{UserSpace U} `{ByteOrder}.
Context (t d : nat) (dev : mtcaDummyData) (st : kstate U).
Context (Hw : wf_dev d dev) (Hh : holds t d dev st).
Context (Hc : control_owner st = None) (Hs : signals st = []).

(** The refinement of the firmware, register by register. *)
Lemma exec_action off :
  ∃ dev', exec t (mtcadummy_performActionOnWrite off 0 (Z.of_nat d)) st =
      Done (if fw_broken off then -1 else 0, upd_dev d dev' st) ∧
    (∀ i, 0 <= i < 32 → nthz (systemBar dev') i =
       fw_reg (spi_error (control st)) off (systemBar dev) (4 * i)) ∧
    dmaBar dev' = fw_dma off (systemBar dev) (dmaBar dev) ∧
    wf_dev d dev' ∧ holds t d dev' (upd_dev d dev' st).
Proof.
  eexists. rewrite (performActionOnWrite_refines t d dev) by (done || by rewrite Nat2Z.id).
  split; [done|]. split_and!.
  - intros i Hi. unfold fw_dev. cbn. by rewrite nthz_fw_system.
  - done.
  - by apply wf_fw_dev.
  - eapply holds_upd_dev; [done|]. apply Hh.
Qed.

Lemma exec_action_quiet off except :
  off ≠ MTCADUMMY_WORD_ADC_ENA →
  (∀ i, 0 <= i < 32 → 4 * i ∉ except →
     fw_reg (spi_error (control st)) off (systemBar dev) (4 * i) = nthz (systemBar dev) i) →
  ∃ dev', exec t (mtcadummy_performActionOnWrite off 0 (Z.of_nat d)) st =
      Done (if fw_broken off then -1 else 0, upd_dev d dev' st) ∧
    (∀ a, is_register a = true →
       register dev' a = fw_reg (spi_error (control st)) off (systemBar dev) a) ∧
    same_except except dev dev'.
Proof.
  intros Ho He. destruct (exec_action off) as (dev' & E & Hr & Hd & _).
  exists dev'. split; [done|]. split; [|split].
  - by apply register_of_words.
  - intros i Hi Hn. rewrite Hr by done. auto.
  - by rewrite Hd, fw_dma_other.
Qed.

(** C7: the action on a write to any offset of bar 0, run under the
    device's mutex, terminates with -1 exactly for the two broken registers and
    with 0 otherwise, and leaves in every register the value [fw_reg]
    specifies, in the DMA bar what [fw_dma] specifies, and nothing else
    changed. *)
Theorem action_on_write_correct (off : Z) :
  ∃ dev', exec t (mtcadummy_performActionOnWrite off 0 (Z.of_nat d)) st =
      Done (if fw_broken off then -1 else 0, upd_dev d dev' st) ∧
    (∀ a, is_register a = true →
       register dev' a = fw_reg (spi_error (control st)) off (systemBar dev) a) ∧
    dmaBar dev' = fw_dma off (systemBar dev) (dmaBar dev) ∧
    inUse dev' = inUse dev ∧ wf_dev d dev' ∧ holds t d dev' (upd_dev d dev' st).
Proof.
  exists (fw_dev (spi_error (control st)) off dev).
  rewrite (performActionOnWrite_refines t d dev) by (done || by rewrite Nat2Z.id).
  split_and!; [done| |done|done|by apply wf_fw_dev|].
  - apply register_of_words. intros i Hi. by apply nthz_fw_system.
  - eapply holds_upd_dev; [done|]. apply Hh.
Qed.

(** Writing a value other than 0 to CLK_RST clears the two clock
    counters and the four clock multiplexers and changes nothing else; after
    writing 0 nothing changes. *)
Theorem clk_rst_clears_counters :
  if register dev MTCADUMMY_WORD_CLK_RST =? 0
  then exec t (mtcadummy_performActionOnWrite MTCADUMMY_WORD_CLK_RST 0 (Z.of_nat d)) st
         = Done (0, st)
  else ∃ dev',
    exec t (mtcadummy_performActionOnWrite MTCADUMMY_WORD_CLK_RST 0 (Z.of_nat d)) st
      = Done (0, upd_dev d dev' st) ∧
    Forall (λ a, register dev' a = 0) clock_registers ∧
    same_except clock_registers dev dev'.
Proof.
  destruct (register dev _ =? 0) eqn:Ez; unfold register in Ez.
  - rewrite (performActionOnWrite_refines t d dev) by (done || by rewrite Nat2Z.id).
    rewrite (fw_dev_zero_trigger _ _ d dev); [done| |apply Hh|by left|done].
    by apply (wf_dev_system_length d).
  - destruct (exec_action_quiet MTCADUMMY_WORD_CLK_RST clock_registers)
      as (dev' & E & Hr & Hsame); [done|..].
    { intros i Hi Hn. rewrite fw_reg_other; [by rewrite REG_word|done..]. }
    exists dev'. split; [exact E|]. split; [|done].
    assert (∀ a, a ∈ clock_registers →
      fw_reg (spi_error (control st)) MTCADUMMY_WORD_CLK_RST (systemBar dev) a = 0) as Hclk.
    { intros a Ha. unfold fw_reg. cbv zeta. rewrite Ez.
      rewrite (proj2 (existsb_exists _ _)); [done|].
      exists a. by rewrite Z.eqb_refl, <-list_elem_of_In. }
    repeat apply Forall_cons_2; try apply Forall_nil_2;
      (rewrite Hr by reflexivity; apply Hclk; set_solver).
Qed.

(** Writing a value other than 0 to ADC_ENA samples: the words 0 to 24
    of the DMA bar become the squares of their indices and its other words stay,
    CLK_CNT_0 becomes 25 and CLK_RST becomes 0, every other register stays.
    After writing 0 nothing changes. *)
Theorem adc_ena_samples :
  if register dev MTCADUMMY_WORD_ADC_ENA =? 0
  then exec t (mtcadummy_performActionOnWrite MTCADUMMY_WORD_ADC_ENA 0 (Z.of_nat d)) st
         = Done (0, st)
  else ∃ dev',
    exec t (mtcadummy_performActionOnWrite MTCADUMMY_WORD_ADC_ENA 0 (Z.of_nat d)) st
      = Done (0, upd_dev d dev' st) ∧
    length (dmaBar dev') = length (dmaBar dev) ∧
    (∀ i, 0 <= i < 1024 →
       nthz (dmaBar dev') i = if i <? 25 then i * i else nthz (dmaBar dev) i) ∧
    register dev' MTCADUMMY_WORD_CLK_CNT_0 = 25 ∧
    register dev' MTCADUMMY_WORD_CLK_RST = 0 ∧
    (∀ a, is_register a = true →
       a ∉ [MTCADUMMY_WORD_CLK_CNT_0; MTCADUMMY_WORD_CLK_RST] →
       register dev' a = register dev a).
Proof.
  destruct (register dev _ =? 0) eqn:Ez; unfold register in Ez.
  - rewrite (performActionOnWrite_refines t d dev) by (done || by rewrite Nat2Z.id).
    rewrite (fw_dev_zero_trigger _ _ d dev); [done| |apply Hh|by right|done].
    by apply (wf_dev_system_length d).
  - destruct (exec_action MTCADUMMY_WORD_ADC_ENA) as (dev' & E & Hr & Hd & Hw' & _).
    pose proof (wf_dev_bar_length _ _ DmaBar Hw) as Hl.
    pose proof (wf_dev_bar_length _ _ DmaBar Hw') as Hl'. cbn [get_bar] in Hl, Hl'.
    pose proof (register_of_words dev' _ Hr) as Hreg.
    exists dev'. split; [exact E|]. split_and!.
    + lia.
    + rewrite Hd. unfold fw_dma. rewrite Ez. intros i Hi. apply nthz_sampled; lia.
    + rewrite Hreg by done. unfold fw_reg. cbv zeta. by rewrite Ez.
    + rewrite Hreg by done. unfold fw_reg. cbv zeta. by rewrite Ez.
    + intros a Ha Hn. rewrite Hreg by done. by apply fw_reg_other.
Qed.

(** Whatever has been stored into one of the three read-only registers,
    the action puts its constant back and changes nothing else. *)
Theorem read_only_register_restored (off v : Z) (Hro : ro_value off = Some v) :
  ∃ dev', exec t (mtcadummy_performActionOnWrite off 0 (Z.of_nat d)) st
      = Done (0, upd_dev d dev' st) ∧
    register dev' off = v ∧ same_except [off] dev dev'.
Proof.
  assert (off ∈ [MTCADUMMY_WORD_FIRMWARE; MTCADUMMY_WORD_COMPILATION; MTCADUMMY_WORD_DUMMY])
    as Hoff.
  { revert Hro. unfold ro_value. repeat case_Z; intros; simplify_eq; set_solver. }
  rewrite !elem_of_cons in Hoff.
  destruct (exec_action_quiet off [off]) as (dev' & E & Hr & Hsame).
  { by repeat destruct Hoff as [->|Hoff]; try by apply not_elem_of_nil in Hoff. }
  { intros i Hi Hn. rewrite fw_reg_other; [by rewrite REG_word|..]; try set_solver;
      intros ->; exfalso;
      by repeat destruct Hoff as [Hoff|Hoff]; try by apply not_elem_of_nil in Hoff. }
  exists dev'. repeat destruct Hoff as [->|Hoff]; try by apply not_elem_of_nil in Hoff.
  all: split; [exact E|]; split; [|done]; rewrite Hr by done; injection Hro as <-; done.
Qed.

(** After a write to SPI_WRITE with SPI_SYNC holding the request value
    and the SPI error off, SPI_READ holds the written word and SPI_SYNC reports
    success; otherwise SPI_SYNC reports the error and SPI_READ stays. No other
    register changes. *)
Theorem spi_handshake :
  ∃ dev', exec t (mtcadummy_performActionOnWrite MTCADUMMY_WORD_SPI_WRITE 0 (Z.of_nat d)) st
      = Done (0, upd_dev d dev' st) ∧
    same_except [MTCADUMMY_WORD_SPI_READ; MTCADUMMY_WORD_SPI_SYNC] dev dev' ∧
    if (register dev MTCADUMMY_WORD_SPI_SYNC =? MTCADUMMY_SPI_SYNC_REQUESTED) &&
       negb (spi_error (control st))
    then register dev' MTCADUMMY_WORD_SPI_READ = register dev MTCADUMMY_WORD_SPI_WRITE ∧
         register dev' MTCADUMMY_WORD_SPI_SYNC = MTCADUMMY_SPI_SYNC_OK
    else register dev' MTCADUMMY_WORD_SPI_READ = register dev MTCADUMMY_WORD_SPI_READ ∧
         register dev' MTCADUMMY_WORD_SPI_SYNC = MTCADUMMY_SPI_SYNC_ERROR.
Proof.
  destruct (exec_action_quiet MTCADUMMY_WORD_SPI_WRITE
    [MTCADUMMY_WORD_SPI_READ; MTCADUMMY_WORD_SPI_SYNC]) as (dev' & E & Hr & Hsame); [done|..].
  { intros i Hi Hn. rewrite fw_reg_other; [by rewrite REG_word|done..]. }
  exists dev'. split; [exact E|]. split; [done|].
  rewrite !Hr by done. unfold register, fw_reg. cbv zeta.
  by destruct (_ && negb (spi_error _)).
Qed.

(** A write to any other offset triggers nothing; it fails with -1 on
    the broken registers and returns 0 elsewhere. *)
Theorem plain_register_untouched (off : Z) (Hoff : off ∉ trigger_registers) :
  exec t (mtcadummy_performActionOnWrite off 0 (Z.of_nat d)) st =
    Done (if (off =? MTCADUMMY_BROKEN_REGISTER) || (off =? MTCADUMMY_BROKEN_WRITE)
          then -1 else 0, st).
Proof.
  rewrite (performActionOnWrite_refines t d dev) by (done || by rewrite Nat2Z.id).
  rewrite fw_dev_plain; [done| |apply Hh|done]. by apply (wf_dev_system_length d).
Qed.
End Actions.

(** ** Examples: device 2 of a freshly loaded driver on a little-endian machine *)

#[local] Existing Instance little_endian.

(** Its start registers with [v] stored at each address of a list. *)
Definition sample_dev (stores : list (Z * Z)) : mtcaDummyData :=
  set_owner (Some 0%nat) (set_bar SystemBar
    (foldl (λ ws '(a, v), setz (REG a) v ws) (systemBar (fresh_device 240 2)) stores)
    (fresh_device 240 2)).

Definition sample_state (stores : list (Z * Z)) : kstate (gmap Z byte) :=
  upd_dev 2 (sample_dev stores) (loaded_state 240 ∅).

Lemma sample_holds stores : holds 0 2 (sample_dev stores) (sample_state stores).
Proof. by split. Qed.

Lemma action_on_write_correct_witness :
  ∃ dev', exec 0 (mtcadummy_performActionOnWrite 0x50 0 2) (sample_state [(0x50, 9); (0x58, 255)]) =
      Done (0, upd_dev 2 dev' (sample_state [(0x50, 9); (0x58, 255)])) ∧
    register dev' 0x54 = 9.
Proof.
  destruct (action_on_write_correct 0 2 (sample_dev [(0x50, 9); (0x58, 255)])
    (sample_state [(0x50, 9); (0x58, 255)])) with (off := 0x50) as (dev' & E & Hr & _).
  - apply (bool_decide_unpack _). vm_compute. exact I.
  - apply sample_holds.
  - reflexivity.
  - reflexivity.
  - exists dev'. split; [exact E|]. rewrite Hr by reflexivity. vm_compute. reflexivity.
Defined.

Lemma clk_rst_clears_counters_witness :
  ∃ dev', exec 0 (mtcadummy_performActionOnWrite 0x40 0 2) (sample_state [(0x10, 7)]) =
      Done (0, upd_dev 2 dev' (sample_state [(0x10, 7)])) ∧
    Forall (λ a, register dev' a = 0) clock_registers ∧
    same_except clock_registers (sample_dev [(0x10, 7)]) dev'.
Proof.
  apply (clk_rst_clears_counters 0 2 (sample_dev [(0x10, 7)])).
  - apply (bool_decide_unpack _). vm_compute. exact I.
  - apply sample_holds.
  - reflexivity.
  - reflexivity.
Defined.

Lemma adc_ena_samples_witness :
  ∃ dev', exec 0 (mtcadummy_performActionOnWrite 0x44 0 2) (sample_state [(0x44, 1)]) =
      Done (0, upd_dev 2 dev' (sample_state [(0x44, 1)])) ∧
    nthz (dmaBar dev') 24 = 576 ∧ register dev' 0x40 = 0.
Proof.
  destruct (adc_ena_samples 0 2 (sample_dev [(0x44, 1)]) (sample_state [(0x44, 1)]))
    as (dev' & E & _ & Hdma & _ & Hclk & _).
  - apply (bool_decide_unpack _). vm_compute. exact I.
  - apply sample_holds.
  - reflexivity.
  - reflexivity.
  - exists dev'. split; [exact E|]. split; [|exact Hclk]. rewrite Hdma by lia. reflexivity.
Defined.

Lemma read_only_register_restored_witness :
  ∃ dev', exec 0 (mtcadummy_performActionOnWrite 0x3C 0 2) (sample_state [(0x3C, 5)]) =
      Done (0, upd_dev 2 dev' (sample_state [(0x3C, 5)])) ∧
    register dev' 0x3C = 0x444D4D59 ∧ same_except [0x3C] (sample_dev [(0x3C, 5)]) dev'.
Proof.
  apply (read_only_register_restored 0 2 (sample_dev [(0x3C, 5)])).
  - apply (bool_decide_unpack _). vm_compute. exact I.
  - apply sample_holds.
  - reflexivity.
  - reflexivity.
  - reflexivity.
Defined.

Lemma spi_handshake_witness :
  ∃ dev', exec 0 (mtcadummy_performActionOnWrite 0x50 0 2) (sample_state [(0x50, 9)]) =
      Done (0, upd_dev 2 dev' (sample_state [(0x50, 9)])) ∧
    same_except [0x54; 0x58] (sample_dev [(0x50, 9)]) dev' ∧
    register dev' 0x54 = 0 ∧ register dev' 0x58 = 0xAA.
Proof.
  apply (spi_handshake 0 2 (sample_dev [(0x50, 9)])).
  - apply (bool_decide_unpack _). vm_compute. exact I.
  - apply sample_holds.
  - reflexivity.
  - reflexivity.
Defined.

Lemma plain_register_untouched_witness :
  exec 0 (mtcadummy_performActionOnWrite 0x4C 0 2) (sample_state [(0x4C, 9)]) =
    Done (-1, sample_state [(0x4C, 9)]).
Proof.
  apply (plain_register_untouched 0 2 (sample_dev [(0x4C, 9)])).
  - apply (bool_decide_unpack _). vm_compute. exact I.
  - apply sample_holds.
  - reflexivity.
  - reflexivity.
  - apply (bool_decide_unpack _). vm_compute. exact I.
Defined.
