(* ===== verification/StructRW.v ===== *)
(** * Reading and writing with the request structure ([mtcadummy_drv.c])

    [mtcaDummy_read] and [mtcaDummy_write], the read and write operations of
    the mtcadummy and llrfdummy devices: the user passes a [device_rw] that
    says what to access. [struct_reply] and [struct_effect] specify them as
    functions of the request and of the device, without locks, copies or early
    returns; the refinement lemmas tie the two together on every branch. *)

From S2P Require Import Prelude Abi Kernel UserMem Firmware ModuleInit Registers.
Local Open Scope Z_scope.
Local Open Scope c_scope.

(** ** Model *)

(** The switch on [barx_rw]: the bar's array and its size in bytes. *)
Definition select_bar (barx : Z) : option (bar_id * Z) :=
  if barx =? 0 then Some (SystemBar, MTCADUMMY_N_REGISTERS * 4)
  else if barx =? 2 then Some (DmaBar, MTCADUMMY_DMA_SIZE)
  else None.

Section Model.
Context `{ByteOrder}.

(** The RW_INFO branch of [mtcaDummy_read] *)
Definition read_info (privData : nat) (buf : Z) (readReqInfo : device_rw) : prog Z :=
  slotNr ← call (GetSlotNr privData);
  let readReqInfo :=
    DeviceRw MTCADUMMY_DRV_VERSION_MIN MTCADUMMY_DRV_VERSION_MAJ
      (MTCADUMMY_DRV_VERSION_MAJ + 1) slotNr (MTCADUMMY_DRV_VERSION_MIN + 1)
      (rsrvd_rw readReqInfo) in
  nleft ← call (CopyToUser buf (bytes_of_device_rw readReqInfo));
  if negb (nleft =? 0) then unlock_return privData (- EFAULT)
  else unlock_return privData sizeof_device_rw.

(** The RW_D32 branch of [mtcaDummy_read] *)
Definition read_d32 (privData : nat) (buf : Z) (readReqInfo : device_rw) : prog Z :=
  match select_bar (barx_rw readReqInfo) with
  | None => unlock_return privData (- EFAULT)
  | Some (barBaseAddress, barSize) =>
      if negb (offset_rw readReqInfo mod 4 =? 0) || (barSize <=? offset_rw readReqInfo)
      then unlock_return privData (- EFAULT) else
      slotNr ← call (GetSlotNr privData);
      error ← mtcadummy_performPreReadAction (offset_rw readReqInfo)
                (barx_rw readReqInfo) slotNr;
      if negb (error =? 0) then unlock_return privData (- EIO) else
      word ← call (BarLoad privData barBaseAddress (offset_rw readReqInfo / 4));
      let readReqInfo :=
        DeviceRw (offset_rw readReqInfo) word (mode_rw readReqInfo)
          (barx_rw readReqInfo) (size_rw readReqInfo) (rsrvd_rw readReqInfo) in
      nleft ← call (CopyToUser buf (bytes_of_device_rw readReqInfo));
      if negb (nleft =? 0) then unlock_return privData (- EFAULT)
      else unlock_return privData sizeof_device_rw
  end.

(** The RW_DMA branch of [mtcaDummy_read] *)
Definition read_dma (privData : nat) (buf : Z) (readReqInfo : device_rw) : prog Z :=
  let dma_size := size_rw readReqInfo in
  let dma_offset := offset_rw readReqInfo in
  if dma_size =? 0 then unlock_return privData 0 else
  if MTCADUMMY_DMA_SIZE <? (dma_size +u32 dma_offset) then
    unlock_return privData (- EFAULT) else
  nleft ← call (CopyBarToUser buf privData DmaBar (dma_offset / 4) dma_size);
  if negb (nleft =? 0) then unlock_return privData (- EFAULT)
  else unlock_return privData dma_size.

Definition mtcaDummy_read (privData : nat) (buf count : Z) : prog Z :=
  interrupted ← call (MutexLockInterruptible controlMutex);
  if (interrupted : bool) then mret (- ERESTARTSYS) else
  readFail ← call (ControlGet ReadError);
  call (MutexUnlock controlMutex) ;;
  if (readFail : bool) then mret (- EFAULT) else
  interrupted ← call (MutexLockInterruptible (deviceMutex privData));
  if (interrupted : bool) then mret (- ERESTARTSYS) else
  if count <? sizeof_device_rw then unlock_return privData (- EFAULT) else
  '(bytes, nleft) ← call (CopyFromUser buf (Z.to_nat sizeof_device_rw));
  if negb (nleft =? 0) then unlock_return privData (- EFAULT) else
  let readReqInfo := device_rw_of_bytes bytes in
  if mode_rw readReqInfo =? RW_INFO then read_info privData buf readReqInfo
  else if mode_rw readReqInfo =? RW_D32 then read_d32 privData buf readReqInfo
  else if (mode_rw readReqInfo =? RW_D8) || (mode_rw readReqInfo =? RW_D16) then
    unlock_return privData (- EFAULT)
  else if mode_rw readReqInfo =? RW_DMA then read_dma privData buf readReqInfo
  else unlock_return privData (- EFAULT).

(** The RW_D32 branch of [mtcaDummy_write] *)
Definition write_d32 (privData : nat) (writeReqInfo : device_rw) : prog Z :=
  match select_bar (barx_rw writeReqInfo) with
  | None => unlock_return privData (- EFAULT)
  | Some (barBaseAddress, barSize) =>
      if negb (offset_rw writeReqInfo mod 4 =? 0) || (barSize <=? offset_rw writeReqInfo)
      then unlock_return privData (- EFAULT) else
      call (BarStore privData barBaseAddress (offset_rw writeReqInfo / 4)
              (data_rw writeReqInfo)) ;;
      slotNr ← call (GetSlotNr privData);
      error ← mtcadummy_performActionOnWrite (offset_rw writeReqInfo)
                (barx_rw writeReqInfo) slotNr;
      if negb (error =? 0) then unlock_return privData (- EIO) else
      unlock_return privData sizeof_device_rw
  end.

Definition mtcaDummy_write (privData : nat) (buf count : Z) : prog Z :=
  interrupted ← call (MutexLockInterruptible controlMutex);
  if (interrupted : bool) then mret (- ERESTARTSYS) else
  writeFail ← call (ControlGet WriteError);
  call (MutexUnlock controlMutex) ;;
  if (writeFail : bool) then mret (- EFAULT) else
  interrupted ← call (MutexLockInterruptible (deviceMutex privData));
  if (interrupted : bool) then mret (- ERESTARTSYS) else
  if count <? sizeof_device_rw then unlock_return privData (- EFAULT) else
  '(bytes, nleft) ← call (CopyFromUser buf (Z.to_nat sizeof_device_rw));
  if negb (nleft =? 0) then unlock_return privData (- EFAULT) else
  let writeReqInfo := device_rw_of_bytes bytes in
  if mode_rw writeReqInfo =? RW_D32 then write_d32 privData writeReqInfo
  else if (mode_rw writeReqInfo =? RW_D8) || (mode_rw writeReqInfo =? RW_D16) then
    unlock_return privData (- EFAULT)
  else if mode_rw writeReqInfo =? RW_DMA then unlock_return privData (- EFAULT)
  else unlock_return privData (- EFAULT).

(** ** Specification *)

(** What a D32 access addresses: the bar and the word in it, if the request is
    acceptable. *)
Definition d32_target (r : device_rw) : option (bar_id * Z) :=
  match select_bar (barx_rw r) with
  | Some (b, size) =>
      if (offset_rw r mod 4 =? 0) && (offset_rw r <? size)
      then Some (b, offset_rw r / 4) else None
  | None => None
  end.

(** The device's answer to a read request: a return value without data, or the
    bytes for the user buffer and the return value once they are copied. *)
Inductive reply := NoData (ret : Z) | Data (bytes : list byte) (ret : Z).

Definition version_info (dev : mtcaDummyData) (r : device_rw) : device_rw :=
  DeviceRw MTCADUMMY_DRV_VERSION_MIN MTCADUMMY_DRV_VERSION_MAJ
    (MTCADUMMY_DRV_VERSION_MAJ + 1) (slotNr dev) (MTCADUMMY_DRV_VERSION_MIN + 1)
    (rsrvd_rw r).

Definition with_data (v : Z) (r : device_rw) : device_rw :=
  DeviceRw (offset_rw r) v (mode_rw r) (barx_rw r) (size_rw r) (rsrvd_rw r).

Definition struct_reply (dev : mtcaDummyData) (r : device_rw) : outcome reply :=
  if mode_rw r =? RW_INFO then
    Done (Data (bytes_of_device_rw (version_info dev r)) sizeof_device_rw)
  else if mode_rw r =? RW_D32 then
    Done match d32_target r with
    | None => NoData (- EFAULT)
    | Some (b, i) =>
        if bool_decide (b = SystemBar) && (offset_rw r =? MTCADUMMY_BROKEN_REGISTER)
        then NoData (- EIO)
        else Data (bytes_of_device_rw (with_data (nthz (get_bar b dev) i) r)) sizeof_device_rw
    end
  else if mode_rw r =? RW_DMA then
    if size_rw r =? 0 then Done (NoData 0)
    else if MTCADUMMY_DMA_SIZE <? (size_rw r +u32 offset_rw r) then Done (NoData (- EFAULT))
    else if 4 * (offset_rw r / 4) + size_rw r <=? MTCADUMMY_DMA_SIZE
    then Done (Data (bar_bytes (offset_rw r / 4) (size_rw r) (dmaBar dev)) (size_rw r))
    else Oops OutOfBounds
  else Done (NoData (- EFAULT)).

(** What a write request does to the device, and its return value. *)
Definition struct_effect (spiFail : bool) (dev : mtcaDummyData) (r : device_rw) :
    Z * mtcaDummyData :=
  if mode_rw r =? RW_D32 then
    match d32_target r with
    | None => (- EFAULT, dev)
    | Some (b, i) =>
        let '(err, dev') := word_write spiFail b (offset_rw r) (data_rw r) dev in
        (if err then - EIO else sizeof_device_rw, dev')
    end
  else (- EFAULT, dev).
End Model.

Section Refinement.
Context {U : Type} `{UserSpace U} `{ByteOrder}.
Implicit Types st : kstate U.

(** The request structure the user passed, when it can be read. *)
Definition request_at (u : U) (buf count : Z) : option device_rw :=
  if count <? sizeof_device_rw then None
  else if (copy_from_user u buf (Z.to_nat sizeof_device_rw)).2 =? 0
  then Some (device_rw_of_bytes (copy_from_user u buf (Z.to_nat sizeof_device_rw)).1)
  else None.

(** The end of a read: the answer's bytes are copied to the user. *)
Definition copy_out (buf : Z) (rep : reply) (st : kstate U) : Z * kstate U :=
  match rep with
  | NoData ret => (ret, st)
  | Data bytes ret =>
      let '(u, nleft) := copy_to_user (user st) buf bytes in
      (if nleft =? 0 then ret else - EFAULT, with_user u st)
  end.

Definition read_outcome (dev : mtcaDummyData) (buf count : Z) (st : kstate U) :
    outcome (Z * kstate U) :=
  if read_error (control st) then Done (- EFAULT, st)
  else match request_at (user st) buf count with
       | None => Done (- EFAULT, st)
       | Some r => outcome_bind (λ rep, Done (copy_out buf rep st)) (struct_reply dev r)
       end.

Definition write_outcome (d : nat) (dev : mtcaDummyData) (buf count : Z) (st : kstate U) :
    Z * kstate U :=
  if write_error (control st) then (- EFAULT, st)
  else match request_at (user st) buf count with
       | None => (- EFAULT, st)
       | Some r =>
           let '(ret, dev') := struct_effect (spi_error (control st)) dev r in
           (ret, upd_dev d dev' st)
       end.

Lemma request_at_range u buf count r :
  request_at u buf count = Some r → is_device_rw r.
Proof.
  unfold request_at. destruct (_ <? _); [done|]. destruct (_ =? _); [|done].
  intros [= <-]. apply device_rw_of_bytes_range. by rewrite copy_from_user_length.
Qed.

(** Answering the user inside the critical section, then leaving it. *)
Lemma exec_copy_out t d dev buf bytes ret st :
  devs st !! d = Some dev → devMutex dev = None →
  exec t (nleft ← call (CopyToUser buf bytes);
          if negb (nleft =? 0) then unlock_return d (- EFAULT) else unlock_return d ret)
    (upd_dev d (set_owner (Some t) dev) st) =
  Done (copy_out buf (Data bytes ret) st).
Proof.
  intros Hd Ho. rewrite exec_call. cbn [step_op].
  cbn [user upd_dev with_devs copy_out].
  destruct (copy_to_user (user st) buf bytes) as [u nleft]. cbn [outcome_bind].
  pose proof (holds_with_user _ _ _ u _ (holds_locked t _ _ _ Hd)) as Hh.
  destruct (nleft =? 0); cbn [negb];
    rewrite (exec_unlock_return _ _ _ _ _ Hh); do 2 f_equal;
    exact (f_equal (with_user u) (unlock_locked t _ _ _ Hd Ho)).
Qed.

Lemma exec_copy_bar_out t d dev buf i n ret st :
  devs st !! d = Some dev → devMutex dev = None → 0 <= i →
  exec t (nleft ← call (CopyBarToUser buf d DmaBar i n);
          if negb (nleft =? 0) then unlock_return d (- EFAULT) else unlock_return d ret)
    (upd_dev d (set_owner (Some t) dev) st) =
  if 4 * i + n <=? 4 * Z.of_nat (length (dmaBar dev))
  then Done (copy_out buf (Data (bar_bytes i n (dmaBar dev)) ret) st)
  else Oops OutOfBounds.
Proof.
  intros Hd Ho Hi. rewrite exec_call. cbn [step_op].
  destruct (holds_locked t _ _ _ Hd) as [Hd' _].
  unfold on_bar, on_dev. rewrite Hd', decide_True by done. cbn [get_bar set_owner dmaBar].
  replace (0 <=? i) with true by lia. cbn [andb].
  destruct (_ <=? _); [|done].
  cbn [user upd_dev with_devs copy_out].
  destruct (copy_to_user (user st) buf _) as [u nleft]. cbn [outcome_bind].
  pose proof (holds_with_user _ _ _ u _ (holds_locked t _ _ _ Hd)) as Hh.
  destruct (nleft =? 0); cbn [negb];
    rewrite (exec_unlock_return _ _ _ _ _ Hh); do 2 f_equal;
    exact (f_equal (with_user u) (unlock_locked t _ _ _ Hd Ho)).
Qed.

(** Leaving the critical section with nothing changed. *)
Lemma exec_unlock_unchanged t d dev r st :
  devs st !! d = Some dev → devMutex dev = None →
  exec t (unlock_return d r) (upd_dev d (set_owner (Some t) dev) st) = Done (r, st).
Proof.
  intros Hd Ho. rewrite (exec_unlock_return _ _ _ _ _ (holds_locked t _ _ _ Hd)).
  by rewrite unlock_locked.
Qed.

(** The pre-read action fails on the broken register of bar 0 only. *)
Lemma exec_preReadAction {A} t off bar slot (k : Z → prog A) st :
  exec t (mtcadummy_performPreReadAction off bar slot ≫= k) st =
    exec t (k (if (bar =? 0) && (off =? MTCADUMMY_BROKEN_REGISTER) then -1 else 0)) st.
Proof.
  unfold mtcadummy_performPreReadAction.
  destruct (bar =? 0); cbn [negb andb]; [|done]. by destruct (_ =? _).
Qed.

Lemma select_bar_Some barx b size :
  select_bar barx = Some (b, size) →
  (barx =? 0) = bool_decide (b = SystemBar) ∧
  size = match b with SystemBar => 128 | DmaBar => 4096 end.
Proof.
  unfold select_bar. destruct (Z.eqb_spec barx 0) as [->|];
    [|destruct (Z.eqb_spec barx 2) as [->|]]; intros [= <- <-]; done.
Qed.

(** A guard of the code, as the specification writes it. *)
Lemma d32_guard off size :
  (off mod 4 =? 0) && (off <? size) = negb (negb (off mod 4 =? 0) || (size <=? off)).
Proof. rewrite negb_orb, negb_involutive. f_equal. lia. Qed.

Lemma d32_target_bounds d dev r b i :
  wf_dev d dev → is_device_rw r → d32_target r = Some (b, i) →
  0 <= i < Z.of_nat (length (get_bar b dev)).
Proof.
  intros Hw (Ho&_) Ht. rewrite (wf_dev_bar_length _ _ _ Hw). unfold d32_target, is_u32 in *.
  destruct (select_bar _) as [[b' size]|] eqn:Eb; [|done].
  destruct (select_bar_Some _ _ _ Eb) as [_ ->].
  destruct (_ && _) eqn:Eg; [|done]. injection Ht as <- <-. destruct b'; lia.
Qed.

Lemma exec_read_d32 t d dev buf r st :
  devs st !! d = Some dev → devMutex dev = None → wf_dev d dev → is_device_rw r →
  mode_rw r = RW_D32 →
  exec t (read_d32 d buf r) (upd_dev d (set_owner (Some t) dev) st) =
    outcome_bind (λ rep, Done (copy_out buf rep st)) (struct_reply dev r).
Proof.
  intros Hd Ho Hw Hr Hm. unfold read_d32, struct_reply, with_data.
  rewrite Hm. change (RW_D32 =? RW_INFO) with false. change (RW_D32 =? RW_D32) with true.
  cbv iota. pose proof (λ b i, d32_target_bounds d dev r b i Hw Hr) as Hb. unfold d32_target in *.
  destruct (select_bar (barx_rw r)) as [[b size]|] eqn:Eb; [|by apply exec_unlock_unchanged].
  destruct (select_bar_Some _ _ _ Eb) as [Hbar _]. rewrite d32_guard in *.
  destruct (_ || _) eqn:Eg; cbn [negb] in *; [by apply exec_unlock_unchanged|].
  rewrite exec_slotNr with (dev := set_owner (Some t) dev) by apply (holds_locked _ _ _ _ Hd).
  rewrite exec_preReadAction, Hbar.
  destruct (_ && (offset_rw r =? _)); [by apply exec_unlock_unchanged|].
  change (negb (0 =? 0)) with false. cbv iota.
  rewrite (exec_load _ _ _ _ _ _ _ (holds_locked t _ _ _ Hd)), get_bar_set_owner;
    [by apply exec_copy_out|].
  rewrite get_bar_set_owner. by eapply Hb.
Qed.

Lemma exec_read_dma t d dev buf r st :
  devs st !! d = Some dev → devMutex dev = None → wf_dev d dev → is_device_rw r →
  mode_rw r = RW_DMA →
  exec t (read_dma d buf r) (upd_dev d (set_owner (Some t) dev) st) =
    outcome_bind (λ rep, Done (copy_out buf rep st)) (struct_reply dev r).
Proof.
  intros Hd Ho Hw (Hr&_) Hm. unfold read_dma, struct_reply. rewrite Hm.
  change (RW_DMA =? RW_INFO) with false. change (RW_DMA =? RW_D32) with false.
  change (RW_DMA =? RW_DMA) with true. cbv iota zeta.
  destruct (size_rw r =? 0); [by apply exec_unlock_unchanged|].
  destruct (_ <? _); [by apply exec_unlock_unchanged|].
  rewrite exec_copy_bar_out; [|done..|unfold is_u32 in *; lia].
  destruct Hw as (_&_&->&_). by destruct (_ <=? _).
Qed.

(** The request read inside the critical section, or an early exit. *)
Ltac take_request r Hr :=
  unfold request_at;
  match goal with |- context [?count <? sizeof_device_rw] =>
    destruct (count <? sizeof_device_rw); [by apply exec_unlock_unchanged|] end;
  rewrite exec_call; cbn [step_op user upd_dev with_devs];
  match goal with |- context [copy_from_user ?u ?a ?n] =>
    pose proof (device_rw_of_bytes_range _ (copy_from_user_length u a n)) as Hr;
    destruct (copy_from_user u a n) as [? ?] end;
  cbn [outcome_bind fst snd] in *;
  match goal with |- context [negb (?nleft =? 0)] =>
    destruct (nleft =? 0); cbn [negb]; [|by apply exec_unlock_unchanged] end;
  match goal with |- context [device_rw_of_bytes ?bytes] =>
    generalize dependent (device_rw_of_bytes bytes); intros r Hr end;
  cbv zeta.

Lemma mtcaDummy_read_refines t d dev buf count st :
  idle st → signals st = [] → devs st !! d = Some dev → wf_dev d dev →
  exec t (mtcaDummy_read d buf count) st = read_outcome dev buf count st.
Proof.
  intros Hi Hs Hd Hw. pose proof (idle_dev _ _ _ Hi Hd) as Ho.
  unfold mtcaDummy_read, read_outcome. rewrite exec_control_flag by (done || apply Hi).
  cbn [ctl_get]. destruct (read_error (control st)); [done|].
  rewrite (exec_lock_dev _ _ _ _ _ Hd Ho Hs). take_request r Hr.
  destruct (Z.eqb_spec (mode_rw r) RW_D32) as [Em|N1].
  { rewrite Em. by apply exec_read_d32. }
  destruct (Z.eqb_spec (mode_rw r) RW_DMA) as [Em|N2].
  { rewrite Em. by apply exec_read_dma. }
  unfold struct_reply. rewrite (proj2 (Z.eqb_neq _ _) N1), (proj2 (Z.eqb_neq _ _) N2).
  destruct (mode_rw r =? RW_INFO).
  - unfold read_info.
    rewrite exec_slotNr with (dev := set_owner (Some t) dev) by apply (holds_locked _ _ _ _ Hd).
    by apply exec_copy_out.
  - by destruct (_ || _); apply exec_unlock_unchanged.
Qed.

Lemma wf_struct_effect spi d dev r :
  wf_dev d dev → is_device_rw r → wf_dev d (struct_effect spi dev r).2.
Proof.
  intros Hw (_&Hv&_). unfold struct_effect.
  destruct (mode_rw r =? RW_D32); [|done]. destruct (d32_target r) as [[b i]|]; [|done].
  pose proof (wf_word_write spi b (offset_rw r) _ _ _ Hw Hv).
  by destruct (word_write _ _ _ _ _).
Qed.

(** Leaving the critical section with the device changed. *)
Lemma exec_unlock_changed t d dev dev' r st :
  devs st !! d = Some dev → devMutex dev' = None →
  exec t (unlock_return d r) (upd_dev d (set_owner (Some t) dev') st) =
    Done (r, upd_dev d dev' st).
Proof.
  intros Hd Ho.
  assert (holds t d (set_owner (Some t) dev') (upd_dev d (set_owner (Some t) dev') st)) as Hh.
  { split; [|done]. apply devs_upd_dev. by apply lookup_lt_Some in Hd. }
  rewrite (exec_unlock_return _ _ _ _ _ Hh), upd_dev_upd_dev, set_owner_set_owner.
  by rewrite <-Ho, set_owner_id.
Qed.

Lemma exec_write_d32 t d dev r st :
  devs st !! d = Some dev → devMutex dev = None → wf_dev d dev → is_device_rw r →
  control_owner st = None → signals st = [] → mode_rw r = RW_D32 →
  exec t (write_d32 d r) (upd_dev d (set_owner (Some t) dev) st) =
    let '(ret, dev') := struct_effect (spi_error (control st)) dev r in
    Done (ret, upd_dev d dev' st).
Proof.
  intros Hd Ho Hw Hr Hc Hs Hm. unfold write_d32, struct_effect.
  rewrite Hm. change (RW_D32 =? RW_D32) with true. cbv iota.
  pose proof (λ b i, d32_target_bounds d dev r b i Hw Hr) as Hb. unfold d32_target in *.
  destruct (select_bar (barx_rw r)) as [[b size]|] eqn:Eb.
  2: { rewrite exec_unlock_unchanged, upd_dev_id; done. }
  destruct (select_bar_Some _ _ _ Eb) as [Hbar _]. rewrite d32_guard in *.
  destruct (_ || _) eqn:Eg; cbn [negb] in *.
  { rewrite exec_unlock_unchanged, upd_dev_id; done. }
  pose proof (holds_locked t _ _ _ Hd) as Hh.
  rewrite (exec_store _ _ _ _ _ _ _ _ Hh), get_bar_set_owner, upd_dev_upd_dev
    by (rewrite get_bar_set_owner; by eapply Hb).
  destruct Hr as (_&Hv&_). rewrite <-(get_bar_set_owner b (Some t) dev).
  rewrite (exec_action_after_store _ _ (set_owner (Some t) dev) b _ _ _ _ _ Hw)
    by (done || by apply lookup_lt_Some in Hd).
  rewrite word_write_set_owner.
  pose proof (devMutex_word_write (spi_error (control st)) b (offset_rw r) (data_rw r) dev) as Hm'.
  destruct (word_write _ _ _ _ _) as [err dev']. cbn [fst snd] in *.
  destruct err; [change (negb (-1 =? 0)) with true|];
    apply (exec_unlock_changed _ _ dev); congruence.
Qed.

Lemma mtcaDummy_write_refines t d dev buf count st :
  idle st → signals st = [] → devs st !! d = Some dev → wf_dev d dev →
  exec t (mtcaDummy_write d buf count) st = Done (write_outcome d dev buf count st).
Proof.
  intros Hi Hs Hd Hw. pose proof (idle_dev _ _ _ Hi Hd) as Ho.
  unfold mtcaDummy_write, write_outcome. rewrite exec_control_flag by (done || apply Hi).
  cbn [ctl_get]. destruct (write_error (control st)); [done|].
  rewrite (exec_lock_dev _ _ _ _ _ Hd Ho Hs). take_request r Hr.
  destruct (Z.eqb_spec (mode_rw r) RW_D32) as [Em|N1].
  { rewrite exec_write_d32 by (done || apply Hi). by destruct (struct_effect _ _ _). }
  unfold struct_effect. rewrite (proj2 (Z.eqb_neq _ _) N1), (upd_dev_id d dev) by done.
  destruct (_ || _); [by apply exec_unlock_unchanged|].
  by destruct (_ =? _); apply exec_unlock_unchanged.
Qed.
End Refinement.

(** ** Properties *)

Section Properties.
Context {U : Type} `{UserSpace U} `{ByteOrder}.
Context (t d : nat) (dev : mtcaDummyData) (st : kstate U).
Context (Hi : idle st) (Hs : signals st = []).
Context (Hd : devs st !! d = Some dev) (Hw : wf_dev d dev).

Lemma request_at_bytes u a count r :
  is_device_rw r → 24 <= count → copy_from_user u a 24 = (bytes_of_device_rw r, 0) →
  request_at u a count = Some r.
Proof.
  intros Hr Hc Hu. unfold request_at, sizeof_device_rw.
  rewrite (proj2 (Z.ltb_ge _ _)) by done. change (Z.to_nat 24) with 24%nat. rewrite Hu.
  cbn [fst snd]. change (0 =? 0) with true. cbv iota. by rewrite device_rw_of_bytes_of.
Qed.

Lemma request_at_count u a count r : request_at u a count = Some r → 24 <= count.
Proof. unfold request_at, sizeof_device_rw. destruct (Z.ltb_spec count 24); [done|lia]. Qed.

Lemma struct_effect_frame spi r :
  is_device_rw r →
  wf_dev d (struct_effect spi dev r).2 ∧ devMutex (struct_effect spi dev r).2 = devMutex dev ∧
  inUse (struct_effect spi dev r).2 = inUse dev.
Proof.
  intros Hr. split; [by apply wf_struct_effect|]. unfold struct_effect.
  destruct (mode_rw r =? RW_D32); [|done]. destruct (d32_target r) as [[[] i]|]; [..|done].
  all: by destruct (word_write _ _ _ _ _) as [err dev'] eqn:E; injection E as <- <-.
Qed.

(** C3: the read operation of the mtcadummy and llrfdummy devices does on
    every branch what [read_outcome] says (the injected error, the unreadable
    or too short request, the version information, a word, a DMA block, the
    unsupported modes, the failing copies); it changes nothing but the user's
    memory, and all mutexes are free again. *)
Theorem struct_read_correct (buf count : Z) :
  exec t (mtcaDummy_read d buf count) st = read_outcome dev buf count st ∧
  ∀ ret st', exec t (mtcaDummy_read d buf count) st = Done (ret, st') →
    st' = with_user (user st') st ∧ idle st'.
Proof.
  rewrite (mtcaDummy_read_refines t d dev) by done. split; [done|]. intros ret st' E.
  assert (st' = with_user (user st') st) as Hst.
  { unfold read_outcome in E. destruct (read_error _); [by injection E as <- <-; destruct st|].
    destruct (request_at _ _ _); [|by injection E as <- <-; destruct st].
    destruct (struct_reply _ _) as [[]| |]; try done; cbn in E.
    - by injection E as <- <-; destruct st.
    - destruct (copy_to_user _ _ _). by injection E as <- <-. }
  split; [done|]. rewrite Hst. exact Hi.
Qed.

(** C4: the write operation always terminates without a fault, returns the
    value and has the effect [write_outcome] specifies; only the addressed
    device changes, it stays well-formed, and all mutexes are free again. *)
Theorem struct_write_correct (buf count : Z) :
  exec t (mtcaDummy_write d buf count) st = Done (write_outcome d dev buf count st) ∧
  ∃ dev', (write_outcome d dev buf count st).2 = upd_dev d dev' st ∧
    wf_dev d dev' ∧ devMutex dev' = None ∧ inUse dev' = inUse dev.
Proof.
  rewrite (mtcaDummy_write_refines t d dev) by done. split; [done|].
  pose proof (idle_dev _ _ _ Hi Hd) as Ho.
  assert (∃ dev', st = upd_dev d dev' st ∧ wf_dev d dev' ∧ devMutex dev' = None ∧
    inUse dev' = inUse dev) as Hsame by (exists dev; by rewrite upd_dev_id).
  unfold write_outcome. destruct (write_error _); [done|].
  destruct (request_at _ _ _) as [r|] eqn:Er; [|done].
  destruct (struct_effect_frame (spi_error (control st)) r) as (?&?&?);
    [by eapply request_at_range|].
  destruct (struct_effect _ _ _) as [ret dev']. cbn [snd] in *.
  exists dev'. split_and!; congruence.
Qed.

(** C29: the only way a read goes wrong is a DMA request whose size and
    offset overflow the 32-bit sum the code compares with the size of the DMA
    memory: then, and only then, the kernel reads outside the DMA bar. *)
Theorem struct_read_out_of_bounds_iff (buf count : Z) (reason : oops) :
  exec t (mtcaDummy_read d buf count) st = Oops reason ↔
  reason = OutOfBounds ∧ read_error (control st) = false ∧
  ∃ r, request_at (user st) buf count = Some r ∧ mode_rw r = RW_DMA ∧ size_rw r ≠ 0 ∧
    (size_rw r + offset_rw r) mod 2 ^ 32 <= MTCADUMMY_DMA_SIZE ∧
    MTCADUMMY_DMA_SIZE < 4 * (offset_rw r / 4) + size_rw r.
Proof.
  rewrite (mtcaDummy_read_refines t d dev) by done. unfold read_outcome.
  destruct (read_error (control st)); [naive_solver|].
  destruct (request_at _ _ _) as [r|]; [|naive_solver]. unfold struct_reply.
  change (2 ^ 32) with 4294967296. unfold wrap32.
  assert (∀ P : device_rw → Prop, (∃ r', Some r = Some r' ∧ P r') ↔ P r) as ->
    by (intros P; split; [by intros (? & [= <-] & ?)|eauto]).
  unfold RW_INFO, RW_D32, RW_DMA.
  destruct (Z.eqb_spec (mode_rw r) 4) as [E4|]; [rewrite E4; cbn; naive_solver|].
  destruct (Z.eqb_spec (mode_rw r) 2) as [E2|]; [rewrite E2; cbn; naive_solver|].
  destruct (Z.eqb_spec (mode_rw r) 3) as [E3|]; [|cbn; naive_solver].
  destruct (Z.eqb_spec (size_rw r) 0); [cbn; naive_solver|].
  destruct (Z.ltb_spec MTCADUMMY_DMA_SIZE ((size_rw r + offset_rw r) mod 4294967296));
    [split; [done|intros (_&_&_&_&?&_); lia]|].
  destruct (Z.leb_spec (4 * (offset_rw r / 4) + size_rw r) MTCADUMMY_DMA_SIZE);
    cbn [outcome_bind]; [split; [done|intros (_&_&_&_&_&?); lia]|].
  split; [intros [= <-]; by split_and!|by intros [-> _]].
Qed.

(** Writing a word of a register without side effects, or of the DMA bar,
    changes that word alone. *)
Lemma word_write_plain spi b off v :
  (b = SystemBar → off ∉ trigger_registers) →
  word_write spi b off v dev =
    (bool_decide (b = SystemBar) && fw_broken off,
     set_bar b (setz (off / 4) v (get_bar b dev)) dev).
Proof using Hw.
  clear - Hw. intros Hp. destruct b; [|done]. unfold word_write. cbn [bool_decide andb].
  rewrite bool_decide_eq_true_2 by done. f_equal.
  set (stored := set_bar _ _ _).
  rewrite (fw_dev_of spi off stored (systemBar stored)).
  - apply set_systemBar_id.
  - intros ->. apply Hp; [done|]. unfold trigger_registers. set_solver.
  - apply fw_system_plain; [|by apply Hp]. unfold stored. cbn.
    rewrite length_setz. by apply (wf_dev_system_length d).
Qed.

(** A D32 request that reaches word [off / 4] of bar [b] with an access that
    neither triggers an action nor fails. *)
Definition plain_access (r : device_rw) (b : bar_id) : Prop :=
  is_device_rw r ∧ mode_rw r = RW_D32 ∧ d32_target r = Some (b, offset_rw r / 4) ∧
  (b = SystemBar → (offset_rw r ∉ trigger_registers) ∧ fw_broken (offset_rw r) = false).

Lemma struct_effect_plain spi r b :
  plain_access r b →
  struct_effect spi dev r =
    (24, set_bar b (setz (offset_rw r / 4) (data_rw r) (get_bar b dev)) dev).
Proof.
  intros (Hr & Hm & Ht & Hp). unfold struct_effect. rewrite Hm, Ht.
  change (RW_D32 =? RW_D32) with true. cbv iota beta.
  rewrite word_write_plain by (intros ->; by apply Hp).
  destruct b; [|done]. by destruct Hp as [_ ->].
Qed.

Lemma struct_reply_plain dev0 r b :
  plain_access r b →
  struct_reply dev0 r =
    Done (Data (bytes_of_device_rw (with_data (nthz (get_bar b dev0) (offset_rw r / 4)) r)) 24).
Proof.
  intros (Hr & Hm & Ht & Hp). unfold struct_reply. rewrite Hm, Ht.
  change (RW_D32 =? RW_INFO) with false. change (RW_D32 =? RW_D32) with true. cbv iota beta.
  destruct b; [|done]. destruct Hp as [_ Hb]; [done|]. unfold fw_broken in Hb.
  by destruct (offset_rw r =? MTCADUMMY_BROKEN_REGISTER).
Qed.

(** A reply copied to a writable buffer is the request found there next. *)
Lemma copy_out_request st0 buf count r :
  is_device_rw r → 24 <= count →
  (∀ i, (i < 24)%nat → user_writable (user st0) (buf + Z.of_nat i) = true) →
  ∃ st', copy_out buf (Data (bytes_of_device_rw r) 24) st0 = (24, st') ∧
    request_at (user st') buf count = Some r.
Proof.
  intros Hr Hc Hbuf. cbn [copy_out].
  pose proof (copy_to_then_from (user st0) buf (bytes_of_device_rw r)) as Hback.
  pose proof (copy_to_user_ok (user st0) buf (bytes_of_device_rw r)) as Hok.
  rewrite length_bytes_of_device_rw in Hback, Hok.
  specialize (Hback Hbuf). specialize (Hok Hbuf).
  destruct (copy_to_user _ _ _) as [u nleft]. cbn [fst snd] in *. subst nleft.
  eexists. split; [reflexivity|]. by apply request_at_bytes.
Qed.

(** A word written with a D32 request to the DMA bar or to a register
    without side effects is returned by the next D32 read of the same place,
    through any readable and writable buffer. *)
Theorem struct_write_then_read (wbuf rbuf wcount rcount : Z) (w r : device_rw) (b : bar_id)
    (Hwplain : plain_access w b) (Hrplain : plain_access r b)
    (Hoff : offset_rw r = offset_rw w)
    (Herr : read_error (control st) = false ∧ write_error (control st) = false)
    (Hwreq : request_at (user st) wbuf wcount = Some w)
    (Hrreq : request_at (user st) rbuf rcount = Some r)
    (Hbuf : ∀ i, (i < 24)%nat → user_writable (user st) (rbuf + Z.of_nat i) = true) :
  ∃ st', exec t (x ← mtcaDummy_write d wbuf wcount; y ← mtcaDummy_read d rbuf rcount;
                 mret (x, y)) st = Done ((24, 24), st') ∧
    request_at (user st') rbuf rcount = Some (with_data (data_rw w) r).
Proof.
  destruct Herr as [Her Hew]. destruct (Hwplain) as (Hrw & _ & Ht & _).
  pose proof (idle_dev _ _ _ Hi Hd) as Ho.
  pose proof (d32_target_bounds _ _ _ _ _ Hw Hrw Ht) as Hb.
  pose proof (wf_set_word d dev b (offset_rw w / 4) (data_rw w) Hw (proj1 (proj2 Hrw))) as Hw'.
  rewrite exec_bind, (mtcaDummy_write_refines t d dev) by done.
  unfold write_outcome. rewrite Hew, Hwreq, (struct_effect_plain _ _ b) by done.
  cbn [outcome_bind]. set (dev' := set_bar _ _ _) in *.
  assert (devs (upd_dev d dev' st) !! d = Some dev') as Hd'
    by (apply devs_upd_dev; by apply lookup_lt_Some in Hd).
  rewrite exec_bind, (mtcaDummy_read_refines t d dev');
    [|by apply idle_upd_dev; [|unfold dev'; rewrite devMutex_set_bar]|done..].
  unfold read_outcome. cbn [control user upd_dev with_devs]. rewrite Her, Hrreq.
  rewrite (struct_reply_plain dev' r b), Hoff by done. unfold dev'.
  rewrite get_set_bar, nthz_setz_eq by done. cbn [outcome_bind].
  destruct (copy_out_request (upd_dev d dev' st) rbuf rcount (with_data (data_rw w) r))
    as (st' & E & Hq); [|by apply (request_at_count _ _ _ _ Hrreq)|done|].
  { destruct (Hrplain) as ((?&?&?&?&?&?)&_), Hrw as (?&?&_). by split_and!. }
  exists st'. fold dev'. by rewrite E.
Qed.

(** C37: a write to one of the two broken registers reports the I/O error,
    but the word has been stored: BROKEN_WRITE does not keep its address. *)
Theorem broken_register_clobbered (buf count : Z) (r : device_rw)
    (Hm : mode_rw r = RW_D32) (Hbar : barx_rw r = 0) (Hoff : fw_broken (offset_rw r) = true)
    (Hreq : request_at (user st) buf count = Some r)
    (Herr : write_error (control st) = false) :
  ∃ dev', exec t (mtcaDummy_write d buf count) st = Done (- EIO, upd_dev d dev' st) ∧
    register dev' (offset_rw r) = data_rw r ∧ same_except [offset_rw r] dev dev'.
Proof.
  rewrite (mtcaDummy_write_refines t d dev) by done.
  unfold write_outcome. rewrite Herr, Hreq. unfold struct_effect. rewrite Hm.
  change (RW_D32 =? RW_D32) with true. cbv iota.
  assert (offset_rw r = MTCADUMMY_BROKEN_REGISTER ∨ offset_rw r = MTCADUMMY_BROKEN_WRITE) as Ho.
  { unfold fw_broken in Hoff. apply orb_true_iff in Hoff as [?|?]; lia. }
  assert (d32_target r = Some (SystemBar, offset_rw r / 4)) as ->.
  { unfold d32_target. rewrite Hbar. by destruct Ho as [-> | ->]. }
  rewrite word_write_plain by (intros _; destruct Ho as [-> | ->]; unfold trigger_registers;
    rewrite !not_elem_of_cons; split_and!; done || apply not_elem_of_nil).
  rewrite bool_decide_eq_true_2, Hoff by done. cbn [andb].
  eexists. split; [reflexivity|]. pose proof (wf_dev_system_length _ _ Hw) as Hl.
  unfold register, same_except, REG, sizeof_u32. cbn [get_bar set_bar systemBar dmaBar].
  rewrite nthz_setz_eq by (destruct Ho as [-> | ->];
    unfold MTCADUMMY_BROKEN_REGISTER, MTCADUMMY_BROKEN_WRITE; lia).
  split_and!; [done| |done]. intros i Hi' Hn. rewrite not_elem_of_cons in Hn.
  apply nthz_setz_ne; unfold MTCADUMMY_BROKEN_REGISTER, MTCADUMMY_BROKEN_WRITE in *; lia.
Qed.

(** The read-only registers show their constants. *)
Definition shows_constants (dev : mtcaDummyData) : Prop :=
  ∀ a v, ro_value a = Some v → register dev a = v.

Lemma ro_value_cases a v :
  ro_value a = Some v →
  a ∈ [MTCADUMMY_WORD_FIRMWARE; MTCADUMMY_WORD_COMPILATION; MTCADUMMY_WORD_DUMMY].
Proof using. clear. unfold ro_value. repeat case_Z; intros; simplify_eq; set_solver. Qed.

Lemma word_write_shows_constants spi b off v :
  0 <= off → off mod 4 = 0 → shows_constants dev →
  shows_constants (word_write spi b off v dev).2.
Proof using.
  clear Hw Hd Hi Hs. intros Hoff Ha Hc a w Hro. destruct b; cbn [word_write snd]; [|by apply Hc].
  pose proof (ro_value_cases a w Hro) as Hin.
  assert (is_register a = true ∧ (a ∉ clock_registers) ∧
    (a ∉ [MTCADUMMY_WORD_CLK_CNT_0; MTCADUMMY_WORD_CLK_RST]) ∧
    (a ∉ [MTCADUMMY_WORD_SPI_READ; MTCADUMMY_WORD_SPI_SYNC])) as (Hreg & ? & ? & ?).
  { rewrite !elem_of_cons in Hin. repeat destruct Hin as [->|Hin];
      try (by apply not_elem_of_nil in Hin); split_and!; try done;
      by apply (bool_decide_unpack _). }
  set (stored := set_bar _ _ _). unfold register, fw_dev. cbn [systemBar set_bar].
  unfold is_register, REG, sizeof_u32 in *. rewrite nthz_fw_system by lia.
  replace (4 * (a / 4)) with a by lia. destruct (decide (off = a)) as [->|Hne].
  - rewrite !elem_of_cons in Hin.
    by repeat destruct Hin as [->|Hin]; try (by apply not_elem_of_nil in Hin);
      injection Hro as <-.
  - rewrite fw_reg_other by done. unfold stored. cbn [systemBar set_bar get_bar].
    unfold REG, sizeof_u32. rewrite nthz_setz_ne by lia. apply (Hc a w Hro).
Qed.

(** C32: no request a user can pass to the write operation makes a
    read-only register show anything but its constant, as long as no signal
    interrupts the call. *)
Theorem struct_write_keeps_read_only (buf count : Z) (Hro : shows_constants dev) :
  ∃ ret dev', exec t (mtcaDummy_write d buf count) st = Done (ret, upd_dev d dev' st) ∧
    shows_constants dev'.
Proof.
  rewrite (mtcaDummy_write_refines t d dev) by done. unfold write_outcome.
  assert (∃ ret dev', Done (- EFAULT, st) = Done (ret, upd_dev d dev' st) ∧ shows_constants dev')
    as Hsame by (exists (- EFAULT), dev; by rewrite upd_dev_id).
  destruct (write_error _); [done|]. destruct (request_at _ _ _) as [r|] eqn:Er; [|done].
  pose proof (request_at_range _ _ _ _ Er) as ([Ho _] & _).
  unfold struct_effect. destruct (mode_rw r =? RW_D32).
  2: { exists (- EFAULT), dev. done. }
  unfold d32_target. destruct (select_bar (barx_rw r)) as [[b size]|].
  2: { exists (- EFAULT), dev. done. }
  destruct ((offset_rw r mod 4 =? 0) && _) eqn:Eg.
  2: { exists (- EFAULT), dev. done. }
  apply andb_true_iff in Eg as [Ea _].
  pose proof (word_write_shows_constants (spi_error (control st)) b (offset_rw r) (data_rw r)
    Ho ltac:(lia) Hro) as Hro'.
  destruct (word_write _ _ _ _ _) as [err dev']. by exists (if err then - EIO else sizeof_device_rw), dev'.
Qed.
End Properties.

Section Interrupted.
Context {U : Type} `{UserSpace U} `{ByteOrder}.
Context (t d : nat) (dev : mtcaDummyData) (st : kstate U).

(** C36: a signal that interrupts the firmware's wait for the control
    mutex, after the two earlier waits of the write operation succeeded, makes
    the write fail with an I/O error, with the word stored and no action taken:
    a read-only register then shows the written value. *)
Theorem interrupted_action_leaves_raw_value (buf count : Z) (r : device_rw)
    (Hi : idle st) (Hs : signals st = [false; false; true])
    (Hd : devs st !! d = Some dev) (Hw : wf_dev d dev)
    (Hm : mode_rw r = RW_D32) (Hbar : barx_rw r = 0) (Hoff : is_register (offset_rw r) = true)
    (Hreq : request_at (user st) buf count = Some r)
    (Herr : write_error (control st) = false) :
  ∃ dev', exec t (mtcaDummy_write d buf count) st =
      Done (- EIO, upd_dev d dev' (with_signals [] st)) ∧
    register dev' (offset_rw r) = data_rw r ∧ same_except [offset_rw r] dev dev'.
Proof.
  pose proof (idle_dev _ _ _ Hi Hd) as Ho. pose proof (wf_dev_system_length _ _ Hw) as Hl.
  unfold is_register in Hoff.
  unfold mtcaDummy_write. rewrite (exec_control_flag_pending _ _ _ _ _ _ (proj1 Hi) Hs).
  cbn [ctl_get]. rewrite Herr.
  rewrite (exec_lock_dev_pending _ d dev _ _ [true]) by done.
  set (st1 := upd_dev d (set_owner (Some t) dev) _).
  assert (holds t d (set_owner (Some t) dev) st1) as Hh
    by (apply (holds_locked t d dev (with_signals _ st)); done).
  unfold request_at in Hreq. destruct (count <? sizeof_device_rw); [done|].
  rewrite exec_call. cbn [step_op]. change (user st1) with (user st).
  destruct (copy_from_user _ _ _) as [bytes nleft]. cbn [outcome_bind fst snd] in *.
  destruct (nleft =? 0); [|done]. injection Hreq as ->. cbn [negb]. cbv zeta. rewrite Hm.
  change (RW_D32 =? RW_D32) with true. cbv iota. unfold write_d32. rewrite Hbar.
  change (select_bar 0) with (Some (SystemBar, 128)). cbv iota.
  replace (negb (offset_rw r mod 4 =? 0) || (128 <=? offset_rw r)) with false by lia.
  rewrite (exec_store _ _ _ _ _ _ _ _ Hh) by (cbn; lia).
  pose proof (holds_upd_bar t d _ SystemBar
    (setz (offset_rw r / 4) (data_rw r) (systemBar dev)) _ Hh) as Hh'.
  rewrite (exec_slotNr _ _ _ _ _ (proj1 Hh')), exec_bind.
  unfold mtcadummy_performActionOnWrite. cbn [Z.eqb negb].
  rewrite (exec_control_flag_interrupted _ _ _ _ []) by done. cbn [outcome_bind exec mret prog_mret].
  change (negb (- ERESTARTSYS =? 0)) with true. cbv iota.
  rewrite (exec_unlock_return t d (set_bar SystemBar _ (set_owner (Some t) dev)) _
    (with_signals [] _) Hh').
  exists (set_bar SystemBar (setz (offset_rw r / 4) (data_rw r) (systemBar dev)) dev). split.
  - do 2 f_equal. unfold st1, upd_dev, with_devs, with_signals. cbn.
    rewrite !list_insert_insert_eq. do 2 f_equal. by rewrite Ho.
  - unfold register, same_except, REG, sizeof_u32. cbn [set_bar systemBar dmaBar].
    rewrite nthz_setz_eq by lia. split_and!; [done| |done]. intros i Hi' Hn.
    rewrite not_elem_of_cons in Hn. apply nthz_setz_ne; lia.
Qed.
End Interrupted.

(** ** Examples on a freshly loaded driver *)

#[local] Existing Instance little_endian.

(** The driver with the request [r] at address 1000 of the user's memory. *)
Definition sample_request (r : device_rw) : kstate (gmap Z byte) :=
  loaded_state 240 (umem_put 1000 (bytes_of_device_rw r) ∅).

Ltac on_loaded :=
  first [ apply loaded_idle | apply wf_fresh_device | reflexivity | lia ].

Lemma struct_read_correct_witness :
  exec 0 (mtcaDummy_read 2 1000 24) (sample_request (DeviceRw 0x40 0 RW_D32 0 0 0)) =
    read_outcome (fresh_device 240 2) 1000 24 (sample_request (DeviceRw 0x40 0 RW_D32 0 0 0)).
Proof. apply struct_read_correct with (dev := fresh_device 240 2); on_loaded. Defined.

Lemma struct_write_correct_witness :
  exec 0 (mtcaDummy_write 2 1000 24) (sample_request (DeviceRw 0x44 1 RW_D32 0 0 0)) =
    Done (write_outcome 2 (fresh_device 240 2) 1000 24
            (sample_request (DeviceRw 0x44 1 RW_D32 0 0 0))).
Proof. apply struct_write_correct with (dev := fresh_device 240 2); on_loaded. Defined.

(** The whole address space from the end of the DMA memory on. *)
Lemma struct_read_out_of_bounds_iff_witness :
  exec 0 (mtcaDummy_read 2 1000 24)
    (sample_request (DeviceRw 4096 0 RW_DMA 2 0xFFFFF000 0)) = Oops OutOfBounds.
Proof.
  apply (struct_read_out_of_bounds_iff 0 2 (fresh_device 240 2)); [on_loaded..|].
  split; [reflexivity|]. split; [reflexivity|].
  exists (DeviceRw 4096 0 RW_DMA 2 0xFFFFF000 0).
  split; [vm_compute; reflexivity|]. cbn. repeat split; try discriminate; lia.
Defined.

Lemma struct_write_then_read_witness :
  ∃ st', exec 0 (x ← mtcaDummy_write 2 1000 24; y ← mtcaDummy_read 2 1000 24; mret (x, y))
      (sample_request (DeviceRw 0x0C 77 RW_D32 0 0 0)) = Done ((24, 24), st') ∧
    request_at (user st') 1000 24 = Some (DeviceRw 0x0C 77 RW_D32 0 0 0).
Proof.
  apply (struct_write_then_read 0 2 (fresh_device 240 2)) with
    (w := DeviceRw 0x0C 77 RW_D32 0 0 0) (r := DeviceRw 0x0C 77 RW_D32 0 0 0) (b := SystemBar);
    try on_loaded.
  - split_and!; try reflexivity; [apply (bool_decide_unpack _); vm_compute; exact I|].
    intros _. split; [apply (bool_decide_unpack _); vm_compute; exact I|reflexivity].
  - split_and!; try reflexivity; [apply (bool_decide_unpack _); vm_compute; exact I|].
    intros _. split; [apply (bool_decide_unpack _); vm_compute; exact I|reflexivity].
  - split; reflexivity.
  - intros i Hi. do 24 (destruct i as [|i]; [vm_compute; reflexivity|]). lia.
Defined.

Lemma broken_register_clobbered_witness :
  ∃ dev', exec 0 (mtcaDummy_write 2 1000 24) (sample_request (DeviceRw 0x4C 5 RW_D32 0 0 0)) =
      Done (- EIO, upd_dev 2 dev' (sample_request (DeviceRw 0x4C 5 RW_D32 0 0 0))) ∧
    register dev' 0x4C = 5 ∧ same_except [0x4C] (fresh_device 240 2) dev'.
Proof.
  apply (broken_register_clobbered 0 2 (fresh_device 240 2)) with
    (r := DeviceRw 0x4C 5 RW_D32 0 0 0); try on_loaded.
Defined.

Lemma interrupted_action_leaves_raw_value_witness :
  ∃ dev', exec 0 (mtcaDummy_write 2 1000 24)
      (with_signals [false; false; true] (sample_request (DeviceRw 0x3C 5 RW_D32 0 0 0))) =
      Done (- EIO, upd_dev 2 dev'
        (with_signals [] (sample_request (DeviceRw 0x3C 5 RW_D32 0 0 0)))) ∧
    register dev' 0x3C = 5 ∧ same_except [0x3C] (fresh_device 240 2) dev'.
Proof.
  apply (interrupted_action_leaves_raw_value 0 2 (fresh_device 240 2)
    (with_signals [false; false; true] (sample_request (DeviceRw 0x3C 5 RW_D32 0 0 0))))
    with (r := DeviceRw 0x3C 5 RW_D32 0 0 0); try on_loaded.
Defined.

Lemma struct_write_keeps_read_only_witness :
  ∃ ret dev', exec 0 (mtcaDummy_write 2 1000 24)
      (sample_request (DeviceRw 0x3C 5 RW_D32 0 0 0)) =
      Done (ret, upd_dev 2 dev' (sample_request (DeviceRw 0x3C 5 RW_D32 0 0 0))) ∧
    shows_constants dev'.
Proof.
  apply (struct_write_keeps_read_only 0 2 (fresh_device 240 2)); try on_loaded.
  intros a v Ha. unfold ro_value in Ha.
  destruct (Z.eqb_spec a MTCADUMMY_WORD_FIRMWARE) as [->|]; [injection Ha as <-; reflexivity|].
  destruct (Z.eqb_spec a MTCADUMMY_WORD_COMPILATION) as [->|]; [injection Ha as <-; reflexivity|].
  destruct (Z.eqb_spec a MTCADUMMY_WORD_DUMMY) as [->|]; [injection Ha as <-; reflexivity|].
  discriminate.
Defined.
