(* ===== verification/NoStructRW.v ===== *)
(** * Reading and writing without the request structure ([mtcadummy_rw_no_struct.c])

    The read and write operations of the pcieunidummy device: the file position
    carries the bar number and the offset in it, and the user buffer holds the
    words themselves. [checkAndCalculateTransferInformation] validates the
    request; the two loops transfer it word by word. *)

From S2P Require Import Prelude Abi Kernel UserMem Firmware ModuleInit Registers StructRW.
Local Open Scope Z_scope.
Local Open Scope c_scope.

(** ** Model *)

(** [barStart] points to the first word of a bar of the device, [barEnd] to a
    word index in it. *)
Record transfer_information := TransferInformation {
  ti_bar : Z;
  ti_offset : Z;
  ti_barSizeInBytes : Z;
  ti_barStart : bar_id;
  ti_barEnd : bar_id * Z;
  ti_nBytesToTransfer : Z;
}.

(** The [switch] on the bar number: the start, [None] for [NULL], and the size;
    or the error of the default case. *)
Definition bar_geometry (bar : Z) : option (option bar_id * Z) :=
  if bar =? 0 then Some (Some SystemBar, MTCADUMMY_N_REGISTERS * 4)
  else if bar =? 2 then Some (Some DmaBar, MTCADUMMY_DMA_SIZE)
  else if (bar =? 1) || (bar =? 3) || (bar =? 4) || (bar =? 5) then Some (None, 0)
  else None.

(** [virtualOffset] is a signed 64-bit [loff_t], [count] an unsigned 64-bit
    [size_t]; C's [%] on the former is [Z.rem]. *)
Definition checkAndCalculateTransferInformation (count virtualOffset : Z) :
    Z + transfer_information :=
  if negb (Z.rem virtualOffset 4 =? 0) then inl (- EFAULT) else
  if negb (count mod 4 =? 0) then inl (- EFAULT) else
  let bar := Z.land (Z.shiftr virtualOffset 60) 0x7 in
  let offset := Z.land virtualOffset 0x0FFFFFFFFFFFFFFF in
  match bar_geometry bar with
  | None => inl (- EFAULT)
  | Some (None, _) => inl (- EFAULT)
  | Some (Some barStart, barSizeInBytes) =>
      let barEnd := (barStart, barSizeInBytes / sizeof_u32) in
      if barSizeInBytes <? offset then inl (- EFAULT) else
      let nBytesToTransfer :=
        wrap32 (if barSizeInBytes <? (offset +u64 count)
                then barSizeInBytes - offset else count) in
      inr (TransferInformation bar offset barSizeInBytes barStart barEnd nBytesToTransfer)
  end.

(** [mutex_unlock(&deviceData->devMutex); return r;] with the file position. *)
Definition unlock_return_pos (d : nat) (r f_pos : Z) : prog (Z * Z) :=
  call (MutexUnlock (deviceMutex d)) ;; mret (r, f_pos).

(** The loop of [mtcaDummy_read_no_struct], [n] iterations from [i] on, and
    what follows it. *)
Fixpoint read_words (deviceData : nat) (ti : transfer_information) (buf : Z)
    (n : nat) (i f_pos : Z) : prog (Z * Z) :=
  match n with
  | O => unlock_return_pos deviceData (ti_nBytesToTransfer ti) f_pos
  | S n' =>
      let offsetInLoop := wrap32 (i * sizeof_u32) in
      slotNr ← call (GetSlotNr deviceData);
      error ← mtcadummy_performPreReadAction (wrap32 (ti_offset ti + offsetInLoop))
                (ti_bar ti) slotNr;
      if negb (error =? 0) then unlock_return_pos deviceData (- EIO) f_pos else
      nleft ← call (CopyBarToUser (buf + offsetInLoop) deviceData (ti_barStart ti)
                      (ti_offset ti / sizeof_u32 + i) sizeof_u32);
      if negb (nleft =? 0) then unlock_return_pos deviceData (- EFAULT) f_pos else
      read_words deviceData ti buf n' (i + 1) (f_pos + sizeof_u32)
  end.

(** The loop of [mtcaDummy_write_no_struct]. *)
Fixpoint write_words (deviceData : nat) (ti : transfer_information) (buf : Z)
    (n : nat) (i f_pos : Z) : prog (Z * Z) :=
  match n with
  | O => unlock_return_pos deviceData (ti_nBytesToTransfer ti) f_pos
  | S n' =>
      let offsetInLoop := wrap32 (i * sizeof_u32) in
      nleft ← call (CopyUserToBar deviceData (ti_barStart ti) (ti_offset ti / sizeof_u32 + i)
                      (buf + offsetInLoop));
      if negb (nleft =? 0) then unlock_return_pos deviceData (- EFAULT) f_pos else
      slotNr ← call (GetSlotNr deviceData);
      error ← mtcadummy_performActionOnWrite (wrap32 (ti_offset ti + offsetInLoop))
                (ti_bar ti) slotNr;
      if negb (error =? 0) then unlock_return_pos deviceData (- EIO) f_pos else
      write_words deviceData ti buf n' (i + 1) (f_pos + sizeof_u32)
  end.

(** The file position is an in-out parameter: a result is the return value and
    the new position. *)
Definition mtcaDummy_read_no_struct (deviceData : nat) (buf count f_pos : Z) : prog (Z * Z) :=
  interrupted ← call (MutexLockInterruptible controlMutex);
  if (interrupted : bool) then mret (- ERESTARTSYS, f_pos) else
  readFail ← call (ControlGet ReadError);
  call (MutexUnlock controlMutex) ;;
  if (readFail : bool) then mret (- EFAULT, f_pos) else
  match checkAndCalculateTransferInformation count f_pos with
  | inl transferInfoError => mret (transferInfoError, f_pos)
  | inr ti =>
      interrupted ← call (MutexLockInterruptible (deviceMutex deviceData));
      if (interrupted : bool) then mret (- ERESTARTSYS, f_pos) else
      read_words deviceData ti buf
        (Z.to_nat (ti_nBytesToTransfer ti / sizeof_u32)) 0 f_pos
  end.

Definition mtcaDummy_write_no_struct (deviceData : nat) (buf count f_pos : Z) : prog (Z * Z) :=
  interrupted ← call (MutexLockInterruptible controlMutex);
  if (interrupted : bool) then mret (- ERESTARTSYS, f_pos) else
  writeFail ← call (ControlGet WriteError);
  call (MutexUnlock controlMutex) ;;
  if (writeFail : bool) then mret (- EFAULT, f_pos) else
  match checkAndCalculateTransferInformation count f_pos with
  | inl transferInfoError => mret (transferInfoError, f_pos)
  | inr ti =>
      interrupted ← call (MutexLockInterruptible (deviceMutex deviceData));
      if (interrupted : bool) then mret (- ERESTARTSYS, f_pos) else
      write_words deviceData ti buf
        (Z.to_nat (ti_nBytesToTransfer ti / sizeof_u32)) 0 f_pos
  end.

(** [PCIEUNI_BAR_OFFSETS] of [pcieuni_io_compat.h]: where a bar begins in the
    address space of the character device. *)
Definition PCIEUNI_BAR_OFFSETS : list Z :=
  [0; Z.shiftl 1 60; Z.shiftl 2 60; Z.shiftl 3 60; Z.shiftl 4 60; Z.shiftl 5 60].

(** ** Specification *)

(** The largest [count] the kernel's read and write system calls pass on
    ([MAX_RW_COUNT]), and the largest file position of a 64-bit [loff_t]. *)
Definition MAX_RW_COUNT : Z := 0x7ffff000.
Definition LOFF_MAX : Z := 0x7fffffffffffffff.

(** The request in terms of bar number, offset and remaining bytes. *)
Definition transfer_spec (count virtualOffset : Z) : Z + transfer_information :=
  let bar := virtualOffset / 2 ^ 60 in
  let offset := virtualOffset mod 2 ^ 60 in
  match select_bar bar with
  | Some (b, size) =>
      if (virtualOffset mod 4 =? 0) && (count mod 4 =? 0) && (offset <=? size)
      then inr (TransferInformation bar offset size b (b, size / 4)
                  (Z.min count (size - offset)))
      else inl (- EFAULT)
  | None => inl (- EFAULT)
  end.

Section Spec.
Context {U : Type} `{UserSpace U} `{ByteOrder}.

(** Reading [n] words from byte offset [off] of a bar into the buffer [buf]: 0
    or the error, the number of words transferred, the user memory. *)
Fixpoint area_read (dev : mtcaDummyData) (b : bar_id) (off : Z) (n : nat) (u : U) (buf : Z) :
    Z * nat * U :=
  match n with
  | O => (0, O, u)
  | S n' =>
      if bool_decide (b = SystemBar) && (off =? MTCADUMMY_BROKEN_REGISTER)
      then (- EIO, O, u) else
      let '(u', nleft) :=
        copy_to_user u buf (bytes_of_u32 (nthz (get_bar b dev) (off / 4))) in
      if nleft =? 0 then
        let '(e, k, u'') := area_read dev b (off + 4) n' u' (buf + 4) in (e, S k, u'')
      else (- EFAULT, O, u')
  end.

(** Writing [n] words from the buffer: 0 or the error, the number of words
    transferred, the device. A word that cannot be read completely still ends
    up in the bar, padded with zero bytes, but triggers no action. *)
Fixpoint area_write (spiFail : bool) (u : U) (b : bar_id) (off : Z) (n : nat) (buf : Z)
    (dev : mtcaDummyData) : Z * nat * mtcaDummyData :=
  match n with
  | O => (0, O, dev)
  | S n' =>
      let '(bs, nleft) := copy_from_user u buf 4 in
      if nleft =? 0 then
        let '(err, dev') := word_write spiFail b off (u32_of_bytes bs) dev in
        if (err : bool) then (- EIO, O, dev') else
        let '(e, k, dev'') := area_write spiFail u b (off + 4) n' (buf + 4) dev' in
        (e, S k, dev'')
      else (- EFAULT, O, set_bar b (setz (off / 4) (u32_of_bytes bs) (get_bar b dev)) dev)
  end.

Definition read_no_struct_outcome (dev : mtcaDummyData) (buf count f_pos : Z)
    (st : kstate U) : (Z * Z) * kstate U :=
  if read_error (control st) then ((- EFAULT, f_pos), st) else
  match checkAndCalculateTransferInformation count f_pos with
  | inl e => ((e, f_pos), st)
  | inr ti =>
      let n := ti_nBytesToTransfer ti in
      let '(e, k, u) := area_read dev (ti_barStart ti) (ti_offset ti) (Z.to_nat (n / 4))
                          (user st) buf in
      ((if e =? 0 then n else e, f_pos + 4 * Z.of_nat k), with_user u st)
  end.

Definition write_no_struct_outcome (d : nat) (dev : mtcaDummyData) (buf count f_pos : Z)
    (st : kstate U) : (Z * Z) * kstate U :=
  if write_error (control st) then ((- EFAULT, f_pos), st) else
  match checkAndCalculateTransferInformation count f_pos with
  | inl e => ((e, f_pos), st)
  | inr ti =>
      let n := ti_nBytesToTransfer ti in
      let '(e, k, dev') := area_write (spi_error (control st)) (user st) (ti_barStart ti)
                             (ti_offset ti) (Z.to_nat (n / 4)) buf dev in
      ((if e =? 0 then n else e, f_pos + 4 * Z.of_nat k), upd_dev d dev' st)
  end.
End Spec.

(** ** Refinement *)

Lemma bar_of_offset v : 0 <= v <= LOFF_MAX → Z.land (Z.shiftr v 60) 7 = v / 2 ^ 60.
Proof.
  unfold LOFF_MAX. intros Hv. rewrite Z.shiftr_div_pow2 by lia.
  change 7 with (Z.ones 3). rewrite Z.land_ones by lia. apply Z.mod_small.
  split; [apply Z.div_pos; lia|]. apply Z.div_lt_upper_bound; lia.
Qed.

Lemma offset_in_bar v : Z.land v 0x0FFFFFFFFFFFFFFF = v mod 2 ^ 60.
Proof. change 0x0FFFFFFFFFFFFFFF with (Z.ones 60). by rewrite Z.land_ones. Qed.

Lemma bar_geometry_select bar :
  bar_geometry bar = match select_bar bar with
                     | Some (b, size) => Some (Some b, size)
                     | None => if (0 <=? bar) && (bar <=? 5) then Some (None, 0) else None
                     end.
Proof.
  unfold bar_geometry, select_bar.
  destruct (Z.eqb_spec bar 0); [done|]. destruct (Z.eqb_spec bar 2); [done|].
  repeat case_Z; try done; lia.
Qed.

Lemma transfer_correct count v :
  0 <= v <= LOFF_MAX → 0 <= count <= MAX_RW_COUNT →
  checkAndCalculateTransferInformation count v = transfer_spec count v.
Proof.
  intros Hv Hc. unfold checkAndCalculateTransferInformation, transfer_spec.
  rewrite bar_of_offset, offset_in_bar, bar_geometry_select by done.
  rewrite Z.rem_mod_nonneg by lia. cbv zeta.
  destruct (select_bar (v / 2 ^ 60)) as [[b size]|] eqn:Eb.
  2: { destruct (_ =? 0); [|done]. destruct (count mod 4 =? 0); [|done].
       by destruct (_ && _). }
  destruct (select_bar_Some _ _ _ Eb) as [_ ->].
  destruct (v mod 4 =? 0); [|done]. destruct (count mod 4 =? 0); [|done]. cbn [negb andb].
  pose proof (Z.mod_pos_bound v (2 ^ 60) ltac:(lia)) as Hm.
  set (off := v mod 2 ^ 60) in *. set (size := match b with SystemBar => 128 | _ => _ end).
  assert (0 <= size <= 4096) as Hsz by (subst size; destruct b; lia).
  clearbody off size. unfold MAX_RW_COUNT in Hc.
  destruct (Z.ltb_spec size off), (Z.leb_spec off size); try lia; [done|].
  rewrite wrap64_small by lia. repeat f_equal.
  destruct (Z.ltb_spec size (off + count)); rewrite wrap32_small by (unfold is_u32; lia); lia.
Qed.

Section Refinement.
Context {U : Type} `{UserSpace U} `{ByteOrder}.
Implicit Types st : kstate U.

(** What the loops assume: the transfer lies in the bar [ti_bar] names. *)
Record transfer_ok (dev : mtcaDummyData) (ti : transfer_information) (n : Z) : Prop := {
  ok_bar : (ti_bar ti =? 0) = bool_decide (ti_barStart ti = SystemBar);
  ok_aligned : ti_offset ti mod 4 = 0;
  ok_low : 0 <= ti_offset ti;
  ok_high : ti_offset ti + 4 * n <= 4 * Z.of_nat (length (get_bar (ti_barStart ti) dev));
}.

Lemma bar_bytes_word i ws :
  0 <= i < Z.of_nat (length ws) → bar_bytes i 4 ws = bytes_of_u32 (nthz ws i).
Proof.
  intros Hi. unfold bar_bytes. rewrite (drop_S _ (nthz ws i)) by by apply lookup_nthz.
  change (bytes_of_words (?w :: ?l)) with (bytes_of_u32 w ++ bytes_of_words l).
  apply take_app_length'. by rewrite length_bytes_of_u32.
Qed.

Lemma holds_set t d dev st :
  (d < length (devs st))%nat →
  holds t d (set_owner (Some t) dev) (upd_dev d (set_owner (Some t) dev) st).
Proof. intros Hd. split; [by apply devs_upd_dev|done]. Qed.

Lemma exec_unlock_return_pos t d dev r p st :
  (d < length (devs st))%nat → devMutex dev = None →
  exec t (unlock_return_pos d r p) (upd_dev d (set_owner (Some t) dev) st) =
    Done ((r, p), upd_dev d dev st).
Proof.
  intros Hd Ho. unfold unlock_return_pos.
  rewrite (exec_unlock_dev _ _ _ _ _ (holds_set t _ dev _ Hd)), upd_dev_upd_dev.
  by rewrite set_owner_set_owner, <-Ho, set_owner_id.
Qed.

(** The arithmetic of one iteration: no wrap-around happens. *)
Lemma loop_offset dev ti n i :
  wf_dev n dev → ∀ m, transfer_ok dev ti m → 0 <= i < m →
  wrap32 (i * sizeof_u32) = 4 * i ∧
  wrap32 (ti_offset ti + 4 * i) = ti_offset ti + 4 * i ∧
  ti_offset ti / sizeof_u32 + i = (ti_offset ti + 4 * i) / 4 ∧
  0 <= (ti_offset ti + 4 * i) / 4 < Z.of_nat (length (get_bar (ti_barStart ti) dev)).
Proof.
  intros Hw m [_ Ha Hl Hh] Hi. rewrite (wf_dev_bar_length _ _ _ Hw) in *.
  unfold sizeof_u32.
  rewrite !wrap32_small by (unfold is_u32; destruct (ti_barStart ti); lia).
  destruct (ti_barStart ti); lia.
Qed.

Lemma read_words_refines t d dev ti buf n : ∀ i f_pos st,
  devs st !! d = Some dev → devMutex dev = None → wf_dev d dev →
  transfer_ok dev ti (i + Z.of_nat n) → 0 <= i →
  exec t (read_words d ti buf n i f_pos) (upd_dev d (set_owner (Some t) dev) st) =
    let '(e, k, u) := area_read dev (ti_barStart ti) (ti_offset ti + 4 * i) n
                        (user st) (buf + 4 * i) in
    Done ((if e =? 0 then ti_nBytesToTransfer ti else e, f_pos + 4 * Z.of_nat k),
          with_user u st).
Proof.
  induction n as [|n IH]; intros i f_pos st Hd Ho Hw Hok Hi; cbn [read_words area_read].
  { rewrite exec_unlock_return_pos, upd_dev_id by (done || by apply lookup_lt_Some in Hd).
    change (4 * Z.of_nat 0) with 0. rewrite Z.add_0_r. by destruct st. }
  pose proof (holds_locked t _ _ _ Hd) as Hh. cbv zeta.
  destruct (loop_offset _ _ _ i Hw _ Hok) as (->&->&->&Hr); [lia|].
  rewrite (exec_slotNr _ _ _ _ _ (proj1 Hh)), exec_preReadAction, (ok_bar _ _ _ Hok).
  destruct (_ && _).
  { change (negb (-1 =? 0)) with true. cbv iota.
    rewrite exec_unlock_return_pos, upd_dev_id by (done || by apply lookup_lt_Some in Hd).
    change (4 * Z.of_nat 0) with 0. rewrite Z.add_0_r. by destruct st. }
  change (negb (0 =? 0)) with false. cbv iota. rewrite exec_call. cbn [step_op].
  unfold on_bar, on_dev. rewrite (proj1 Hh), decide_True by done.
  rewrite get_bar_set_owner. unfold sizeof_u32.
  replace ((0 <=? _) && _) with true by lia. rewrite bar_bytes_word by done.
  change (user (upd_dev d _ st)) with (user st).
  destruct (copy_to_user _ _ _) as [u nleft]. cbn [outcome_bind].
  change (with_user u (upd_dev ?a ?b st)) with (upd_dev a b (with_user u st)).
  destruct (nleft =? 0); cbn [negb].
  - rewrite (IH (i + 1) (f_pos + 4) (with_user u st)) by (done || lia ||
      by replace (i + 1 + Z.of_nat n) with (i + Z.of_nat (S n)) by lia).
    replace (ti_offset ti + 4 * (i + 1)) with (ti_offset ti + 4 * i + 4) by lia.
    replace (buf + 4 * (i + 1)) with (buf + 4 * i + 4) by lia. cbn [user with_user].
    destruct (area_read _ _ _ _ _ _) as [[e k] u'].
    by replace (f_pos + 4 + 4 * Z.of_nat k) with (f_pos + 4 * Z.of_nat (S k)) by lia.
  - rewrite exec_unlock_return_pos, upd_dev_id by (done || by apply lookup_lt_Some in Hd).
    change (4 * Z.of_nat 0) with 0. by rewrite Z.add_0_r.
Qed.

Lemma transfer_ok_same dev dev' ti n d :
  wf_dev d dev → wf_dev d dev' → transfer_ok dev ti n → transfer_ok dev' ti n.
Proof.
  intros Hw Hw' [? ? ? Hh]. split; [done..|].
  rewrite (wf_dev_bar_length _ _ _ Hw) in Hh. by rewrite (wf_dev_bar_length _ _ _ Hw').
Qed.

Lemma write_words_refines t d ti buf n : ∀ i f_pos dev st,
  (d < length (devs st))%nat → devMutex dev = None → wf_dev d dev →
  transfer_ok dev ti (i + Z.of_nat n) → 0 <= i →
  control_owner st = None → signals st = [] →
  exec t (write_words d ti buf n i f_pos) (upd_dev d (set_owner (Some t) dev) st) =
    let '(e, k, dev') := area_write (spi_error (control st)) (user st) (ti_barStart ti)
                           (ti_offset ti + 4 * i) n (buf + 4 * i) dev in
    Done ((if e =? 0 then ti_nBytesToTransfer ti else e, f_pos + 4 * Z.of_nat k),
          upd_dev d dev' st).
Proof.
  induction n as [|n IH]; intros i f_pos dev st Hd Ho Hw Hok Hi Hc Hs;
    cbn [write_words area_write].
  { rewrite exec_unlock_return_pos by done.
    change (4 * Z.of_nat 0) with 0. by rewrite Z.add_0_r. }
  pose proof (holds_set t d dev st Hd) as Hh. cbv zeta.
  destruct (loop_offset _ _ _ i Hw _ Hok) as (->&->&->&Hr); [lia|].
  rewrite exec_call. cbn [step_op].
  unfold on_bar, on_dev. rewrite (proj1 Hh), decide_True by done.
  rewrite get_bar_set_owner. replace ((0 <=? _) && _) with true by lia.
  change (user (upd_dev d _ st)) with (user st).
  pose proof (copy_from_user_length (user st) (buf + 4 * i) 4) as Hlen.
  destruct (copy_from_user _ _ _) as [bs nleft]. cbn [outcome_bind fst] in *.
  pose proof (u32_of_bytes_range _ Hlen) as Hv. rewrite upd_dev_upd_dev.
  destruct (nleft =? 0); cbn [negb].
  2: { rewrite <-set_owner_set_bar, exec_unlock_return_pos
         by (done || by rewrite devMutex_set_bar).
       change (4 * Z.of_nat 0) with 0. by rewrite Z.add_0_r. }
  rewrite <-(get_bar_set_owner (ti_barStart ti) (Some t) dev).
  rewrite (exec_action_after_store _ _ (set_owner (Some t) dev) (ti_barStart ti))
    by (done || apply (ok_bar _ _ _ Hok)).
  rewrite word_write_set_owner.
  pose proof (wf_word_write (spi_error (control st)) (ti_barStart ti) (ti_offset ti + 4 * i)
                _ _ _ Hw Hv) as Hw'.
  pose proof (devMutex_word_write (spi_error (control st)) (ti_barStart ti)
    (ti_offset ti + 4 * i) (u32_of_bytes bs) dev) as Ho'. rewrite Ho in Ho'.
  destruct (word_write _ _ _ _ _) as [err dev']. cbn [fst snd] in *.
  destruct err; [change (negb (-1 =? 0)) with true|change (negb (0 =? 0)) with false];
    cbv iota.
  { rewrite exec_unlock_return_pos by done.
    change (4 * Z.of_nat 0) with 0. by rewrite Z.add_0_r. }
  assert (transfer_ok dev' ti (i + 1 + Z.of_nat n)) as Hok'.
  { replace (i + 1 + Z.of_nat n) with (i + Z.of_nat (S n)) by lia.
    by apply (transfer_ok_same dev _ _ _ d). }
  unfold sizeof_u32. rewrite IH by (done || lia).
  replace (ti_offset ti + 4 * (i + 1)) with (ti_offset ti + 4 * i + 4) by lia.
  replace (buf + 4 * (i + 1)) with (buf + 4 * i + 4) by lia.
  destruct (area_write _ _ _ _ _ _ _) as [[e k] dev''].
  by replace (f_pos + 4 + 4 * Z.of_nat k) with (f_pos + 4 * Z.of_nat (S k)) by lia.
Qed.

(** An accepted request lies in its bar. *)
Lemma transfer_accepted count v ti d dev :
  0 <= v <= LOFF_MAX → 0 <= count <= MAX_RW_COUNT → wf_dev d dev →
  checkAndCalculateTransferInformation count v = inr ti →
  transfer_ok dev ti (0 + Z.of_nat (Z.to_nat (ti_nBytesToTransfer ti / 4))).
Proof.
  intros Hv Hc Hw. rewrite transfer_correct by done. unfold transfer_spec.
  destruct (select_bar _) as [[b size]|] eqn:Eb; [|done].
  destruct (select_bar_Some _ _ _ Eb) as [Hb ->].
  destruct (_ && _) eqn:Eg; [|done]. intros [= <-].
  apply andb_true_iff in Eg as [[Hv4 Hc4]%andb_true_iff Hle].
  change (2 ^ 60) with 1152921504606846976 in *.
  split; cbn [ti_bar ti_barStart ti_offset ti_nBytesToTransfer]; [done|lia|lia|].
  rewrite (wf_dev_bar_length _ _ _ Hw). destruct b; lia.
Qed.

Lemma mtcaDummy_read_no_struct_refines t d dev buf count f_pos st :
  idle st → signals st = [] → devs st !! d = Some dev → wf_dev d dev →
  0 <= f_pos <= LOFF_MAX → 0 <= count <= MAX_RW_COUNT →
  exec t (mtcaDummy_read_no_struct d buf count f_pos) st =
    Done (read_no_struct_outcome dev buf count f_pos st).
Proof.
  intros Hi Hs Hd Hw Hp Hc. pose proof (idle_dev _ _ _ Hi Hd) as Ho.
  unfold mtcaDummy_read_no_struct, read_no_struct_outcome.
  rewrite exec_control_flag by (done || apply Hi).
  cbn [ctl_get]. destruct (read_error (control st)); [done|].
  destruct (checkAndCalculateTransferInformation count f_pos) as [e|ti] eqn:Et; [done|].
  rewrite (exec_lock_dev _ _ _ _ _ Hd Ho Hs).
  rewrite (read_words_refines _ _ dev)
    by (done || by apply (transfer_accepted count f_pos _ d)).
  rewrite !Z.mul_0_r, !Z.add_0_r. by destruct (area_read _ _ _ _ _ _) as [[e k] u].
Qed.

Lemma mtcaDummy_write_no_struct_refines t d dev buf count f_pos st :
  idle st → signals st = [] → devs st !! d = Some dev → wf_dev d dev →
  0 <= f_pos <= LOFF_MAX → 0 <= count <= MAX_RW_COUNT →
  exec t (mtcaDummy_write_no_struct d buf count f_pos) st =
    Done (write_no_struct_outcome d dev buf count f_pos st).
Proof.
  intros Hi Hs Hd Hw Hp Hc. pose proof (idle_dev _ _ _ Hi Hd) as Ho.
  unfold mtcaDummy_write_no_struct, write_no_struct_outcome.
  rewrite exec_control_flag by (done || apply Hi).
  cbn [ctl_get]. destruct (write_error (control st)); [done|].
  destruct (checkAndCalculateTransferInformation count f_pos) as [e|ti] eqn:Et; [done|].
  rewrite (exec_lock_dev _ _ _ _ _ Hd Ho Hs).
  rewrite (write_words_refines _ _ _ _ _ _ _ dev)
    by (done || apply Hi || (by apply lookup_lt_Some in Hd) ||
        by apply (transfer_accepted count f_pos _ d)).
  rewrite !Z.mul_0_r, !Z.add_0_r. by destruct (area_write _ _ _ _ _ _ _) as [[e k] dev'].
Qed.
End Refinement.

(** ** Properties of the request check *)

Lemma bar_offset_split bar off :
  0 <= off < 2 ^ 60 → (bar * 2 ^ 60 + off) / 2 ^ 60 = bar ∧ (bar * 2 ^ 60 + off) mod 2 ^ 60 = off.
Proof. change (2 ^ 60) with 1152921504606846976. lia. Qed.

(** C15: for every file position and count the kernel passes on, the check
    of [mtcadummy_rw_no_struct.c] accepts exactly the aligned requests that
    start in or at the end of an implemented bar, splits the position into bar
    and offset, and limits the transfer to the end of the bar, without
    wrap-around. *)
Theorem transfer_check_correct (count v : Z)
    (Hv : 0 <= v <= LOFF_MAX) (Hc : 0 <= count <= MAX_RW_COUNT) :
  checkAndCalculateTransferInformation count v = transfer_spec count v ∧
  ∀ ti, checkAndCalculateTransferInformation count v = inr ti →
    v = ti_bar ti * 2 ^ 60 + ti_offset ti ∧
    0 <= ti_nBytesToTransfer ti <= count ∧ ti_nBytesToTransfer ti mod 4 = 0 ∧
    0 <= ti_offset ti ∧ ti_offset ti + ti_nBytesToTransfer ti <= ti_barSizeInBytes ti.
Proof.
  rewrite transfer_correct by done. split; [done|]. intros ti. unfold transfer_spec.
  destruct (select_bar _) as [[b size]|] eqn:Eb; [|done].
  destruct (select_bar_Some _ _ _ Eb) as [_ ->].
  destruct (_ && _) eqn:Eg; [|done]. intros [= <-]. cbn.
  change (2 ^ 60) with 1152921504606846976 in *.
  apply andb_true_iff in Eg as [[? ?]%andb_true_iff ?]. destruct b; lia.
Qed.

Lemma transfer_check_correct_witness :
  checkAndCalculateTransferInformation 8 (2 * 2 ^ 60 + 4092) =
    transfer_spec 8 (2 * 2 ^ 60 + 4092).
Proof.
  apply (transfer_check_correct 8 (2 * 2 ^ 60 + 4092));
    unfold LOFF_MAX, MAX_RW_COUNT; lia.
Defined.

(** A position formed by adding an offset to an entry of
    [PCIEUNI_BAR_OFFSETS] addresses that offset of that bar; the bars 1, 3, 4
    and 5 are refused. *)
Theorem bar_offsets_roundtrip (bar : nat) (base off count : Z)
    (Hbase : PCIEUNI_BAR_OFFSETS !! bar = Some base)
    (Hoff : 0 <= off < 2 ^ 60) (Hc : 0 <= count <= MAX_RW_COUNT) :
  checkAndCalculateTransferInformation count (base + off) =
    match select_bar (Z.of_nat bar) with
    | Some (b, size) =>
        if (off mod 4 =? 0) && (count mod 4 =? 0) && (off <=? size)
        then inr (TransferInformation (Z.of_nat bar) off size b (b, size / 4)
                    (Z.min count (size - off)))
        else inl (- EFAULT)
    | None => inl (- EFAULT)
    end.
Proof.
  assert (base = Z.of_nat bar * 2 ^ 60 ∧ (bar < 6)%nat) as [-> Hbar].
  { pose proof (lookup_lt_Some _ _ _ Hbase) as Hl. split; [|done].
    by do 6 (destruct bar as [|bar]; [by injection Hbase as <-|]). }
  rewrite transfer_correct; [|unfold LOFF_MAX in *; change (2 ^ 60) with 1152921504606846976 in *; lia|done].
  unfold transfer_spec. destruct (bar_offset_split (Z.of_nat bar) off Hoff) as [-> ->].
  replace ((Z.of_nat bar * 2 ^ 60 + off) mod 4) with (off mod 4)
    by (change (2 ^ 60) with 1152921504606846976; lia). done.
Qed.

Lemma bar_offsets_roundtrip_witness :
  checkAndCalculateTransferInformation 4 (Z.shiftl 2 60 + 16) =
    inr (TransferInformation 2 16 4096 DmaBar (DmaBar, 1024) 4).
Proof.
  apply (bar_offsets_roundtrip 2 (Z.shiftl 2 60) 16 4);
    [reflexivity | split; [lia | reflexivity] | unfold MAX_RW_COUNT; lia].
Defined.

(** ** Properties of the transfers *)

Section Properties.
Context {U : Type} `{UserSpace U} `{ByteOrder}.

(** A transfer ends with success after all its words, or with an error before. *)
Definition transfer_end (e : Z) (k n : nat) : Prop :=
  (e = 0 ∧ k = n) ∨ ((e = - EIO ∨ e = - EFAULT) ∧ (k < n)%nat).

Lemma area_read_end dev b n : ∀ off u buf e k u',
  area_read dev b off n u buf = (e, k, u') → transfer_end e k n.
Proof.
  unfold transfer_end. induction n as [|n IH]; intros off u buf e k u'; cbn [area_read].
  { intros [= <- <- <-]. by left. }
  destruct (_ && _); [intros [= <- <- <-]; right; split; [by left|lia]|].
  destruct (copy_to_user _ _ _) as [u1 nleft]. destruct (nleft =? 0).
  - destruct (area_read _ _ _ _ _ _) as [[e' k'] u2] eqn:E. intros [= <- <- <-].
    destruct (IH _ _ _ _ _ _ E) as [[-> ->]|[? ?]]; [by left|right; split; [done|lia]].
  - intros [= <- <- <-]. right. split; [by right|lia].
Qed.

Lemma area_write_end spi u b n d : ∀ off buf dev e k dev',
  area_write spi u b off n buf dev = (e, k, dev') → wf_dev d dev →
  transfer_end e k n ∧ wf_dev d dev' ∧ devMutex dev' = devMutex dev ∧ inUse dev' = inUse dev.
Proof.
  unfold transfer_end. induction n as [|n IH]; intros off buf dev e k dev' E Hw;
    cbn [area_write] in E.
  { injection E as <- <- <-. split_and!; try done. by left. }
  pose proof (u32_of_bytes_range _ (copy_from_user_length u buf 4)) as Hv.
  destruct (copy_from_user u buf 4) as [bs nleft]. cbn [fst] in Hv.
  pose proof (wf_word_write spi b off _ _ _ Hw Hv) as Hw1.
  pose proof (devMutex_word_write spi b off (u32_of_bytes bs) dev) as Hm1.
  assert (inUse (word_write spi b off (u32_of_bytes bs) dev).2 = inUse dev) as Hu1
    by by destruct b.
  destruct (word_write _ _ _ _ _) as [err dev1]. cbn [fst snd] in *.
  destruct (nleft =? 0).
  - destruct err; [injection E as <- <- <-; split_and!; try done; right; split; [by left|lia]|].
    destruct (area_write _ _ _ _ _ _ _) as [[e' k'] dev2] eqn:E'. injection E as <- <- <-.
    destruct (IH _ _ _ _ _ _ E' Hw1) as (Hend & ? & ? & ?).
    split_and!; [|done|congruence..].
    destruct Hend as [[-> ->]|[? ?]]; [by left|right; split; [done|lia]].
  - injection E as <- <- <-. split_and!; [right; split; [by right|lia]| | |];
      [by apply wf_set_word|by rewrite devMutex_set_bar|by destruct b].
Qed.

(** The word a readable user buffer holds at [a]. *)
Definition user_word (u : U) (a : Z) : Z := u32_of_bytes (copy_from_user u a 4).1.

(** Writing to the DMA bar from a readable buffer stores word after word. *)
Lemma area_write_dma spi u n : ∀ off buf dev,
  (∀ j, 0 <= j < 4 * Z.of_nat n → is_Some (user_byte u (buf + j))) →
  0 <= off → off mod 4 = 0 → off / 4 + Z.of_nat n <= Z.of_nat (length (dmaBar dev)) →
  ∃ ws, area_write spi u DmaBar off n buf dev = (0, n, set_bar DmaBar ws dev) ∧
    length ws = length (dmaBar dev) ∧
    ∀ i, 0 <= i → nthz ws i = if (off / 4 <=? i) && (i <? off / 4 + Z.of_nat n)
                              then user_word u (buf + 4 * (i - off / 4)) else nthz (dmaBar dev) i.
Proof.
  induction n as [|n IH]; intros off buf dev Hu Hoff Ha Hlen; cbn [area_write].
  { exists (dmaBar dev). rewrite set_dmaBar_id. split_and!; [done..|]. intros i Hi.
    change (Z.of_nat 0) with 0. rewrite Z.add_0_r.
    by destruct (Z.leb_spec (off / 4) i), (Z.ltb_spec i (off / 4)); try lia. }
  pose proof (copy_from_user_ok u buf 4) as Hz. unfold user_word in *.
  destruct (copy_from_user u buf 4) as [bs nleft] eqn:Ebs. cbn [fst snd] in *.
  rewrite Hz by (intros j Hj; apply Hu; lia). change (0 =? 0) with true. cbv iota.
  cbn [word_write get_bar]. set (dev1 := set_bar DmaBar _ dev).
  destruct (IH (off + 4) (buf + 4) dev1) as (ws & -> & Hl & Hws); [|lia|lia| |].
  { intros j Hj. rewrite <-Z.add_assoc. apply Hu. lia. }
  { unfold dev1. cbn. rewrite length_setz. lia. }
  exists ws. unfold dev1. rewrite set_bar_set_bar. split; [done|].
  split; [by rewrite Hl; unfold dev1; cbn; rewrite length_setz|]. intros i Hi.
  rewrite Hws by done. replace ((off + 4) / 4) with (off / 4 + 1) by lia.
  unfold dev1. cbn [dmaBar set_bar].
  destruct (decide (i = off / 4)) as [->|Hne].
  - replace (off / 4 + 1 <=? off / 4) with false by lia. cbn [andb].
    rewrite nthz_setz_eq by lia. rewrite Z.leb_refl, (proj2 (Z.ltb_lt _ _)) by lia. cbn [andb].
    replace (buf + 4 * (off / 4 - off / 4)) with buf by lia. by rewrite Ebs.
  - rewrite nthz_setz_ne by lia.
    replace (off / 4 + 1 + Z.of_nat n) with (off / 4 + Z.of_nat (S n)) by lia.
    destruct (Z.leb_spec (off / 4 + 1) i), (Z.leb_spec (off / 4) i); try lia; [|done].
    by replace (buf + 4 + 4 * (i - (off / 4 + 1))) with (buf + 4 * (i - off / 4)) by lia.
Qed.

(** Reading the DMA bar into a writable buffer copies word after word. *)
Lemma area_read_dma dev n : ∀ off u buf,
  (∀ j, 0 <= j < 4 * Z.of_nat n → user_writable u (buf + j) = true) →
  0 <= off → off mod 4 = 0 →
  ∃ u', area_read dev DmaBar off n u buf = (0, n, u') ∧
    ∀ x, user_byte u' x =
      if (0 <=? x - buf) && (x - buf <? 4 * Z.of_nat n)
      then bytes_of_u32 (nthz (dmaBar dev) (off / 4 + (x - buf) / 4)) !! Z.to_nat ((x - buf) mod 4)
      else user_byte u x.
Proof.
  induction n as [|n IH]; intros off u buf Hu Hoff Ha; cbn [area_read bool_decide andb].
  { exists u. split; [done|]. intros x. change (4 * Z.of_nat 0) with 0.
    by destruct (Z.leb_spec 0 (x - buf)), (Z.ltb_spec (x - buf) 0); try lia. }
  cbn [get_bar]. rewrite bool_decide_eq_false_2 by done. cbn [andb].
  set (bs := bytes_of_u32 _).
  assert (length bs = 4%nat) as Hbs by apply length_bytes_of_u32.
  pose proof (copy_to_user_ok u buf bs) as Hz. pose proof (copy_to_user_byte u buf bs) as Hb.
  pose proof (copy_to_user_writable u buf bs) as Hwr.
  destruct (copy_to_user u buf bs) as [u1 nleft]. cbn [fst snd] in *.
  rewrite Hz in * by (intros j Hj; apply Hu; lia). change (0 =? 0) with true. cbv iota.
  destruct (IH (off + 4) u1 (buf + 4)) as (u' & -> & Hu'); [|lia..|].
  { intros j Hj. rewrite Hwr, <-Z.add_assoc. apply Hu. lia. }
  exists u'. split; [done|]. intros x. rewrite Hu', Hb, Hbs.
  change (Z.of_nat 4 - 0) with 4.
  destruct (Z.leb_spec 0 (x - (buf + 4))), (Z.ltb_spec (x - (buf + 4)) (4 * Z.of_nat n)),
    (Z.leb_spec 0 (x - buf)), (Z.ltb_spec (x - buf) (4 * Z.of_nat (S n))),
    (Z.ltb_spec (x - buf) 4); try lia; cbn [andb]; try done.
  - replace ((off + 4) / 4 + (x - (buf + 4)) / 4) with (off / 4 + (x - buf) / 4) by lia.
    by replace ((x - (buf + 4)) mod 4) with ((x - buf) mod 4) by lia.
  - unfold bs. replace (off / 4 + (x - buf) / 4) with (off / 4) by lia.
    by replace ((x - buf) mod 4) with (x - buf) by lia.
Qed.

(** The bytes of a word read from the user. *)
Lemma bytes_of_user_word u a j :
  (∀ i, (i < 4)%nat → is_Some (user_byte u (a + Z.of_nat i))) → (j < 4)%nat →
  bytes_of_u32 (user_word u a) !! j = user_byte u (a + Z.of_nat j).
Proof.
  intros Hu Hj. unfold user_word.
  rewrite bytes_of_u32_of_bytes by apply copy_from_user_length.
  symmetry. apply copy_from_user_copied. rewrite copy_from_user_ok by done. lia.
Qed.

Section Operations.
Context (t d : nat) (dev : mtcaDummyData) (st : kstate U).
Context (Hi : idle st) (Hs : signals st = []).
Context (Hd : devs st !! d = Some dev) (Hw : wf_dev d dev).

(** What the caller learns: on success the position has advanced by the returned
    number of bytes, at most [count]; on an error it has advanced by the words
    transferred before it. *)
Definition position_advance (count f_pos ret f_pos' : Z) : Prop :=
  (0 <= ret <= count ∧ f_pos' = f_pos + ret) ∨
  ((ret = - EIO ∨ ret = - EFAULT) ∧ f_pos <= f_pos' ∧ (f_pos' = f_pos ∨ f_pos' < f_pos + count) ∧
   (f_pos' - f_pos) mod 4 = 0).

Lemma position_after count f_pos ti e k :
  0 <= f_pos <= LOFF_MAX → 0 <= count <= MAX_RW_COUNT →
  checkAndCalculateTransferInformation count f_pos = inr ti →
  transfer_end e k (Z.to_nat (ti_nBytesToTransfer ti / 4)) →
  position_advance count f_pos (if e =? 0 then ti_nBytesToTransfer ti else e)
    (f_pos + 4 * Z.of_nat k).
Proof.
  intros Hp Hc. rewrite transfer_correct by done. unfold transfer_spec, transfer_end.
  destruct (select_bar _) as [[b size]|] eqn:Eb; [|done].
  destruct (select_bar_Some _ _ _ Eb) as [_ ->].
  destruct (_ && _) eqn:Eg; [|done]. intros [= <-]. cbn [ti_nBytesToTransfer].
  apply andb_true_iff in Eg as [[? ?]%andb_true_iff ?].
  set (n := Z.min count _). assert (0 <= n <= count ∧ n mod 4 = 0) as [? ?].
  { subst n. change (2 ^ 60) with 1152921504606846976 in *. destruct b; lia. }
  intros [[-> ->]|[He Hk]].
  - left. change (0 =? 0) with true. cbv iota. lia.
  - right. unfold EIO, EFAULT in *. replace (e =? 0) with false by lia. lia.
Qed.

(** C5: the read operation of the pcieunidummy device terminates without a
    fault; its result is what [read_no_struct_outcome] specifies on every
    branch; it changes nothing but the user's memory and the file position,
    which advances with the words transferred; all mutexes are free again. *)
Theorem no_struct_read_correct (buf count f_pos : Z)
    (Hp : 0 <= f_pos <= LOFF_MAX) (Hc : 0 <= count <= MAX_RW_COUNT) :
  ∃ ret f_pos' st',
    exec t (mtcaDummy_read_no_struct d buf count f_pos) st = Done ((ret, f_pos'), st') ∧
    ((ret, f_pos'), st') = read_no_struct_outcome dev buf count f_pos st ∧
    position_advance count f_pos ret f_pos' ∧ st' = with_user (user st') st ∧ idle st'.
Proof.
  rewrite (mtcaDummy_read_no_struct_refines t d dev) by done.
  assert (position_advance count f_pos (- EFAULT) f_pos) as Herr.
  { right. split; [by right|]. unfold EFAULT. lia. }
  unfold read_no_struct_outcome. destruct (read_error _).
  { do 3 eexists. split_and!; try done. by destruct st. }
  destruct (checkAndCalculateTransferInformation count f_pos) as [e|ti] eqn:Et.
  { pose proof Et as Et'. rewrite transfer_correct in Et' by done. unfold transfer_spec in Et'.
    do 3 eexists. split_and!; try done; [|by destruct st].
    destruct (select_bar _) as [[]|]; [destruct (_ && _)|]; simplify_eq; done. }
  destruct (area_read _ _ _ _ _ _) as [[e k] u] eqn:E.
  do 3 eexists. split_and!; try done.
  apply area_read_end in E. by eapply position_after.
Qed.

(** C6: the write operation of the pcieunidummy device terminates without
    a fault, with the result and effect [write_no_struct_outcome] specifies on
    every branch; only the device changes, it stays well-formed, and the file
    position advances with the words transferred. *)
Theorem no_struct_write_correct (buf count f_pos : Z)
    (Hp : 0 <= f_pos <= LOFF_MAX) (Hc : 0 <= count <= MAX_RW_COUNT) :
  ∃ ret f_pos' dev',
    exec t (mtcaDummy_write_no_struct d buf count f_pos) st =
      Done ((ret, f_pos'), upd_dev d dev' st) ∧
    ((ret, f_pos'), upd_dev d dev' st) = write_no_struct_outcome d dev buf count f_pos st ∧
    position_advance count f_pos ret f_pos' ∧
    wf_dev d dev' ∧ devMutex dev' = None ∧ inUse dev' = inUse dev.
Proof.
  rewrite (mtcaDummy_write_no_struct_refines t d dev) by done.
  pose proof (idle_dev _ _ _ Hi Hd) as Ho.
  assert (position_advance count f_pos (- EFAULT) f_pos) as Herr.
  { right. split; [by right|]. unfold EFAULT. lia. }
  unfold write_no_struct_outcome. destruct (write_error _).
  { eexists _, _, dev. rewrite upd_dev_id by done. by split_and!. }
  destruct (checkAndCalculateTransferInformation count f_pos) as [e|ti] eqn:Et.
  { pose proof Et as Et'. rewrite transfer_correct in Et' by done. unfold transfer_spec in Et'.
    eexists _, _, dev. rewrite upd_dev_id by done. split_and!; try done.
    destruct (select_bar _) as [[]|]; [destruct (_ && _)|]; simplify_eq; done. }
  destruct (area_write _ _ _ _ _ _ _) as [[e k] dev'] eqn:E.
  destruct (area_write_end _ _ _ _ d _ _ _ _ _ _ E Hw) as (?&?&?&?).
  eexists _, _, dev'. split_and!; try done; [by eapply position_after|congruence].
Qed.

(** The check of a one-word request to a place a D32 request can reach. *)
Lemma transfer_one_word r b i :
  is_device_rw r → d32_target r = Some (b, i) →
  0 <= barx_rw r * 2 ^ 60 + offset_rw r <= LOFF_MAX ∧
  ∃ size, checkAndCalculateTransferInformation 4 (barx_rw r * 2 ^ 60 + offset_rw r) =
    inr (TransferInformation (barx_rw r) (offset_rw r) size b (b, size / 4) 4).
Proof.
  intros (Ho&_) Ht. unfold d32_target, is_u32 in *.
  destruct (select_bar (barx_rw r)) as [[b' size]|] eqn:Eb; [|done].
  destruct (select_bar_Some _ _ _ Eb) as [_ Hsz].
  destruct (_ && _) eqn:Eg; [|done]. injection Ht as -> <-.
  assert (0 <= barx_rw r <= 2) as Hbar.
  { unfold select_bar in Eb. destruct (Z.eqb_spec (barx_rw r) 0); [lia|].
    destruct (Z.eqb_spec (barx_rw r) 2); [lia|done]. }
  assert (0 <= barx_rw r * 2 ^ 60 + offset_rw r <= LOFF_MAX) as Hp.
  { unfold LOFF_MAX. change (2 ^ 60) with 1152921504606846976. lia. }
  split; [done|]. exists size.
  rewrite transfer_correct by (done || (unfold MAX_RW_COUNT; lia)). unfold transfer_spec.
  destruct (bar_offset_split (barx_rw r) (offset_rw r)) as [-> ->].
  { change (2 ^ 60) with 1152921504606846976. lia. }
  rewrite Eb. change (4 mod 4 =? 0) with true.
  apply andb_true_iff in Eg as [Ea Es].
  replace ((barx_rw r * 2 ^ 60 + offset_rw r) mod 4) with (offset_rw r mod 4)
    by (change (2 ^ 60) with (2 ^ 58 * 4); rewrite Z.mul_assoc, Z.add_comm, Z.mod_add; lia).
  rewrite Ea. replace (offset_rw r <=? size) with true by lia. cbn [andb].
  by replace (Z.min 4 (size - offset_rw r)) with 4 by (destruct b; lia).
Qed.

(** C21: the two interfaces are equivalent for single words: writing a word
    through the request structure and writing the same word at the
    corresponding file position have the same effect on the device, the
    firmware's action included, and the same result up to the number of bytes
    of a request. *)
Theorem interfaces_write_alike (rbuf rcount buf : Z) (r : device_rw) (b : bar_id) (i : Z)
    (Hreq : request_at (user st) rbuf rcount = Some r)
    (Hm : mode_rw r = RW_D32) (Ht : d32_target r = Some (b, i))
    (Hword : copy_from_user (user st) buf 4 = (bytes_of_u32 (data_rw r), 0)) :
  ∃ dev' ret f_pos',
    exec t (mtcaDummy_write d rbuf rcount) st = Done (ret, upd_dev d dev' st) ∧
    exec t (mtcaDummy_write_no_struct d buf 4 (barx_rw r * 2 ^ 60 + offset_rw r)) st =
      Done ((if ret =? sizeof_device_rw then 4 else ret, f_pos'), upd_dev d dev' st).
Proof.
  pose proof (request_at_range _ _ _ _ Hreq) as Hr.
  destruct (transfer_one_word r b i Hr Ht) as (Hp & size & Hti).
  assert (i = offset_rw r / 4) as ->.
  { unfold d32_target in Ht. destruct (select_bar _) as [[? ?]|]; [|done].
    destruct (_ && _); by simplify_eq. }
  rewrite (mtcaDummy_write_refines t d dev) by done.
  rewrite (mtcaDummy_write_no_struct_refines t d dev) by (done || (unfold MAX_RW_COUNT; lia)).
  unfold write_outcome, write_no_struct_outcome. rewrite Hreq, Hti.
  destruct (write_error (control st)).
  { exists dev. do 2 eexists. by rewrite upd_dev_id. }
  unfold struct_effect. rewrite Hm, Ht. change (RW_D32 =? RW_D32) with true. cbv iota beta.
  cbn [ti_barStart ti_offset ti_nBytesToTransfer area_write Z.div].
  change (Z.to_nat (4 / 4)) with 1%nat. cbn [area_write]. rewrite Hword.
  change (0 =? 0) with true. cbv iota.
  rewrite u32_of_bytes_of_u32, wrap32_small by apply Hr.
  destruct (word_write _ _ _ _ _) as [err dev']. exists dev'.
  destruct err; do 2 eexists; by split.
Qed.

(** C38: a word that cannot be read from the user's buffer is not left
    alone: the write fails with [-EFAULT] and no action is triggered, but the
    addressed word of the bar has been overwritten with zero bytes. *)
Theorem faulting_write_clears_word (buf : Z) (r : device_rw) (b : bar_id) (i : Z)
    (Hr : is_device_rw r) (Ht : d32_target r = Some (b, i))
    (Hbuf : user_byte (user st) buf = None) (Herr : write_error (control st) = false) :
  exec t (mtcaDummy_write_no_struct d buf 4 (barx_rw r * 2 ^ 60 + offset_rw r)) st =
    Done ((- EFAULT, barx_rw r * 2 ^ 60 + offset_rw r),
      upd_dev d (set_bar b (setz i (u32_of_bytes [x00; x00; x00; x00]) (get_bar b dev)) dev) st).
Proof.
  destruct (transfer_one_word r b i Hr Ht) as (Hp & size & Hti).
  assert (i = offset_rw r / 4) as ->.
  { unfold d32_target in Ht. destruct (select_bar _) as [[? ?]|]; [|done].
    destruct (_ && _); by simplify_eq. }
  rewrite (mtcaDummy_write_no_struct_refines t d dev) by (done || (unfold MAX_RW_COUNT; lia)).
  unfold write_no_struct_outcome. rewrite Herr, Hti. cbv zeta.
  cbn [ti_barStart ti_offset ti_nBytesToTransfer]. change (Z.to_nat (4 / 4)) with 1%nat.
  cbn [area_write]. pose proof (copy_from_user_unreadable (user st) buf 3 Hbuf) as Hz.
  cbn [replicate] in Hz. rewrite Hz. change (Z.of_nat 4 =? 0) with false. cbv iota beta.
  change (4 * Z.of_nat 0) with 0. by rewrite Z.add_0_r.
Qed.

(** The check of an aligned request inside the DMA bar. *)
Lemma transfer_dma count off :
  0 <= off → off mod 4 = 0 → 0 <= count → count mod 4 = 0 → off + count <= 4096 →
  checkAndCalculateTransferInformation count (2 * 2 ^ 60 + off) =
    inr (TransferInformation 2 off 4096 DmaBar (DmaBar, 1024) count).
Proof.
  intros. rewrite transfer_correct.
  2: { unfold LOFF_MAX. change (2 ^ 60) with 1152921504606846976. lia. }
  2: { unfold MAX_RW_COUNT. lia. }
  unfold transfer_spec. destruct (bar_offset_split 2 off) as [-> ->].
  { change (2 ^ 60) with 1152921504606846976. lia. }
  change (select_bar 2) with (Some (DmaBar, 4096)). cbv iota beta.
  replace ((2 * 2 ^ 60 + off) mod 4) with (off mod 4)
    by (change (2 ^ 60) with 1152921504606846976; lia).
  rewrite (proj2 (Z.eqb_eq _ _)), (proj2 (Z.eqb_eq (count mod 4) _)), (proj2 (Z.leb_le _ _))
    by lia. cbn [andb]. by rewrite Z.min_l by lia.
Qed.

(** C34: a block written to the DMA bar through the file position is read back
    byte for byte, from any readable into any writable buffer. *)
Theorem dma_write_then_read (wbuf rbuf count off : Z)
    (Hoff : 0 <= off ∧ off mod 4 = 0) (Hc : 0 <= count ∧ count mod 4 = 0)
    (Hend : off + count <= MTCADUMMY_DMA_SIZE)
    (Hr : ∀ j, 0 <= j < count → is_Some (user_byte (user st) (wbuf + j)))
    (Hwr : ∀ j, 0 <= j < count → user_writable (user st) (rbuf + j) = true)
    (Herr : read_error (control st) = false ∧ write_error (control st) = false) :
  ∃ st', exec t ('(x, _) ← mtcaDummy_write_no_struct d wbuf count (2 * 2 ^ 60 + off);
                 '(y, _) ← mtcaDummy_read_no_struct d rbuf count (2 * 2 ^ 60 + off);
                 mret (x, y)) st = Done ((count, count), st') ∧
    ∀ j, 0 <= j < count → user_byte (user st') (rbuf + j) = user_byte (user st) (wbuf + j).
Proof.
  destruct Hoff as [Hoff Ha], Hc as [Hc Hc4], Herr as [Her Hew].
  unfold MTCADUMMY_DMA_SIZE in Hend.
  assert (0 <= 2 * 2 ^ 60 + off <= LOFF_MAX ∧ 0 <= count <= MAX_RW_COUNT) as [Hp Hm].
  { unfold LOFF_MAX, MAX_RW_COUNT. change (2 ^ 60) with 1152921504606846976. lia. }
  pose proof (transfer_dma count off Hoff Ha Hc Hc4 Hend) as Hti.
  pose proof (wf_dev_bar_length _ _ DmaBar Hw) as Hl. cbn [get_bar] in Hl.
  assert (4 * Z.of_nat (Z.to_nat (count / 4)) = count) as Hn by lia.
  rewrite exec_bind, (mtcaDummy_write_no_struct_refines t d dev) by done.
  unfold write_no_struct_outcome. rewrite Hew, Hti. cbv zeta.
  cbn [ti_barStart ti_offset ti_nBytesToTransfer].
  destruct (area_write_dma (spi_error (control st)) (user st) (Z.to_nat (count / 4)) off wbuf dev)
    as (ws & E & Hlw & Hws); [by rewrite Hn|done|done|lia|].
  destruct (area_write_end _ _ _ _ d _ _ _ _ _ _ E Hw) as (_ & Hw' & Ho' & _).
  rewrite E. set (dev' := set_bar DmaBar ws dev) in *. cbn [outcome_bind].
  rewrite exec_bind, (mtcaDummy_read_no_struct_refines t d dev'); try done.
  2: { apply idle_upd_dev; [done|]. by rewrite Ho', (idle_dev _ _ _ Hi Hd). }
  2: { apply devs_upd_dev. by apply lookup_lt_Some in Hd. }
  unfold read_no_struct_outcome. cbn [control upd_dev with_devs user]. rewrite Her, Hti. cbv zeta.
  cbn [ti_barStart ti_offset ti_nBytesToTransfer].
  destruct (area_read_dma dev' (Z.to_nat (count / 4)) off (user st) rbuf) as (u' & -> & Hu');
    [by rewrite Hn|done..|].
  change (0 =? 0) with true. cbn [outcome_bind]. eexists. split; [done|].
  intros j Hj. cbn [user with_user]. rewrite Hu', Hn.
  replace (rbuf + j - rbuf) with j by lia.
  rewrite (proj2 (Z.leb_le _ _)), (proj2 (Z.ltb_lt _ _)) by lia. cbn [andb].
  unfold dev'. cbn [dmaBar set_bar]. rewrite Hws by lia.
  rewrite (proj2 (Z.leb_le _ _)), (proj2 (Z.ltb_lt _ _)) by lia. cbn [andb].
  rewrite bytes_of_user_word; [f_equal; lia| |lia].
  intros i Hi'. rewrite <-Z.add_assoc. apply Hr. lia.
Qed.
End Operations.
End Properties.

(** ** Examples on a freshly loaded driver *)

#[local] Existing Instance little_endian.

(** Words at address 2000 of the user's memory. *)
Definition sample_words (ws : list Z) : kstate (gmap Z byte) :=
  loaded_state 240 (umem_put 2000 (bytes_of_words ws) ∅).

Lemma no_struct_read_correct_witness :
  ∃ ret f_pos' st',
    exec 0 (mtcaDummy_read_no_struct 6 2000 8 0x3C) (sample_words [0; 0]) =
      Done ((ret, f_pos'), st') ∧
    ((ret, f_pos'), st') = read_no_struct_outcome (fresh_device 240 6) 2000 8 0x3C
      (sample_words [0; 0]) ∧
    position_advance 8 0x3C ret f_pos' ∧
    st' = with_user (user st') (sample_words [0; 0]) ∧ idle st'.
Proof.
  apply (no_struct_read_correct 0 6 (fresh_device 240 6)); first
    [ on_loaded | unfold LOFF_MAX; lia | unfold MAX_RW_COUNT; lia ].
Defined.

Lemma no_struct_write_correct_witness :
  ∃ ret f_pos' dev',
    exec 0 (mtcaDummy_write_no_struct 6 2000 8 0x44) (sample_words [1; 5]) =
      Done ((ret, f_pos'), upd_dev 6 dev' (sample_words [1; 5])) ∧
    ((ret, f_pos'), upd_dev 6 dev' (sample_words [1; 5])) =
      write_no_struct_outcome 6 (fresh_device 240 6) 2000 8 0x44 (sample_words [1; 5]) ∧
    position_advance 8 0x44 ret f_pos' ∧
    wf_dev 6 dev' ∧ devMutex dev' = None ∧ inUse dev' = inUse (fresh_device 240 6).
Proof.
  apply (no_struct_write_correct 0 6 (fresh_device 240 6)); first
    [ on_loaded | unfold LOFF_MAX; lia | unfold MAX_RW_COUNT; lia ].
Defined.

Lemma interfaces_write_alike_witness :
  ∃ dev' ret f_pos',
    exec 0 (mtcaDummy_write 6 2000 24) (sample_words [0x44; 1; 2; 0; 0; 0; 1]) =
      Done (ret, upd_dev 6 dev' (sample_words [0x44; 1; 2; 0; 0; 0; 1])) ∧
    exec 0 (mtcaDummy_write_no_struct 6 2024 4 0x44) (sample_words [0x44; 1; 2; 0; 0; 0; 1]) =
      Done ((if ret =? 24 then 4 else ret, f_pos'),
            upd_dev 6 dev' (sample_words [0x44; 1; 2; 0; 0; 0; 1])).
Proof.
  apply (interfaces_write_alike 0 6 (fresh_device 240 6)) with
    (r := DeviceRw 0x44 1 RW_D32 0 0 0) (b := SystemBar) (i := 17);
    try on_loaded; vm_compute; reflexivity.
Defined.

Lemma faulting_write_clears_word_witness :
  exec 0 (mtcaDummy_write_no_struct 6 5000 4 (0 * 2 ^ 60 + 0x4C)) (sample_words []) =
    Done ((- EFAULT, 0 * 2 ^ 60 + 0x4C), upd_dev 6 (set_bar SystemBar
      (setz 19 (u32_of_bytes [x00; x00; x00; x00]) (get_bar SystemBar (fresh_device 240 6)))
      (fresh_device 240 6)) (sample_words [])).
Proof.
  apply (faulting_write_clears_word 0 6 (fresh_device 240 6) (sample_words [])
    (loaded_idle _ _) eq_refl eq_refl (wf_fresh_device _ _) 5000
    (DeviceRw 0x4C 0 RW_D32 0 0 0) SystemBar 19); try reflexivity.
  repeat split; vm_compute; congruence.
Defined.

Lemma dma_write_then_read_witness :
  ∃ st', exec 0 ('(x, _) ← mtcaDummy_write_no_struct 6 2000 8 (2 * 2 ^ 60 + 4088);
                 '(y, _) ← mtcaDummy_read_no_struct 6 2004 8 (2 * 2 ^ 60 + 4088);
                 mret (x, y)) (sample_words [11; 22; 33]) = Done ((8, 8), st') ∧
    ∀ j, 0 <= j < 8 → user_byte (user st') (2004 + j) =
      user_byte (user (sample_words [11; 22; 33])) (2000 + j).
Proof.
  apply (dma_write_then_read 0 6 (fresh_device 240 6) (sample_words [11; 22; 33])
    (loaded_idle _ _) eq_refl eq_refl (wf_fresh_device _ _) 2000 2004 8 4088);
    try (split; [lia | reflexivity]).
  - unfold MTCADUMMY_DMA_SIZE. lia.
  - intros j Hj. rewrite <-(Z2Nat.id j) by lia. assert (Z.to_nat j < 8)%nat as Hj' by lia.
    revert Hj'. generalize (Z.to_nat j). clear. intros j Hj.
    do 8 (destruct j as [|j]; [vm_compute; eauto|]). lia.
  - intros j Hj. rewrite <-(Z2Nat.id j) by lia. assert (Z.to_nat j < 8)%nat as Hj' by lia.
    revert Hj'. generalize (Z.to_nat j). clear. intros j Hj.
    do 8 (destruct j as [|j]; [vm_compute; reflexivity|]). lia.
  - split; reflexivity.
Defined.
