(* ===== verification/Ioctl.v ===== *)
(** * The ioctl operations ([mtcadummy_drv.c])

    The three copies of the ioctl handler, [mtcaDummy_ioctl],
    [llrfDummy_ioctl] and [pcieuniDummy_ioctl]. The encoding of ioctl numbers
    belongs to the kernel headers and is the interface [IoctlEncoding]; the
    handlers are modelled for kernels from version 5.0 on, where [access_ok]
    has no direction argument. *)

From S2P Require Import Prelude Abi Kernel UserMem Firmware ModuleInit StructRW.
Local Open Scope Z_scope.
Local Open Scope c_scope.

(** ** The encoding of ioctl numbers *)

Class IoctlEncoding := {
  IOC_TYPE : Z → Z;
  IOC_NR : Z → Z;
  IOC_SIZE : Z → Z;
  IOWR : Z → Z → Z → Z;
  IOC_TYPE_IOWR ty nr sz :
    0 <= ty < 256 → 0 <= nr < 256 → 0 <= sz < 8192 → IOC_TYPE (IOWR ty nr sz) = ty;
  IOC_NR_IOWR ty nr sz :
    0 <= ty < 256 → 0 <= nr < 256 → 0 <= sz < 8192 → IOC_NR (IOWR ty nr sz) = nr;
  IOC_SIZE_IOWR ty nr sz :
    0 <= ty < 256 → 0 <= nr < 256 → 0 <= sz < 8192 → IOC_SIZE (IOWR ty nr sz) = sz;
}.

(** The layout of [asm-generic/ioctl.h]: two bits of direction, fourteen of
    size, eight of type, eight of number. *)
#[refine, local] Instance asm_generic_ioctl : IoctlEncoding := {
  IOC_TYPE cmd := (cmd / 256) mod 256;
  IOC_NR cmd := cmd mod 256;
  IOC_SIZE cmd := (cmd / 65536) mod 16384;
  IOWR ty nr sz := 3 * 1073741824 + sz * 65536 + ty * 256 + nr;
}.
Proof.
  - intros. lia.
  - intros. lia.
  - intros. lia.
Defined.

(** ** Model *)

Definition sizeof_int : Z := 4.

Definition PCIEDOOCS_IOC : Z := 48. (* '0' *)
Definition PCIEDOOCS_IOC_MINNR : Z := 60.
Definition PCIEDOOCS_IOC_MAXNR : Z := 63.
Definition PCIEDOOCS_IOC_DMA_MINNR : Z := 70.
Definition PCIEDOOCS_IOC_DMA_MAXNR : Z := 74.

Definition LLRFDRV_IOC : Z := 48. (* '0' *)
Definition LLRFDRV_IOC_MINNR : Z := 20.
Definition LLRFDRV_IOC_MAXNR : Z := 22.

Definition PCIEUNI_IOC : Z := 85. (* 'U' *)
Definition PCIEUNI_IOC_MINNR : Z := 60.
Definition PCIEUNI_IOC_MAXNR : Z := 63.
Definition PCIEUNI_IOC_DMA_MINNR : Z := 70.
Definition PCIEUNI_IOC_DMA_MAXNR : Z := 74.

Section Model.
Context `{ByteOrder} `{IoctlEncoding}.

Definition PCIEDEV_PHYSICAL_SLOT : Z := IOWR PCIEDOOCS_IOC 60 sizeof_int.
Definition PCIEDEV_DRIVER_VERSION : Z := IOWR PCIEDOOCS_IOC 61 sizeof_int.
Definition PCIEDEV_FIRMWARE_VERSION : Z := IOWR PCIEDOOCS_IOC 62 sizeof_int.
Definition PCIEDEV_READ_DMA : Z := IOWR PCIEDOOCS_IOC 72 sizeof_int.

Definition LLRFDRV_PHYSICAL_SLOT : Z := IOWR LLRFDRV_IOC 20 sizeof_int.
Definition LLRFDRV_DRIVER_VERSION : Z := IOWR LLRFDRV_IOC 21 sizeof_int.
Definition LLRFDRV_FIRMWARE_VERSION : Z := IOWR LLRFDRV_IOC 22 sizeof_int.

Definition PCIEUNI_PHYSICAL_SLOT : Z := IOWR PCIEUNI_IOC 60 sizeof_int.
Definition PCIEUNI_DRIVER_VERSION : Z := IOWR PCIEUNI_IOC 61 sizeof_int.
Definition PCIEUNI_FIRMWARE_VERSION : Z := IOWR PCIEUNI_IOC 62 sizeof_int.
Definition PCIEUNI_READ_DMA : Z := IOWR PCIEUNI_IOC 72 sizeof_int.

(** The case [..._PHYSICAL_SLOT] of the switch, with the unlock and the return
    that follow it. *)
Definition ioctl_physical_slot (privateData : nat) (arg : Z) : prog Z :=
  '(bytes, nleft) ← call (CopyFromUser arg (Z.to_nat sizeof_device_ioctrl_data));
  if negb (nleft =? 0) then unlock_return privateData (- EFAULT) else
  let dataStruct := ioctrl_data_of_bytes bytes in
  slotNr ← call (GetSlotNr privateData);
  let dataStruct :=
    DeviceIoctrlData (ioctrl_offset dataStruct) slotNr (ioctrl_cmd dataStruct)
      (ioctrl_reserved dataStruct) in
  nleft ← call (CopyToUser arg (bytes_of_ioctrl_data dataStruct));
  unlock_return privateData (if negb (nleft =? 0) then - EFAULT else 0).

(** The cases [..._DRIVER_VERSION] and [..._FIRMWARE_VERSION]. *)
Definition ioctl_version (privateData : nat) (arg : Z) : prog Z :=
  '(bytes, nleft) ← call (CopyFromUser arg (Z.to_nat sizeof_device_ioctrl_data));
  if negb (nleft =? 0) then unlock_return privateData (- EFAULT) else
  let dataStruct := ioctrl_data_of_bytes bytes in
  let dataStruct :=
    DeviceIoctrlData MTCADUMMY_DRV_VERSION_MIN MTCADUMMY_DRV_VERSION_MAJ
      (ioctrl_cmd dataStruct) (ioctrl_reserved dataStruct) in
  nleft ← call (CopyToUser arg (bytes_of_ioctrl_data dataStruct));
  unlock_return privateData (if negb (nleft =? 0) then - EFAULT else 0).

(** The case [..._READ_DMA]. *)
Definition ioctl_read_dma (privateData : nat) (arg : Z) : prog Z :=
  '(bytes, nleft) ← call (CopyFromUser arg (Z.to_nat sizeof_device_ioctrl_dma));
  if negb (nleft =? 0) then unlock_return privateData (- EFAULT) else
  let dmaStruct := ioctrl_dma_of_bytes bytes in
  if MTCADUMMY_DMA_SIZE <? (dma_offset dmaStruct +u32 dma_size dmaStruct)
  then unlock_return privateData (- EFAULT) else
  if negb (dma_offset dmaStruct mod 4 =? 0) then unlock_return privateData (- EFAULT) else
  nleft ← call (CopyBarToUser arg privateData DmaBar (dma_offset dmaStruct / 4)
                  (dma_size dmaStruct));
  unlock_return privateData (if negb (nleft =? 0) then - EFAULT else 0).

Definition mtcaDummy_ioctl (privateData : nat) (cmd arg : Z) : prog Z :=
  if negb (IOC_TYPE cmd =? PCIEDOOCS_IOC) then mret (- ENOTTY) else
  if ((IOC_NR cmd <? PCIEDOOCS_IOC_MINNR) || (PCIEDOOCS_IOC_MAXNR <? IOC_NR cmd)) &&
     ((IOC_NR cmd <? PCIEDOOCS_IOC_DMA_MINNR) || (PCIEDOOCS_IOC_DMA_MAXNR <? IOC_NR cmd))
  then mret (- ENOTTY) else
  ok ← call (AccessOk arg (IOC_SIZE cmd));
  if negb ok then mret (- EFAULT) else
  interrupted ← call (MutexLockInterruptible (deviceMutex privateData));
  if (interrupted : bool) then mret (- ERESTARTSYS) else
  if cmd =? PCIEDEV_PHYSICAL_SLOT then ioctl_physical_slot privateData arg
  else if (cmd =? PCIEDEV_DRIVER_VERSION) || (cmd =? PCIEDEV_FIRMWARE_VERSION) then
    ioctl_version privateData arg
  else if cmd =? PCIEDEV_READ_DMA then ioctl_read_dma privateData arg
  else unlock_return privateData (- ENOTTY).

Definition llrfDummy_ioctl (privateData : nat) (cmd arg : Z) : prog Z :=
  if negb (IOC_TYPE cmd =? LLRFDRV_IOC) then mret (- ENOTTY) else
  if (IOC_NR cmd <? LLRFDRV_IOC_MINNR) || (LLRFDRV_IOC_MAXNR <? IOC_NR cmd)
  then mret (- ENOTTY) else
  ok ← call (AccessOk arg (IOC_SIZE cmd));
  if negb ok then mret (- EFAULT) else
  interrupted ← call (MutexLockInterruptible (deviceMutex privateData));
  if (interrupted : bool) then mret (- ERESTARTSYS) else
  if cmd =? LLRFDRV_PHYSICAL_SLOT then ioctl_physical_slot privateData arg
  else if (cmd =? LLRFDRV_DRIVER_VERSION) || (cmd =? LLRFDRV_FIRMWARE_VERSION) then
    ioctl_version privateData arg
  else unlock_return privateData (- ENOTTY).

Definition pcieuniDummy_ioctl (privateData : nat) (cmd arg : Z) : prog Z :=
  if negb (IOC_TYPE cmd =? PCIEUNI_IOC) then mret (- ENOTTY) else
  if ((IOC_NR cmd <? PCIEUNI_IOC_MINNR) || (PCIEUNI_IOC_MAXNR <? IOC_NR cmd)) &&
     ((IOC_NR cmd <? PCIEUNI_IOC_DMA_MINNR) || (PCIEUNI_IOC_DMA_MAXNR <? IOC_NR cmd))
  then mret (- ENOTTY) else
  ok ← call (AccessOk arg (IOC_SIZE cmd));
  if negb ok then mret (- EFAULT) else
  interrupted ← call (MutexLockInterruptible (deviceMutex privateData));
  if (interrupted : bool) then mret (- ERESTARTSYS) else
  if cmd =? PCIEUNI_PHYSICAL_SLOT then ioctl_physical_slot privateData arg
  else if (cmd =? PCIEUNI_DRIVER_VERSION) || (cmd =? PCIEUNI_FIRMWARE_VERSION) then
    ioctl_version privateData arg
  else if cmd =? PCIEUNI_READ_DMA then ioctl_read_dma privateData arg
  else unlock_return privateData (- ENOTTY).
End Model.

(** ** Specification *)

Inductive ioctl_request := GetSlot | GetVersion | ReadDma.

(** A driver interface: its type letter, the ranges of numbers it knows, and the
    numbers it implements. *)
Record ioctl_family := IoctlFamily {
  fam_type : Z;
  fam_ranges : list (Z * Z);
  fam_commands : list (Z * ioctl_request);
}.

Definition pciedev_family : ioctl_family :=
  IoctlFamily 48 [(60, 63); (70, 74)]
    [(60, GetSlot); (61, GetVersion); (62, GetVersion); (72, ReadDma)].
Definition llrf_family : ioctl_family :=
  IoctlFamily 48 [(20, 22)] [(20, GetSlot); (21, GetVersion); (22, GetVersion)].
Definition pcieuni_family : ioctl_family :=
  IoctlFamily 85 [(60, 63); (70, 74)]
    [(60, GetSlot); (61, GetVersion); (62, GetVersion); (72, ReadDma)].

Section Spec.
Context {U : Type} `{UserSpace U} `{ByteOrder} `{IoctlEncoding}.

Definition ioctl_struct_size (c : ioctl_request) : Z :=
  match c with
  | ReadDma => sizeof_device_ioctrl_dma
  | _ => sizeof_device_ioctrl_data
  end.

(** The device's answer to the structure the user passed. *)
Definition ioctl_reply (dev : mtcaDummyData) (c : ioctl_request) (bytes : list byte) :
    outcome reply :=
  let r := ioctrl_data_of_bytes bytes in
  let dma := ioctrl_dma_of_bytes bytes in
  match c with
  | GetSlot =>
      Done (Data (bytes_of_ioctrl_data (DeviceIoctrlData (ioctrl_offset r) (slotNr dev)
                   (ioctrl_cmd r) (ioctrl_reserved r))) 0)
  | GetVersion =>
      Done (Data (bytes_of_ioctrl_data (DeviceIoctrlData MTCADUMMY_DRV_VERSION_MIN
                   MTCADUMMY_DRV_VERSION_MAJ (ioctrl_cmd r) (ioctrl_reserved r))) 0)
  | ReadDma =>
      if MTCADUMMY_DMA_SIZE <? (dma_offset dma +u32 dma_size dma) then Done (NoData (- EFAULT))
      else if negb (dma_offset dma mod 4 =? 0) then Done (NoData (- EFAULT))
      else if dma_offset dma + dma_size dma <=? MTCADUMMY_DMA_SIZE
      then Done (Data (bar_bytes (dma_offset dma / 4) (dma_size dma) (dmaBar dev)) 0)
      else Oops OutOfBounds
  end.

Definition ioctl_exchange (dev : mtcaDummyData) (c : ioctl_request) (arg : Z) (st : kstate U) :
    outcome (Z * kstate U) :=
  let '(bytes, nleft) := copy_from_user (user st) arg (Z.to_nat (ioctl_struct_size c)) in
  if nleft =? 0
  then outcome_bind (λ rep, Done (copy_out arg rep st)) (ioctl_reply dev c bytes)
  else Done (- EFAULT, st).

(** Whether a number is in the ranges of the interface. *)
Definition in_ranges (fam : ioctl_family) (nr : Z) : bool :=
  existsb (λ '(lo, hi), (lo <=? nr) && (nr <=? hi)) (fam_ranges fam).

Definition find_command (fam : ioctl_family) (cmd : Z) : option ioctl_request :=
  snd <$> find (λ '(nr, _), cmd =? IOWR (fam_type fam) nr sizeof_int) (fam_commands fam).

Definition ioctl_outcome (fam : ioctl_family) (dev : mtcaDummyData) (cmd arg : Z)
    (st : kstate U) : outcome (Z * kstate U) :=
  if (IOC_TYPE cmd =? fam_type fam) && in_ranges fam (IOC_NR cmd) then
    if access_ok (user st) arg (IOC_SIZE cmd) then
      match find_command fam cmd with
      | Some c => ioctl_exchange dev c arg st
      | None => Done (- ENOTTY, st)
      end
    else Done (- EFAULT, st)
  else Done (- ENOTTY, st).
End Spec.

(** ** Refinement *)

Section Refinement.
Context {U : Type} `{UserSpace U} `{ByteOrder} `{IoctlEncoding}.
Implicit Types st : kstate U.

Lemma exec_reply t d dev (arg : Z) (o : kop Z) (bytes : list byte) st :
  devs st !! d = Some dev → devMutex dev = None →
  step_op t o (upd_dev d (set_owner (Some t) dev) st) =
    (let '(u, nleft) := copy_to_user (user st) arg bytes in
     Done (nleft, upd_dev d (set_owner (Some t) dev) (with_user u st))) →
  exec t (nleft ← call o;
          unlock_return d (if negb (nleft =? 0) then - EFAULT else 0))
    (upd_dev d (set_owner (Some t) dev) st) = Done (copy_out arg (Data bytes 0) st).
Proof.
  intros Hd Ho Hstep. rewrite exec_call, Hstep. cbn [copy_out].
  destruct (copy_to_user _ _ _) as [u nleft]. cbn [outcome_bind].
  rewrite (exec_unlock_unchanged _ _ _ _ (with_user u st)) by done.
  by destruct (nleft =? 0).
Qed.

Lemma step_copy_to_user t d dev arg bytes st :
  step_op t (CopyToUser arg bytes) (upd_dev d dev st) =
    (let '(u, nleft) := copy_to_user (user st) arg bytes in
     Done (nleft, upd_dev d dev (with_user u st))).
Proof. done. Qed.

Lemma exec_ioctl_request t d dev c arg st :
  devs st !! d = Some dev → devMutex dev = None → wf_dev d dev →
  exec t (match c with
          | GetSlot => ioctl_physical_slot d arg
          | GetVersion => ioctl_version d arg
          | ReadDma => ioctl_read_dma d arg
          end) (upd_dev d (set_owner (Some t) dev) st) = ioctl_exchange dev c arg st.
Proof.
  intros Hd Ho Hw. unfold ioctl_exchange.
  destruct c; unfold ioctl_physical_slot, ioctl_version, ioctl_read_dma;
    rewrite exec_call; cbn [step_op user upd_dev with_devs ioctl_struct_size];
    match goal with |- context [copy_from_user ?u ?a ?n] =>
      pose proof (copy_from_user_length u a n) as Hl;
      destruct (copy_from_user u a n) as [bytes nleft] end; cbn [outcome_bind fst] in *;
    (destruct (nleft =? 0); cbn [negb]; [|by apply exec_unlock_unchanged]);
    cbv zeta; cbn [ioctl_reply outcome_bind].
  - rewrite exec_slotNr with (dev := set_owner (Some t) dev) by apply (holds_locked _ _ _ _ Hd).
    by apply exec_reply.
  - by apply exec_reply.
  - destruct (_ <? _); [by apply exec_unlock_unchanged|].
    destruct (Z.eqb_spec (dma_offset (ioctrl_dma_of_bytes bytes) mod 4) 0) as [Ha|];
      cbn [negb]; [|by apply exec_unlock_unchanged].
    assert (0 <= dma_offset (ioctrl_dma_of_bytes bytes)) as Hoff.
    { assert (is_u32 (dma_offset (ioctrl_dma_of_bytes bytes))) as []; [|done].
      apply u32_at_range. rewrite Hl. unfold sizeof_device_ioctrl_dma. lia. }
    generalize dependent (ioctrl_dma_of_bytes bytes). intros r Ha Hoff.
    assert (4 * (dma_offset r / 4) = dma_offset r) as Hoff4 by lia.
    destruct (holds_locked t _ _ _ Hd) as [Hlk _]. destruct Hw as (_&_&Hdl&_).
    destruct (_ <=? _) eqn:Eb; cbn [outcome_bind].
    + apply exec_reply; [done..|]. cbn [step_op]. unfold on_bar, on_dev.
      rewrite Hlk, decide_True by done. cbn [get_bar set_owner dmaBar].
      by rewrite Hoff4, Hdl, Eb, (proj2 (Z.leb_le 0 _)) by lia.
    + rewrite exec_call. cbn [step_op]. unfold on_bar, on_dev.
      rewrite Hlk, decide_True by done. cbn [get_bar set_owner dmaBar].
      by rewrite Hoff4, Hdl, Eb, andb_false_r.
Qed.

(** Past the checks of the number: the mutex, then the switch. *)
Lemma exec_ioctl_checked t d dev cmd arg (c : option ioctl_request) (body : prog Z) st :
  idle st → signals st = [] → devs st !! d = Some dev → wf_dev d dev →
  body = match c with
         | Some GetSlot => ioctl_physical_slot d arg
         | Some GetVersion => ioctl_version d arg
         | Some ReadDma => ioctl_read_dma d arg
         | None => unlock_return d (- ENOTTY)
         end →
  exec t (ok ← call (AccessOk arg (IOC_SIZE cmd));
          if negb ok then mret (- EFAULT) else
          interrupted ← call (MutexLockInterruptible (deviceMutex d));
          if (interrupted : bool) then mret (- ERESTARTSYS) else body) st =
    if access_ok (user st) arg (IOC_SIZE cmd)
    then match c with
         | Some c => ioctl_exchange dev c arg st
         | None => Done (- ENOTTY, st)
         end
    else Done (- EFAULT, st).
Proof.
  intros Hi Hs Hd Hw ->. pose proof (idle_dev _ _ _ Hi Hd) as Ho.
  rewrite exec_call. cbn [step_op outcome_bind].
  destruct (access_ok _ _ _); cbn [negb]; [|done].
  rewrite (exec_lock_dev _ _ _ _ _ Hd Ho Hs).
  pose proof (λ c, exec_ioctl_request t d dev c arg st Hd Ho Hw) as Hreq.
  destruct c as [[]|]; [apply (Hreq GetSlot)|apply (Hreq GetVersion)|apply (Hreq ReadDma)|].
  by apply exec_unlock_unchanged.
Qed.

Lemma two_ranges nr lo hi lo' hi' :
  ((nr <? lo) || (hi <? nr)) && ((nr <? lo') || (hi' <? nr)) =
    negb (existsb (λ '(lo, hi), (lo <=? nr) && (nr <=? hi)) [(lo, hi); (lo', hi')]).
Proof.
  cbn. rewrite orb_false_r, negb_orb, !negb_andb, <-!Z.ltb_antisym. done.
Qed.

Lemma one_range nr lo hi :
  (nr <? lo) || (hi <? nr) =
    negb (existsb (λ '(lo, hi), (lo <=? nr) && (nr <=? hi)) [(lo, hi)]).
Proof. cbn. rewrite orb_false_r, negb_andb, <-!Z.ltb_antisym. done. Qed.

(** The numbers of the three interfaces, down to their encoding. *)
Create HintDb ioctl_numbers.
#[local] Hint Unfold PCIEDEV_PHYSICAL_SLOT PCIEDEV_DRIVER_VERSION PCIEDEV_FIRMWARE_VERSION
  PCIEDEV_READ_DMA LLRFDRV_PHYSICAL_SLOT LLRFDRV_DRIVER_VERSION LLRFDRV_FIRMWARE_VERSION
  PCIEUNI_PHYSICAL_SLOT PCIEUNI_DRIVER_VERSION PCIEUNI_FIRMWARE_VERSION PCIEUNI_READ_DMA
  PCIEDOOCS_IOC LLRFDRV_IOC PCIEUNI_IOC : ioctl_numbers.

(** The check of the type, the check of the ranges, the switch: the shape the
    three handlers share. *)
Ltac ioctl_refines fam :=
  unfold ioctl_outcome; cbn [fam_type fam]; autounfold with ioctl_numbers;
  destruct (_ =? _); [|done]; cbn [negb andb];
  rewrite ?two_ranges, ?one_range;
  match goal with |- context [in_ranges fam ?nr] =>
    change (existsb _ _) with (in_ranges fam nr) end;
  destruct (in_ranges _ _); cbn [negb]; [|done];
  apply exec_ioctl_checked; [done..|];
  unfold find_command; cbn [find fam_commands fam fam_type];
  repeat match goal with |- context [?cmd =? IOWR ?ty ?nr ?sz] =>
    destruct (cmd =? IOWR ty nr sz); [done|] end; done.

Lemma mtcaDummy_ioctl_refines t d dev cmd arg st :
  idle st → signals st = [] → devs st !! d = Some dev → wf_dev d dev →
  exec t (mtcaDummy_ioctl d cmd arg) st = ioctl_outcome pciedev_family dev cmd arg st.
Proof. intros Hi Hs Hd Hw. unfold mtcaDummy_ioctl. ioctl_refines pciedev_family. Qed.

Lemma llrfDummy_ioctl_refines t d dev cmd arg st :
  idle st → signals st = [] → devs st !! d = Some dev → wf_dev d dev →
  exec t (llrfDummy_ioctl d cmd arg) st = ioctl_outcome llrf_family dev cmd arg st.
Proof. intros Hi Hs Hd Hw. unfold llrfDummy_ioctl. ioctl_refines llrf_family. Qed.

Lemma pcieuniDummy_ioctl_refines t d dev cmd arg st :
  idle st → signals st = [] → devs st !! d = Some dev → wf_dev d dev →
  exec t (pcieuniDummy_ioctl d cmd arg) st = ioctl_outcome pcieuni_family dev cmd arg st.
Proof. intros Hi Hs Hd Hw. unfold pcieuniDummy_ioctl. ioctl_refines pcieuni_family. Qed.
End Refinement.

(** ** Properties *)

Section Properties.
Context {U : Type} `{UserSpace U} `{ByteOrder} `{IoctlEncoding}.
Context (t d : nat) (dev : mtcaDummyData) (st : kstate U).
Context (Hi : idle st) (Hs : signals st = []).
Context (Hd : devs st !! d = Some dev) (Hw : wf_dev d dev).

Lemma copy_out_frame buf rep : ∃ u, (copy_out buf rep st).2 = with_user u st.
Proof.
  destruct rep as [ret|bytes ret]; cbn [copy_out].
  - exists (user st). by destruct st.
  - destruct (copy_to_user _ _ _) as [u nleft]. by exists u.
Qed.

Lemma ioctl_outcome_frame fam cmd arg ret st' :
  ioctl_outcome fam dev cmd arg st = Done (ret, st') → ∃ u, st' = with_user u st.
Proof.
  assert (∃ u, st = with_user u st) as Hst by (exists (user st); by destruct st).
  unfold ioctl_outcome. destruct (_ && _); [|by intros [= <- <-]].
  destruct (access_ok _ _ _); [|by intros [= <- <-]].
  destruct (find_command fam cmd) as [c|]; [|by intros [= <- <-]].
  unfold ioctl_exchange. destruct (copy_from_user _ _ _) as [bytes nleft].
  destruct (nleft =? 0); [|by intros [= <- <-]].
  destruct (ioctl_reply dev c bytes) as [rep| |]; cbn [outcome_bind]; [|done..].
  intros [= E]. pose proof (copy_out_frame arg rep) as Hf. by rewrite E in Hf.
Qed.

(** C12: the three ioctl handlers answer every number and argument as their
    interface ([pciedev_family], [llrf_family], [pcieuni_family]) specifies:
    numbers outside it are refused with [-ENOTTY], unusable pointers with
    [-EFAULT], the slot, the versions and the DMA memory are delivered; they
    change nothing but the user's memory and release the mutex. *)
Theorem ioctl_handlers_correct (cmd arg : Z) :
  exec t (mtcaDummy_ioctl d cmd arg) st = ioctl_outcome pciedev_family dev cmd arg st ∧
  exec t (llrfDummy_ioctl d cmd arg) st = ioctl_outcome llrf_family dev cmd arg st ∧
  exec t (pcieuniDummy_ioctl d cmd arg) st = ioctl_outcome pcieuni_family dev cmd arg st ∧
  ∀ fam ret st', ioctl_outcome fam dev cmd arg st = Done (ret, st') →
    ∃ u, st' = with_user u st.
Proof.
  split_and!; [by apply mtcaDummy_ioctl_refines|by apply llrfDummy_ioctl_refines|
    by apply pcieuniDummy_ioctl_refines|].
  intros fam ret st'. apply ioctl_outcome_frame.
Qed.

Lemma IOWR_eqb ty nr sz nr' sz' :
  0 <= ty < 256 → 0 <= nr < 256 → 0 <= sz < 8192 → 0 <= nr' < 256 → 0 <= sz' < 8192 →
  (IOWR ty nr sz =? IOWR ty nr' sz') = (nr =? nr') && (sz =? sz').
Proof.
  intros Ht Hn Hz Hn' Hz'. destruct (Z.eqb_spec (IOWR ty nr sz) (IOWR ty nr' sz')) as [E|E].
  - pose proof (f_equal IOC_NR E) as En. pose proof (f_equal IOC_SIZE E) as Ez.
    rewrite !IOC_NR_IOWR in En by done. rewrite !IOC_SIZE_IOWR in Ez by done.
    subst. by rewrite !Z.eqb_refl.
  - destruct (Z.eqb_spec nr nr') as [->|], (Z.eqb_spec sz sz') as [->|]; done.
Qed.

(** The pcieunidummy device answers each of its ioctl requests as the
    mtcadummy devices answer the request with the same number and size: the two
    copies of the handler differ in the type letter only. *)
Theorem pcieuni_ioctl_like_pciedev (nr sz arg : Z)
    (Hn : 0 <= nr < 256) (Hz : 0 <= sz < 8192) :
  exec t (pcieuniDummy_ioctl d (IOWR PCIEUNI_IOC nr sz) arg) st =
  exec t (mtcaDummy_ioctl d (IOWR PCIEDOOCS_IOC nr sz) arg) st.
Proof.
  rewrite (pcieuniDummy_ioctl_refines t d dev), (mtcaDummy_ioctl_refines t d dev) by done.
  unfold ioctl_outcome, PCIEUNI_IOC, PCIEDOOCS_IOC.
  rewrite !IOC_TYPE_IOWR, !IOC_NR_IOWR, !IOC_SIZE_IOWR by done.
  change (85 =? fam_type pcieuni_family) with true.
  change (48 =? fam_type pciedev_family) with true.
  change (in_ranges pcieuni_family nr) with (in_ranges pciedev_family nr).
  assert (find_command pcieuni_family (IOWR 85 nr sz) =
          find_command pciedev_family (IOWR 48 nr sz)) as ->; [|done].
  unfold find_command, sizeof_int.
  cbn [find fam_commands fam_type pcieuni_family pciedev_family].
  by rewrite !IOWR_eqb by lia.
Qed.

(** No ioctl number means anything to more than one of the three
    interfaces: of two different handlers at least one refuses it. *)
Theorem ioctl_interfaces_disjoint (cmd arg : Z) :
  let refused p := exec t p st = Done (- ENOTTY, st) in
  (refused (mtcaDummy_ioctl d cmd arg) ∨ refused (llrfDummy_ioctl d cmd arg)) ∧
  (refused (mtcaDummy_ioctl d cmd arg) ∨ refused (pcieuniDummy_ioctl d cmd arg)) ∧
  (refused (llrfDummy_ioctl d cmd arg) ∨ refused (pcieuniDummy_ioctl d cmd arg)).
Proof.
  cbv zeta beta. rewrite (mtcaDummy_ioctl_refines t d dev), (llrfDummy_ioctl_refines t d dev),
    (pcieuniDummy_ioctl_refines t d dev) by done.
  unfold ioctl_outcome. cbn [fam_type pciedev_family llrf_family pcieuni_family].
  destruct (Z.eqb_spec (IOC_TYPE cmd) 48) as [->|]; cbn [andb].
  - change (48 =? 85) with false. cbn [andb]. split_and!; [|by right..].
    destruct (in_ranges pciedev_family (IOC_NR cmd)) eqn:E1; [|by left].
    destruct (in_ranges llrf_family (IOC_NR cmd)) eqn:E2; [|by right]. exfalso.
    unfold in_ranges in E1, E2. cbn in E1, E2. lia.
  - split_and!; by left.
Qed.

(** C30: the DMA request of the ioctl interface has the overflow of the read
    operation: the kernel reads outside the DMA memory for exactly the aligned
    requests whose size and offset wrap around below its size. *)
Theorem ioctl_dma_out_of_bounds_iff (arg : Z) (reason : oops) (dma : device_ioctrl_dma)
    (bytes : list byte)
    (Hcopy : copy_from_user (user st) arg 24 = (bytes, 0))
    (Hdma : ioctrl_dma_of_bytes bytes = dma)
    (Hok : access_ok (user st) arg 4 = true) :
  exec t (mtcaDummy_ioctl d PCIEDEV_READ_DMA arg) st = Oops reason ↔
  reason = OutOfBounds ∧ dma_offset dma mod 4 = 0 ∧
  (dma_offset dma + dma_size dma) mod 2 ^ 32 <= MTCADUMMY_DMA_SIZE ∧
  MTCADUMMY_DMA_SIZE < dma_offset dma + dma_size dma.
Proof.
  rewrite (mtcaDummy_ioctl_refines t d dev) by done. change (2 ^ 32) with 4294967296.
  unfold ioctl_outcome, PCIEDEV_READ_DMA, PCIEDOOCS_IOC, sizeof_int.
  rewrite IOC_TYPE_IOWR, IOC_NR_IOWR, IOC_SIZE_IOWR, Hok by lia.
  change (in_ranges pciedev_family 72) with true. cbn [fam_type pciedev_family].
  change (48 =? 48) with true. cbn [andb].
  assert (find_command pciedev_family (IOWR 48 72 4) = Some ReadDma) as ->.
  { unfold find_command, sizeof_int. cbn [find fam_commands fam_type pciedev_family].
    by rewrite !IOWR_eqb by lia. }
  unfold ioctl_exchange. change (Z.to_nat (ioctl_struct_size ReadDma)) with 24%nat.
  rewrite Hcopy. change (0 =? 0) with true. cbv iota. cbn [ioctl_reply]. rewrite Hdma.
  unfold wrap32.
  destruct (Z.ltb_spec MTCADUMMY_DMA_SIZE ((dma_offset dma + dma_size dma) mod 4294967296));
    [split; [done|intros (_&_&?&_); lia]|].
  destruct (Z.eqb_spec (dma_offset dma mod 4) 0); cbn [negb];
    [|split; [done|intros (_&?&_); lia]].
  destruct (Z.leb_spec (dma_offset dma + dma_size dma) MTCADUMMY_DMA_SIZE); cbn [outcome_bind];
    [split; [done|intros (_&_&_&?); lia]|].
  split; [intros [= <-]; by split_and!|by intros [-> _]].
Qed.
End Properties.

(** ** Examples on a freshly loaded driver *)

#[local] Existing Instance little_endian.
#[local] Existing Instance asm_generic_ioctl.

(** Words at address 3000 of the user's memory. *)
Definition sample_argument (ws : list Z) : kstate (gmap Z byte) :=
  loaded_state 240 (umem_put 3000 (bytes_of_words ws) ∅).

Lemma ioctl_handlers_correct_witness :
  exec 0 (llrfDummy_ioctl 4 LLRFDRV_PHYSICAL_SLOT 3000) (sample_argument [1; 2; 3; 4]) =
    ioctl_outcome llrf_family (fresh_device 240 4) LLRFDRV_PHYSICAL_SLOT 3000
      (sample_argument [1; 2; 3; 4]).
Proof.
  apply (ioctl_handlers_correct 0 4 (fresh_device 240 4) (sample_argument [1; 2; 3; 4])
    (loaded_idle _ _) eq_refl eq_refl (wf_fresh_device _ _)).
Defined.

Lemma pcieuni_ioctl_like_pciedev_witness :
  exec 0 (pcieuniDummy_ioctl 6 (IOWR PCIEUNI_IOC 61 4) 3000) (sample_argument [1; 2; 3; 4]) =
  exec 0 (mtcaDummy_ioctl 6 (IOWR PCIEDOOCS_IOC 61 4) 3000) (sample_argument [1; 2; 3; 4]).
Proof.
  apply (pcieuni_ioctl_like_pciedev 0 6 (fresh_device 240 6) (sample_argument [1; 2; 3; 4])
    (loaded_idle _ _) eq_refl eq_refl (wf_fresh_device _ _)); lia.
Defined.

Lemma ioctl_interfaces_disjoint_witness :
  let refused p := exec 0 p (sample_argument []) = Done (- ENOTTY, sample_argument []) in
  refused (mtcaDummy_ioctl 1 PCIEDEV_READ_DMA 3000) ∨ refused (llrfDummy_ioctl 1 PCIEDEV_READ_DMA 3000).
Proof.
  apply (ioctl_interfaces_disjoint 0 1 (fresh_device 240 1) (sample_argument [])
    (loaded_idle _ _) eq_refl eq_refl (wf_fresh_device _ _) PCIEDEV_READ_DMA 3000).
Defined.

Lemma ioctl_dma_out_of_bounds_iff_witness :
  exec 0 (mtcaDummy_ioctl 1 PCIEDEV_READ_DMA 3000) (sample_argument [4096; 0xFFFFF000; 0; 0; 0; 0]) =
    Oops OutOfBounds.
Proof.
  apply (ioctl_dma_out_of_bounds_iff 0 1 (fresh_device 240 1)
    (sample_argument [4096; 0xFFFFF000; 0; 0; 0; 0])
    (loaded_idle _ _) eq_refl eq_refl (wf_fresh_device _ _) 3000 OutOfBounds
    (DeviceIoctrlDma 4096 0xFFFFF000 0 0 0 0) (bytes_of_words [4096; 0xFFFFF000; 0; 0; 0; 0]));
    [vm_compute; reflexivity | vm_compute; reflexivity | vm_compute; reflexivity |].
  cbn. repeat split; try discriminate; lia.
Defined.
