(* ===== verification/OpenRelease.v ===== *)
(** * Opening and closing a device ([mtcadummy_drv.c])

    [mtcaDummy_open] and [mtcaDummy_release], which all devices share. The
    [inode] is given by the index of its device, the result of an open also by
    the [private_data] it stores in the file. *)

From S2P Require Import Prelude Abi Kernel.
Local Open Scope Z_scope.

(** ** Model *)

Definition mtcaDummy_open (inode : nat) : prog (Z * option nat) :=
  interrupted ← call (MutexLockInterruptible controlMutex);
  if (interrupted : bool) then mret (- ERESTARTSYS, None) else
  openFail ← call (ControlGet OpenError);
  call (MutexUnlock controlMutex) ;;
  if (openFail : bool) then mret (- EINVAL, None) else
  let privData := inode in
  call (AtomicAdd privData 1) ;;
  mret (0, Some privData).

Definition mtcaDummy_release (private_data : nat) : prog Z :=
  call (AtomicAdd private_data (-1)) ;;
  mret 0.

(** ** Refinement *)

(** The device after [k] more opens than closes. *)
Definition count_use (k : Z) (dev : mtcaDummyData) : mtcaDummyData :=
  set_inUse (to_int (inUse dev + k)) dev.

Section Refinement.
Context {U : Type} `{UserSpace U} `{ByteOrder}.
Implicit Types st : kstate U.

Lemma mtcaDummy_open_refines t d dev st :
  control_owner st = None → signals st = [] → devs st !! d = Some dev →
  exec t (mtcaDummy_open d) st =
    if open_error (control st) then Done ((- EINVAL, None), st)
    else Done ((0, Some d), upd_dev d (count_use 1 dev) st).
Proof.
  intros Hc Hs Hd. unfold mtcaDummy_open. rewrite exec_control_flag by done.
  cbn [ctl_get]. destruct (open_error _); [done|]. cbv zeta.
  rewrite exec_call. cbn [step_op]. unfold on_dev. by rewrite Hd.
Qed.

Lemma mtcaDummy_release_refines t d dev st :
  devs st !! d = Some dev →
  exec t (mtcaDummy_release d) st = Done (0, upd_dev d (count_use (-1) dev) st).
Proof.
  intros Hd. unfold mtcaDummy_release.
  rewrite exec_call. cbn [step_op]. unfold on_dev. by rewrite Hd.
Qed.
End Refinement.
