(* ===== verification/Proc.v ===== *)
(** * The proc file ([mtcadummy_proc.c])

    Writing to the file sets the error flags ([mtcadummy_proc_write], with the
    [strsep] loop over the options). The conversion [%i] of the kernel's [sscanf]
    is a parameter: [scan_i s] is the number at the beginning of [s], if any.
    Reading the file is the subject of [ProcDump]. *)

From S2P Require Import Prelude Abi Kernel UserMem Firmware ModuleInit.
From Stdlib Require String DecimalString.
Local Open Scope Z_scope.

(** ** Writing: model *)

(** The C string at the beginning of a buffer: the bytes before the first NUL. *)
Fixpoint c_string (bs : list byte) : list byte :=
  match bs with
  | [] => []
  | b :: bs' => if Byte.eqb b x00 then [] else b :: c_string bs'
  end.

Definition space : byte := x20.

(** The tokens the loop [while((token = strsep(&iter, " ")) != NULL)] sees. *)
Fixpoint strsep_tokens (s : list byte) : list (list byte) :=
  match s with
  | [] => [[]]
  | b :: s' =>
      if Byte.eqb b space then [] :: strsep_tokens s'
      else match strsep_tokens s' with
           | [] => [[b]]
           | token :: tokens => (b :: token) :: tokens
           end
  end.

Fixpoint strip_prefix (p s : list byte) : option (list byte) :=
  match p, s with
  | [], _ => Some s
  | b :: p', c :: s' => if Byte.eqb b c then strip_prefix p' s' else None
  | _ :: _, [] => None
  end.

(** The local variables of [mtcadummy_proc_write]; -1 is "not given". *)
Record proc_options := ProcOptions { o_open : Z; o_read : Z; o_write : Z; o_spi : Z }.

Definition no_options : proc_options := ProcOptions (-1) (-1) (-1) (-1).

Definition bytes_of (s : string) : list byte := String.list_byte_of_string s.

(** [sizeof(cmd)] *)
Definition sizeof_cmd : Z := 255.

Section Write.
Variable scan_i : list byte → option Z.

(** [sscanf(token, "<name>:%i", &value) == 1], with the value. *)
Definition sscanf_option (name : string) (token : list byte) : option Z :=
  strip_prefix (bytes_of name) token ≫= scan_i.

(** The body of the loop over the tokens. *)
Definition parse_token (o : proc_options) (token : list byte) : proc_options :=
  match sscanf_option "open:" token with
  | Some value => ProcOptions value (o_read o) (o_write o) (o_spi o)
  | None =>
  match sscanf_option "read:" token with
  | Some value => ProcOptions (o_open o) value (o_write o) (o_spi o)
  | None =>
  match sscanf_option "write:" token with
  | Some value => ProcOptions (o_open o) (o_read o) value (o_spi o)
  | None =>
  match sscanf_option "spi:" token with
  | Some value => ProcOptions (o_open o) (o_read o) (o_write o) value
  | None => o
  end end end end.

(** The flag is assigned when the option was given, else read back. An [int] in
    a [bool] bit-field becomes 1 unless it is 0. *)
Definition set_or_read (f : ctl_field) (value : Z) : prog unit :=
  if -1 <? value then call (ControlSet f (negb (value =? 0)))
  else call (ControlGet f) ;; mret tt.

Definition mtcadummy_proc_write (ubuf count : Z) : prog Z :=
  let len := Z.min count (sizeof_cmd - 1) in
  '(cmd, nleft) ← call (CopyFromUser ubuf (Z.to_nat len));
  if negb (nleft =? 0) then mret (- EFAULT) else
  let cmd := cmd ++ [x00] in
  let o := foldl parse_token no_options (strsep_tokens (c_string cmd)) in
  interrupted ← call (MutexLockInterruptible controlMutex);
  if (interrupted : bool) then mret (- EWOULDBLOCK) else
  set_or_read OpenError (o_open o) ;;
  set_or_read ReadError (o_read o) ;;
  set_or_read WriteError (o_write o) ;;
  set_or_read SpiError (o_spi o) ;;
  call (MutexUnlock controlMutex) ;;
  mret count.

(** ** Writing: specification *)

Definition field_name (f : ctl_field) : string :=
  match f with
  | OpenError => "open:" | ReadError => "read:" | WriteError => "write:" | SpiError => "spi:"
  end.

(** The value the text gives to a flag: that of the last option naming it. *)
Definition last_value (f : ctl_field) (text : list byte) : option Z :=
  list.last (omap (sscanf_option (field_name f)) (strsep_tokens text)).

Definition new_flag (f : ctl_field) (text : list byte) (c : mtcaDummyControl) : bool :=
  match last_value f text with
  | Some v => if -1 <? v then negb (v =? 0) else ctl_get f c
  | None => ctl_get f c
  end.

Definition new_control (text : list byte) (c : mtcaDummyControl) : mtcaDummyControl :=
  MtcaDummyControl (new_flag OpenError text c) (new_flag ReadError text c)
    (new_flag WriteError text c) (new_flag SpiError text c).

(** The text a write of [count] bytes passes on: at most 254 characters. *)
Definition proc_text {U} `{UserSpace U} (u : U) (ubuf count : Z) : option (list byte) :=
  let '(bytes, nleft) := copy_from_user u ubuf (Z.to_nat (Z.min count (sizeof_cmd - 1))) in
  if nleft =? 0 then Some (c_string bytes) else None.

(** ** Writing: refinement *)

Definition get_option (f : ctl_field) (o : proc_options) : Z :=
  match f with
  | OpenError => o_open o | ReadError => o_read o | WriteError => o_write o | SpiError => o_spi o
  end.

Lemma strip_prefix_first c p b s r :
  strip_prefix (c :: p) (b :: s) = Some r → b = c.
Proof.
  cbn [strip_prefix]. destruct (Byte.eqb c b) eqn:E; [|done].
  by apply Byte.byte_dec_bl in E.
Qed.

(** The four names exclude each other. *)
Lemma sscanf_option_unique f f' token :
  is_Some (sscanf_option (field_name f) token) →
  is_Some (sscanf_option (field_name f') token) → f = f'.
Proof.
  unfold sscanf_option. intros H H'. destruct token as [|b token].
  { by destruct f; destruct H. }
  assert (∀ f0, is_Some (strip_prefix (bytes_of (field_name f0)) (b :: token) ≫= scan_i) →
    b = match f0 with OpenError => x6f | ReadError => x72 | WriteError => x77 | SpiError => x73 end)
    as Hb.
  { intros f0 [v Hv]. 
    destruct (strip_prefix (bytes_of (field_name f0)) (b :: token)) as [r|] eqn:E; [|done].
    destruct f0; revert E; apply strip_prefix_first. }
  pose proof (Hb f H) as Hf. pose proof (Hb f' H') as Hf'. destruct f, f'; congruence.
Qed.

Lemma parse_token_get f o token :
  get_option f (parse_token o token) =
    default (get_option f o) (sscanf_option (field_name f) token).
Proof.
  pose proof (λ f', sscanf_option_unique f f' token) as Hu. unfold parse_token.
  change "open:"%string with (field_name OpenError).
  change "read:"%string with (field_name ReadError).
  change "write:"%string with (field_name WriteError).
  change "spi:"%string with (field_name SpiError).
  destruct (sscanf_option (field_name f) token) as [v|] eqn:Ef.
  - destruct (sscanf_option (field_name OpenError) token) eqn:E1;
      [by specialize (Hu OpenError ltac:(eauto) ltac:(eauto)); subst; simplify_eq|].
    destruct (sscanf_option (field_name ReadError) token) eqn:E2;
      [by specialize (Hu ReadError ltac:(eauto) ltac:(eauto)); subst; simplify_eq|].
    destruct (sscanf_option (field_name WriteError) token) eqn:E3;
      [by specialize (Hu WriteError ltac:(eauto) ltac:(eauto)); subst; simplify_eq|].
    destruct (sscanf_option (field_name SpiError) token) eqn:E4;
      [by specialize (Hu SpiError ltac:(eauto) ltac:(eauto)); subst; simplify_eq|].
    by destruct f; simplify_eq.
  - by destruct f; rewrite ?Ef; repeat case_match.
Qed.

Lemma parse_tokens_get f tokens : ∀ o,
  get_option f (foldl parse_token o tokens) =
    default (get_option f o) (list.last (omap (sscanf_option (field_name f)) tokens)).
Proof.
  induction tokens as [|token tokens IH]; intros o; [done|].
  cbn [foldl omap list_omap]. rewrite IH, parse_token_get.
  destruct (sscanf_option _ token) as [v|]; cbn [default]; [|done].
  rewrite last_cons. by destruct (list.last _).
Qed.

Lemma c_string_snoc bs : c_string (bs ++ [x00]) = c_string bs.
Proof. induction bs as [|b bs IH]; cbn; [done|]. by rewrite IH. Qed.

Section Exec.
Context {U : Type} `{UserSpace U} `{ByteOrder}.
Implicit Types st : kstate U.

Definition assign_flag (f : ctl_field) (value : Z) (c : mtcaDummyControl) : mtcaDummyControl :=
  if -1 <? value then ctl_set f (negb (value =? 0)) c else c.

Lemma exec_set_or_read {A} t f value (k : unit → prog A) st :
  control_owner st = Some t →
  exec t (set_or_read f value ≫= k) st =
    exec t (k tt) (with_control (assign_flag f value (control st)) st).
Proof.
  intros Ho. unfold set_or_read, assign_flag.
  destruct (-1 <? value); cbn; rewrite decide_True by done; [done|]. by destruct st.
Qed.

Lemma ctl_get_assign f f' value c :
  ctl_get f' (assign_flag f value c) =
    if decide (f = f') then (if -1 <? value then negb (value =? 0) else ctl_get f' c)
    else ctl_get f' c.
Proof. unfold assign_flag. by destruct (-1 <? value), f, f'. Qed.

Lemma control_ext c c' : (∀ f, ctl_get f c = ctl_get f c') → c = c'.
Proof.
  intros Hf. pose proof (Hf OpenError). pose proof (Hf ReadError).
  pose proof (Hf WriteError). pose proof (Hf SpiError). destruct c, c'; cbn in *. congruence.
Qed.

Lemma assign_flags_correct text c :
  let o := foldl parse_token no_options (strsep_tokens text) in
  assign_flag SpiError (o_spi o) (assign_flag WriteError (o_write o)
    (assign_flag ReadError (o_read o) (assign_flag OpenError (o_open o) c))) =
  new_control text c.
Proof.
  cbv zeta. pose proof (λ f, parse_tokens_get f (strsep_tokens text) no_options) as Hg.
  change (o_spi ?o) with (get_option SpiError o).
  change (o_write ?o) with (get_option WriteError o).
  change (o_read ?o) with (get_option ReadError o).
  change (o_open ?o) with (get_option OpenError o).
  rewrite !Hg. fold (last_value SpiError text) (last_value WriteError text)
    (last_value ReadError text) (last_value OpenError text).
  apply control_ext. intros f. rewrite !ctl_get_assign.
  transitivity (new_flag f text c); [|by destruct f].
  unfold new_flag. destruct f;
    repeat first [rewrite decide_True by done | rewrite decide_False by done];
    by destruct (last_value _ text).
Qed.

Lemma mtcadummy_proc_write_refines t ubuf count st :
  control_owner st = None → signals st = [] →
  exec t (mtcadummy_proc_write ubuf count) st =
    match proc_text (user st) ubuf count with
    | Some text => Done (count, with_control (new_control text (control st)) st)
    | None => Done (- EFAULT, st)
    end.
Proof.
  intros Ho Hs. unfold mtcadummy_proc_write, proc_text. cbv zeta.
  rewrite exec_call. cbn [step_op].
  destruct (copy_from_user _ _ _) as [bytes nleft]. cbn [outcome_bind].
  destruct (nleft =? 0); cbn [negb]; [|done]. rewrite c_string_snoc.
  rewrite <-assign_flags_correct. cbv zeta. set (o := foldl _ _ _).
  destruct st as [ds c own u s]. cbn in Ho, Hs. subst.
  rewrite exec_call. cbn [step_op]. unfold step_lock. cbn.
  rewrite !exec_set_or_read by done. cbn.
  unfold step_unlock. cbn. by rewrite decide_True.
Qed.

(** A write interrupted while waiting for the control mutex changes no flag. *)
Lemma mtcadummy_proc_write_interrupted t ubuf count st s text :
  signals st = true :: s → proc_text (user st) ubuf count = Some text →
  exec t (mtcadummy_proc_write ubuf count) st = Done (- EWOULDBLOCK, with_signals s st).
Proof.
  intros Hs Ht. unfold mtcadummy_proc_write, proc_text in *. cbv zeta.
  rewrite exec_call. cbn [step_op].
  destruct (copy_from_user _ _ _) as [bytes nleft]. cbn [outcome_bind].
  destruct (nleft =? 0); cbn [negb]; [|done]. cbv zeta.
  rewrite exec_call. cbn [step_op]. unfold step_lock. cbn. by rewrite Hs.
Qed.
End Exec.

(** ** Properties *)

Lemma Byte_eqb_spec a b : Byte.eqb a b = bool_decide (a = b).
Proof.
  destruct (Byte.eqb a b) eqn:E; symmetry.
  - apply bool_decide_eq_true_2. by apply Byte.byte_dec_bl.
  - apply bool_decide_eq_false_2. intros ->. by rewrite Byte.byte_dec_lb in E.
Qed.

Lemma strsep_tokens_single s : space ∉ s → strsep_tokens s = [s].
Proof.
  induction s as [|b s IH]; [done|]. rewrite not_elem_of_cons. intros [Hb Hs]. cbn.
  rewrite Byte_eqb_spec, bool_decide_eq_false_2 by congruence. by rewrite (IH Hs).
Qed.

Lemma strsep_tokens_nonempty s : strsep_tokens s ≠ [].
Proof. induction s as [|b s IH]; cbn; [done|]. destruct (Byte.eqb b space), (strsep_tokens s); done. Qed.

Lemma strsep_tokens_app s s' :
  strsep_tokens (s ++ space :: s') = strsep_tokens s ++ strsep_tokens s'.
Proof.
  induction s as [|b s IH]; cbn [app strsep_tokens].
  - by change (Byte.eqb space space) with true.
  - rewrite IH. destruct (Byte.eqb b space); [done|].
    pose proof (strsep_tokens_nonempty s). by destruct (strsep_tokens s).
Qed.

Lemma strip_prefix_app p s : strip_prefix p (p ++ s) = Some s.
Proof.
  induction p as [|b p IH]; [done|]. cbn. by rewrite Byte_eqb_spec, bool_decide_eq_true_2.
Qed.

(** The text of one option: its name and its number. *)
Definition option_text (f : ctl_field) (num : list byte) : list byte :=
  bytes_of (field_name f) ++ num.

Lemma sscanf_option_text f num : sscanf_option (field_name f) (option_text f num) = scan_i num.
Proof. unfold sscanf_option, option_text. by rewrite strip_prefix_app. Qed.

Lemma sscanf_other_option f f' num v :
  f ≠ f' → scan_i num = Some v → sscanf_option (field_name f') (option_text f num) = None.
Proof.
  intros Hne Hv. destruct (sscanf_option (field_name f') _) eqn:E; [|done].
  destruct Hne. apply (sscanf_option_unique f f' (option_text f num)); [|by eexists].
  rewrite sscanf_option_text, Hv. by eexists.
Qed.

Lemma option_text_single f num : space ∉ num → strsep_tokens (option_text f num) = [option_text f num].
Proof.
  intros Hn. apply strsep_tokens_single. unfold option_text. rewrite elem_of_app.
  intros [Hin|]; [|done]. revert Hin. apply (bool_decide_unpack _). by destruct f.
Qed.

(** One more option at the end of a text. *)
Lemma last_value_snoc f f' text num v :
  space ∉ num → scan_i num = Some v →
  last_value f' (text ++ space :: option_text f num) =
    if decide (f' = f) then Some v else last_value f' text.
Proof.
  intros Hn Hv. unfold last_value. rewrite strsep_tokens_app, option_text_single by done.
  rewrite omap_app. cbn [omap list_omap]. destruct (decide (f' = f)) as [->|Hne].
  - rewrite sscanf_option_text, Hv. by rewrite last_snoc.
  - rewrite (sscanf_other_option f f' num v), app_nil_r by (done || congruence). done.
Qed.

Lemma last_value_single f f' num v :
  space ∉ num → scan_i num = Some v →
  last_value f' (option_text f num) = if decide (f' = f) then Some v else None.
Proof.
  intros Hn Hv. unfold last_value. rewrite option_text_single by done.
  cbn [omap list_omap]. destruct (decide (f' = f)) as [->|Hne].
  - by rewrite sscanf_option_text, Hv.
  - by rewrite (sscanf_other_option f f' num v) by (done || congruence).
Qed.
End Write.

Section Properties.
Variable scan_i : list byte → option Z.
Context {U : Type} `{UserSpace U} `{ByteOrder}.
Context (t : nat) (st : kstate U) (Hi : idle st).

(** C22: an uninterrupted write to the proc file either fails with [-EFAULT] and changes
    nothing, or sets the four flags as the text specifies (at most its first 254
    bytes, up to a NUL; for each flag its last option, where it has one that is
    not negative) and reports the full count; nothing else changes. *)
Theorem proc_write_correct (ubuf count : Z) (Hs : signals st = []) :
  exec t (mtcadummy_proc_write scan_i ubuf count) st =
    (match proc_text (user st) ubuf count with
     | Some text => Done (count, with_control (new_control scan_i text (control st)) st)
     | None => Done (- EFAULT, st)
     end) ∧
  ∀ ret st', exec t (mtcadummy_proc_write scan_i ubuf count) st = Done (ret, st') →
    devs st' = devs st ∧ user st' = user st ∧ idle st'.
Proof.
  rewrite mtcadummy_proc_write_refines by (done || apply Hi). split; [done|].
  intros ret st'. destruct (proc_text _ _ _); by intros [= <- <-].
Qed.

(** A write interrupted while it waits for the control mutex changes
    no flag, whatever the text said. *)
Theorem proc_write_all_or_nothing (ubuf count : Z) (text : list byte) (s : list bool)
    (Hs : signals st = true :: s) (Ht : proc_text (user st) ubuf count = Some text) :
  exec t (mtcadummy_proc_write scan_i ubuf count) st =
    Done (- EWOULDBLOCK, with_signals s st).
Proof. by eapply mtcadummy_proc_write_interrupted. Qed.

(** When the text ends in an option with a number that is not negative,
    that option decides its flag whatever came before; the other flags are
    those the rest of the text gives. A negative number at the end cancels the
    earlier options of the flag, which keeps the value it had before the
    write. *)
Theorem proc_write_last_option_wins (ubuf count v : Z) (text num : list byte) (f : ctl_field)
    (Hs : signals st = [])
    (Ht : proc_text (user st) ubuf count = Some (text ++ space :: option_text f num))
    (Hn : space ∉ num) (Hv : scan_i num = Some v) :
  ∃ c, exec t (mtcadummy_proc_write scan_i ubuf count) st = Done (count, with_control c st) ∧
    ctl_get f c = (if -1 <? v then negb (v =? 0) else ctl_get f (control st)) ∧
    ∀ f', f' ≠ f → ctl_get f' c = ctl_get f' (new_control scan_i text (control st)).
Proof.
  rewrite mtcadummy_proc_write_refines by (done || apply Hi). rewrite Ht.
  eexists. split; [reflexivity|].
  assert (∀ f0 text, ctl_get f0 (new_control scan_i text (control st)) =
    new_flag scan_i f0 text (control st)) as Hg by by intros [] ?.
  split.
  - rewrite Hg. unfold new_flag. by rewrite (last_value_snoc _ f f _ _ v), decide_True.
  - intros f' Hne. rewrite !Hg. unfold new_flag.
    by rewrite (last_value_snoc _ f f' _ _ v), decide_False.
Qed.

Definition flag_digit (b : bool) : list byte := if b then [x31] else [x30].

(** The text that asks for the flags of [c]: ["open:0 read:1 write:0 spi:0"]. *)
Definition control_text (c : mtcaDummyControl) : list byte :=
  option_text OpenError (flag_digit (open_error c)) ++
  space :: option_text ReadError (flag_digit (read_error c)) ++
  space :: option_text WriteError (flag_digit (write_error c)) ++
  space :: option_text SpiError (flag_digit (spi_error c)).

(** Every setting of the four flags can be written, from any earlier
    setting, by naming each flag with 0 or 1, given that [%i] reads the texts 0
    and 1 as these numbers. *)
Theorem proc_write_sets_any_flags (ubuf count : Z) (c : mtcaDummyControl)
    (Hs : signals st = [])
    (Hzero : scan_i [x30] = Some 0) (Hone : scan_i [x31] = Some 1)
    (Ht : proc_text (user st) ubuf count = Some (control_text c)) :
  exec t (mtcadummy_proc_write scan_i ubuf count) st = Done (count, with_control c st).
Proof.
  rewrite mtcadummy_proc_write_refines by (done || apply Hi). rewrite Ht. do 3 f_equal.
  assert (∀ b, scan_i (flag_digit b) = Some (Z.b2z b)) as Hd by by intros [].
  assert (∀ b, space ∉ flag_digit b) as Hsp by (intros []; by apply (bool_decide_unpack _)).
  assert (control_text c = (((option_text OpenError (flag_digit (open_error c)) ++
    space :: option_text ReadError (flag_digit (read_error c))) ++
    space :: option_text WriteError (flag_digit (write_error c))) ++
    space :: option_text SpiError (flag_digit (spi_error c)))) as ->
    by (unfold control_text; by rewrite <-!app_assoc).
  assert (∀ b, (-1 <? Z.b2z b) = true) as Hlt by by intros [].
  assert (∀ b, negb (Z.b2z b =? 0) = b) as Hb by by intros [].
  destruct c as [o r w s]. unfold new_control, new_flag.
  rewrite !(last_value_snoc _ _ _ _ _ _ (Hsp _) (Hd _)).
  rewrite !(last_value_single _ _ _ _ _ (Hsp _) (Hd _)).
  cbn [open_error read_error write_error spi_error].
  repeat first [rewrite decide_True by done | rewrite decide_False by done].
  by rewrite !Hlt, !Hb.
Qed.

(** Of a longer text the driver looks at the first 254 bytes only, but
    it reports all of them as written. *)
Theorem proc_write_truncates (ubuf count : Z) (Hs : signals st = []) (Hc : 254 <= count)
    (text : list byte) (Ht : proc_text (user st) ubuf 254 = Some text) :
  exec t (mtcadummy_proc_write scan_i ubuf count) st =
    Done (count, with_control (new_control scan_i text (control st)) st).
Proof.
  rewrite mtcadummy_proc_write_refines by (done || apply Hi).
  assert (proc_text (user st) ubuf count = proc_text (user st) ubuf 254) as ->.
  { assert (Z.min count (sizeof_cmd - 1) = Z.min 254 (sizeof_cmd - 1)) as E
      by (unfold sizeof_cmd; lia).
    unfold proc_text. by rewrite E. }
  by rewrite Ht.
Qed.
End Properties.

(** ** Examples: a scanner of unsigned decimal numbers *)

Fixpoint decimal_digits (acc : Z) (s : list byte) : Z :=
  match s with
  | [] => acc
  | b :: s' => let n := Z_of_byte b - 48 in
               if (0 <=? n) && (n <=? 9) then decimal_digits (10 * acc + n) s' else acc
  end.

Definition decimal_scan (s : list byte) : option Z :=
  match s with
  | b :: _ => if (48 <=? Z_of_byte b) && (Z_of_byte b <=? 57)
              then Some (decimal_digits 0 s) else None
  | [] => None
  end.

Definition sample_text (s : string) : kstate (gmap Z byte) :=
  loaded_state 240 (umem_put 1000 (bytes_of s) ∅).

#[local] Existing Instance little_endian.

Lemma proc_write_correct_witness :
  exec 0 (mtcadummy_proc_write decimal_scan 1000 13) (sample_text "open:1 spi:12") =
    Done (13, with_control (MtcaDummyControl true false false true) (sample_text "open:1 spi:12")).
Proof.
  rewrite (proj1 (proc_write_correct decimal_scan 0 (sample_text "open:1 spi:12")
    (loaded_idle _ _) 1000 13 eq_refl)). vm_compute. reflexivity.
Defined.

Lemma proc_write_all_or_nothing_witness :
  exec 0 (mtcadummy_proc_write decimal_scan 1000 6) (with_signals [true] (sample_text "open:1")) =
    Done (- EWOULDBLOCK, with_signals [] (with_signals [true] (sample_text "open:1"))).
Proof.
  apply (proc_write_all_or_nothing decimal_scan 0 (with_signals [true] (sample_text "open:1")))
    with (text := bytes_of "open:1"); [reflexivity | vm_compute; reflexivity].
Defined.

Lemma proc_write_last_option_wins_witness :
  ∃ c, exec 0 (mtcadummy_proc_write decimal_scan 1000 13) (sample_text "read:1 read:0") =
      Done (13, with_control c (sample_text "read:1 read:0")) ∧
    ctl_get ReadError c = false ∧
    ∀ f', f' ≠ ReadError → ctl_get f' c =
      ctl_get f' (new_control decimal_scan (bytes_of "read:1") initial_control).
Proof.
  apply (proc_write_last_option_wins decimal_scan 0 (sample_text "read:1 read:0")
    (loaded_idle _ _) 1000 13 0 (bytes_of "read:1") [x30] ReadError eq_refl);
    [vm_compute; reflexivity | apply (bool_decide_unpack _); vm_compute; exact I |
     vm_compute; reflexivity].
Defined.

Lemma proc_write_sets_any_flags_witness :
  exec 0 (mtcadummy_proc_write decimal_scan 1000 27)
    (sample_text "open:0 read:1 write:1 spi:0") =
    Done (27, with_control (MtcaDummyControl false true true false)
                (sample_text "open:0 read:1 write:1 spi:0")).
Proof.
  apply (proc_write_sets_any_flags decimal_scan 0 (sample_text "open:0 read:1 write:1 spi:0")
    (loaded_idle _ _)); vm_compute; reflexivity.
Defined.

(** An option after byte 254 is not seen. *)
Lemma proc_write_truncates_witness :
  exec 0 (mtcadummy_proc_write decimal_scan 1000 260)
    (loaded_state 240 (umem_put 1000 (replicate 254 space ++ bytes_of "open:1") ∅)) =
    Done (260, loaded_state 240 (umem_put 1000 (replicate 254 space ++ bytes_of "open:1") ∅)).
Proof.
  rewrite (proc_write_truncates decimal_scan 0
    (loaded_state 240 (umem_put 1000 (replicate 254 space ++ bytes_of "open:1") ∅))
    (loaded_idle _ _) 1000 260 eq_refl) with (text := replicate 254 space);
    [vm_compute; reflexivity | lia | vm_compute; reflexivity].
Defined.
