(* ===== verification/ProcDump.v ===== *)
(** * Dumping the devices through the proc file ([mtcadummy_proc.c])

    The sequence operations [mtcadummy_seq_start] and [mtcadummy_seq_next],
    whose position is the device number, and [mtcadummy_seq_show], which prints
    one device. The text is a [string]; [show_text] specifies it. *)

From S2P Require Import Prelude Abi Kernel UserMem Firmware ModuleInit.
From Stdlib Require String DecimalString.
Local Open Scope Z_scope.

(** ** Formats of [seq_printf] *)

Definition newline : string := String.String (Ascii.ascii_of_nat 10) "".
Definition tab : string := String.String (Ascii.ascii_of_nat 9) "".

Definition hex_digit (z : Z) : Ascii.ascii :=
  default Ascii.zero (String.get (Z.to_nat z) "0123456789ABCDEF").

(** The [n] last hexadecimal digits of a number. *)
Fixpoint hex_fixed (n : nat) (z : Z) : string :=
  match n with
  | O => ""
  | S n' => hex_fixed n' (z / 16) +:+ String.String (hex_digit (z mod 16)) ""
  end.

(** [%08X] and [%08lX] of a number of at most eight digits. *)
Definition fmt_08X (z : Z) : string := hex_fixed 8 z.

(** [%d] and [%i] of a 32-bit argument. *)
Definition fmt_d (z : Z) : string :=
  DecimalString.NilZero.string_of_int (Z.to_int (to_int z)).

(** ** Model *)

(** [mtcadummy_seq_start]: the device at position [pos], as its index. *)
Definition mtcadummy_seq_start (pos : Z) : option Z :=
  if MTCADUMMY_NR_DEVS <=? pos then None else Some pos.

(** [mtcadummy_seq_next]: the new position and the device there. *)
Definition mtcadummy_seq_next (pos : Z) : Z * option Z :=
  let pos := pos + 1 in
  (pos, if MTCADUMMY_NR_DEVS <=? pos then None else Some pos).

Definition register_line (reg hex dec : Z) : string :=
  "0x" +:+ fmt_08X reg +:+ tab +:+ "0x" +:+ fmt_08X hex +:+ tab +:+ fmt_d dec +:+ newline.

Definition dma_line (offset w0 w1 w2 w3 : Z) : string :=
  "0x" +:+ fmt_08X offset +:+ tab +:+ "0x" +:+ fmt_08X w0 +:+ tab +:+ "0x" +:+ fmt_08X w1
  +:+ tab +:+ "0x" +:+ fmt_08X w2 +:+ tab +:+ "0x" +:+ fmt_08X w3 +:+ newline.

(** The loop over the registers, from [reg] on; the bar is read twice per line. *)
Fixpoint register_lines (d : nat) (fuel : nat) (reg : Z) : prog string :=
  match fuel with
  | O => mret ""
  | S fuel' =>
      if reg <? MTCADUMMY_N_REGISTERS then
        hex ← call (BarLoad d SystemBar reg);
        dec ← call (BarLoad d SystemBar reg);
        rest ← register_lines d fuel' (reg + 1);
        mret (register_line reg hex dec +:+ rest)
      else mret ""
  end.

(** The loop over the DMA bar, four words per line. *)
Fixpoint dma_lines (d : nat) (fuel : nat) (index : Z) : prog string :=
  match fuel with
  | O => mret ""
  | S fuel' =>
      if index <=? MTCADUMMY_DMA_SIZE / sizeof_u32 - 4 then
        w0 ← call (BarLoad d DmaBar index);
        w1 ← call (BarLoad d DmaBar (index + 1));
        w2 ← call (BarLoad d DmaBar (index + 2));
        w3 ← call (BarLoad d DmaBar (index + 3));
        rest ← dma_lines d fuel' (index + 4);
        mret (dma_line (index * sizeof_u32) w0 w1 w2 w3 +:+ rest)
      else mret ""
  end.

(** Enough iterations for the two loops; they leave earlier. *)
Definition register_fuel : nat := 33.
Definition dma_fuel : nat := 257.

Definition mtcadummy_seq_show (d : nat) : prog (Z * string) :=
  inUse ← call (AtomicRead d);
  if inUse =? 0 then
    slotNr ← call (GetSlotNr d);
    mret (0, "Device " +:+ fmt_d slotNr +:+ " not in use." +:+ newline +:+ newline)
  else
  interrupted ← call (MutexLockInterruptible (deviceMutex d));
  if (interrupted : bool) then mret (- ERESTARTSYS, "") else
  slotNr ← call (GetSlotNr d);
  registers ← register_lines d register_fuel 0;
  slotNr' ← call (GetSlotNr d);
  dma ← dma_lines d dma_fuel 0;
  call (MutexUnlock (deviceMutex d)) ;;
  mret (0,
    "Device " +:+ fmt_d slotNr +:+ " System Bar:" +:+ newline +:+
    "Register Content_hex Content_dec:" +:+ newline +:+
    registers +:+ newline +:+
    "Device " +:+ fmt_d slotNr' +:+ " DMA Bar:" +:+ newline +:+
    "Offset Content[offset]  Content[offset+0x4]  Content[offset+0x8] Content[offset+0xC]:"
    +:+ newline +:+ dma +:+ newline).

(** ** Specification *)

Definition concat_lines (l : list string) : string := foldr String.app "" l.

Definition register_text (ws : list Z) : string :=
  concat_lines ((λ i, register_line i (nthz ws i) (nthz ws i)) <$> seqZ 0 MTCADUMMY_N_REGISTERS).

Definition dma_text (ws : list Z) : string :=
  concat_lines ((λ k, dma_line (16 * k) (nthz ws (4 * k)) (nthz ws (4 * k + 1))
    (nthz ws (4 * k + 2)) (nthz ws (4 * k + 3))) <$> seqZ 0 256).

Definition show_text (dev : mtcaDummyData) : string :=
  if inUse dev =? 0 then
    "Device " +:+ fmt_d (slotNr dev) +:+ " not in use." +:+ newline +:+ newline
  else
    "Device " +:+ fmt_d (slotNr dev) +:+ " System Bar:" +:+ newline +:+
    "Register Content_hex Content_dec:" +:+ newline +:+
    register_text (systemBar dev) +:+ newline +:+
    "Device " +:+ fmt_d (slotNr dev) +:+ " DMA Bar:" +:+ newline +:+
    "Offset Content[offset]  Content[offset+0x4]  Content[offset+0x8] Content[offset+0xC]:"
    +:+ newline +:+ dma_text (dmaBar dev) +:+ newline.

(** ** Refinement *)

Section Refinement.
Context {U : Type} `{UserSpace U} `{ByteOrder}.
Implicit Types st : kstate U.

Lemma register_lines_correct t d dev fuel : ∀ reg st,
  holds t d dev st → length (systemBar dev) = 32%nat →
  0 <= reg <= 32 → 32 - reg < Z.of_nat fuel →
  exec t (register_lines d fuel reg) st =
    Done (concat_lines ((λ i, register_line i (nthz (systemBar dev) i) (nthz (systemBar dev) i))
            <$> seqZ reg (32 - reg)), st).
Proof.
  induction fuel as [|fuel IH]; intros reg st Hh Hl Hr Hf; [lia|].
  cbn [register_lines]. unfold MTCADUMMY_N_REGISTERS. destruct (Z.ltb_spec reg 32).
  - rewrite !(exec_load _ _ _ _ _ _ _ Hh) by (cbn [get_bar]; lia). rewrite exec_bind, IH by (done || lia).
    rewrite (seqZ_cons reg) by lia.
    replace (Z.succ reg) with (reg + 1) by lia.
    by replace (Z.pred (32 - reg)) with (32 - (reg + 1)) by lia.
  - by rewrite seqZ_nil by lia.
Qed.

Lemma dma_lines_correct t d dev fuel : ∀ k st,
  holds t d dev st → length (dmaBar dev) = 1024%nat →
  0 <= k <= 256 → 256 - k < Z.of_nat fuel →
  exec t (dma_lines d fuel (4 * k)) st =
    Done (concat_lines ((λ k, dma_line (16 * k) (nthz (dmaBar dev) (4 * k))
            (nthz (dmaBar dev) (4 * k + 1)) (nthz (dmaBar dev) (4 * k + 2))
            (nthz (dmaBar dev) (4 * k + 3))) <$> seqZ k (256 - k)), st).
Proof.
  induction fuel as [|fuel IH]; intros k st Hh Hl Hr Hf; [lia|].
  cbn [dma_lines]. change (MTCADUMMY_DMA_SIZE / sizeof_u32 - 4) with 1020.
  destruct (Z.leb_spec (4 * k) 1020).
  - rewrite !(exec_load _ _ _ _ _ _ _ Hh) by (cbn [get_bar]; lia).
    replace (4 * k + 4) with (4 * (k + 1)) by lia.
    rewrite exec_bind, IH by (done || lia).
    rewrite (seqZ_cons k) by lia. unfold sizeof_u32.
    replace (Z.succ k) with (k + 1) by lia.
    replace (4 * k * 4) with (16 * k) by lia.
    by replace (Z.pred (256 - k)) with (256 - (k + 1)) by lia.
  - by rewrite seqZ_nil by lia.
Qed.

(** Locking a free device, whatever signals are pending. *)
Lemma exec_lock_dev_any {A} t d dev (k : bool → prog A) st :
  devs st !! d = Some dev → devMutex dev = None →
  exec t (call (MutexLockInterruptible (deviceMutex d)) ≫= k) st =
    if default false (head (signals st))
    then exec t (k true) (with_signals (tail (signals st)) st)
    else exec t (k false) (upd_dev d (set_owner (Some t) dev) (with_signals (tail (signals st)) st)).
Proof.
  intros Hd Ho. destruct st as [ds c o u [|[] s]]; cbn [head tail default signals].
  - by rewrite (exec_lock_dev _ _ _ _ _ Hd Ho).
  - rewrite exec_call. cbn in *. unfold step_lock. cbn. by rewrite Hd.
  - by rewrite (exec_lock_dev_pending _ _ _ _ _ s Hd Ho).
Qed.

(** Showing a device, whatever signals are pending: only a device in use is
    locked, so only there can a signal interrupt. *)
Lemma mtcadummy_seq_show_refines t d dev st :
  idle st → devs st !! d = Some dev → wf_dev d dev →
  exec t (mtcadummy_seq_show d) st =
    if inUse dev =? 0 then Done ((0, show_text dev), st)
    else Done (if default false (head (signals st)) then (- ERESTARTSYS, "") else (0, show_text dev),
               with_signals (tail (signals st)) st).
Proof.
  intros Hi Hd Hw. pose proof (idle_dev _ _ _ Hi Hd) as Ho.
  unfold mtcadummy_seq_show, show_text. rewrite exec_call. cbn [step_op]. unfold on_dev at 1.
  rewrite Hd. cbn [outcome_bind]. destruct (inUse dev =? 0).
  { by rewrite (exec_slotNr _ _ _ _ _ Hd). }
  rewrite (exec_lock_dev_any _ _ _ _ _ Hd Ho).
  destruct (default false (head (signals st))); [done|].
  set (st1 := with_signals (tail (signals st)) st).
  assert (devs st1 !! d = Some dev) as Hd1 by done.
  pose proof (holds_locked t _ _ _ Hd1) as Hh.
  pose proof (wf_dev_bar_length _ _ SystemBar Hw) as Hl1.
  pose proof (wf_dev_bar_length _ _ DmaBar Hw) as Hl2. cbn [get_bar] in *.
  rewrite (exec_slotNr _ _ _ _ _ (proj1 Hh)), exec_bind.
  rewrite (register_lines_correct _ _ _ _ _ _ Hh)
    by (cbn [systemBar set_owner]; first [lia | by vm_compute]). cbn [outcome_bind].
  rewrite (exec_slotNr _ _ _ _ _ (proj1 Hh)), exec_bind.
  rewrite (dma_lines_correct _ _ _ _ 0 _ Hh)
    by (cbn [dmaBar set_owner]; first [lia | by vm_compute]). cbn [outcome_bind].
  rewrite (exec_unlock_dev _ _ _ _ _ Hh), unlock_locked by done. done.
Qed.
End Refinement.

(** ** The traversal of the devices

    The kernel's [seq_file] calls [start] with the first position, shows the
    element, calls [next] and shows again until an operation returns [NULL]. *)
Fixpoint seq_walk (fuel : nat) (pos : Z) (element : option Z) : option (list Z) :=
  match element with
  | None => Some []
  | Some d =>
      match fuel with
      | O => None
      | S fuel' =>
          let '(pos', next) := mtcadummy_seq_next pos in
          cons d <$> seq_walk fuel' pos' next
      end
  end.

Definition seq_traverse (fuel : nat) (pos : Z) : option (list Z) :=
  seq_walk fuel pos (mtcadummy_seq_start pos).

Lemma seq_walk_correct fuel : ∀ pos,
  0 <= pos → 7 - pos <= Z.of_nat fuel →
  seq_walk fuel pos (mtcadummy_seq_start pos) = Some (seqZ pos (7 - pos)).
Proof.
  induction fuel as [|fuel IH]; intros pos Hp Hf;
    unfold mtcadummy_seq_start, MTCADUMMY_NR_DEVS; destruct (Z.leb_spec 7 pos);
    try lia; cbn [seq_walk]; try (by rewrite seqZ_nil by lia).
  cbn [mtcadummy_seq_next]. unfold mtcadummy_seq_next. cbv zeta.
  change (if MTCADUMMY_NR_DEVS <=? pos + 1 then None else Some (pos + 1))
    with (mtcadummy_seq_start (pos + 1)).
  rewrite IH, (seqZ_cons pos) by lia. replace (Z.succ pos) with (pos + 1) by lia.
  by replace (Z.pred (7 - pos)) with (7 - (pos + 1)) by lia.
Qed.

(** ** Reading the dump back *)

Definition unhex_digit (c : Ascii.ascii) : Z :=
  Z.of_nat (default O (String.index 0 (String.String c "") "0123456789ABCDEF")).

Fixpoint unhex (acc : Z) (s : string) : Z :=
  match s with
  | String.EmptyString => acc
  | String.String c s' => unhex (16 * acc + unhex_digit c) s'
  end.

Lemma unhex_app acc s s' : unhex acc (s +:+ s') = unhex (unhex acc s) s'.
Proof. revert acc. induction s as [|c s IH]; intros acc; [done|]. cbn. apply IH. Qed.

Lemma unhex_hex_digit z : 0 <= z < 16 → unhex_digit (hex_digit z) = z.
Proof.
  intros Hz. assert (Forall (λ z, unhex_digit (hex_digit z) = z) (seqZ 0 16)) as Hf
    by (vm_compute; repeat constructor).
  eapply Forall_forall in Hf; [exact Hf|]. apply list_elem_of_In, elem_of_seqZ. lia.
Qed.

Lemma unhex_hex_fixed n : ∀ z, 0 <= z < 16 ^ Z.of_nat n → unhex 0 (hex_fixed n z) = z.
Proof.
  induction n as [|n IH]; intros z Hz; cbn [hex_fixed].
  - cbn in *. lia.
  - rewrite unhex_app, IH.
    + cbn [unhex]. rewrite unhex_hex_digit by lia. lia.
    + rewrite Nat2Z.inj_succ, Z.pow_succ_r in Hz by lia. split; [lia|].
      apply Z.div_lt_upper_bound; lia.
Qed.

(** ** Properties *)

(** Showing a device prints [show_text]: that it is not in use, or all
    its registers and its DMA memory; the device is not changed and its mutex is
    free again. *)
Theorem seq_show_correct {U} `{UserSpace U} `{ByteOrder} (t d : nat) (dev : mtcaDummyData)
    (st : kstate U) (Hi : idle st) (Hs : signals st = [])
    (Hd : devs st !! d = Some dev) (Hw : wf_dev d dev) :
  exec t (mtcadummy_seq_show d) st = Done ((0, show_text dev), st).
Proof.
  rewrite (mtcadummy_seq_show_refines _ _ _ _ Hi Hd Hw), Hs. destruct st; cbn in *.
  subst. by destruct (_ =? _).
Qed.

#[local] Existing Instance little_endian.

Lemma seq_show_correct_witness :
  exec 0 (mtcadummy_seq_show 3) (loaded_state (U:=gmap Z byte) 240 ∅) =
    Done ((0, show_text (fresh_device 240 3)), loaded_state 240 ∅).
Proof.
  apply (seq_show_correct 0 3 (fresh_device 240 3)); [apply loaded_idle|reflexivity..|].
  apply wf_fresh_device.
Defined.

(** Reading the proc file from position [pos] shows each device from
    number [pos] to number 6 once, in order, and stops; from 0, all seven. *)
Theorem seq_traverse_correct (pos : Z) (fuel : nat)
    (Hp : 0 <= pos) (Hf : 7 - pos <= Z.of_nat fuel) :
  seq_traverse fuel pos = Some (seqZ pos (7 - pos)).
Proof. by apply seq_walk_correct. Qed.

Lemma seq_traverse_correct_witness : seq_traverse 7 0 = Some [0; 1; 2; 3; 4; 5; 6].
Proof. apply (seq_traverse_correct 0 7); lia. Defined.

Lemma length_string_app s s' :
  String.length (s +:+ s') = (String.length s + String.length s')%nat.
Proof. induction s as [|c s IH]; [done|]. exact (f_equal S IH). Qed.

Lemma length_hex_fixed n z : String.length (hex_fixed n z) = n.
Proof.
  revert z. induction n as [|n IH]; intros z; [done|]. cbn [hex_fixed].
  rewrite length_string_app, IH. cbn. lia.
Qed.

(** The dump loses nothing: the eight hexadecimal digits printed for a
    word determine it. *)
Theorem dump_word_roundtrip (w : Z) (Hw : is_u32 w) :
  String.length (fmt_08X w) = 8%nat ∧ unhex 0 (fmt_08X w) = w.
Proof. split; [apply length_hex_fixed|]. apply unhex_hex_fixed. exact Hw. Qed.

Lemma dump_word_roundtrip_witness :
  fmt_08X 0x444D4D59 = "444D4D59"%string ∧ unhex 0 (fmt_08X 0x444D4D59) = 0x444D4D59.
Proof. split; [reflexivity|]. apply dump_word_roundtrip. unfold is_u32. lia. Defined.
