(* ===== verification/Locking.v ===== *)
(** * The locking discipline

    A weakest precondition [wp] over the driver's programs that tracks which
    mutexes the running thread holds. It asks of every operation what the
    driver's rules ask: shared data is touched under its mutex only, a device
    mutex is taken with no mutex held and the control mutex at most under one
    device mutex, words are read and written inside the bars. The other threads
    may change everything the thread does not hold, so the results of the
    operations are arbitrary within their types. The end of the file establishes
    the discipline for the entry points of the driver. *)

From S2P Require Import Prelude Abi Kernel Firmware ModuleInit Registers StructRW.
From S2P Require Import NoStructRW Ioctl OpenRelease Proc ProcDump.
Local Open Scope Z_scope.

(** The mutexes a thread holds. *)
Record locks := Locks { l_control : bool; l_device : option nat }.

Definition no_locks : locks := Locks false None.
Definition on_device (d : nat) : locks := Locks false (Some d).

(** The number of words of a bar. *)
Definition bar_words (b : bar_id) : Z := match b with SystemBar => 32 | DmaBar => 1024 end.

Definition is_device (d : nat) : Prop := (d < 7)%nat.

(** The operations a program may use, and what a copy of [n] bytes from an address
    of the user may deliver: the bytes and how many are missing. *)
Record rules := Rules {
  allowed : ∀ X, kop X → Prop;
  copied : Z → nat → list byte → Z → Prop;
}.

(** These operations, and whatever is in the user's memory. *)
Definition allowing (allowed : ∀ X, kop X → Prop) : rules := Rules allowed (λ _ _ _ _, True).

Section Wp.
Variable R : rules.

Definition op_wp {X} (o : kop X) (h : locks) (Q : locks → X → Prop) : Prop :=
  allowed R X o ∧
  match o in kop X return (locks → X → Prop) → Prop with
  | MutexLockInterruptible controlMutex => λ Q,
      l_control h = false ∧ Q h true ∧ Q (Locks true (l_device h)) false
  | MutexLockInterruptible (deviceMutex d) => λ Q,
      is_device d ∧ h = no_locks ∧ Q h true ∧ Q (on_device d) false
  | MutexUnlock controlMutex => λ Q, l_control h = true ∧ Q (Locks false (l_device h)) tt
  | MutexUnlock (deviceMutex d) => λ Q, is_device d ∧ h = on_device d ∧ Q no_locks tt
  | ControlGet f => λ Q, l_control h = true ∧ ∀ b, Q h b
  | ControlSet f b => λ Q, l_control h = true ∧ Q h tt
  | AtomicAdd d k => λ Q, is_device d ∧ Q h tt
  | AtomicRead d => λ Q, is_device d ∧ ∀ z, Q h z
  | GetSlotNr d => λ Q, is_device d ∧ Q h (Z.of_nat d)
  | BarLoad d b i => λ Q,
      is_device d ∧ l_device h = Some d ∧ 0 <= i < bar_words b ∧ ∀ v, is_u32 v → Q h v
  | BarStore d b i v => λ Q,
      is_device d ∧ l_device h = Some d ∧ 0 <= i < bar_words b ∧ is_u32 v ∧ Q h tt
  | CopyFromUser a n => λ Q, ∀ bs nleft, length bs = n → copied R a n bs nleft → Q h (bs, nleft)
  | CopyToUser a bs => λ Q, ∀ z, Q h z
  | CopyBarToUser a d b i n => λ Q, is_device d ∧ l_device h = Some d ∧ ∀ z, Q h z
  | CopyUserToBar d b i a => λ Q,
      is_device d ∧ l_device h = Some d ∧ 0 <= i < bar_words b ∧ ∀ z, Q h z
  | AccessOk a n => λ Q, ∀ b, Q h b
  end Q.

Fixpoint wp {A} (p : prog A) (h : locks) (Q : locks → A → Prop) : Prop :=
  match p with
  | Ret a => Q h a
  | Vis o k => op_wp o h (λ h' x, wp (k x) h' Q)
  end.

Lemma op_wp_mono {X} (o : kop X) h (Q Q' : locks → X → Prop) :
  (∀ h x, Q h x → Q' h x) → op_wp o h Q → op_wp o h Q'.
Proof.
  intros HQ [Ha Ho]. split; [done|]. destruct o as [[]|[]| | | | | | | | | | | | ];
    naive_solver.
Qed.

Lemma wp_mono {A} (p : prog A) h (Q Q' : locks → A → Prop) :
  (∀ h a, Q h a → Q' h a) → wp p h Q → wp p h Q'.
Proof.
  intros HQ. revert h. induction p as [a|X o k IH]; intros h; [apply HQ|].
  apply op_wp_mono. intros h' x. apply IH.
Qed.

Lemma wp_bind {A B} (p : prog A) (f : A → prog B) h Q :
  wp p h (λ h' a, wp (f a) h' Q) → wp (p ≫= f) h Q.
Proof.
  revert h. induction p as [a|X o k IH]; intros h; [done|].
  apply op_wp_mono. intros h' x. apply IH.
Qed.

Lemma wp_call {A X} (o : kop X) (f : X → prog A) h Q :
  op_wp o h (λ h' x, wp (f x) h' Q) → wp (call o ≫= f) h Q.
Proof. done. Qed.
End Wp.

Arguments wp _ {_} _ _ _.
Arguments op_wp _ {_} _ _ _.

(** ** Two kinds of operations to keep apart *)

(** Counting the users of a device. *)
Definition counts {X} (o : kop X) : bool :=
  match o with AtomicAdd _ _ => true | _ => false end.

(** Copying from beyond the end of a bar. *)
Definition overruns {X} (o : kop X) : bool :=
  match o with
  | CopyBarToUser _ _ b i n => negb ((0 <=? i) && (4 * i + n <=? 4 * bar_words b))
  | _ => false
  end.

(** The device an operation names. *)
Definition op_device {X} (o : kop X) : option nat :=
  match o with
  | MutexLockInterruptible (deviceMutex d) | MutexUnlock (deviceMutex d)
  | AtomicAdd d _ | AtomicRead d | GetSlotNr d | BarLoad d _ _ | BarStore d _ _ _
  | CopyBarToUser _ d _ _ _ | CopyUserToBar d _ _ _ => Some d
  | _ => None
  end.

(** The operation names no device outside [mine]. *)
Definition stays_on (mine : nat → Prop) {X} (o : kop X) : Prop :=
  match op_device o with Some d => mine d | None => True end.

Definition any_op : rules := allowing (λ _ _, True).

(** ** The entry points follow the discipline *)

Section Handlers.
Variable R : rules.
(** The devices the caller may name. *)
Variable mine : nat → Prop.
Hypothesis mine_device : ∀ d, mine d → is_device d.
Hypothesis plain_allowed : ∀ X (o : kop X),
  counts o = false → overruns o = false → stays_on mine o → allowed R X o.
#[local] Hint Extern 0 (is_device _) => (apply mine_device; assumption) : core.

#[local] Abbreviation wp := (wp R).

Definition released {A} : locks → A → Prop := λ h _, h = no_locks.

Lemma wp_plain {A X} (o : kop X) (f : X → prog A) h Q :
  counts o = false → overruns o = false → stays_on mine o →
  op_wp (Rules (λ _ _, True) (copied R)) o h (λ h' x, wp (f x) h' Q) →
  wp (call o ≫= f) h Q.
Proof. intros Hc Ho Hm [_ H]. apply wp_call. split; [by apply plain_allowed|exact H]. Qed.

Lemma wp_unlock_return d r Q :
  mine d → Q no_locks r → wp (unlock_return d r) (on_device d) Q.
Proof. intros Hd HQ. unfold unlock_return. apply wp_plain; [done..|]. by split_and!. Qed.

Lemma wp_unlock_return_pos d r p Q :
  mine d → Q no_locks (r, p) → wp (unlock_return_pos d r p) (on_device d) Q.
Proof. intros Hd HQ. unfold unlock_return_pos. apply wp_plain; [done..|]. by split_and!. Qed.

(** The block that opens the handlers. *)
Lemma wp_control_flag {A} f (e : prog A) (k : bool → prog A) h Q :
  l_control h = false → wp e h Q → (∀ b, wp (k b) h Q) →
  wp (interrupted ← call (MutexLockInterruptible controlMutex);
      if (interrupted : bool) then e else
      flag ← call (ControlGet f);
      call (MutexUnlock controlMutex) ;; k flag) h Q.
Proof.
  intros Hc He Hk. apply wp_plain; [done..|]. split; [done|]. split_and!; [done|done|].
  apply wp_plain; [done..|]. split; [done|]. split; [done|]. intros b.
  apply wp_plain; [done..|]. split; [done|]. split; [done|]. cbn [l_device].
  destruct h; cbn in *; subst. apply Hk.
Qed.

Lemma wp_lock_device {A} d (e k : prog A) Q :
  mine d → wp e no_locks Q → wp k (on_device d) Q →
  wp (interrupted ← call (MutexLockInterruptible (deviceMutex d));
      if (interrupted : bool) then e else k) no_locks Q.
Proof. intros Hd He Hk. apply wp_plain; [done..|]. by split_and!. Qed.

Lemma wp_load {A} d b i (k : Z → prog A) h Q :
  mine d → l_device h = Some d → 0 <= i < bar_words b →
  (∀ v, is_u32 v → wp (k v) h Q) → wp (call (BarLoad d b i) ≫= k) h Q.
Proof. intros. apply wp_plain; [done..|]. repeat (split; [done|]). done. Qed.

Lemma wp_store {A} d b i v (k : unit → prog A) h Q :
  mine d → l_device h = Some d → 0 <= i < bar_words b → is_u32 v →
  wp (k tt) h Q → wp (call (BarStore d b i v) ≫= k) h Q.
Proof. intros. apply wp_plain; [done..|]. repeat (split; [done|]). done. Qed.

Lemma wp_slotNr {A} d (k : Z → prog A) h Q :
  mine d → wp (k (Z.of_nat d)) h Q → wp (call (GetSlotNr d) ≫= k) h Q.
Proof. intros. apply wp_plain; [done..|]. repeat (split; [done|]). done. Qed.

Lemma wp_copy_from {A} a n (k : list byte * Z → prog A) h Q :
  (∀ bs nleft, length bs = n → copied R a n bs nleft → wp (k (bs, nleft)) h Q) →
  wp (call (CopyFromUser a n) ≫= k) h Q.
Proof. intros Hk. apply wp_plain; [done..|]. split; [done|exact Hk]. Qed.

Lemma wp_copy_to {A} a bs (k : Z → prog A) h Q :
  (∀ nleft, wp (k nleft) h Q) → wp (call (CopyToUser a bs) ≫= k) h Q.
Proof. intros Hk. apply wp_plain; [done..|]. split; [done|exact Hk]. Qed.

(** *** The firmware *)

Lemma wp_sample_loop {A} d n : ∀ s (k : unit → prog A) h Q,
  mine d → l_device h = Some d → 0 <= s → s + Z.of_nat n <= 1024 →
  wp (k tt) h Q → wp (sample_loop d n s ≫= k) h Q.
Proof.
  induction n as [|n IH]; intros s k h Q Hd Hh Hs Hn Hk; cbn [sample_loop]; [done|].
  apply wp_store; [done..|cbn; lia|apply wrap32_range|].
  apply IH; [done..|lia|lia|done].
Qed.

Lemma REG_range a : is_register a = true → 0 <= REG a < 32.
Proof. unfold is_register, REG, sizeof_u32. lia. Qed.

Lemma wp_reg_store {A} d a v (k : unit → prog A) h Q :
  mine d → l_device h = Some d → is_register a = true → is_u32 v →
  wp (k tt) h Q → wp (reg_store d a v ≫= k) h Q.
Proof. intros ?? Ha ??. apply wp_store; try done. by apply REG_range. Qed.

Lemma wp_reg_load {A} d a (k : Z → prog A) h Q :
  mine d → l_device h = Some d → is_register a = true →
  (∀ v, is_u32 v → wp (k v) h Q) → wp (reg_load d a ≫= k) h Q.
Proof. intros ?? Ha ?. apply wp_load; try done. by apply REG_range. Qed.

Ltac wp_reg :=
  first [ apply wp_reg_store; [assumption|reflexivity|reflexivity|assumption|]
        | apply wp_reg_load; [assumption|reflexivity|reflexivity|intros ? ?] ].

Lemma wp_performActionOnWrite {A} d off bar (k : Z → prog A) Q :
  mine d → (∀ r, wp (k r) (on_device d) Q) →
  wp (mtcadummy_performActionOnWrite off bar (Z.of_nat d) ≫= k) (on_device d) Q.
Proof.
  intros Hd Hk. apply wp_bind. unfold mtcadummy_performActionOnWrite.
  destruct (negb (bar =? 0)); [apply Hk|].
  apply wp_control_flag; [done|apply Hk|]. intros spiFail. cbv zeta. rewrite Nat2Z.id.
  assert (is_u32 nSamples ∧ is_u32 MTCADUMMY_DRV_VERSION_MAJ ∧ is_u32 MTCADUMMY_DRV_VERSION_MIN ∧
    is_u32 MTCADUMMY_DMMY_AS_ASCII ∧ is_u32 MTCADUMMY_SPI_SYNC_OK ∧
    is_u32 MTCADUMMY_SPI_SYNC_ERROR) as (?&?&?&?&?&?) by by vm_compute.
  assert (is_u32 0) by apply is_u32_0.
  destruct (off =? MTCADUMMY_WORD_CLK_RST).
  { wp_reg. destruct (negb _); [|apply Hk]. do 6 wp_reg. apply Hk. }
  destruct (off =? MTCADUMMY_WORD_ADC_ENA).
  { wp_reg. destruct (negb _); [|apply Hk].
    apply wp_sample_loop; [done|done|done|by vm_compute|]. do 2 wp_reg. apply Hk. }
  destruct (off =? MTCADUMMY_WORD_FIRMWARE); [wp_reg; apply Hk|].
  destruct (off =? MTCADUMMY_WORD_COMPILATION); [wp_reg; apply Hk|].
  destruct (off =? MTCADUMMY_WORD_DUMMY); [wp_reg; apply Hk|].
  destruct (_ || _); [apply Hk|].
  destruct (off =? MTCADUMMY_WORD_SPI_WRITE); [|apply Hk].
  wp_reg. destruct (_ && _); [do 3 wp_reg|wp_reg]; apply Hk.
Qed.

Lemma wp_performPreReadAction {A} off bar slot (k : Z → prog A) h Q :
  (∀ r, wp (k r) h Q) → wp (mtcadummy_performPreReadAction off bar slot ≫= k) h Q.
Proof.
  intros Hk. unfold mtcadummy_performPreReadAction.
  destruct (negb _); [apply Hk|]. destruct (_ =? _); apply Hk.
Qed.

(** *** Writing *)

Section Entry.
Context `{ByteOrder}.

Lemma wp_mtcaDummy_write d buf count :
  mine d → wp (mtcaDummy_write d buf count) no_locks released.
Proof.
  intros Hd. apply wp_control_flag; [done|done|]. intros writeFail.
  destruct writeFail; [done|]. apply wp_lock_device; [done|done|].
  assert (∀ r, wp (unlock_return d r) (on_device d) released) as Hout
    by (intros r; by apply wp_unlock_return).
  destruct (count <? sizeof_device_rw); [apply Hout|].
  apply wp_copy_from. intros bytes nleft Hl Hbytes. destruct (negb _); [apply Hout|].
  pose proof (device_rw_of_bytes_range _ Hl) as Hr. cbv zeta.
  generalize dependent (device_rw_of_bytes bytes). intros r Hr.
  destruct (mode_rw r =? RW_D32).
  2: { destruct (_ || _); [apply Hout|]. destruct (_ =? _); apply Hout. }
  unfold write_d32. destruct (select_bar (barx_rw r)) as [[b size]|] eqn:Eb; [|apply Hout].
  destruct (select_bar_Some _ _ _ Eb) as [_ ->].
  destruct (negb _ || _) eqn:Eg; [apply Hout|].
  assert (0 <= offset_rw r / 4 < bar_words b) as Hi.
  { destruct Hr as ([? ?]&_). apply orb_false_iff in Eg as [_ Eg].
    unfold bar_words. destruct b; lia. }
  apply wp_store; [done..|apply Hr|]. apply wp_slotNr; [done|].
  apply wp_performActionOnWrite; [done|]. intros e. by destruct (negb (e =? 0)); apply Hout.
Qed.

(** A transfer the check of [mtcadummy_rw_no_struct.c] has accepted lies in its bar. *)
Lemma transfer_in_bar count f_pos ti :
  0 <= f_pos <= LOFF_MAX → 0 <= count <= MAX_RW_COUNT →
  checkAndCalculateTransferInformation count f_pos = inr ti →
  0 <= ti_offset ti / sizeof_u32 ∧
  ti_offset ti / sizeof_u32 + Z.of_nat (Z.to_nat (ti_nBytesToTransfer ti / sizeof_u32)) <=
    bar_words (ti_barStart ti).
Proof.
  intros Hp Hc Ht.
  destruct (transfer_accepted count f_pos ti 0 (fresh_device 240 0) Hp Hc (wf_fresh_device _ _) Ht)
    as [_ Ha Hl Hh].
  rewrite (wf_dev_bar_length 0 _ _ (wf_fresh_device _ _)) in Hh.
  unfold sizeof_u32, bar_words in *. destruct (ti_barStart ti); lia.
Qed.

Lemma wp_write_words d ti buf n : ∀ i f_pos,
  mine d → 0 <= i → 0 <= ti_offset ti / sizeof_u32 →
  ti_offset ti / sizeof_u32 + i + Z.of_nat n <= bar_words (ti_barStart ti) →
  wp (write_words d ti buf n i f_pos) (on_device d) released.
Proof.
  induction n as [|n IH]; intros i f_pos Hd Hi Ho Hn; cbn [write_words].
  { by apply wp_unlock_return_pos. }
  cbv zeta. apply wp_plain; [done..|]. split; [done|].
  split; [done|]. split; [done|]. split; [lia|]. intros nleft.
  destruct (negb _); [by apply wp_unlock_return_pos|]. apply wp_slotNr; [done|].
  apply wp_performActionOnWrite; [done|]. intros e.
  destruct (negb _); [by apply wp_unlock_return_pos|]. apply IH; [done|lia|done|lia].
Qed.

Lemma wp_mtcaDummy_write_no_struct d buf count f_pos :
  mine d → 0 <= f_pos <= LOFF_MAX → 0 <= count <= MAX_RW_COUNT →
  wp (mtcaDummy_write_no_struct d buf count f_pos) no_locks released.
Proof.
  intros Hd Hp Hc. apply wp_control_flag; [done|done|]. intros writeFail.
  destruct writeFail; [done|].
  destruct (checkAndCalculateTransferInformation count f_pos) as [e|ti] eqn:Et; [done|].
  apply wp_lock_device; [done|done|].
  destruct (transfer_in_bar _ _ _ Hp Hc Et) as [? ?].
  apply wp_write_words; [done|lia|done|lia].
Qed.

(** *** Reading *)

Lemma wp_read_words d ti buf n : ∀ i f_pos,
  mine d → 0 <= i → 0 <= ti_offset ti / sizeof_u32 →
  ti_offset ti / sizeof_u32 + i + Z.of_nat n <= bar_words (ti_barStart ti) →
  wp (read_words d ti buf n i f_pos) (on_device d) released.
Proof.
  induction n as [|n IH]; intros i f_pos Hd Hi Ho Hn; cbn [read_words].
  { by apply wp_unlock_return_pos. }
  cbv zeta. apply wp_slotNr; [done|]. apply wp_performPreReadAction. intros e.
  destruct (negb _); [by apply wp_unlock_return_pos|].
  apply wp_plain; [done| |done|].
  { cbn. unfold sizeof_u32 in *. rewrite (proj2 (Z.leb_le _ _)), (proj2 (Z.leb_le _ _)) by lia.
    done. }
  split; [done|]. split; [done|]. split; [done|]. intros nleft.
  destruct (negb _); [by apply wp_unlock_return_pos|]. apply IH; [done|lia|done|lia].
Qed.

Lemma wp_mtcaDummy_read_no_struct d buf count f_pos :
  mine d → 0 <= f_pos <= LOFF_MAX → 0 <= count <= MAX_RW_COUNT →
  wp (mtcaDummy_read_no_struct d buf count f_pos) no_locks released.
Proof.
  intros Hd Hp Hc. apply wp_control_flag; [done|done|]. intros readFail.
  destruct readFail; [done|].
  destruct (checkAndCalculateTransferInformation count f_pos) as [e|ti] eqn:Et; [done|].
  apply wp_lock_device; [done|done|].
  destruct (transfer_in_bar _ _ _ Hp Hc Et) as [? ?].
  apply wp_read_words; [done|lia|done|lia].
Qed.

(** *** The proc file *)

Lemma wp_set_or_read {A} f value (k : unit → prog A) h Q :
  l_control h = true → wp (k tt) h Q → wp (set_or_read f value ≫= k) h Q.
Proof.
  intros Hh Hk. unfold set_or_read. destruct (-1 <? value).
  - apply wp_plain; [done..|]. split; [done|]. by split.
  - apply wp_plain; [done..|]. split; [done|]. split; [done|]. intros b. exact Hk.
Qed.

Lemma wp_mtcadummy_proc_write scan_i ubuf count :
  wp (mtcadummy_proc_write scan_i ubuf count) no_locks released.
Proof.
  unfold mtcadummy_proc_write. apply wp_copy_from. intros bytes nleft Hl Hbytes.
  destruct (negb _); [done|]. cbv zeta.
  apply wp_plain; [done..|]. split; [done|]. split; [done|]. split; [done|].
  do 4 (apply wp_set_or_read; [done|]).
  apply wp_plain; [done..|]. split; [done|]. by split.
Qed.

Lemma wp_register_lines d fuel : ∀ reg h Q,
  mine d → l_device h = Some d → 0 <= reg → (∀ s, Q h s) →
  wp (register_lines d fuel reg) h Q.
Proof.
  induction fuel as [|fuel IH]; intros reg h Q Hd Hh Hr HQ; cbn [register_lines]; [apply HQ|].
  unfold MTCADUMMY_N_REGISTERS. destruct (Z.ltb_spec reg 32); [|apply HQ].
  do 2 (apply wp_load; [done|done|cbn; lia|]; intros ? ?).
  apply wp_bind, IH; [done|done|lia|]. intros rest. apply HQ.
Qed.

Lemma wp_dma_lines d fuel : ∀ index h Q,
  mine d → l_device h = Some d → 0 <= index → (∀ s, Q h s) →
  wp (dma_lines d fuel index) h Q.
Proof.
  induction fuel as [|fuel IH]; intros index h Q Hd Hh Hr HQ; cbn [dma_lines]; [apply HQ|].
  change (MTCADUMMY_DMA_SIZE / sizeof_u32 - 4) with 1020.
  destruct (Z.leb_spec index 1020); [|apply HQ].
  do 4 (apply wp_load; [done|done|cbn; lia|]; intros ? ?).
  apply wp_bind, IH; [done|done|lia|]. intros rest. apply HQ.
Qed.

Lemma wp_mtcadummy_seq_show d : mine d → wp (mtcadummy_seq_show d) no_locks released.
Proof.
  intros Hd. unfold mtcadummy_seq_show.
  apply wp_plain; [done..|]. split; [done|]. split; [done|]. intros inUse.
  destruct (inUse =? 0); [by apply wp_slotNr|].
  apply wp_lock_device; [done|done|]. apply wp_slotNr; [done|].
  apply wp_bind, wp_register_lines; [done|done|lia|]. intros registers.
  apply wp_slotNr; [done|]. apply wp_bind, wp_dma_lines; [done|done|lia|]. intros dma.
  apply wp_plain; [done..|]. split; [done|]. by split_and!.
Qed.

(** *** Opening and closing, where counting is allowed *)

Lemma wp_mtcaDummy_open d :
  (∀ k, allowed R unit (AtomicAdd d k)) → mine d →
  wp (mtcaDummy_open d) no_locks released.
Proof.
  intros Hcount Hd. apply wp_control_flag; [done|done|]. intros openFail.
  destruct openFail; [done|]. split; [apply Hcount|]. by split.
Qed.

Lemma wp_mtcaDummy_release d :
  (∀ k, allowed R unit (AtomicAdd d k)) → mine d →
  wp (mtcaDummy_release d) no_locks released.
Proof. intros Hcount Hd. split; [apply Hcount|]. by split. Qed.

(** *** The operations with a DMA transfer, which may leave the bar *)

(** The transfer the checks of a request let pass: the sum of size and offset wraps
    around at 32 bits. *)
Definition passes_dma_check (size offset : Z) : Prop :=
  wrap32 (size + offset) <= MTCADUMMY_DMA_SIZE.

(** The transfers of the requests the user's memory can hold at this address are
    allowed. *)
Definition rw_transfers_allowed (d : nat) (buf count : Z) : Prop :=
  ∀ bytes, length bytes = 24%nat → sizeof_device_rw <= count → copied R buf 24 bytes 0 →
    let r := device_rw_of_bytes bytes in
    mode_rw r = RW_DMA → size_rw r ≠ 0 → passes_dma_check (size_rw r) (offset_rw r) →
    allowed R Z (CopyBarToUser buf d DmaBar (offset_rw r / 4) (size_rw r)).

Definition ioctl_transfers_allowed (d : nat) (arg : Z) : Prop :=
  ∀ bytes, length bytes = 24%nat → copied R arg 24 bytes 0 →
    let dma := ioctrl_dma_of_bytes bytes in
    dma_offset dma mod 4 = 0 → passes_dma_check (dma_offset dma) (dma_size dma) →
    allowed R Z (CopyBarToUser arg d DmaBar (dma_offset dma / 4) (dma_size dma)).

Lemma wp_copy_bar {A} a d b i n (k : Z → prog A) h Q :
  allowed R Z (CopyBarToUser a d b i n) → mine d → l_device h = Some d →
  (∀ nleft, wp (k nleft) h Q) → wp (call (CopyBarToUser a d b i n) ≫= k) h Q.
Proof. intros Ha ?? Hk. split; [exact Ha|]. by split_and!. Qed.

Lemma wp_mtcaDummy_read d buf count :
  rw_transfers_allowed d buf count → mine d → wp (mtcaDummy_read d buf count) no_locks released.
Proof.
  intros Hdma Hd. apply wp_control_flag; [done|done|]. intros readFail.
  destruct readFail; [done|]. apply wp_lock_device; [done|done|].
  assert (∀ r, wp (unlock_return d r) (on_device d) released) as Hout
    by (intros r; by apply wp_unlock_return).
  destruct (Z.ltb_spec count sizeof_device_rw) as [|Hcount]; [apply Hout|].
  apply wp_copy_from. intros bytes nleft Hl Hbytes. destruct (Z.eqb_spec nleft 0) as [->|]; [|apply Hout]. specialize (Hdma bytes Hl Hcount Hbytes).
  cbn [negb].
  pose proof (device_rw_of_bytes_range _ Hl) as Hr. cbv zeta.
  generalize dependent (device_rw_of_bytes bytes). intros r Hdma Hr.
  destruct (mode_rw r =? RW_INFO).
  { apply wp_slotNr; [done|]. apply wp_copy_to. intros e. by destruct (negb (e =? 0)); apply Hout. }
  destruct (mode_rw r =? RW_D32).
  { unfold read_d32. destruct (select_bar (barx_rw r)) as [[b size]|] eqn:Eb; [|apply Hout].
    destruct (select_bar_Some _ _ _ Eb) as [_ ->].
    destruct (negb _ || _) eqn:Eg; [apply Hout|].
    assert (0 <= offset_rw r / 4 < bar_words b) as Hi.
    { destruct Hr as ([? ?]&_). apply orb_false_iff in Eg as [_ Eg].
      unfold bar_words. destruct b; lia. }
    apply wp_slotNr; [done|]. apply wp_performPreReadAction. intros e.
    destruct (negb (e =? 0)); [apply Hout|]. apply wp_load; [done..|]. intros v _.
    apply wp_copy_to. intros e'. by destruct (negb (e' =? 0)); apply Hout. }
  destruct (_ || _); [apply Hout|]. destruct (Z.eqb_spec (mode_rw r) RW_DMA) as [Hm|]; [|apply Hout].
  unfold read_dma. cbv zeta. destruct (Z.eqb_spec (size_rw r) 0) as [|Hsize]; [apply Hout|].
  destruct (Z.ltb_spec MTCADUMMY_DMA_SIZE (wrap32 (size_rw r + offset_rw r))) as [|Hsum]; [apply Hout|].
  apply wp_copy_bar; [by apply Hdma|done|done|]. intros e.
  by destruct (negb (e =? 0)); apply Hout.
Qed.

Lemma wp_ioctl_physical_slot d arg :
  mine d → wp (ioctl_physical_slot d arg) (on_device d) released.
Proof.
  intros Hd. apply wp_copy_from. intros bytes nleft Hl Hbytes.
  destruct (negb _); [by apply wp_unlock_return|]. apply wp_slotNr; [done|].
  apply wp_copy_to. intros e. by apply wp_unlock_return.
Qed.

Lemma wp_ioctl_version d arg : mine d → wp (ioctl_version d arg) (on_device d) released.
Proof.
  intros Hd. apply wp_copy_from. intros bytes nleft Hl Hbytes.
  destruct (negb _); [by apply wp_unlock_return|].
  apply wp_copy_to. intros left. by apply wp_unlock_return.
Qed.

Lemma wp_ioctl_read_dma d arg :
  ioctl_transfers_allowed d arg → mine d → wp (ioctl_read_dma d arg) (on_device d) released.
Proof.
  intros Hdma Hd. apply wp_copy_from. intros bytes nleft Hl Hbytes.
  destruct (Z.eqb_spec nleft 0) as [->|]; [|by apply wp_unlock_return]. cbn [negb]. cbv zeta.
  specialize (Hdma bytes Hl Hbytes). cbv zeta in Hdma.
  destruct (Z.ltb_spec MTCADUMMY_DMA_SIZE (wrap32 (dma_offset (ioctrl_dma_of_bytes bytes) +
    dma_size (ioctrl_dma_of_bytes bytes)))); [by apply wp_unlock_return|].
  destruct (Z.eqb_spec (dma_offset (ioctrl_dma_of_bytes bytes) mod 4) 0);
    [|by apply wp_unlock_return]. cbn [negb].
  apply wp_copy_bar; [by apply Hdma|done|done|]. intros left. by apply wp_unlock_return.
Qed.

Context `{IoctlEncoding}.

(** The three handlers. *)
Ltac wp_ioctl :=
  repeat match goal with
  | |- wp (if _ then mret _ else _) _ _ => case_match; [done|]
  end;
  apply wp_plain; [done..|]; split; [done|]; intros [];  [|done];
  apply wp_lock_device; [done|done|];
  repeat (case_match;
    [first [ by apply wp_ioctl_physical_slot | by apply wp_ioctl_version
           | by (apply wp_ioctl_read_dma; auto with lia) ]|]);
  by apply wp_unlock_return.

Lemma wp_mtcaDummy_ioctl d cmd arg :
  (cmd = PCIEDEV_READ_DMA → ioctl_transfers_allowed d arg) →
  mine d → wp (mtcaDummy_ioctl d cmd arg) no_locks released.
Proof. intros Hdma Hd. unfold mtcaDummy_ioctl. wp_ioctl. Qed.

Lemma wp_llrfDummy_ioctl d cmd arg :
  mine d → wp (llrfDummy_ioctl d cmd arg) no_locks released.
Proof. intros Hd. unfold llrfDummy_ioctl. wp_ioctl. Qed.

Lemma wp_pcieuniDummy_ioctl d cmd arg :
  (cmd = PCIEUNI_READ_DMA → ioctl_transfers_allowed d arg) →
  mine d → wp (pcieuniDummy_ioctl d cmd arg) no_locks released.
Proof. intros Hdma Hd. unfold pcieuniDummy_ioctl. wp_ioctl. Qed.
End Entry.
End Handlers.
