(* ===== verification/Concurrency.v ===== *)
(** * Concurrent system calls

    The driver as the kernel runs it: any number of threads, each inside one
    entry point of the driver, taking turns operation by operation, with signals
    and changes of the user's memory at any time ([step]). The discipline of
    [Locking] makes every interleaving safe: shared data is accessed by the
    holder of its mutex only, the devices stay well-formed, some thread can
    always go on, and when all calls have returned all mutexes are free. *)

From S2P Require Import Prelude Abi Kernel UserMem Firmware ModuleInit Registers.
From S2P Require Import StructRW NoStructRW Ioctl OpenRelease Proc ProcDump Locking.
From stdpp Require Import functions.
Local Open Scope Z_scope.

(** ** Soundness of the discipline for one operation *)

Section Soundness.
Context {U : Type} `{UserSpace U} `{ByteOrder}.
Implicit Types st : kstate U.

(** The mutexes that thread [t] holds are those of [h]. *)
Definition owns (st : kstate U) (t : nat) (h : locks) : Prop :=
  (control_owner st = Some t ↔ l_control h = true) ∧
  ∀ d dev, devs st !! d = Some dev → (devMutex dev = Some t ↔ l_device h = Some d).

(** Another thread's holdings survive a change of the state. *)
Definition others_kept (t : nat) (st st' : kstate U) : Prop :=
  ∀ t' h', t' ≠ t → owns st t' h' → owns st' t' h'.

(** What a correct operation may do to the devices: those whose mutex another
    thread holds keep their bars. *)
Definition protected (t : nat) (st st' : kstate U) : Prop :=
  ∀ d dev t', devs st !! d = Some dev → devMutex dev = Some t' → t' ≠ t →
    ∃ dev', devs st' !! d = Some dev' ∧ systemBar dev' = systemBar dev ∧
      dmaBar dev' = dmaBar dev ∧ devMutex dev' = Some t'.

Lemma is_device_lookup st d :
  wf_devs (devs st) → is_device d → ∃ dev, devs st !! d = Some dev ∧ wf_dev d dev.
Proof.
  intros [Hl Hw] Hd. unfold MTCADUMMY_NR_DEVS, is_device in *.
  destruct (lookup_lt_is_Some_2 (devs st) d) as [dev Hdev]; [lia|]. eauto.
Qed.

(** Changing a device without its mutex or its numbers. *)
Lemma upd_dev_sound t st d dev dev' :
  wf_devs (devs st) → devs st !! d = Some dev → wf_dev d dev' →
  devMutex dev' = devMutex dev →
  (devMutex dev = Some t ∨ (systemBar dev' = systemBar dev ∧ dmaBar dev' = dmaBar dev)) →
  wf_devs (devs (upd_dev d dev' st)) ∧
  (∀ t' h', owns st t' h' → owns (upd_dev d dev' st) t' h') ∧ protected t st (upd_dev d dev' st).
Proof.
  intros Hwf Hd Hw Hm Hch. pose proof (lookup_lt_Some _ _ _ Hd) as Hlt. split_and!.
  - cbn. by apply wf_devs_insert.
  - intros t' h' [Hc Hdv]. split; [done|]. intros d0 dev0 Hlk.
    destruct (decide (d = d0)) as [<-|Hne].
    + rewrite devs_upd_dev in Hlk by done. injection Hlk as <-. rewrite Hm. by apply Hdv.
    + rewrite devs_upd_dev_ne in Hlk by done. by apply Hdv.
  - intros d0 dev0 t' Hlk Hm0 Hne. destruct (decide (d = d0)) as [<-|Hne0].
    + rewrite Hlk in Hd. injection Hd as ->. exists dev'.
      rewrite devs_upd_dev by done. destruct Hch as [Ht|[-> ->]]; [congruence|].
      split_and!; congruence.
    + exists dev0. by rewrite devs_upd_dev_ne.
Qed.

Lemma protected_same_devs t st st' : devs st' = devs st → protected t st st'.
Proof. intros E d dev t' Hd Hm _. exists dev. by rewrite E. Qed.

Lemma owns_same st st' t h :
  devs st' = devs st → control_owner st' = control_owner st → owns st t h → owns st' t h.
Proof. unfold owns. by intros -> ->. Qed.

(** Changing the holder of a device's mutex from [o] to [o']. *)
Lemma set_owner_sound t st d dev (o' : option nat) h h' :
  wf_devs (devs st) → devs st !! d = Some dev → owns st t h →
  (devMutex dev = None ∧ o' = Some t ∨ devMutex dev = Some t ∧ o' = None) →
  l_control h' = l_control h → (∀ d', d' ≠ d → (l_device h' = Some d' ↔ l_device h = Some d')) →
  (o' = Some t ↔ l_device h' = Some d) →
  let st' := with_devs (alter (set_owner o') d (devs st)) st in
  owns st' t h' ∧ others_kept t st st' ∧ wf_devs (devs st') ∧ protected t st st'.
Proof.
  intros Hwf Hd [Hc Hdv] Hch Hc' Hother Hthis. cbv zeta.
  pose proof (lookup_lt_Some _ _ _ Hd) as Hlt.
  rewrite (list_alter_insert_eq _ _ _ _ Hd). fold (upd_dev d (set_owner o' dev) st). split_and!.
  - split; [by rewrite Hc'|]. intros d0 dev0 Hlk. destruct (decide (d = d0)) as [<-|Hne].
    + rewrite devs_upd_dev in Hlk by done. by injection Hlk as <-.
    + rewrite devs_upd_dev_ne in Hlk by done. rewrite Hother by done. by apply Hdv.
  - intros t' h0 Hne [Hc0 Hd0]. split; [done|]. intros d0 dev0 Hlk.
    destruct (decide (d = d0)) as [<-|Hned].
    + rewrite devs_upd_dev in Hlk by done. injection Hlk as <-. rewrite <-(Hd0 _ _ Hd). cbn.
      destruct Hch as [[-> ->]|[-> ->]]; split; congruence.
    + rewrite devs_upd_dev_ne in Hlk by done. by apply Hd0.
  - cbn. apply wf_devs_insert; [done|]. apply wf_dev_set_owner, (proj2 Hwf _ _ Hd).
  - intros d0 dev0 t' Hlk Hm Hne. destruct (decide (d = d0)) as [<-|Hned].
    + destruct Hch as [[Hn _]|[Ht _]]; congruence.
    + exists dev0. by rewrite devs_upd_dev_ne.
Qed.

(** No mutex is held exactly when no thread holds one. *)
Lemma idle_owns st : idle st ↔ ∀ t, owns st t no_locks.
Proof.
  split.
  - intros Hi t. destruct (Hi) as [Hc _]. split; [by rewrite Hc|].
    intros d dev Hd. by rewrite (idle_dev d dev st Hi Hd).
  - intros Hn. split.
    + destruct (control_owner st) as [t|] eqn:E; [|done]. by apply (proj1 (Hn t)) in E.
    + apply Forall_lookup_2. intros d dev Hd. destruct (devMutex dev) as [t|] eqn:E; [|done].
      by apply (proj2 (Hn t) d dev Hd) in E.
Qed.

Variable R : rules.

(** An operation the discipline allows to a thread is never misuse; it may have
    to wait for a mutex, and may fault only where it reads beyond a bar. *)
Definition sound_outcome {X} (o : kop X) (t : nat) (Q : locks → X → Prop) (st : kstate U)
    (r : outcome (X * kstate U)) : Prop :=
  match r with
  | Done (x, st') => ∃ h', Q h' x ∧ owns st' t h' ∧ others_kept t st st' ∧
      wf_devs (devs st') ∧ protected t st st'
  | Blocked => match o with
               | MutexLockInterruptible m => ∃ t', owner m st = Some (Some t')
               | _ => False
               end
  | Oops reason => reason = OutOfBounds ∧ overruns o = true
  end.

(** Nothing but the user's memory, the pending signals or the flags changed. *)
Lemma sound_unshared {X} (o : kop X) t h Q st x st' :
  wf_devs (devs st) → owns st t h → devs st' = devs st → control_owner st' = control_owner st →
  Q h x → sound_outcome o t Q st (Done (x, st')).
Proof.
  intros Hwf Ho Hd Hc HQ. exists h. split_and!; [done|by eapply owns_same| |by rewrite Hd|
    by apply protected_same_devs].
  intros t' h' _. by apply owns_same.
Qed.

Lemma sound_lock_control t h Q st :
  wf_devs (devs st) → owns st t h →
  op_wp R (MutexLockInterruptible controlMutex) h Q →
  sound_outcome (MutexLockInterruptible controlMutex) t Q st (step_lock t controlMutex st).
Proof.
  intros Hwf [Hc Hdv] (_ & Hf & Hint & Hok). unfold step_lock. cbn [owner].
  destruct (default false _); [by eapply sound_unshared|].
  destruct (control_owner st) as [t'|] eqn:E; [by eexists; cbn; rewrite E|].
  exists (Locks true (l_device h)). split_and!; [done|by split| |done|by apply protected_same_devs].
  intros t' h' Hne [Hc' Hd']. split; [|done]. cbn. rewrite <-Hc', E. split; congruence.
Qed.

Lemma sound_unlock_control t h Q st :
  wf_devs (devs st) → owns st t h → op_wp R (MutexUnlock controlMutex) h Q →
  sound_outcome (MutexUnlock controlMutex) t Q st (step_unlock t controlMutex st).
Proof.
  intros Hwf [Hc Hdv] (_ & Hh & HQ). unfold step_unlock. cbn [owner].
  apply Hc in Hh. rewrite Hh, decide_True by done.
  exists (Locks false (l_device h)). split_and!; [done|by split| |done|by apply protected_same_devs].
  intros t' h' Hne [Hc' Hd']. split; [|done]. cbn. rewrite <-Hc', Hh. split; congruence.
Qed.

Lemma sound_lock_device t h Q st d :
  wf_devs (devs st) → owns st t h →
  op_wp R (MutexLockInterruptible (deviceMutex d)) h Q →
  sound_outcome (MutexLockInterruptible (deviceMutex d)) t Q st (step_lock t (deviceMutex d) st).
Proof.
  intros Hwf Ho (_ & Hdv & -> & Hint & Hok).
  destruct (is_device_lookup st d Hwf Hdv) as (dev & Hd & Hw).
  unfold step_lock. cbn [owner]. rewrite Hd. cbn [fmap option_fmap option_map].
  destruct (default false _); [by eapply sound_unshared|].
  destruct (devMutex dev) as [t'|] eqn:E; [by exists t'; cbn; rewrite Hd; cbn; rewrite E|].
  exists (on_device d). split; [done|].
  apply (set_owner_sound t (with_signals (tail (signals st)) st) d dev (Some t) no_locks);
    [done..|by left|done| |done].
  intros d' Hne. cbn. split; congruence.
Qed.

Lemma sound_unlock_device t h Q st d :
  wf_devs (devs st) → owns st t h → op_wp R (MutexUnlock (deviceMutex d)) h Q →
  sound_outcome (MutexUnlock (deviceMutex d)) t Q st (step_unlock t (deviceMutex d) st).
Proof.
  intros Hwf Ho (_ & Hdv & -> & HQ).
  destruct (is_device_lookup st d Hwf Hdv) as (dev & Hd & Hw).
  assert (devMutex dev = Some t) as Hm by by apply (proj2 Ho d).
  unfold step_unlock. cbn [owner]. rewrite Hd. cbn [fmap option_fmap option_map].
  rewrite Hm, decide_True by done. exists no_locks. split; [done|].
  apply (set_owner_sound t st d dev None (on_device d)); [done..|by right|done| |].
  - intros d' Hne. cbn. split; congruence.
  - split; [done|]. intros [=].
Qed.

(** An access to a bar by the holder of the mutex passes the checks on it. *)
Lemma on_bar_held {A} t h st d dev b i n (f : mtcaDummyData → outcome (A * kstate U)) :
  owns st t h → l_device h = Some d → devs st !! d = Some dev → wf_dev d dev →
  on_bar t d b i n st f =
    if (0 <=? i) && (4 * i + n <=? 4 * bar_words b) then f dev else Oops OutOfBounds.
Proof.
  intros [_ Hdv] Hh Hd Hw. unfold on_bar, on_dev.
  rewrite Hd, decide_True by by apply (Hdv d).
  rewrite (wf_dev_bar_length _ _ _ Hw). by destruct b.
Qed.

(** A change of a device by the holder of its mutex, or of its user count. *)
Lemma sound_upd_dev {X} (o : kop X) t h Q st x d dev dev' :
  wf_devs (devs st) → owns st t h → devs st !! d = Some dev → wf_dev d dev' →
  devMutex dev' = devMutex dev →
  (devMutex dev = Some t ∨ (systemBar dev' = systemBar dev ∧ dmaBar dev' = dmaBar dev)) →
  Q h x → sound_outcome o t Q st (Done (x, upd_dev d dev' st)).
Proof.
  intros Hwf Ho Hd Hw' Hm Hch HQ.
  destruct (upd_dev_sound t st d dev dev') as (? & Hall & ?); [done..|].
  exists h. split_and!; [done|by apply Hall| |done|done].
  intros t' h' _. apply Hall.
Qed.

(** What is sound on every well-formed device is sound on device [d]. *)
Lemma sound_on_dev {X} (o : kop X) t Q st d f :
  wf_devs (devs st) → is_device d →
  (∀ dev, devs st !! d = Some dev → wf_dev d dev → sound_outcome o t Q st (f dev)) →
  sound_outcome o t Q st (on_dev d st f).
Proof.
  intros Hwf Hdv Hf. destruct (is_device_lookup st d Hwf Hdv) as (dev & Hd & Hw).
  unfold on_dev. rewrite Hd. by apply Hf.
Qed.

(** So is, for the holder of its mutex, what is sound inside the bar. *)
Lemma sound_on_bar {X} (o : kop X) t h Q st d b i n f :
  wf_devs (devs st) → owns st t h → is_device d → l_device h = Some d →
  ((0 <=? i) && (4 * i + n <=? 4 * bar_words b) = false → overruns o = true) →
  (∀ dev, devs st !! d = Some dev → wf_dev d dev → devMutex dev = Some t →
     sound_outcome o t Q st (f dev)) →
  sound_outcome o t Q st (on_bar t d b i n st f).
Proof.
  intros Hwf Ho Hdv Hh Hover Hf. destruct (is_device_lookup st d Hwf Hdv) as (dev & Hd & Hw).
  rewrite (on_bar_held t h st d dev) by done.
  destruct (_ && _); [|split; [done|by apply Hover]].
  apply Hf; [done..|]. by apply (proj2 Ho d).
Qed.

(** One operation of a thread that follows the discipline, in any
    well-formed state and with or without a signal, never breaks the locking
    rules: it completes and leaves the state well-formed, the holdings of the
    other threads unchanged and the bars they protect untouched; or it waits for
    a mutex that is held; or it faults by copying from beyond a bar. *)
Lemma step_op_sound {X} (o : kop X) (t : nat) (h : locks) (Q : locks → X → Prop)
    (st : kstate U) (Hwf : wf_devs (devs st)) (Ho : owns st t h)
    (Hmem : ∀ a n, copied R a n (copy_from_user (user st) a n).1 (copy_from_user (user st) a n).2)
    (Hop : op_wp R o h Q) :
  sound_outcome o t Q st (step_op t o st).
Proof.
  destruct o as [[|d]|[|d]|f|f b|d k|d|d|d b i|d b i v|a n|a bs|a d b i n|d b i a|a n];
    cbn [step_op].
  - by apply (sound_lock_control t h).
  - by apply (sound_lock_device t h).
  - by apply (sound_unlock_control t h).
  - by apply (sound_unlock_device t h).
  - destruct Hop as (_ & Hh & HQ). apply (proj1 Ho) in Hh. rewrite decide_True by done.
    by eapply sound_unshared.
  - destruct Hop as (_ & Hh & HQ). apply (proj1 Ho) in Hh. rewrite decide_True by done.
    by eapply sound_unshared.
  - destruct Hop as (_ & Hdv & HQ). apply sound_on_dev; [done..|]. intros dev Hd Hw.
    eapply sound_upd_dev; [done..|by right|done].
  - destruct Hop as (_ & Hdv & HQ). apply sound_on_dev; [done..|]. intros dev Hd Hw.
    by eapply sound_unshared.
  - destruct Hop as (_ & Hdv & HQ). apply sound_on_dev; [done..|]. intros dev Hd Hw.
    rewrite (proj1 Hw). by eapply sound_unshared.
  - destruct Hop as (_ & Hdv & Hh & Hi & HQ).
    apply (sound_on_bar _ _ h); [done..|lia|]. intros dev Hd Hw Hm.
    eapply sound_unshared; [done..|]. apply HQ. apply Forall_nthz; [|apply is_u32_0].
    by eapply wf_dev_bar_words.
  - destruct Hop as (_ & Hdv & Hh & Hi & Hv & HQ).
    apply (sound_on_bar _ _ h); [done..|lia|]. intros dev Hd Hw Hm.
    eapply sound_upd_dev; [done..|by apply wf_set_word|by rewrite devMutex_set_bar|by left|done].
  - destruct Hop as (_ & HQ). pose proof (copy_from_user_length (user st) a n) as Hl.
    specialize (Hmem a n). destruct (copy_from_user _ _ _) as [bs nleft].
    eapply sound_unshared; [done..|]. by apply HQ.
  - destruct Hop as (_ & HQ). destruct (copy_to_user _ _ _) as [u nleft].
    by eapply sound_unshared.
  - destruct Hop as (_ & Hdv & Hh & HQ).
    apply (sound_on_bar _ _ h); [done..|by intros Eb; cbn; rewrite Eb|]. intros dev Hd Hw Hm.
    destruct (copy_to_user _ _ _) as [u nleft]. by eapply sound_unshared.
  - destruct Hop as (_ & Hdv & Hh & Hi & HQ).
    apply (sound_on_bar _ _ h); [done..|lia|]. intros dev Hd Hw Hm.
    pose proof (u32_of_bytes_range _ (copy_from_user_length (user st) a 4)) as Hv.
    destruct (copy_from_user _ _ _) as [bs nleft]. cbn [fst] in Hv.
    eapply sound_upd_dev; [done..|by apply wf_set_word|by rewrite devMutex_set_bar|by left|].
    by apply HQ.
  - destruct Hop as (_ & HQ). by eapply sound_unshared.
Qed.
End Soundness.

(** ** System calls in progress *)

(** The entry points of the driver, with their arguments. *)
Inductive driver_call :=
  | OpenCall (d : nat)
  | ReleaseCall (d : nat)
  | ReadCall (d : nat) (buf count : Z)
  | WriteCall (d : nat) (buf count : Z)
  | ReadNoStructCall (d : nat) (buf count f_pos : Z)
  | WriteNoStructCall (d : nat) (buf count f_pos : Z)
  | MtcaIoctlCall (d : nat) (cmd arg : Z)
  | LlrfIoctlCall (d : nat) (cmd arg : Z)
  | PcieuniIoctlCall (d : nat) (cmd arg : Z)
  | ProcWriteCall (ubuf count : Z)
  | ProcShowCall (d : nat).

(** The arguments the kernel passes: one of the seven devices, and for the file
    operations with a position a count and a position in range. *)
Definition valid_call (c : driver_call) : Prop :=
  match c with
  | OpenCall d | ReleaseCall d | ReadCall d _ _ | WriteCall d _ _ | ProcShowCall d
  | MtcaIoctlCall d _ _ | LlrfIoctlCall d _ _ | PcieuniIoctlCall d _ _ => is_device d
  | ReadNoStructCall d _ count f_pos | WriteNoStructCall d _ count f_pos =>
      is_device d ∧ 0 <= f_pos <= LOFF_MAX ∧ 0 <= count <= MAX_RW_COUNT
  | ProcWriteCall _ _ => True
  end.

Section Machine.
Context {U : Type} `{UserSpace U} `{ByteOrder} `{IoctlEncoding}.
Variable scan_i : list byte → option Z.

Definition call_prog (c : driver_call) : prog Z :=
  match c with
  | OpenCall d => '(r, _) ← mtcaDummy_open d; mret r
  | ReleaseCall d => mtcaDummy_release d
  | ReadCall d buf count => mtcaDummy_read d buf count
  | WriteCall d buf count => mtcaDummy_write d buf count
  | ReadNoStructCall d buf count f_pos =>
      '(r, _) ← mtcaDummy_read_no_struct d buf count f_pos; mret r
  | WriteNoStructCall d buf count f_pos =>
      '(r, _) ← mtcaDummy_write_no_struct d buf count f_pos; mret r
  | MtcaIoctlCall d cmd arg => mtcaDummy_ioctl d cmd arg
  | LlrfIoctlCall d cmd arg => llrfDummy_ioctl d cmd arg
  | PcieuniIoctlCall d cmd arg => pcieuniDummy_ioctl d cmd arg
  | ProcWriteCall ubuf count => mtcadummy_proc_write scan_i ubuf count
  | ProcShowCall d => '(r, _) ← mtcadummy_seq_show d; mret r
  end.

(** The DMA transfers that a call can be asked for are allowed. *)
Definition transfers_allowed (R : rules) (c : driver_call) : Prop :=
  match c with
  | ReadCall d buf count => rw_transfers_allowed R d buf count
  | MtcaIoctlCall d cmd arg => cmd = PCIEDEV_READ_DMA → ioctl_transfers_allowed R d arg
  | PcieuniIoctlCall d cmd arg => cmd = PCIEUNI_READ_DMA → ioctl_transfers_allowed R d arg
  | _ => True
  end.

Lemma wp_call_prog R c :
  (∀ X (o : kop X), overruns o = false → allowed R X o) →
  transfers_allowed R c → valid_call c → wp R (call_prog c) no_locks released.
Proof.
  intros Hplain Hdma Hv.
  assert (∀ X (o : kop X), counts o = false → overruns o = false → stays_on is_device o →
    allowed R X o) by auto.
  assert (∀ d k, allowed R unit (AtomicAdd d k)) by by intros; apply Hplain.
  destruct c; cbn [call_prog valid_call transfers_allowed] in *.
  - eapply wp_bind, wp_mono; [|by apply (wp_mtcaDummy_open _ is_device)]. by intros h [].
  - by apply (wp_mtcaDummy_release _ is_device).
  - by apply (wp_mtcaDummy_read _ is_device).
  - by apply (wp_mtcaDummy_write _ is_device).
  - eapply wp_bind, wp_mono; [|by apply (wp_mtcaDummy_read_no_struct _ is_device); try apply Hv].
    by intros h [].
  - eapply wp_bind, wp_mono; [|by apply (wp_mtcaDummy_write_no_struct _ is_device); try apply Hv].
    by intros h [].
  - by apply (wp_mtcaDummy_ioctl _ is_device).
  - by apply (wp_llrfDummy_ioctl _ is_device).
  - by apply (wp_pcieuniDummy_ioctl _ is_device).
  - by apply (wp_mtcadummy_proc_write _ is_device).
  - eapply wp_bind, wp_mono; [|by apply (wp_mtcadummy_seq_show _ is_device)]. by intros h [].
Qed.

(** The threads inside the driver, each with what it has left to do, and the
    state they share. *)
Record machine := Machine { threads : gmap nat (prog Z); shared : kstate U }.

(** The system calls that are made. *)
Variable made : driver_call → Prop.

(** One step: a thread enters the driver, performs its next operation (a signal
    pending or not), or leaves; or the user's memory changes. The label is the
    thread. *)
Inductive step : option nat → machine → machine → Prop :=
  | step_enter t c m :
      threads m !! t = None → valid_call c → made c →
      step (Some t) m (Machine (<[t := call_prog c]> (threads m)) (shared m))
  | step_operation t {X} (o : kop X) (k : X → prog Z) s x st' m :
      threads m !! t = Some (Vis o k) →
      step_op t o (with_signals [s] (shared m)) = Done (x, st') →
      step (Some t) m (Machine (<[t := k x]> (threads m)) (with_signals [] st'))
  | step_leave t r m :
      threads m !! t = Some (Ret r) →
      step (Some t) m (Machine (delete t (threads m)) (shared m))
  | step_user u m :
      step None m (Machine (threads m) (with_user u (shared m))).

Definition any_step (m m' : machine) : Prop := ∃ l, step l m m'.

(** What can happen after loading the driver. *)
Definition reachable (major : Z) (u : U) (m : machine) : Prop :=
  rtc any_step (Machine ∅ (loaded_state major u)) m.

(** The same with a memory of the user that satisfies [ok] all the time. *)
Definition step_while (ok : U → Prop) (m m' : machine) : Prop :=
  any_step m m' ∧ ok (user (shared m')).

Definition reachable_while (ok : U → Prop) (major : Z) (u : U) (m : machine) : Prop :=
  ok u ∧ rtc (step_while ok) (Machine ∅ (loaded_state major u)) m.

Lemma reachable_any_memory major u m :
  reachable major u m → reachable_while (λ _, True) major u m.
Proof. intros Hr. split; [done|]. eapply rtc_subrel; [|exact Hr]. by intros m1 m2. Qed.

(** *** The invariant *)

(** The machine follows the discipline: every thread in the driver holds some
    mutexes with which the rest of its program is safe, the other threads hold
    none, and the devices are well-formed. *)
Definition disciplined (R : rules) (m : machine) : Prop :=
  wf_devs (devs (shared m)) ∧
  ∃ H : nat → locks, (∀ t, owns (shared m) t (H t)) ∧
    ∀ t, match threads m !! t with
         | Some p => wp R p (H t) released
         | None => H t = no_locks
         end.

Lemma disciplined_loaded R major (u : U) :
  disciplined R (Machine ∅ (loaded_state major u)).
Proof.
  split; [apply wf_fresh_devices|]. exists (λ _, no_locks). split; [|done].
  apply idle_owns, loaded_idle.
Qed.

Section Invariant.
Variable R : rules.
Hypothesis made_wp : ∀ c, valid_call c → made c → wp R (call_prog c) no_locks released.
(** The user's memory obeys the rules. *)
Variable ok : U → Prop.
Hypothesis ok_copied : ∀ u a n, ok u → copied R a n (copy_from_user u a n).1 (copy_from_user u a n).2.

(** The operation [o] of thread [t] in the middle of its program. *)
Lemma disciplined_operation m t {X} (o : kop X) k s :
  disciplined R m → ok (user (shared m)) → threads m !! t = Some (Vis o k) →
  ∃ h, sound_outcome o t (λ h' x, wp R (k x) h' released) (with_signals [s] (shared m))
         (step_op t o (with_signals [s] (shared m))) ∧ op_wp R o h
         (λ h' x, wp R (k x) h' released) ∧ owns (shared m) t h.
Proof.
  intros (Hwf & H' & Ho & Ht) Hok Hlk. exists (H' t). specialize (Ht t). rewrite Hlk in Ht.
  split; [|by split].
  exact (step_op_sound R o t (H' t) _ (with_signals [s] (shared m)) Hwf (Ho t)
    (λ a n, ok_copied _ a n Hok) Ht).
Qed.

Lemma disciplined_step l m m' :
  step l m m' → ok (user (shared m)) → disciplined R m → disciplined R m'.
Proof.
  intros Hstep Hok Hinv. destruct Hstep as [t c m Hn Hv Hm|t X o k s x st' m Hlk E|t r m Hlk|u m].
  - destruct Hinv as (Hwf & H' & Ho & Ht). split; [done|]. exists H'. split; [done|].
    intros t'. cbn. destruct (decide (t = t')) as [<-|Hne].
    + rewrite lookup_insert_eq. specialize (Ht t). rewrite Hn in Ht. rewrite Ht. auto.
    + rewrite lookup_insert_ne by done. apply Ht.
  - destruct Hinv as (Hwf & H' & Ho & Ht). pose proof (Ht t) as Hthis. rewrite Hlk in Hthis.
    pose proof (step_op_sound R o t (H' t) _ (with_signals [s] (shared m))
      Hwf (Ho t) (λ a n, ok_copied _ a n Hok) Hthis) as Hs.
    rewrite E in Hs. destruct Hs as (h' & Hk & Hown & Hkept & Hwf' & _).
    split; [done|]. exists (<[t := h']> H'). split.
    + intros t'. destruct (decide (t = t')) as [<-|Hne].
      * by rewrite fn_lookup_insert.
      * rewrite fn_lookup_insert_ne by done. exact (Hkept t' (H' t') (not_eq_sym Hne) (Ho t')).
    + intros t'. cbn. destruct (decide (t = t')) as [<-|Hne].
      * by rewrite lookup_insert_eq, fn_lookup_insert.
      * rewrite lookup_insert_ne, fn_lookup_insert_ne by done. apply Ht.
  - destruct Hinv as (Hwf & H' & Ho & Ht). split; [done|]. exists H'. split; [done|].
    intros t'. cbn. destruct (decide (t = t')) as [<-|Hne].
    + rewrite lookup_delete_eq. specialize (Ht t). by rewrite Hlk in Ht.
    + rewrite lookup_delete_ne by done. apply Ht.
  - exact Hinv.
Qed.

Lemma disciplined_reachable major u m :
  reachable_while ok major u m → disciplined R m ∧ ok (user (shared m)).
Proof.
  intros [Hu Hr]. revert m Hr. apply rtc_ind_r; [by split; [apply disciplined_loaded|]|].
  intros m m' _ [[l Hstep] Hok'] [Hinv Hok]. split; [|done]. by eapply disciplined_step.
Qed.

(** When all calls have returned, all mutexes are free. *)
Lemma disciplined_quiet m : disciplined R m → threads m = ∅ → idle (shared m).
Proof.
  intros (_ & H' & Ho & Ht) Hq. apply idle_owns. intros t. specialize (Ht t).
  rewrite Hq, lookup_empty in Ht. rewrite <-Ht. apply Ho.
Qed.

(** *** Progress *)

(** The thread's next operation would not wait. *)
Definition can_go_on (m : machine) (t : nat) : Prop :=
  ∃ p, threads m !! t = Some p ∧
    match p with
    | Ret _ => True
    | Vis o _ => step_op t o (with_signals [false] (shared m)) ≠ Blocked
    end.

(** A thread that waits, waits for a mutex somebody holds, and follows the lock
    order. *)
Lemma waiting m t {X} (o : kop X) (k : X → prog Z) H' :
  wf_devs (devs (shared m)) → owns (shared m) t (H' t) → ok (user (shared m)) →
  wp R (Vis o k) (H' t) released →
  step_op t o (with_signals [false] (shared m)) = Blocked →
  (∃ t', control_owner (shared m) = Some t' ∧ l_control (H' t) = false) ∨
  (∃ d dev t', devs (shared m) !! d = Some dev ∧ devMutex dev = Some t' ∧ H' t = no_locks).
Proof.
  intros Hwf Ho Hok Hwp Hb.
  pose proof (step_op_sound R o t (H' t) _ (with_signals [false] (shared m)) Hwf Ho
    (λ a n, ok_copied _ a n Hok) Hwp) as Hs.
  rewrite Hb in Hs. destruct o as [[|d]| | | | | | | | | | | | |]; try done.
  - left. destruct Hs as [t' [= E]]. exists t'. split; [done|]. apply Hwp.
  - right. destruct Hs as [t' E]. cbn in E. destruct (devs (shared m) !! d) as [dev|] eqn:Ed; [|done].
    injection E as E. exists d, dev, t'. split_and!; [done|done|]. apply Hwp.
Qed.

(** A thread that holds something is in the driver and has not finished. *)
Lemma holder_running m H' t :
  (∀ t, match threads m !! t with
        | Some p => wp R p (H' t) released
        | None => H' t = no_locks
        end) →
  H' t ≠ no_locks →
  ∃ X (o : kop X) k, threads m !! t = Some (Vis o k) ∧ wp R (Vis o k) (H' t) released.
Proof.
  intros Ht Hne. specialize (Ht t). destruct (threads m !! t) as [[a|X o k]|]; [done|eauto|done].
Qed.

Lemma disciplined_progress m :
  disciplined R m → ok (user (shared m)) → threads m ≠ ∅ → ∃ t, can_go_on m t.
Proof.
  intros (Hwf & H' & Ho & Ht) Hok Hne.
  destruct (control_owner (shared m)) as [t|] eqn:Ec.
  - assert (l_control (H' t) = true) as Hc by by apply (Ho t).
    destruct (holder_running m H' t Ht) as (X & o & k & Hlk & Hwp); [intros E; by rewrite E in Hc|].
    exists t. eexists. split; [exact Hlk|]. intros Hb.
    destruct (waiting m t o k H' Hwf (Ho t) Hok Hwp Hb) as [(? & _ & E)|(? & ? & ? & _ & _ & E)];
      [congruence|by rewrite E in Hc].
  - destruct (decide (Forall (λ dev, devMutex dev = None) (devs (shared m)))) as [Hf|Hf].
    + apply map_choose in Hne as (t & p & Hlk). exists t, p. split; [done|].
      pose proof (Ht t) as Hwp. rewrite Hlk in Hwp. destruct p as [a|X o k]; [done|]. intros Hb.
      destruct (waiting m t o k H' Hwf (Ho t) Hok Hwp Hb) as [(? & E & _)|(d & dev & t' & Hd & E & _)];
        [congruence|]. eapply Forall_lookup_1 in Hf; [|exact Hd]. cbn in Hf. congruence.
    + apply not_Forall_Exists in Hf; [|apply _].
      apply Exists_exists in Hf as (dev & (d & Hd)%list_elem_of_In%list_elem_of_lookup & Hm).
      destruct (devMutex dev) as [t|] eqn:Em; [|done].
      assert (l_device (H' t) = Some d) as Hdv by (by apply (proj2 (Ho t) d dev Hd)).
      destruct (holder_running m H' t Ht) as (X & o & k & Hlk & Hwp); [intros E; by rewrite E in Hdv|].
      exists t. eexists. split; [exact Hlk|]. intros Hb.
      destruct (waiting m t o k H' Hwf (Ho t) Hok Hwp Hb) as [(? & E & _)|(? & ? & ? & _ & _ & E)];
        [congruence|by rewrite E in Hdv].
Qed.

End Invariant.
End Machine.

(** ** Properties *)

(** Any valid call may be made. *)
Definition any_call (c : driver_call) : Prop := True.

(** A request to read more than the DMA memory holds, which the check of [mtcaDummy_read]
    or of the ioctl handlers lets pass because its 32-bit sum wraps around. *)
Definition overlong_read (r : device_rw) : Prop :=
  mode_rw r = RW_DMA ∧ size_rw r ≠ 0 ∧ passes_dma_check (size_rw r) (offset_rw r) ∧
  MTCADUMMY_DMA_SIZE < 4 * (offset_rw r / 4) + size_rw r.

Definition overlong_transfer (dma : device_ioctrl_dma) : Prop :=
  dma_offset dma mod 4 = 0 ∧ passes_dma_check (dma_offset dma) (dma_size dma) ∧
  MTCADUMMY_DMA_SIZE < dma_offset dma + dma_size dma.

Section Properties.
Context {U : Type} `{UserSpace U} `{ByteOrder} `{IoctlEncoding}.
Variable scan_i : list byte → option Z.
Implicit Types m : machine (U:=U).

(** The call would not find such a request in the memory [u]. *)
Definition asks_within (u : U) (c : driver_call) : Prop :=
  match c with
  | ReadCall d buf count => ∀ r, request_at u buf count = Some r → ¬ overlong_read r
  | MtcaIoctlCall d cmd arg =>
      cmd = PCIEDEV_READ_DMA → ∀ bytes, copy_from_user u arg 24 = (bytes, 0) →
      ¬ overlong_transfer (ioctrl_dma_of_bytes bytes)
  | PcieuniIoctlCall d cmd arg =>
      cmd = PCIEUNI_READ_DMA → ∀ bytes, copy_from_user u arg 24 = (bytes, 0) →
      ¬ overlong_transfer (ioctrl_dma_of_bytes bytes)
  | _ => True
  end.

(** None of the calls that are made would. *)
Definition requests_within (made : driver_call → Prop) (u : U) : Prop :=
  ∀ c, made c → asks_within u c.

(** The rules of such runs. *)
Definition within_rules (made : driver_call → Prop) : rules :=
  Rules (λ X o, overruns o = false)
    (λ a n bs nleft, ∃ u, requests_within made u ∧ copy_from_user u a n = (bs, nleft)).

Lemma dma_offset_range bytes :
  length bytes = 24%nat → is_u32 (dma_offset (ioctrl_dma_of_bytes bytes)).
Proof. intros Hl. cbn. apply u32_at_range. lia. Qed.

Lemma transfer_within offset size d addr :
  0 <= offset → 4 * (offset / 4) + size <= MTCADUMMY_DMA_SIZE →
  overruns (CopyBarToUser addr d DmaBar (offset / 4) size) = false.
Proof. unfold MTCADUMMY_DMA_SIZE. cbn. lia. Qed.

Lemma within_ioctl made (read_dma : Z) cmd d arg :
  (∀ u, requests_within made u → cmd = read_dma → ∀ bytes, copy_from_user u arg 24 = (bytes, 0) →
    ¬ overlong_transfer (ioctrl_dma_of_bytes bytes)) →
  cmd = read_dma → ioctl_transfers_allowed (within_rules made) d arg.
Proof.
  intros Hwithin Ecmd bytes Hl (u & Hu & E) dma Ha Hsum.
  pose proof (dma_offset_range _ Hl) as [? ?].
  apply transfer_within; [done|]. apply Z.nlt_ge. intros Hover.
  apply (Hwithin u Hu Ecmd bytes E). split_and!; [done..|]. subst dma. lia.
Qed.

Lemma within_transfers made c :
  made c → transfers_allowed (within_rules made) c.
Proof.
  intros Hc. destruct c as [| |d buf count| | | |d cmd arg| |d cmd arg| |]; try done.
  - intros bytes Hl Hcount (u & Hu & E) r Hm Hsize Hsum.
    pose proof (device_rw_of_bytes_range _ Hl) as ([? ?]&_).
    apply transfer_within; [done|]. apply Z.nlt_ge. intros Hover.
    apply (Hu _ Hc r); [|by split_and!].
    unfold request_at. rewrite (proj2 (Z.ltb_ge _ _)) by done.
    change (Z.to_nat sizeof_device_rw) with 24%nat. by rewrite E.
  - refine (within_ioctl made _ cmd d arg (λ u Hu, _)). exact (Hu _ Hc).
  - refine (within_ioctl made _ cmd d arg (λ u Hu, _)). exact (Hu _ Hc).
Qed.

Lemma within_copied made u a n :
  requests_within made u →
  copied (within_rules made) a n (copy_from_user u a n).1 (copy_from_user u a n).2.
Proof. intros Hu. exists u. split; [done|]. by destruct (copy_from_user u a n). Qed.

Lemma reachable_disciplined made major u m :
  reachable scan_i made major u m → disciplined any_op m.
Proof.
  intros Hr%reachable_any_memory. eapply disciplined_reachable in Hr as [Hinv _]; [done| |].
  - intros c Hv _. apply wp_call_prog; [done| |done]. by destruct c.
  - done.
Qed.

Lemma reachable_within made major u m :
  reachable_while scan_i made (requests_within made) major u m →
  disciplined (within_rules made) m ∧ requests_within made (user (shared m)).
Proof.
  apply disciplined_reachable; [|apply within_copied].
  intros c Hv Hc. apply wp_call_prog; [done|by apply within_transfers|done].
Qed.

(** C1: however the threads inside the driver are interleaved, and whatever
    signals and changes of the user's memory occur, the devices stay
    well-formed, and no thread ever touches shared data without its mutex,
    releases a mutex it does not hold, or uses a device that does not exist; the
    only possible fault is a copy from beyond the end of a bar. *)
Theorem interleavings_safe (major : Z) (u : U) (m : machine (U:=U))
    (Hr : reachable scan_i any_call major u m) :
  wf_devs (devs (shared m)) ∧
  ∀ t X (o : kop X) (k : X → prog Z) s, threads m !! t = Some (Vis o k) →
    match step_op t o (with_signals [s] (shared m)) with
    | Oops reason => reason = OutOfBounds ∧ overruns o = true
    | _ => True
    end.
Proof.
  pose proof (reachable_disciplined _ _ _ _ Hr) as Hinv. split; [apply Hinv|].
  intros t X o k s Hlk.
  destruct (disciplined_operation any_op (λ _, True) ltac:(done) m t o k s Hinv I Hlk)
    as (h & Hs & _).
  by destruct (step_op _ _ _) as [[x st']| |reason].
Qed.

(** C26: in no interleaving does any operation of any thread fault, as long as the
    user's memory never holds, where a call that is made would find it, a request that
    reaches beyond the DMA memory although the 32-bit sum of its size and offset passes
    the code's check. All entry points may be called, with any arguments and signals; only the reads of the
    request structure and the two ioctl requests [..._READ_DMA] are subject to the
    condition. *)
Theorem interleavings_without_overflow_never_fault (made : driver_call → Prop) (major : Z) (u : U)
    (m : machine (U:=U))
    (Hr : reachable_while scan_i made (requests_within made) major u m) :
  ∀ t X (o : kop X) (k : X → prog Z) s reason, threads m !! t = Some (Vis o k) →
    step_op t o (with_signals [s] (shared m)) ≠ Oops reason.
Proof.
  destruct (reachable_within _ _ _ _ Hr) as [Hinv Hok]. intros t X o k s reason Hlk E.
  destruct (disciplined_operation (within_rules made) (requests_within made)
    (within_copied made) m t o k s Hinv Hok Hlk) as (h & Hs & [Ha _] & _).
  rewrite E in Hs. destruct Hs as [_ Hov]. cbn in Ha. congruence.
Qed.

(** C18: the driver never deadlocks: while threads are inside it, the next
    operation of at least one of them does not have to wait. *)
Theorem some_thread_goes_on (major : Z) (u : U) (m : machine (U:=U))
    (Hr : reachable scan_i any_call major u m) (Hne : threads m ≠ ∅) :
  ∃ t, can_go_on m t.
Proof.
  apply (disciplined_progress any_op (λ _, True)); [done| |exact I|done].
  by eapply reachable_disciplined.
Qed.

(** When no thread is inside the driver, every mutex is free, whichever
    way the calls ended, and the devices are well-formed. *)
Theorem mutexes_free_when_quiet (major : Z) (u : U) (m : machine (U:=U))
    (Hr : reachable scan_i any_call major u m) (Hq : threads m = ∅) :
  idle (shared m) ∧ wf_devs (devs (shared m)).
Proof.
  pose proof (reachable_disciplined _ _ _ _ Hr) as Hinv. split; [|apply Hinv].
  by eapply disciplined_quiet.
Qed.
End Properties.

(** ** An example: two threads at one device *)

#[local] Existing Instance little_endian.
#[local] Existing Instance asm_generic_ioctl.

(** Thread 0 has entered with the call [c]. *)
Definition sample_entered (c : driver_call) : machine (U:=gmap Z byte) :=
  Machine {[0%nat := call_prog decimal_scan c]} (loaded_state 240 ∅).

Lemma sample_entered_reachable made c :
  valid_call c → made c → reachable decimal_scan made 240 ∅ (sample_entered c).
Proof.
  intros Hv Hmade. apply rtc_once. exists (Some 0%nat).
  by apply (step_enter decimal_scan made 0 c (Machine ∅ (loaded_state 240 ∅))).
Qed.

(** A lone thread performs its next operation. *)
Lemma step_single made {X} (o : kop X) k s x (st st' : kstate (gmap Z byte)) :
  step_op 0 o (with_signals [s] st) = Done (x, st') →
  any_step decimal_scan made (Machine {[0%nat := Vis o k]} st)
    (Machine {[0%nat := k x]} (with_signals [] st')).
Proof.
  intros E. exists (Some 0%nat).
  pose proof (step_operation decimal_scan made 0 o k s x st' (Machine {[0%nat := Vis o k]} st)
    (lookup_singleton_eq _ _) E) as Hs.
  cbn [threads] in Hs. by rewrite insert_singleton_eq in Hs.
Qed.

(** Thread 0 has shown device 3 in the proc file and left. *)
Lemma sample_quiet :
  ∃ st, reachable decimal_scan any_call 240 ∅ (Machine (U:=gmap Z byte) ∅ st).
Proof.
  eexists. eapply rtc_r; [eapply rtc_r; [eapply rtc_r; [apply (sample_entered_reachable _
    (ProcShowCall 3)); [cbn; unfold is_device; lia|done]|]|]|].
  - apply (step_single _ _ _ false). reflexivity.
  - apply (step_single _ _ _ false). reflexivity.
  - exists (Some 0%nat). match goal with |- step _ _ _ ?m _ =>
      pose proof (step_leave decimal_scan any_call 0 _ m (lookup_singleton_eq _ _)) as Hs end.
    cbn [threads shared] in Hs. by rewrite delete_singleton_eq in Hs.
Qed.

Lemma interleavings_safe_witness :
  wf_devs (devs (shared (sample_entered (ReadCall 2 1000 24)))).
Proof.
  apply (interleavings_safe decimal_scan 240 ∅).
  apply sample_entered_reachable; [cbn; unfold is_device; lia | exact I].
Defined.

(** A memory with a request for the whole DMA memory, and a thread that reads it. *)
Lemma interleavings_without_overflow_never_fault_witness :
  ∃ m : machine, is_Some (threads m !! 0%nat) ∧
    (∃ r, request_at (user (shared m)) 1000 24 = Some r ∧ mode_rw r = RW_DMA ∧ size_rw r = 4096) ∧
    ∀ X (o : kop X) k s reason, threads m !! 0%nat = Some (Vis o k) →
      step_op 0 o (with_signals [s] (shared m)) ≠ Oops reason.
Proof.
  set (r := DeviceRw 0 0 RW_DMA 2 4096 0).
  set (u := umem_put 1000 (bytes_of_device_rw r) ∅).
  assert (request_at u 1000 24 = Some r) as Hreq by (vm_compute; reflexivity).
  assert (requests_within (λ c, c = ReadCall 2 1000 24) u) as Hu.
  { intros c -> r'. rewrite Hreq. intros [= <-] (_ & _ & _ & Hover).
    vm_compute in Hover. discriminate Hover. }
  exists (Machine {[0%nat := call_prog decimal_scan (ReadCall 2 1000 24)]} (loaded_state 240 u)).
  split; [eexists; apply lookup_singleton_eq|]. split; [by exists r|].
  intros X o k s reason.
  apply (interleavings_without_overflow_never_fault decimal_scan (λ c, c = ReadCall 2 1000 24) 240 u).
  split; [exact Hu|]. apply rtc_once. split; [|exact Hu]. exists (Some 0%nat).
  apply (step_enter decimal_scan _ 0 (ReadCall 2 1000 24) (Machine ∅ (loaded_state 240 u)));
    [reflexivity|cbn; unfold is_device; lia|reflexivity].
Defined.

Lemma some_thread_goes_on_witness :
  ∃ t, can_go_on (sample_entered (ReadCall 2 1000 24)) t.
Proof.
  apply (some_thread_goes_on decimal_scan 240 ∅).
  - apply sample_entered_reachable; [cbn; unfold is_device; lia | exact I].
  - apply map_non_empty_singleton.
Defined.

Lemma mutexes_free_when_quiet_witness :
  ∃ st : kstate (gmap Z byte), idle st ∧ wf_devs (devs st).
Proof.
  destruct sample_quiet as [st Hr]. exists st.
  apply (mutexes_free_when_quiet decimal_scan 240 ∅ (Machine ∅ st) Hr). reflexivity.
Defined.
