(* ===== verification/Atomic.v ===== *)
(** * Concurrent calls take effect one at a time

    What the mutex of a device is for. Every entry point touches the bars of its
    device in at most one critical section, with which the call ends
    ([one_section]). Therefore every concurrent run of the driver has a serial
    counterpart ([serially]) with the same history: each call changes the bars in one
    step between its entry and its return, by a run of its whole program alone on
    the device, which also gives its return value. *)

From S2P Require Import Prelude Abi Kernel UserMem Firmware ModuleInit Registers.
From S2P Require Import StructRW NoStructRW Ioctl OpenRelease Proc ProcDump Locking Concurrency.
From stdpp Require Import functions.
Local Open Scope Z_scope.

(** ** The bars of a device *)

Record bars := Bars { sys_words : list Z; dma_words : list Z }.

Definition bars_of (dev : mtcaDummyData) : bars := Bars (systemBar dev) (dmaBar dev).

Definition get_words (b : bar_id) (σ : bars) : list Z :=
  match b with SystemBar => sys_words σ | DmaBar => dma_words σ end.

Definition set_words (b : bar_id) (ws : list Z) (σ : bars) : bars :=
  match b with SystemBar => Bars ws (dma_words σ) | DmaBar => Bars (sys_words σ) ws end.

Lemma bars_of_set_bar b ws dev : bars_of (set_bar b ws dev) = set_words b ws (bars_of dev).
Proof. by destruct b. Qed.

Lemma get_words_bars b dev : get_words b (bars_of dev) = get_bar b dev.
Proof. by destruct b. Qed.

(** A device with other bars. *)
Definition with_bars (σ : bars) (dev : mtcaDummyData) : mtcaDummyData :=
  set_bar DmaBar (dma_words σ) (set_bar SystemBar (sys_words σ) dev).

Lemma with_bars_same dev : with_bars (bars_of dev) dev = dev.
Proof. by destruct dev. Qed.

Lemma bars_of_with_bars σ dev : bars_of (with_bars σ dev) = σ.
Proof. by destruct σ. Qed.

(** ** A call alone on its device *)

(** The device a call works on; writing to the proc file concerns none. *)
Definition call_device (c : driver_call) : nat :=
  match c with
  | OpenCall d | ReleaseCall d | ReadCall d _ _ | WriteCall d _ _ | ProcShowCall d
  | ReadNoStructCall d _ _ _ | WriteNoStructCall d _ _ _
  | MtcaIoctlCall d _ _ | LlrfIoctlCall d _ _ | PcieuniIoctlCall d _ _ => d
  | ProcWriteCall _ _ => 0
  end.

Section Alone.
Context {U : Type} `{UserSpace U} `{ByteOrder}.
Implicit Types (st w : kstate U) (ws : list (kstate U)).

(** The state [st], but with the bars [σ] in device [d]; and the bars found there. *)
Definition put_bars (d : nat) (σ : bars) (st : kstate U) : kstate U :=
  with_devs (alter (with_bars σ) d (devs st)) st.

Definition bars_at (d : nat) (st : kstate U) (σ : bars) : bars :=
  match devs st !! d with Some dev => bars_of dev | None => σ end.

(** [alone t d ws p σ q σ']: the operations of thread [t] take its program from [p] to
    [q] and the bars of device [d] from [σ] to [σ']. The thread performs each operation
    in one of the states [ws], in this order, but finds in the device what its own
    operations made of [σ]: the user's memory, the flags, the mutexes and the signals
    may change from one operation to the next, the bars do not. *)
Inductive alone {A} (t d : nat) : list (kstate U) → prog A → bars → prog A → bars → Prop :=
  | alone_start p σ : alone t d [] p σ p σ
  | alone_step ws p σ {X} (o : kop X) k σ1 w x st' :
      alone t d ws p σ (Vis o k) σ1 →
      step_op t o (put_bars d σ1 w) = Done (x, st') →
      alone t d (ws ++ [w]) p σ (k x) (bars_at d st' σ1).

Lemma put_bars_same d dev st : devs st !! d = Some dev → put_bars d (bars_of dev) st = st.
Proof.
  intros Hd. unfold put_bars, with_devs. rewrite (list_alter_insert_eq _ _ _ _ Hd).
  rewrite with_bars_same, list_insert_id by done. by destruct st.
Qed.

Lemma put_bars_lookup d σ st :
  devs (put_bars d σ st) !! d = with_bars σ <$> devs st !! d.
Proof. unfold put_bars. cbn. by rewrite list_lookup_alter_eq. Qed.

Lemma bars_at_put d σ st : bars_at d (put_bars d σ st) σ = σ.
Proof.
  unfold bars_at. rewrite put_bars_lookup. destruct (devs st !! d); [|done].
  apply bars_of_with_bars.
Qed.
End Alone.

(** ** One critical section per call *)

(** Where a call is: before it takes the mutex of its device, inside the critical
    section, or after it. *)
Inductive phase := Before | Inside | After.

Section Sections.
Variable d : nat.

(** The operation touches no mutex and no bar of a device but of [d], takes the mutex
    only once and accesses the bars only while holding it. *)
Definition section_op {X} (o : kop X) (ph : phase) (Q : phase → X → Prop) : Prop :=
  match o in kop X return (phase → X → Prop) → Prop with
  | MutexLockInterruptible (deviceMutex d') => λ Q,
      d' = d ∧ ph = Before ∧ Q Before true ∧ Q Inside false
  | MutexUnlock (deviceMutex d') => λ Q, d' = d ∧ ph = Inside ∧ Q After tt
  | BarLoad d' _ _ | BarStore d' _ _ _ | CopyBarToUser _ d' _ _ _ | CopyUserToBar d' _ _ _ =>
      λ Q, d' = d ∧ ph = Inside ∧ ∀ x, Q Inside x
  | GetSlotNr d' => λ Q, ph ≠ After ∧ Q ph (Z.of_nat d')
  | _ => λ Q, ph ≠ After ∧ ∀ x, Q ph x
  end Q.

Fixpoint one_section {A} (p : prog A) (ph : phase) (Q : phase → A → Prop) : Prop :=
  match p with
  | Ret a => Q ph a
  | Vis o k => section_op o ph (λ ph' x, one_section (k x) ph' Q)
  end.

Lemma section_op_mono {X} (o : kop X) ph (Q Q' : phase → X → Prop) :
  (∀ ph x, Q ph x → Q' ph x) → section_op o ph Q → section_op o ph Q'.
Proof. intros HQ. destruct o as [[]|[]| | | | | | | | | | | | ]; cbn; naive_solver. Qed.

Lemma one_section_bind {A B} (p : prog A) (f : A → prog B) Q : ∀ ph,
  one_section p ph (λ ph' a, one_section (f a) ph' Q) → one_section (p ≫= f) ph Q.
Proof.
  induction p as [a|X o k IH]; intros ph; [done|].
  apply section_op_mono. intros ph' x. apply IH.
Qed.

Lemma one_section_mono {A} (p : prog A) (Q Q' : phase → A → Prop) :
  (∀ ph a, Q ph a → Q' ph a) → ∀ ph, one_section p ph Q → one_section p ph Q'.
Proof.
  intros HQ. induction p as [a|X o k IH]; intros ph; [apply HQ|].
  apply section_op_mono. intros ph' x. apply IH.
Qed.

(** The mutex is free at the end. *)
Definition left {A} : phase → A → Prop := λ ph _, ph ≠ Inside.

(** An operation on no mutex and no bar of a device, with any answer. *)
Definition neutral {X} (o : kop X) : bool :=
  match o with
  | MutexLockInterruptible (deviceMutex _) | MutexUnlock (deviceMutex _)
  | GetSlotNr _ | BarLoad _ _ _ | BarStore _ _ _ _ | CopyBarToUser _ _ _ _ _
  | CopyUserToBar _ _ _ _ => false
  | _ => true
  end.

Lemma section_neutral {A X} (o : kop X) (k : X → prog A) ph Q :
  neutral o = true → ph ≠ After → (∀ x, one_section (k x) ph Q) →
  one_section (call o ≫= k) ph Q.
Proof. intros Hn Hph Hk. destruct o as [[]|[]| | | | | | | | | | | | ]; by try split. Qed.

Lemma section_lock {A} (e k : prog A) Q :
  one_section e Before Q → one_section k Inside Q →
  one_section (interrupted ← call (MutexLockInterruptible (deviceMutex d));
               if (interrupted : bool) then e else k) Before Q.
Proof. by intros He Hk. Qed.

Lemma section_inside {A X} (o : kop X) (k : X → prog A) Q :
  match o with
  | BarLoad d' _ _ | BarStore d' _ _ _ | CopyBarToUser _ d' _ _ _ | CopyUserToBar d' _ _ _ => d' = d
  | _ => False
  end → (∀ x, one_section (k x) Inside Q) → one_section (call o ≫= k) Inside Q.
Proof. by destruct o; try done; intros -> Hk. Qed.

Lemma section_unlock r : one_section (unlock_return d r) Inside left.
Proof. by split_and!. Qed.

Lemma section_unlock_pos r p : one_section (unlock_return_pos d r p) Inside left.
Proof. by split_and!. Qed.

Lemma section_slotNr {A} d' (k : Z → prog A) ph Q :
  ph ≠ After → one_section (k (Z.of_nat d')) ph Q → one_section (call (GetSlotNr d') ≫= k) ph Q.
Proof. by split. Qed.

(** A part that stays inside the critical section. *)
Definition inside {A} : phase → A → Prop := λ ph _, ph = Inside.

Lemma section_part {A B} (p : prog A) (k : A → prog B) Q :
  one_section p Inside inside → (∀ a, one_section (k a) Inside Q) → one_section (p ≫= k) Inside Q.
Proof.
  intros Hp Hk. eapply one_section_bind, one_section_mono; [|exact Hp]. intros ph a ->. apply Hk.
Qed.

(** Steps through a program of the driver. *)
Ltac sections :=
  repeat match goal with
  | |- one_section (if ?b then _ else _) _ _ => destruct b
  | |- one_section (let '(_, _) := ?x in _) _ _ => destruct x
  | |- one_section (match ?x with inl _ => _ | inr _ => _ end) _ _ => destruct x
  | |- one_section (match ?x with Some _ => _ | None => _ end) _ _ => destruct x as [[]|]
  | |- one_section (mret _) _ left => discriminate
  | |- one_section (mret _) _ inside => reflexivity
  | |- one_section (unlock_return _ _) _ _ => apply section_unlock
  | |- one_section (unlock_return_pos _ _ _) _ _ => apply section_unlock_pos
  | |- one_section (call (GetSlotNr _) ≫= _) _ _ => apply section_slotNr; [discriminate|]
  | |- one_section (call (MutexLockInterruptible (deviceMutex _)) ≫= _) _ _ => apply section_lock
  | |- one_section (call (MutexUnlock (deviceMutex _)) ≫= _) _ left => by split_and!
  | |- one_section (call _ ≫= _) _ _ =>
      first [ apply section_neutral; [reflexivity|discriminate|intros ?]
            | apply section_inside; [reflexivity|intros ?] ]
  | |- one_section (reg_load _ _ ≫= _) _ _ => apply section_inside; [reflexivity|intros ?]
  | |- one_section (reg_store _ _ _ ≫= _) _ _ => apply section_inside; [reflexivity|intros ?]
  end.

Lemma section_sample_loop n : ∀ i, one_section (sample_loop d n i) Inside inside.
Proof. induction n as [|n IH]; intros i; [done|]. split_and!; [done..|]. intros []. apply IH. Qed.

Lemma section_action off bar :
  one_section (mtcadummy_performActionOnWrite off bar (Z.of_nat d)) Inside inside.
Proof.
  unfold mtcadummy_performActionOnWrite. cbv zeta. rewrite Nat2Z.id. sections.
  apply section_part; [apply section_sample_loop|]. intros []. sections.
Qed.

Lemma section_preRead off bar slot :
  one_section (mtcadummy_performPreReadAction off bar slot) Inside inside.
Proof. unfold mtcadummy_performPreReadAction. sections. Qed.

(** *** The entry points *)

Context `{ByteOrder}.

Lemma section_write_words ti buf n : ∀ i f_pos,
  one_section (write_words d ti buf n i f_pos) Inside left.
Proof.
  induction n as [|n IH]; intros i f_pos; cbn [write_words]; cbv zeta; sections.
  apply section_part; [apply section_action|]. intros e. sections. apply IH.
Qed.

Lemma section_read_words ti buf n : ∀ i f_pos,
  one_section (read_words d ti buf n i f_pos) Inside left.
Proof.
  induction n as [|n IH]; intros i f_pos; cbn [read_words]; cbv zeta; sections.
  apply section_part; [apply section_preRead|]. intros e. sections. apply IH.
Qed.

Lemma section_register_lines n : ∀ reg, one_section (register_lines d n reg) Inside inside.
Proof.
  induction n as [|n IH]; intros reg; cbn [register_lines]; sections.
  apply section_part; [apply IH|]. intros rest. sections.
Qed.

Lemma section_dma_lines n : ∀ index, one_section (dma_lines d n index) Inside inside.
Proof.
  induction n as [|n IH]; intros index; cbn [dma_lines]; sections.
  apply section_part; [apply IH|]. intros rest. sections.
Qed.

Lemma section_write buf count : one_section (mtcaDummy_write d buf count) Before left.
Proof.
  unfold mtcaDummy_write, write_d32. cbv zeta. sections.
  apply section_part; [apply section_action|]. intros e. sections.
Qed.

Lemma section_read buf count : one_section (mtcaDummy_read d buf count) Before left.
Proof.
  unfold mtcaDummy_read, read_info, read_d32, read_dma. cbv zeta. sections.
  apply section_part; [apply section_preRead|]. intros e. sections.
Qed.

Lemma section_seq_show : one_section (mtcadummy_seq_show d) Before left.
Proof.
  unfold mtcadummy_seq_show. sections.
  apply section_part; [apply section_register_lines|]. intros regs. sections.
  apply section_part; [apply section_dma_lines|]. intros dma. sections.
Qed.

Lemma section_ioctl_cases arg :
  one_section (ioctl_physical_slot d arg) Inside left ∧
  one_section (ioctl_version d arg) Inside left ∧ one_section (ioctl_read_dma d arg) Inside left.
Proof.
  unfold ioctl_physical_slot, ioctl_version, ioctl_read_dma. split_and!; cbv zeta; sections.
Qed.

Lemma section_set_or_read {A} f value (k : unit → prog A) Q :
  one_section (k tt) Before Q → one_section (set_or_read f value ≫= k) Before Q.
Proof.
  intros Hk. unfold set_or_read. destruct (_ <? _).
  - split; [done|]. by intros [].
  - split; [done|]. by intros b.
Qed.

Lemma section_proc_write scan_i ubuf count :
  one_section (mtcadummy_proc_write scan_i ubuf count) Before left.
Proof.
  unfold mtcadummy_proc_write. cbv zeta. sections.
  do 4 apply section_set_or_read. sections.
Qed.
Lemma section_open : one_section (mtcaDummy_open d) Before left.
Proof. unfold mtcaDummy_open. sections. Qed.

Lemma section_read_no_struct buf count f_pos :
  one_section (mtcaDummy_read_no_struct d buf count f_pos) Before left.
Proof. unfold mtcaDummy_read_no_struct. sections. apply section_read_words. Qed.

Lemma section_write_no_struct buf count f_pos :
  one_section (mtcaDummy_write_no_struct d buf count f_pos) Before left.
Proof. unfold mtcaDummy_write_no_struct. sections. apply section_write_words. Qed.

Lemma section_ioctls `{IoctlEncoding} cmd arg :
  one_section (mtcaDummy_ioctl d cmd arg) Before left ∧
  one_section (llrfDummy_ioctl d cmd arg) Before left ∧
  one_section (pcieuniDummy_ioctl d cmd arg) Before left.
Proof.
  unfold mtcaDummy_ioctl, llrfDummy_ioctl, pcieuniDummy_ioctl.
  split_and!; sections; apply section_ioctl_cases.
Qed.

(** The part of the result that the call returns. *)
Lemma section_result {B} (p : prog (Z * B)) :
  one_section p Before left → one_section ('(r, _) ← p; mret r) Before left.
Proof. intros Hp. eapply one_section_bind, one_section_mono; [|exact Hp]. by intros ph []. Qed.
End Sections.

Arguments one_section _ {_} _ _ _.

(** Every entry point has one critical section, on its device. *)
Lemma call_one_section `{ByteOrder} `{IoctlEncoding} scan_i c :
  one_section (call_device c) (call_prog scan_i c) Before left.
Proof.
  destruct c; cbn [call_device call_prog].
  - apply section_result, section_open.
  - split; [done|]. by intros [].
  - apply section_read.
  - apply section_write.
  - apply section_result, section_read_no_struct.
  - apply section_result, section_write_no_struct.
  - apply section_ioctls.
  - apply section_ioctls.
  - apply section_ioctls.
  - apply section_proc_write.
  - apply section_result, section_seq_show.
Qed.

(** ** What an operation does to a device *)

(** The operations on a bar. *)
Definition bar_access {X} (o : kop X) : bool :=
  match o with
  | BarLoad _ _ _ | BarStore _ _ _ _ | CopyBarToUser _ _ _ _ _ | CopyUserToBar _ _ _ _ => true
  | _ => false
  end.

(** The operation took the mutex of device [d], released it, changed a bar. *)
Definition takes (d : nat) {X} (o : kop X) : X → Prop :=
  match o in kop X return X → Prop with
  | MutexLockInterruptible (deviceMutex d') => λ x, d' = d ∧ x = false
  | _ => λ _, False
  end.

Definition gives (d : nat) {X} (o : kop X) : Prop :=
  match o with MutexUnlock (deviceMutex d') => d' = d | _ => False end.

Definition changes (d : nat) {X} (o : kop X) : Prop :=
  match o with BarStore d' _ _ _ | CopyUserToBar d' _ _ _ => d' = d | _ => False end.

Section Views.
Context {U : Type} `{UserSpace U} `{ByteOrder}.
Implicit Types st w : kstate U.

(** The mutex and the bars of a device. *)
Definition view st (d : nat) : option (option nat * bars) :=
  (λ dev, (devMutex dev, bars_of dev)) <$> devs st !! d.

Lemma view_Some st d mu σ :
  view st d = Some (mu, σ) ↔ ∃ dev, devs st !! d = Some dev ∧ devMutex dev = mu ∧ bars_of dev = σ.
Proof.
  unfold view. rewrite fmap_Some. split; intros (dev & Hd & E).
  - injection E as -> ->. by exists dev.
  - exists dev. split; [done|]. by destruct E as [-> ->].
Qed.

Lemma bars_at_view st d σ :
  bars_at d st σ = match view st d with Some (_, σ') => σ' | None => σ end.
Proof. unfold bars_at, view. by destruct (devs st !! d). Qed.

(** What the operation [o] of thread [t], answered with [x], makes of the mutex and the
    bars of device [d]. *)
Inductive view_step (t d : nat) {X} (o : kop X) (x : X) :
    option (option nat * bars) → option (option nat * bars) → Prop :=
  | view_same v : view_step t d o x v v
  | view_taken σ : takes d o x → view_step t d o x (Some (None, σ)) (Some (Some t, σ))
  | view_given σ : gives d o → view_step t d o x (Some (Some t, σ)) (Some (None, σ))
  | view_changed σ σ' : changes d o → view_step t d o x (Some (Some t, σ)) (Some (Some t, σ')).

Lemma view_step_upd t d0 {X} (o : kop X) x dev dev' st d :
  devs st !! d0 = Some dev →
  view_step t d0 o x (Some (devMutex dev, bars_of dev)) (Some (devMutex dev', bars_of dev')) →
  view_step t d o x (view st d) (view (upd_dev d0 dev' st) d).
Proof.
  intros Hd Hs. destruct (decide (d0 = d)) as [<-|Hne].
  - unfold view. rewrite devs_upd_dev by by apply lookup_lt_Some in Hd. by rewrite Hd.
  - replace (view (upd_dev d0 dev' st) d) with (view st d); [apply view_same|].
    unfold view. by rewrite devs_upd_dev_ne.
Qed.

Lemma view_step_store t d0 {X} (o : kop X) x b ws dev st d :
  devs st !! d0 = Some dev → devMutex dev = Some t → changes d0 o →
  view_step t d o x (view st d) (view (upd_dev d0 (set_bar b ws dev) st) d).
Proof.
  intros Hd Hm Ho. apply (view_step_upd t d0 o x dev); [done|].
  rewrite devMutex_set_bar, Hm. by apply view_changed.
Qed.

Lemma step_view {X} t (o : kop X) st x st' d :
  step_op t o st = Done (x, st') → view_step t d o x (view st d) (view st' d).
Proof.
  intros E.
  destruct o as [[|d0]|[|d0]|f|f b|d0 k|d0|d0|d0 b i|d0 b i v|a n|a bs|a d0 b i n|d0 b i a|a n];
    cbn [step_op] in E; unfold step_lock, step_unlock, on_bar, on_dev in E; cbn [owner] in E.
  - destruct (default false _); [injection E as <- <-; apply view_same|].
    destruct (control_owner st); [done|]. injection E as <- <-. apply view_same.
  - destruct (devs st !! d0) as [dev|] eqn:Ed; [|done]. cbn [fmap option_fmap option_map] in E.
    destruct (default false _); [injection E as <- <-; apply view_same|].
    destruct (devMutex dev) eqn:Em; [done|]. injection E as <- <-. cbn [set_mutex].
    cbn [devs with_signals]. rewrite (list_alter_insert_eq _ _ _ _ Ed).
    apply (view_step_upd t d0 _ _ dev (set_owner (Some t) dev) (with_signals _ st)); [done|].
    rewrite Em. by apply view_taken.
  - destruct (decide _); [|done]. injection E as <- <-. apply view_same.
  - destruct (devs st !! d0) as [dev|] eqn:Ed; [|done]. cbn [fmap option_fmap option_map] in E.
    destruct (decide _) as [[= Em]|]; [|done]. injection E as <- <-. cbn [set_mutex].
    rewrite (list_alter_insert_eq _ _ _ _ Ed).
    apply (view_step_upd t d0 _ _ dev (set_owner None dev) st); [done|].
    rewrite Em. by apply view_given.
  - destruct (decide _); [|done]. injection E as <- <-. apply view_same.
  - destruct (decide _); [|done]. injection E as <- <-. apply view_same.
  - destruct (devs st !! d0) as [dev|] eqn:Ed; [|done]. injection E as <- <-.
    apply (view_step_upd t d0 _ _ dev); [done|]. apply view_same.
  - destruct (devs st !! d0); [|done]. injection E as <- <-. apply view_same.
  - destruct (devs st !! d0); [|done]. injection E as <- <-. apply view_same.
  - destruct (devs st !! d0); [|done]. destruct (decide _); [|done]. destruct (_ && _); [|done].
    injection E as <- <-. apply view_same.
  - destruct (devs st !! d0) as [dev|] eqn:Ed; [|done]. destruct (decide _); [|done].
    destruct (_ && _); [|done]. injection E as <- <-. by apply view_step_store.
  - injection E as <- <-. apply view_same.
  - destruct (copy_to_user _ _ _). injection E as <- <-. apply view_same.
  - destruct (devs st !! d0); [|done]. destruct (decide _); [|done]. destruct (_ && _); [|done].
    destruct (copy_to_user _ _ _). injection E as <- <-. apply view_same.
  - destruct (devs st !! d0) as [dev|] eqn:Ed; [|done]. destruct (decide _); [|done].
    destruct (_ && _); [|done]. destruct (copy_from_user _ _ _). injection E as <- <-.
    by apply view_step_store.
  - injection E as <- <-. apply view_same.
Qed.

(** *** Other bars in the device *)

Lemma put_bars_lookup_ne d d0 σ st : d0 ≠ d → devs (put_bars d σ st) !! d0 = devs st !! d0.
Proof. intros Hne. unfold put_bars. cbn. by rewrite list_lookup_alter_ne. Qed.

(** All of a device but its bars. *)
Lemma put_bars_device d d0 σ st dev :
  devs st !! d0 = Some dev →
  ∃ dev', devs (put_bars d σ st) !! d0 = Some dev' ∧ devMutex dev' = devMutex dev ∧
    slotNr dev' = slotNr dev ∧ inUse dev' = inUse dev.
Proof.
  intros Hd. destruct (decide (d0 = d)) as [->|Hne].
  - exists (with_bars σ dev). by rewrite put_bars_lookup, Hd.
  - exists dev. by rewrite put_bars_lookup_ne.
Qed.

(** What accesses no bar leaves the bars. *)
Lemma put_unchanged {X} t (o : kop X) st x st' d σ :
  bar_access o = false → step_op t o (put_bars d σ st) = Done (x, st') → bars_at d st' σ = σ.
Proof.
  intros Ho E. pose proof (step_view t o _ _ _ d E) as Hv.
  rewrite bars_at_view. unfold view in Hv at 1. rewrite put_bars_lookup in Hv.
  destruct (devs st !! d) as [dev|]; cbn [fmap option_fmap option_map] in Hv;
    [|by inversion Hv].
  rewrite bars_of_with_bars in Hv. inversion Hv as [? | | |? ? Hch]; try done.
  destruct o; done.
Qed.

(** It does the same with other bars. *)
Lemma step_put {X} t (o : kop X) st x st' d σ :
  bar_access o = false → step_op t o st = Done (x, st') →
  ∃ st'', step_op t o (put_bars d σ st) = Done (x, st'') ∧ bars_at d st'' σ = σ.
Proof.
  intros Ho E. assert (∃ st'', step_op t o (put_bars d σ st) = Done (x, st'')) as [st'' E'].
  { destruct o as [[|d0]|[|d0]|f|f b|d0 k|d0|d0|d0 b i|d0 b i v|a n|a bs|a d0 b i n|d0 b i a|a n];
      try done; cbn [step_op] in E |- *; unfold step_lock, step_unlock, on_dev in E |- *;
      cbn [owner] in E |- *.
    all: try (destruct (devs st !! d0) as [dev|] eqn:Ed; [|done];
      destruct (put_bars_device d d0 σ st dev Ed) as (dev' & -> & Hm & Hslot & Hu)).
    all: try change (control_owner (put_bars d σ st)) with (control_owner st).
    all: try change (signals (put_bars d σ st)) with (signals st).
    all: try change (control (put_bars d σ st)) with (control st).
    all: try change (user (put_bars d σ st)) with (user st).
    - destruct (default false _); [injection E as <- _; by eexists|].
      destruct (control_owner st); [done|]. injection E as <- _. by eexists.
    - cbn [fmap option_fmap option_map] in E |- *. rewrite Hm.
      destruct (default false _); [injection E as <- _; by eexists|].
      destruct (devMutex dev); [done|]. injection E as <- _. by eexists.
    - destruct (decide _); [|done]. injection E as <- _. by eexists.
    - cbn [fmap option_fmap option_map] in E |- *. rewrite Hm. destruct (decide _); [|done].
      injection E as <- _. by eexists.
    - destruct (decide _); [|done]. injection E as <- _. by eexists.
    - destruct (decide _); [|done]. injection E as <- _. by eexists.
    - injection E as <- _. by eexists.
    - rewrite Hu. injection E as <- _. by eexists.
    - rewrite Hslot. injection E as <- _. by eexists.
    - injection E as <- _. by eexists.
    - destruct (copy_to_user _ _ _). injection E as <- _. by eexists.
    - injection E as <- _. by eexists. }
  exists st''. split; [done|by eapply put_unchanged].
Qed.

(** *** Operations inside and outside the critical section *)

(** Only the device of the call is taken, released or changed. *)
Lemma section_elsewhere d d' {X} (o : kop X) x ph Q st t st' :
  section_op d o ph Q → step_op t o st = Done (x, st') → d' ≠ d → view st' d' = view st d'.
Proof.
  intros Hs E Hne. pose proof (step_view t o st x st' d' E) as Hv.
  inversion Hv as [v Ev|σ Ht|σ Hg|σ σ' Hc]; [done|exfalso..].
  - destruct o as [[]| | | | | | | | | | | | |]; try done. destruct Ht, Hs. congruence.
  - destruct o as [|[]| | | | | | | | | | | |]; try done. destruct Hs. cbn in Hg. congruence.
  - destruct o; try done; destruct Hs; cbn in Hc; congruence.
Qed.

(** Taking the mutex, unless a signal interrupts. *)
Lemma step_lock_view d x st t st' :
  step_lock t (deviceMutex d) st = Done (x, st') →
  if x then view st' d = view st d
  else ∃ σ, view st d = Some (None, σ) ∧ view st' d = Some (Some t, σ).
Proof.
  unfold step_lock. cbn [owner]. destruct (devs st !! d) as [dev|] eqn:Ed; [|done].
  cbn [fmap option_fmap option_map].
  destruct (default false _); [by intros [= <- <-]|]. destruct (devMutex dev) eqn:Em; [done|].
  intros [= <- <-]. exists (bars_of dev). unfold view. rewrite Ed. cbn. rewrite Em.
  by rewrite list_lookup_alter_eq, Ed.
Qed.

Lemma slotNr_answer d x st t st' :
  wf_devs (devs st) → step_op t (GetSlotNr d) st = Done (x, st') → x = Z.of_nat d.
Proof.
  intros [_ Hwf] E. cbn in E. unfold on_dev in E. destruct (devs st !! d) as [dev|] eqn:Ed; [|done].
  injection E as <- _. apply (Hwf d dev Ed).
Qed.

(** Before the critical section a thread accesses no bar; it may take the mutex. *)
Lemma section_before d {X} (o : kop X) x Q st t st' :
  wf_devs (devs st) → section_op d o Before Q → step_op t o st = Done (x, st') →
  bar_access o = false ∧
  (Q Before x ∧ view st' d = view st d ∨
   Q Inside x ∧ ∃ σ, view st d = Some (None, σ) ∧ view st' d = Some (Some t, σ)).
Proof.
  intros Hwf Hs E. pose proof (step_view t o st x st' d E) as Hv.
  destruct o as [[|d0]|[|d0]| | | | |d0| | | | | | |].
  2: { destruct Hs as (-> & _ & H1 & H2). apply step_lock_view in E.
       split; [done|]. destruct x; [by left|by right]. }
  all: try (by destruct Hs as (_ & ? & _)).
  all: split; [done|left]; split; [|by inversion Hv]; destruct Hs as [_ Hs]; try apply Hs.
  by rewrite (slotNr_answer _ _ _ _ _ Hwf E).
Qed.

(** Inside, the mutex stays with the thread, or it leaves. *)
Lemma section_inside_op d {X} (o : kop X) x Q st t st' σ :
  wf_devs (devs st) → section_op d o Inside Q → step_op t o st = Done (x, st') →
  view st d = Some (Some t, σ) →
  Q Inside x ∧ (∃ σ', view st' d = Some (Some t, σ')) ∨
  Q After x ∧ view st' d = Some (None, σ).
Proof.
  intros Hwf Hs E Hd. pose proof (step_view t o st x st' d E) as Hv. rewrite Hd in Hv.
  destruct o as [[|d0]|[|d0]| | | | |d0| | | | | | |].
  2: by destruct Hs as (_ & ? & _).
  3: { destruct Hs as (-> & _ & HQ). right. destruct x. split; [done|].
       cbn [step_op] in E. unfold step_unlock in E. cbn [owner] in E.
       apply view_Some in Hd as (dev & Ed & Hm & Hb). rewrite Ed in E.
       cbn [fmap option_fmap option_map] in E. destruct (decide _); [|done]. injection E as <-.
       apply view_Some. exists (set_owner None dev). cbn. by rewrite list_lookup_alter_eq, Ed. }
  all: left; split;
    [|inversion Hv; subst; try done; by eexists].
  all: destruct Hs as [H1 Hs]; try apply Hs; try (by destruct Hs as [? Hs]).
  by rewrite (slotNr_answer _ _ _ _ _ Hwf E).
Qed.

(** Another thread changes neither a device that [t'] holds nor one that it leaves free. *)
Lemma view_step_held t t' d {X} (o : kop X) x v v' σ :
  view_step t d o x v v' → v = Some (Some t', σ) → t' ≠ t → v' = v.
Proof. intros [] E Hne; [done|congruence..]. Qed.

Lemma view_step_free t d {X} (o : kop X) x v σ :
  view_step t d o x v (Some (None, σ)) → v = Some (None, σ) ∨ v = Some (Some t, σ).
Proof. inversion 1; auto. Qed.
End Views.

(** ** Histories *)

(** What can be seen of a run: calls that enter, operations of threads inside the driver,
    with the state in which they are performed, and calls that return. *)
Inductive event (U : Type) :=
  | Entered (t : nat) (c : driver_call)
  | Acted (t : nat) (w : kstate U)
  | Returned (t : nat) (r : Z).
Arguments Entered {_}.
Arguments Acted {_}.
Arguments Returned {_}.

Section Machine.
Context {U : Type} `{UserSpace U} `{ByteOrder} `{IoctlEncoding}.
Variable scan_i : list byte → option Z.
Context (sig : Prop) (made : driver_call → Prop).
Implicit Types (st w : kstate U) (ws : list (kstate U)) (es : list (event U)).

(** The steps of the machine of [Concurrency] with their events; signals arrive where
    [sig] holds. *)
Inductive step_with (m : machine (U:=U)) : list (event U) → machine → Prop :=
  | with_enter t c :
      threads m !! t = None → valid_call c → made c →
      step_with m [Entered t c] (Machine (<[t := call_prog scan_i c]> (threads m)) (shared m))
  | with_operation t {X} (o : kop X) (k : X → prog Z) (s : bool) x st' :
      threads m !! t = Some (Vis o k) → (s = true → sig) →
      step_op t o (with_signals [s] (shared m)) = Done (x, st') →
      step_with m [Acted t (with_signals [s] (shared m))]
        (Machine (<[t := k x]> (threads m)) (with_signals [] st'))
  | with_leave t r :
      threads m !! t = Some (Ret r) →
      step_with m [Returned t r] (Machine (delete t (threads m)) (shared m))
  | with_user u :
      step_with m [] (Machine (threads m) (with_user u (shared m))).

Definition any_step_with (m m' : machine (U:=U)) : Prop := ∃ es, step_with m es m'.

Definition reachable_with (major : Z) (u : U) (m : machine (U:=U)) : Prop :=
  rtc any_step_with (Machine ∅ (loaded_state major u)) m.

(** The runs from the loaded driver on, with their events in order. *)
Inductive history (major : Z) (u : U) : list (event U) → machine (U:=U) → Prop :=
  | history_loaded : history major u [] (Machine ∅ (loaded_state major u))
  | history_step es m es' m' :
      history major u es m → step_with m es' m' → history major u (es ++ es') m'.

Lemma reachable_history major u m : reachable_with major u m → ∃ es, history major u es m.
Proof.
  revert m. apply rtc_ind_r; [exists []; constructor|].
  intros m m' _ [es' Hstep] [es Hes]. exists (es ++ es'). by econstructor.
Qed.

Lemma history_reachable major u es m : history major u es m → reachable_with major u m.
Proof.
  induction 1 as [|es m es' m' _ IH Hstep]; [apply rtc_refl|]. eapply rtc_r; [exact IH|]. by exists es'.
Qed.

Lemma step_with_step m es m' : step_with m es m' → any_step scan_i made m m'.
Proof.
  intros [t c Hn Hv Hm|t X o k s x st' Hlk Hs E|t r Hlk|u].
  - exists (Some t). by constructor.
  - exists (Some t). by eapply step_operation.
  - exists (Some t). by econstructor.
  - exists None. constructor.
Qed.

Lemma step_step_with m m' : sig → any_step scan_i made m m' → any_step_with m m'.
Proof.
  intros Hsig [l [t c m0 Hn Hv Hm|t X o k s x st' m0 Hlk E|t r m0 Hlk|u m0]];
    eexists; [by apply with_enter|by eapply with_operation|by eapply with_leave|apply with_user].
Qed.

(** With signals anywhere, the machine is the one of [Concurrency]. *)
Lemma reachable_with_signals major u m :
  sig → reachable scan_i made major u m → reachable_with major u m.
Proof. intros Hsig Hr. eapply rtc_subrel; [|exact Hr]. intros m1 m2. by apply step_step_with. Qed.

Lemma reachable_with_reachable major u m :
  reachable_with major u m → reachable scan_i made major u m.
Proof. intros Hr. eapply rtc_subrel; [|exact Hr]. intros m1 m2 [es Hs]. by eapply step_with_step. Qed.

Lemma reachable_with_wf major u m : reachable_with major u m → wf_devs (devs (shared m)).
Proof.
  intros Hr%reachable_with_reachable. exact (proj1 (reachable_disciplined scan_i made major u m Hr)).
Qed.

(** ** Serial runs *)

(** A call that has not taken effect yet, and the states in which its thread has
    performed operations; or one that has, and the value it will return. *)
Inductive progress := Running (c : driver_call) (ws : list (kstate U)) | Finished (r : Z).

Record serial_state := SerialState { s_bars : nat → bars; s_calls : gmap nat progress }.

(** The serial counterpart of a run with these events. Nothing changes the bars but the
    step [serially_call], in which the whole call takes effect at once. *)
Inductive serially (major : Z) : list (event U) → serial_state → Prop :=
  | serially_loaded : serially major [] (SerialState (λ d, bars_of (fresh_device major d)) ∅)
  | serially_enter es s t c :
      serially major es s → s_calls s !! t = None →
      serially major (es ++ [Entered t c])
        (SerialState (s_bars s) (<[t := Running c []]> (s_calls s)))
  | serially_act es s t c ws w :
      serially major es s → s_calls s !! t = Some (Running c ws) →
      serially major (es ++ [Acted t w])
        (SerialState (s_bars s) (<[t := Running c (ws ++ [w])]> (s_calls s)))
  | serially_call es s t c ws r σ :
      serially major es s → s_calls s !! t = Some (Running c ws) →
      alone t (call_device c) ws (call_prog scan_i c) (s_bars s (call_device c)) (Ret r) σ →
      serially major es
        (SerialState (<[call_device c := σ]> (s_bars s)) (<[t := Finished r]> (s_calls s)))
  | serially_return es s t r :
      serially major es s → s_calls s !! t = Some (Finished r) →
      serially major (es ++ [Returned t r]) (SerialState (s_bars s) (delete t (s_calls s))).

(** ** The simulation *)

(** A thread of the machine and a call of the serial run. *)
Inductive simulated (st : kstate U) (B : nat → bars) (t : nat) :
    option (prog Z) → option progress → Prop :=
  | simulated_none : simulated st B t None None
  | simulated_before c ws p :
      one_section (call_device c) p Before left →
      (∀ σ, alone t (call_device c) ws (call_prog scan_i c) σ p σ) →
      simulated st B t (Some p) (Some (Running c ws))
  | simulated_inside c ws p σ :
      one_section (call_device c) p Inside left → view st (call_device c) = Some (Some t, σ) →
      alone t (call_device c) ws (call_prog scan_i c) (B (call_device c)) p σ →
      simulated st B t (Some p) (Some (Running c ws))
  | simulated_finished r : simulated st B t (Some (Ret r)) (Some (Finished r)).

Record simulation (m : machine (U:=U)) (s : serial_state) : Prop := {
  sim_free : ∀ d σ, view (shared m) d = Some (None, σ) → s_bars s d = σ;
  sim_threads : ∀ t, simulated (shared m) (s_bars s) t (threads m !! t) (s_calls s !! t);
}.

(** What other threads hold is all that matters to the call. *)
Lemma simulated_other st st' B B' t p c :
  (∀ d σ, view st d = Some (Some t, σ) → view st' d = Some (Some t, σ) ∧ B' d = B d) →
  simulated st B t p c → simulated st' B' t p c.
Proof.
  intros Hv [|? ? ? Hs Ha|c' ws' p' σ Hs Hd Ha|]; [constructor|by constructor| |constructor].
  destruct (Hv _ _ Hd) as [Hd' HB]. eapply simulated_inside; [done|done|]. by rewrite HB.
Qed.

(** The rest of a call behind its critical section. *)
Lemma section_after d (p : prog Z) Q : one_section d p After Q → ∃ r, p = Ret r.
Proof.
  destruct p as [r|X o k]; [by exists r|].
  destruct o as [[]|[]| | | | | | | | | | | | ]; intros Hs; exfalso; by repeat destruct Hs as [? Hs].
Qed.

(** The same operation when the call runs alone: outside its critical section with any
    bars, inside with the bars of the device. *)
Lemma alone_outside t d ws (p : prog Z) {X} (o : kop X) k w x st' :
  bar_access o = false → step_op t o w = Done (x, st') →
  (∀ σ, alone t d ws p σ (Vis o k) σ) → ∀ σ, alone t d (ws ++ [w]) p σ (k x) σ.
Proof.
  intros Ho E Ha σ. destruct (step_put t o w x st' d σ Ho E) as (st'' & E' & Hb).
  rewrite <-Hb at 2. by eapply alone_step.
Qed.

Lemma alone_inside t d ws (p : prog Z) {X} (o : kop X) k w x st' σ0 σ mu σ' :
  view w d = Some (Some t, σ) → step_op t o w = Done (x, st') →
  view st' d = Some (mu, σ') → alone t d ws p σ0 (Vis o k) σ →
  alone t d (ws ++ [w]) p σ0 (k x) σ'.
Proof.
  intros Hv E Hv' Ha. apply view_Some in Hv as (dev & Hd & _ & <-).
  replace σ' with (bars_at d st' (bars_of dev)) by (by rewrite bars_at_view, Hv').
  eapply alone_step; [done|]. by rewrite put_bars_same.
Qed.

(** *** The steps *)

Lemma simulation_loaded major (u : U) :
  simulation (Machine ∅ (loaded_state major u))
    (SerialState (λ d, bars_of (fresh_device major d)) ∅).
Proof.
  split; [|intros t; constructor]. intros d σ (dev & Hd & _ & <-)%view_Some.
  assert (d < 7)%nat as Hlt.
  { apply lookup_lt_Some in Hd. cbn [shared loaded_state devs] in Hd.
    by rewrite length_fresh_devices in Hd. }
  cbn [shared] in Hd. rewrite loaded_lookup in Hd by done. by injection Hd as <-.
Qed.

(** Thread [t] has changed the machine and its own call. *)
Lemma simulation_update m s t p c st' B' :
  simulation m s →
  (∀ d σ, view st' d = Some (None, σ) → B' d = σ) →
  (∀ t' d σ, t' ≠ t → view (shared m) d = Some (Some t', σ) →
     view st' d = Some (Some t', σ) ∧ B' d = s_bars s d) →
  simulated st' B' t p c →
  simulation (Machine (partial_alter (λ _, p) t (threads m)) st')
    (SerialState B' (partial_alter (λ _, c) t (s_calls s))).
Proof.
  intros [Hfree Hthreads] Hf Ho Ht. split; [done|]. intros t'. cbn.
  destruct (decide (t' = t)) as [->|Hne].
  - by rewrite !lookup_partial_alter_eq.
  - rewrite !lookup_partial_alter_ne by done.
    eapply simulated_other; [|apply Hthreads]. intros d σ. by apply Ho.
Qed.

Section Operation.
Context (major : Z) (es : list (event U)) (m : machine (U:=U)) (s : serial_state) (t : nat).
Context {X : Type} (o : kop X) (k : X → prog Z) (b : bool) (x : X) (st' : kstate U).
Context (Hsim : simulation m s) (Hser : serially major es s).
Context (Hwf : wf_devs (devs (shared m))) (Hlk : threads m !! t = Some (Vis o k)).
Context (E : step_op t o (with_signals [b] (shared m)) = Done (x, st')).

Local Abbreviation w := (with_signals [b] (shared m)).
Local Abbreviation m' := (Machine (<[t := k x]> (threads m)) (with_signals [] st')).

(** What the other threads hold stays. *)
Lemma operation_others t' d σ :
  t' ≠ t → view (shared m) d = Some (Some t', σ) → view st' d = Some (Some t', σ).
Proof using E.
  clear -E. intros Hne Hv. pose proof (step_view t o _ _ _ d E) as Hs.
  rewrite <-Hv. by eapply view_step_held.
Qed.

Lemma simulate_before c ws :
  s_calls s !! t = Some (Running c ws) →
  one_section (call_device c) (Vis o k) Before left →
  (∀ σ, alone t (call_device c) ws (call_prog scan_i c) σ (Vis o k) σ) →
  ∃ s', serially major (es ++ [Acted t w]) s' ∧ simulation m' s'.
Proof using All.
  intros Hc Hsec Ha.
  destruct (section_before (call_device c) o x _ w t st' Hwf Hsec E) as [Ho Hph].
  eexists. split; [by eapply serially_act|].
  apply (simulation_update m s t (Some (k x))); [done| | |].
  - intros d σ Hd. change (view st' d = Some (None, σ)) in Hd. apply (sim_free m s Hsim).
    destruct (decide (d = call_device c)) as [->|Hne].
    + destruct Hph as [[_ Hv]|(_ & σ0 & _ & Hv)]; rewrite Hv in Hd; [exact Hd|done].
    + rewrite <-Hd. symmetry. exact (section_elsewhere _ _ _ _ _ _ _ _ _ Hsec E Hne).
  - intros t' d σ Hne Hv. split; [by apply operation_others|done].
  - pose proof (alone_outside _ _ _ _ _ _ _ _ _ Ho E Ha) as Ha'.
    destruct Hph as [[HQ _]|(HQ & σ & Hv & Hv')]; [by constructor|].
    eapply simulated_inside; [done|exact Hv'|].
    rewrite (sim_free m s Hsim _ σ Hv). apply Ha'.
Qed.

Lemma simulate_inside c ws σ :
  s_calls s !! t = Some (Running c ws) →
  one_section (call_device c) (Vis o k) Inside left →
  view (shared m) (call_device c) = Some (Some t, σ) →
  alone t (call_device c) ws (call_prog scan_i c) (s_bars s (call_device c)) (Vis o k) σ →
  ∃ s', serially major (es ++ [Acted t w]) s' ∧ simulation m' s'.
Proof using All.
  intros Hc Hsec Hd Ha.
  assert (∀ d, d ≠ call_device c → view st' d = view (shared m) d) as Helse
    by (intros d Hne; exact (section_elsewhere _ _ _ _ _ _ _ _ _ Hsec E Hne)).
  destruct (section_inside_op (call_device c) o x _ w t st' σ Hwf Hsec E Hd)
    as [[HQ [σ' Hd']]|[HQ Hd']].
  - eexists. split; [by eapply serially_act|].
    apply (simulation_update m s t (Some (k x))); [done| | |].
    + intros d σ0 Hf. apply (sim_free m s Hsim).
      change (view st' d = Some (None, σ0)) in Hf.
      rewrite <-Helse; [done|]. intros ->. congruence.
    + intros t' d σ0 Hne Hv. split; [by apply operation_others|done].
    + eapply simulated_inside; [done|exact Hd'|]. by eapply alone_inside.
  - destruct (section_after _ _ _ HQ) as [r Er].
    eexists. split.
    { eapply serially_call; [by eapply serially_act|apply lookup_insert_eq|].
      rewrite <-Er. by eapply alone_inside. }
    cbn [s_bars s_calls]. rewrite insert_insert_eq.
    apply (simulation_update m s t (Some (k x)) (Some (Finished r))); [done| | |].
    + intros d σ0 Hf. change (view st' d = Some (None, σ0)) in Hf.
      destruct (decide (d = call_device c)) as [->|Hne].
      * rewrite fn_lookup_insert. congruence.
      * rewrite fn_lookup_insert_ne by done. apply (sim_free m s Hsim). by rewrite <-Helse.
    + intros t' d σ0 Hne Hv. split; [by apply operation_others|].
      apply fn_lookup_insert_ne. intros <-. congruence.
    + rewrite Er. constructor.
Qed.
End Operation.

Lemma simulate_leave major es m s t r :
  simulation m s → serially major es s → threads m !! t = Some (Ret r) →
  ∃ s', serially major (es ++ [Returned t r]) s' ∧
    simulation (Machine (delete t (threads m)) (shared m)) s'.
Proof.
  intros Hsim Hser Hlk. pose proof (sim_threads m s Hsim t) as Ht. rewrite Hlk in Ht.
  inversion Ht as [|c ws p Hsec Ha|c ws p σ Hsec Hd Ha|r0]; subst; [|by destruct Hsec|].
  - eexists. split; [eapply serially_return; [eapply (serially_call _ _ _ t c ws r)|]|];
      [done|done|apply Ha|apply lookup_insert_eq|].
    cbn [s_bars s_calls]. rewrite delete_insert_eq.
    apply (simulation_update m s t None None); [done| | |constructor].
    + intros d σ Hd. destruct (decide (call_device c = d)) as [<-|?];
        [rewrite fn_lookup_insert|rewrite fn_lookup_insert_ne by done]; by apply (sim_free m s Hsim).
    + intros t' d σ Hne Hd. split; [done|]. destruct (decide (call_device c = d)) as [<-|?];
        [by rewrite fn_lookup_insert|by rewrite fn_lookup_insert_ne].
  - eexists. split; [by eapply serially_return|].
    apply (simulation_update m s t None None); [done|apply Hsim|done|constructor].
Qed.

Lemma simulate_enter major es m s t c :
  simulation m s → serially major es s → threads m !! t = None →
  ∃ s', serially major (es ++ [Entered t c]) s' ∧
    simulation (Machine (<[t := call_prog scan_i c]> (threads m)) (shared m)) s'.
Proof.
  intros Hsim Hser Hlk. pose proof (sim_threads m s Hsim t) as Ht. rewrite Hlk in Ht.
  assert (s_calls s !! t = None) as Hn by (by inversion Ht).
  eexists. split; [by eapply serially_enter|].
  apply (simulation_update m s t (Some _) (Some _)); [done|apply Hsim|done|].
  apply simulated_before; [apply call_one_section|]. intros σ. constructor.
Qed.

(** Every run of the machine has a serial counterpart. *)
Lemma history_simulated major u es m :
  history major u es m → ∃ s, serially major es s ∧ simulation m s.
Proof.
  induction 1 as [|es m es' m' Hh (s & Hser & Hsim) Hstep].
  { eexists. split; [constructor|apply simulation_loaded]. }
  pose proof (reachable_with_wf _ _ _ (history_reachable _ _ _ _ Hh)) as Hwf.
  destruct Hstep as [t c Hn Hv Hm|t X o k b x st' Hlk Hs E|t r Hlk|u'].
  - by eapply simulate_enter.
  - pose proof (sim_threads m s Hsim t) as Ht. rewrite Hlk in Ht.
    inversion Ht as [|c ws p Hsec Ha Ep Ec|c ws p σ Hsec Hd Ha Ep Ec|]; subst.
    + by eapply simulate_before.
    + by eapply simulate_inside.
  - by eapply simulate_leave.
  - rewrite app_nil_r. exists s. split; [done|]. destruct Hsim as [Hf Ht].
    split; [exact Hf|]. intros t. eapply simulated_other; [|apply Ht]. by intros d σ.
Qed.
End Machine.

(** ** Properties *)

Section Properties.
Context {U : Type} `{UserSpace U} `{ByteOrder} `{IoctlEncoding}.
Variable scan_i : list byte → option Z.
Implicit Types m : machine (U:=U).

(** C2: atomicity. Every concurrent run of the driver, with any calls, signals and
    changes of the user's memory, has the same history as a serial one: a run in which
    each call, at one moment between its entry and its return, performs its whole
    program alone on the bars of its device, and then returns what that run returned.
    Whenever the mutex of a device is free, its bars are those of the serial run. *)
Theorem interleaved_calls_are_serial (sig : Prop) (made : driver_call → Prop) (major : Z) (u : U)
    (es : list (event U)) m (Hh : history scan_i sig made major u es m) :
  ∃ s, serially scan_i major es s ∧
    ∀ d dev, devs (shared m) !! d = Some dev → devMutex dev = None → bars_of dev = s_bars s d.
Proof.
  destruct (history_simulated scan_i sig made major u es m Hh) as (s & Hser & Hsim).
  exists s. split; [done|]. intros d dev Hd Hm. symmetry.
  apply (sim_free scan_i m s Hsim), view_Some. by exists dev.
Qed.
End Properties.

(** ** Example *)

#[local] Existing Instance little_endian.
#[local] Existing Instance asm_generic_ioctl.

(** The history of a thread that enters the driver with a write. *)
Lemma sample_history :
  history decimal_scan False (λ c, c = WriteCall 2 1000 24) 240 ∅
    [Entered 0 (WriteCall 2 1000 24)] (sample_entered (WriteCall 2 1000 24)).
Proof.
  apply (history_step _ _ _ _ _ [] (Machine ∅ (loaded_state 240 ∅)) [Entered 0 (WriteCall 2 1000 24)]);
    [constructor|].
  apply (with_enter decimal_scan False _ (Machine ∅ (loaded_state 240 ∅)) 0 (WriteCall 2 1000 24));
    [reflexivity|unfold valid_call, is_device; lia|reflexivity].
Qed.

Lemma interleaved_calls_are_serial_witness :
  ∃ s, serially decimal_scan 240 [Entered 0 (WriteCall 2 1000 24)] s ∧
    bars_of (fresh_device 240 2) = s_bars s 2%nat.
Proof.
  destruct (interleaved_calls_are_serial decimal_scan False (λ c, c = WriteCall 2 1000 24) 240 ∅ _ _
    sample_history) as (s & Hs & Hfree).
  exists s. split; [exact Hs|]. apply Hfree; reflexivity.
Defined.
