(* ===== verification/Driver.v ===== *)
(** * The driver as a whole

    The [file_operations] tables of [mtcadummy_drv.c] and the way the kernel
    dispatches system calls through them, as a transition system over the
    devices and the open files ([sys_step]). The calls run one after the other,
    each with arbitrary signals; interleavings are the subject of
    [Concurrency]. What the kernel answers where a table has no entry is the
    interface [Vfs]. *)

From S2P Require Import Prelude Abi Kernel UserMem Firmware ModuleInit Registers.
From S2P Require Import StructRW NoStructRW Ioctl OpenRelease Proc ProcDump Locking.
From S2P Require Import Concurrency.
Local Open Scope Z_scope.

(** ** The tables of file operations *)

(** An operation that ignores the file position. *)
Definition with_position (op : nat → Z → Z → prog Z) (d : nat) (buf count pos : Z) :
    prog (Z * Z) :=
  r ← op d buf count; mret (r, pos).

Record file_operations := FileOperations {
  fop_open : option (nat → prog (Z * option nat));
  fop_release : option (nat → prog Z);
  fop_read : option (nat → Z → Z → Z → prog (Z * Z));
  fop_write : option (nat → Z → Z → Z → prog (Z * Z));
  fop_ioctl : option (nat → Z → Z → prog Z);
}.

Section Tables.
Context `{ByteOrder} `{IoctlEncoding}.

Definition mtcaDummyFileOps_table : file_operations :=
  FileOperations (Some mtcaDummy_open) (Some mtcaDummy_release)
    (Some (with_position mtcaDummy_read)) (Some (with_position mtcaDummy_write))
    (Some mtcaDummy_ioctl).

Definition llrfDummyFileOps_table : file_operations :=
  FileOperations (Some mtcaDummy_open) (Some mtcaDummy_release)
    (Some (with_position mtcaDummy_read)) (Some (with_position mtcaDummy_write))
    (Some llrfDummy_ioctl).

(** [noIoctlDummyFileOps] is declared and used, but never initialised: all its
    entries are null. *)
Definition noIoctlDummyFileOps_table : file_operations :=
  FileOperations None None None None None.

(** The table that was meant, initialised under the misspelt name
    [noIocltDummyFileOps] and never used. *)
Definition noIocltDummyFileOps_table : file_operations :=
  FileOperations (Some mtcaDummy_open) (Some mtcaDummy_release)
    (Some (with_position mtcaDummy_read)) (Some (with_position mtcaDummy_write)) None.

Definition pcieuniDummyFileOps_table : file_operations :=
  FileOperations (Some mtcaDummy_open) (Some mtcaDummy_release)
    (Some mtcaDummy_read_no_struct) (Some mtcaDummy_write_no_struct)
    (Some pcieuniDummy_ioctl).

Definition table_of (ops : cdev_ops) : file_operations :=
  match ops with
  | mtcaDummyFileOps => mtcaDummyFileOps_table
  | llrfDummyFileOps => llrfDummyFileOps_table
  | noIoctlDummyFileOps => noIoctlDummyFileOps_table
  | pcieuniDummyFileOps => pcieuniDummyFileOps_table
  end.
End Tables.

(** What the kernel answers to a read, write or ioctl without an entry: an error. *)
Class Vfs := {
  no_read : Z;
  no_write : Z;
  no_ioctl : Z;
  no_read_error : no_read < 0;
  no_write_error : no_write < 0;
  no_ioctl_error : no_ioctl < 0;
}.

#[refine, local] Instance linux_vfs : Vfs :=
  { no_read := - EINVAL; no_write := - EINVAL; no_ioctl := - ENOTTY }.
Proof. all: by vm_compute. Defined.

(** ** Effects on the devices *)

Section Effects.
Context {U : Type} `{UserSpace U} `{ByteOrder}.
Implicit Types st : kstate U.

(** Apart from the bars and the mutex. *)
Definition same_numbers (dev dev' : mtcaDummyData) : Prop :=
  inUse dev' = inUse dev ∧ cdev dev' = cdev dev ∧ slotNr dev' = slotNr dev ∧
  minor dev' = minor dev ∧ major dev' = major dev.

(** The devices are those of [st], but for the bars and the mutex of the devices
    in [mine]. *)
Definition keeps (mine : nat → Prop) (st st' : kstate U) : Prop :=
  ∀ d dev, devs st !! d = Some dev →
    ∃ dev', devs st' !! d = Some dev' ∧ same_numbers dev dev' ∧ (mine d ∨ dev' = dev).

#[export] Instance keeps_preorder mine : PreOrder (keeps mine).
Proof.
  split.
  - intros st d dev Hd. exists dev. split_and!; [done|done|by right].
  - intros st1 st2 st3 H12 H23 d dev Hd.
    destruct (H12 d dev Hd) as (dev2 & Hd2 & (?&?&?&?&?) & Hm2).
    destruct (H23 d dev2 Hd2) as (dev3 & Hd3 & (?&?&?&?&?) & Hm3).
    exists dev3. split; [done|]. split; [split_and!; congruence|].
    destruct Hm2, Hm3; first [by left | right; congruence].
Qed.

Lemma keeps_same_devs mine st st' : devs st' = devs st → keeps mine st st'.
Proof. intros E d dev Hd. exists dev. rewrite E. split_and!; [done|done|by right]. Qed.

Lemma keeps_insert mine st d dev dev' :
  devs st !! d = Some dev → same_numbers dev dev' → mine d → keeps mine st (upd_dev d dev' st).
Proof.
  intros Hd Hn Hm d0 dev0 H0'. destruct (decide (d = d0)) as [<-|Hne].
  - rewrite Hd in H0'. injection H0' as <-. exists dev'.
    rewrite devs_upd_dev by by apply lookup_lt_Some in Hd. split_and!; [done|done|by left].
  - exists dev0. rewrite devs_upd_dev_ne by done. split_and!; [done|done|by right].
Qed.

(** The operations that count no users and stay on the devices in [mine]. *)
Definition quiet_on (mine : nat → Prop) : rules :=
  allowing (λ X o, counts o = false ∧ stays_on mine o).

Lemma on_bar_Done {A} t d b i n st (f : mtcaDummyData → outcome (A * kstate U)) r :
  on_bar t d b i n st f = Done r → ∃ dev, devs st !! d = Some dev ∧ f dev = Done r.
Proof.
  unfold on_bar, on_dev. destruct (devs st !! d) as [dev|]; [|done].
  destruct (decide _); [|done]. destruct (_ && _); [|done]. eauto.
Qed.

Lemma quiet_step mine t {X} (o : kop X) st x st' :
  allowed (quiet_on mine) X o → step_op t o st = Done (x, st') → keeps mine st st'.
Proof.
  intros [Hc Hm].
  destruct o as [[|d]|[|d]|f|f b|d k|d|d|d b i|d b i v|a n|a bs|a d b i n|d b i a|a n];
    cbn [step_op]; try done; unfold step_lock, step_unlock, on_dev; cbn [owner].
  - destruct (default false _); [intros [= <- <-]; by apply keeps_same_devs|].
    destruct (control_owner st); [done|]. intros [= <- <-]. by apply keeps_same_devs.
  - destruct (devs st !! d) as [dev|] eqn:Hd; [|done]. cbn [fmap option_fmap option_map].
    destruct (default false _); [intros [= <- <-]; by apply keeps_same_devs|].
    destruct (devMutex dev); [done|]. intros [= <- <-]. unfold set_mutex, with_devs.
    cbn [devs with_signals]. rewrite (list_alter_insert_eq _ _ _ _ Hd).
    by apply (keeps_insert mine (with_signals (tail (signals st)) st) d dev).
  - destruct (decide _); [|done]. intros [= <- <-]. by apply keeps_same_devs.
  - destruct (devs st !! d) as [dev|] eqn:Hd; [|done]. cbn [fmap option_fmap option_map].
    destruct (decide _); [|done]. intros [= <- <-]. unfold set_mutex.
    rewrite (list_alter_insert_eq _ _ _ _ Hd). by apply (keeps_insert mine st d dev).
  - destruct (decide _); [|done]. intros [= <- <-]. by apply keeps_same_devs.
  - destruct (decide _); [|done]. intros [= <- <-]. by apply keeps_same_devs.
  - destruct (devs st !! d); [|done]. intros [= <- <-]. by apply keeps_same_devs.
  - destruct (devs st !! d); [|done]. intros [= <- <-]. by apply keeps_same_devs.
  - intros (dev & Hd & [= <- <-])%on_bar_Done. by apply keeps_same_devs.
  - intros (dev & Hd & [= <- <-])%on_bar_Done. apply (keeps_insert mine st d dev); [done| |done].
    by destruct b.
  - intros [= <- <-]. by apply keeps_same_devs.
  - destruct (copy_to_user _ _ _). intros [= <- <-]. by apply keeps_same_devs.
  - intros (dev & Hd & E)%on_bar_Done. destruct (copy_to_user _ _ _).
    injection E as <- <-. by apply keeps_same_devs.
  - intros (dev & Hd & E)%on_bar_Done. destruct (copy_from_user _ _ _).
    injection E as <- <-. apply (keeps_insert mine st d dev); [done| |done]. by destruct b.
  - intros [= <- <-]. by apply keeps_same_devs.
Qed.

(** A program that follows the discipline, run to its end. *)
Lemma exec_wp (rs : rules) (R : kstate U → kstate U → Prop) `{!PreOrder R} {A} t (p : prog A) :
  (∀ X (o : kop X) st x st', allowed rs X o → step_op t o st = Done (x, st') → R st st') →
  (∀ a n bs nleft, copied rs a n bs nleft) →
  ∀ h Q st a st', wp rs p h Q → wf_devs (devs st) → owns st t h →
    exec t p st = Done (a, st') →
    ∃ h', Q h' a ∧ owns st' t h' ∧ others_kept t st st' ∧ wf_devs (devs st') ∧ R st st'.
Proof.
  intros HR Hmem. induction p as [a|X o k IH]; intros h Q st a' st' Hwp Hwf Ho; cbn [exec].
  { intros [= <- <-]. exists h. split_and!; [done|done|by intros ???|done|reflexivity]. }
  pose proof (step_op_sound rs o t h _ st Hwf Ho (λ a n, Hmem a n _ _) Hwp) as Hs.
  destruct (step_op t o st) as [[x st1]| |] eqn:E; cbn [outcome_bind]; [|done..].
  destruct Hs as (h1 & Hk & Ho1 & Hkept & Hwf1 & _). intros Hexec.
  destruct (IH x h1 Q st1 a' st' Hk Hwf1 Ho1 Hexec) as (h' & HQ & Ho' & Hkept' & Hwf' & HR').
  exists h'. split_and!; [done|done| |done|].
  - intros t' h0 Hne Hh0. by apply Hkept', Hkept.
  - etrans; [|done]. eapply HR; [apply Hwp|done].
Qed.

(** A whole system call between two idle states. *)
Lemma exec_quiet mine {A} t (p : prog A) st a st' :
  wp (quiet_on mine) p no_locks released → idle st → wf_devs (devs st) →
  exec t p st = Done (a, st') →
  idle st' ∧ wf_devs (devs st') ∧ keeps mine st st'.
Proof.
  intros Hwp Hi Hwf Hexec. pose proof (proj1 (idle_owns st) Hi) as Hfree.
  destruct (exec_wp (quiet_on mine) (keeps mine) t p
    (λ X o st0 x st1, quiet_step mine t o st0 x st1) (λ _ _ _ _, I) no_locks released st a st'
    Hwp Hwf (Hfree t) Hexec) as (h' & -> & Ho & Hkept & Hwf' & HR).
  split_and!; [|done|done]. apply idle_owns. intros t'.
  destruct (decide (t' = t)) as [->|Hne]; [done|]. by apply Hkept.
Qed.
End Effects.

(** ** System calls *)

(** An open file: the device of its inode, [filp->private_data], the position. *)
Record file := File { f_device : nat; private_data : option nat; f_pos : Z }.

Inductive event :=
  | Opened (fd d : nat) (ret : Z)
  | Closed (fd : nat)
  | DidRead (fd : nat) (ret : Z)
  | DidWrite (fd : nat) (ret : Z)
  | DidIoctl (fd : nat) (ret : Z)
  | ProcEvent
  | Environment.

Section System.
Context {U : Type} `{UserSpace U} `{ByteOrder} `{IoctlEncoding} `{Vfs}.
Variable scan_i : list byte → option Z.

Record system := System { kernel : kstate U; files : gmap nat file }.

(** A call of the driver that completes, with the pending signals [s]. *)
Definition completes {A} (p : prog A) (k : kstate U) (a : A) (k' : kstate U) : Prop :=
  ∃ t s k1, exec t p (with_signals s k) = Done (a, k1) ∧ k' = with_signals [] k1.

(** The table of the device of an inode. *)
Definition table (k : kstate U) (d : nat) : option file_operations :=
  table_of ∘ cdev <$> devs k !! d.

Inductive sys_step : event → system → system → Prop :=
  | sys_open fd d ops op ret pd k k' fs :
      fs !! fd = None → table k d = Some ops → fop_open ops = Some op →
      completes (op d) k (ret, pd) k' →
      sys_step (Opened fd d ret) (System k fs)
        (System k' (if ret =? 0 then <[fd := File d pd 0]> fs else fs))
  | sys_open_null fd d ops k fs :
      fs !! fd = None → table k d = Some ops → fop_open ops = None →
      sys_step (Opened fd d 0) (System k fs) (System k (<[fd := File d None 0]> fs))
  | sys_close fd f ops op p ret k k' fs :
      fs !! fd = Some f → table k (f_device f) = Some ops → fop_release ops = Some op →
      private_data f = Some p → completes (op p) k ret k' →
      sys_step (Closed fd) (System k fs) (System k' (delete fd fs))
  | sys_close_null fd f ops k fs :
      fs !! fd = Some f → table k (f_device f) = Some ops → fop_release ops = None →
      sys_step (Closed fd) (System k fs) (System k (delete fd fs))
  | sys_read fd f ops op p buf count ret pos k k' fs :
      fs !! fd = Some f → table k (f_device f) = Some ops → fop_read ops = Some op →
      private_data f = Some p → 0 <= f_pos f <= LOFF_MAX → 0 <= count <= MAX_RW_COUNT →
      completes (op p buf count (f_pos f)) k (ret, pos) k' →
      sys_step (DidRead fd ret) (System k fs)
        (System k' (<[fd := File (f_device f) (Some p) pos]> fs))
  | sys_read_null fd f ops k fs :
      fs !! fd = Some f → table k (f_device f) = Some ops → fop_read ops = None →
      sys_step (DidRead fd no_read) (System k fs) (System k fs)
  | sys_write fd f ops op p buf count ret pos k k' fs :
      fs !! fd = Some f → table k (f_device f) = Some ops → fop_write ops = Some op →
      private_data f = Some p → 0 <= f_pos f <= LOFF_MAX → 0 <= count <= MAX_RW_COUNT →
      completes (op p buf count (f_pos f)) k (ret, pos) k' →
      sys_step (DidWrite fd ret) (System k fs)
        (System k' (<[fd := File (f_device f) (Some p) pos]> fs))
  | sys_write_null fd f ops k fs :
      fs !! fd = Some f → table k (f_device f) = Some ops → fop_write ops = None →
      sys_step (DidWrite fd no_write) (System k fs) (System k fs)
  | sys_ioctl fd f ops op p cmd arg ret k k' fs :
      fs !! fd = Some f → table k (f_device f) = Some ops → fop_ioctl ops = Some op →
      private_data f = Some p → completes (op p cmd arg) k ret k' →
      sys_step (DidIoctl fd ret) (System k fs) (System k' fs)
  | sys_ioctl_null fd f ops k fs :
      fs !! fd = Some f → table k (f_device f) = Some ops → fop_ioctl ops = None →
      sys_step (DidIoctl fd no_ioctl) (System k fs) (System k fs)
  | sys_seek fd f pos k fs :
      fs !! fd = Some f →
      sys_step Environment (System k fs)
        (System k (<[fd := File (f_device f) (private_data f) pos]> fs))
  | sys_proc_write ubuf count ret k k' fs :
      completes (mtcadummy_proc_write scan_i ubuf count) k ret k' →
      sys_step ProcEvent (System k fs) (System k' fs)
  | sys_proc_show d r k k' fs :
      is_device d → completes (mtcadummy_seq_show d) k r k' →
      sys_step ProcEvent (System k fs) (System k' fs)
  | sys_user u k fs :
      sys_step Environment (System k fs) (System (with_user u k) fs).

Definition sys_any_step (s s' : system) : Prop := ∃ e, sys_step e s s'.

(** What can happen after loading the driver. *)
Definition sys_reachable (major : Z) (u : U) (s : system) : Prop :=
  rtc sys_any_step (System (loaded_state major u) ∅) s.

(** ** The invariant *)

(** The number of open files that count as users of device [d]. *)
Definition users (fs : gmap nat file) (d : nat) : Z :=
  Z.of_nat (size (filter (λ '(_, f), private_data f = Some d) fs)).

Record sys_inv (major : Z) (s : system) : Prop := {
  inv_idle : idle (kernel s);
  inv_wf : wf_devs (devs (kernel s));
  inv_files : ∀ fd f, files s !! fd = Some f →
    is_device (f_device f) ∧
    private_data f = if decide (f_device f = 5%nat) then None else Some (f_device f);
  inv_devs : ∀ d dev, devs (kernel s) !! d = Some dev →
    cdev dev = device_ops d ∧ slotNr dev = Z.of_nat d ∧ minor dev = Z.of_nat d ∧
    Kernel.major dev = major ∧ inUse dev = to_int (users (files s) d);
  inv_dead : devs (kernel s) !! 5%nat = Some (fresh_device major 5);
}.

(** *** Counting users *)

Lemma users_insert fs fd f d :
  fs !! fd = None →
  users (<[fd := f]> fs) d = users fs d + (if decide (private_data f = Some d) then 1 else 0).
Proof.
  intros Hn. unfold users. rewrite map_filter_insert.
  destruct (decide (private_data f = Some d)).
  - rewrite map_size_insert_None; [lia|]. apply map_lookup_filter_None. by left.
  - rewrite delete_id by done. lia.
Qed.

Lemma users_delete fs fd f d :
  fs !! fd = Some f →
  users fs d = users (delete fd fs) d + (if decide (private_data f = Some d) then 1 else 0).
Proof.
  intros Hf. rewrite <-(users_insert (delete fd fs) fd f d) by apply lookup_delete_eq.
  by rewrite insert_delete_eq, insert_id.
Qed.

Lemma users_update fs fd f f' d :
  fs !! fd = Some f → private_data f' = private_data f →
  users (<[fd := f']> fs) d = users fs d.
Proof.
  intros Hf Hp. rewrite (users_delete fs fd f d Hf), <-Hp.
  rewrite <-(users_insert (delete fd fs) fd f' d) by apply lookup_delete_eq.
  by rewrite insert_delete_eq.
Qed.

(** *** The calls that count no users *)

Definition only (d d' : nat) : Prop := d' = d.

Section Quiet.
Context (d : nat) (Hd : is_device d).

Lemma only_device d' : only d d' → is_device d'.
Proof using Hd. by intros ->. Qed.

Lemma quiet_plain X (o : kop X) :
  counts o = false → overruns o = false → stays_on (only d) o →
  allowed (quiet_on (only d)) X o.
Proof. by split. Qed.

Lemma quiet_rw_transfers buf count : rw_transfers_allowed (quiet_on (only d)) d buf count.
Proof. by split. Qed.

Lemma quiet_ioctl_transfers arg : ioctl_transfers_allowed (quiet_on (only d)) d arg.
Proof. by split. Qed.

Local Hint Resolve only_device quiet_plain quiet_rw_transfers quiet_ioctl_transfers : core.

Lemma read_quiet c op buf count pos :
  0 <= pos <= LOFF_MAX → 0 <= count <= MAX_RW_COUNT →
  fop_read (table_of c) = Some op →
  wp (quiet_on (only d)) (op d buf count pos) no_locks released.
Proof using Hd.
  intros Hp Hc. destruct c; intros [= <-]; try apply wp_bind.
  - apply (wp_mtcaDummy_read _ (only d)); auto. done.
  - apply (wp_mtcaDummy_read _ (only d)); auto. done.
  - apply (wp_mtcaDummy_read_no_struct _ (only d)); auto. done.
Qed.

Lemma write_quiet c op buf count pos :
  0 <= pos <= LOFF_MAX → 0 <= count <= MAX_RW_COUNT →
  fop_write (table_of c) = Some op →
  wp (quiet_on (only d)) (op d buf count pos) no_locks released.
Proof using Hd.
  intros Hp Hc. destruct c; intros [= <-]; try apply wp_bind.
  - apply (wp_mtcaDummy_write _ (only d)); auto. done.
  - apply (wp_mtcaDummy_write _ (only d)); auto. done.
  - apply (wp_mtcaDummy_write_no_struct _ (only d)); auto. done.
Qed.

Lemma ioctl_quiet c op cmd arg :
  fop_ioctl (table_of c) = Some op →
  wp (quiet_on (only d)) (op d cmd arg) no_locks released.
Proof using Hd.
  destruct c; intros [= <-].
  - apply (wp_mtcaDummy_ioctl _ (only d)); auto. done.
  - apply (wp_llrfDummy_ioctl _ (only d)); auto. done.
  - apply (wp_pcieuniDummy_ioctl _ (only d)); auto. done.
Qed.

Lemma show_quiet : wp (quiet_on (only d)) (mtcadummy_seq_show d) no_locks released.
Proof using Hd. apply (wp_mtcadummy_seq_show _ (only d)); auto. done. Qed.
End Quiet.

Lemma proc_write_quiet ubuf count :
  wp (quiet_on (λ _, False)) (mtcadummy_proc_write scan_i ubuf count) no_locks released.
Proof. apply (wp_mtcadummy_proc_write _ (λ _, False)). by split. Qed.

(** A device nobody uses is shown without being touched. *)
Lemma show_unused t d dev st r st' :
  devs st !! d = Some dev → inUse dev = 0 →
  exec t (mtcadummy_seq_show d) st = Done (r, st') → st' = st.
Proof.
  intros Hd Hu. unfold mtcadummy_seq_show. rewrite exec_call. cbn [step_op].
  unfold on_dev at 1. rewrite Hd. cbn [outcome_bind]. rewrite Hu. cbn [Z.eqb].
  rewrite (exec_slotNr _ _ _ _ _ Hd). by intros [= _ <-].
Qed.

(** *** Opening and closing *)

Lemma open_effect t d dev st ret pd st' :
  devs st !! d = Some dev →
  exec t (mtcaDummy_open d) st = Done ((ret, pd), st') →
  control_owner st' = control_owner st ∧
  ((ret = 0 ∧ pd = Some d ∧ devs st' = <[d := count_use 1 dev]> (devs st)) ∨
   (ret < 0 ∧ pd = None ∧ devs st' = devs st)).
Proof.
  intros Hd. unfold mtcaDummy_open. rewrite exec_call. cbn [step_op]. unfold step_lock.
  cbn [owner]. destruct (default false _).
  { cbn. intros [= <- <- <-]. split; [done|]. by right. }
  destruct (control_owner st) eqn:Ec; [done|]. cbn. rewrite decide_True by done. cbn.
  unfold step_unlock. cbn. rewrite decide_True by done. cbn.
  destruct (open_error _); cbn.
  - intros [= <- <- <-]. split; [done|]. by right.
  - unfold on_dev. cbn. rewrite Hd. cbn. intros [= <- <- <-]. split; [done|]. by left.
Qed.

Lemma release_effect t d dev st ret st' :
  devs st !! d = Some dev →
  exec t (mtcaDummy_release d) st = Done (ret, st') →
  st' = upd_dev d (count_use (-1) dev) st.
Proof.
  intros Hd. rewrite (mtcaDummy_release_refines t d dev) by done. by intros [= _ <-].
Qed.

(** *** Preservation *)

Lemma to_int_add z k : to_int (to_int z + k) = to_int (z + k).
Proof. unfold to_int. lia. Qed.

Lemma idle_keep (k k' : kstate U) :
  idle k → control_owner k' = control_owner k →
  Forall (λ dev, devMutex dev = None) (devs k') → idle k'.
Proof. intros [Hc _] E Hf. split; [congruence|done]. Qed.

Lemma quiet_completes mine {A} (p : prog A) k a k' :
  wp (quiet_on mine) p no_locks released → idle k → wf_devs (devs k) →
  completes p k a k' → idle k' ∧ wf_devs (devs k') ∧ keeps mine k k'.
Proof.
  intros Hwp Hi Hwf (t & s & k1 & Hexec & ->).
  by apply (exec_quiet mine t p (with_signals s k) a k1).
Qed.

Section Preservation.
Variable major : Z.

Lemma inv_lookup s d : sys_inv major s → is_device d →
  ∃ dev, devs (kernel s) !! d = Some dev ∧ wf_dev d dev.
Proof. intros Hinv. apply is_device_lookup. apply Hinv. Qed.

Lemma inv_table k fs d ops :
  sys_inv major (System k fs) → table k d = Some ops →
  is_device d ∧ ops = table_of (device_ops d) ∧
  ∃ dev, devs k !! d = Some dev ∧ inUse dev = to_int (users fs d).
Proof.
  intros Hinv. unfold table. destruct (devs k !! d) as [dev|] eqn:Hd; [|done].
  intros [= <-]. destruct (inv_devs _ _ Hinv d dev Hd) as (Hc & _ & _ & _ & Hu).
  split_and!; [|cbn; by rewrite Hc|by exists dev].
  apply lookup_lt_Some in Hd. destruct (inv_wf _ _ Hinv) as [Hl _].
  unfold is_device, MTCADUMMY_NR_DEVS in *. cbn in *. lia.
Qed.

(** The private data of a file is its device, and never device 5. *)
Lemma inv_private k fs fd f p :
  sys_inv major (System k fs) → fs !! fd = Some f → private_data f = Some p →
  p = f_device f ∧ is_device p ∧ p ≠ 5%nat.
Proof.
  intros Hinv Hf Hp. destruct (inv_files _ _ Hinv fd f Hf) as [Hd E]. rewrite E in Hp.
  destruct (decide _); [done|]. injection Hp as <-. done.
Qed.

(** The files after a call that opens and closes nothing. *)
Definition same_files (fs fs' : gmap nat file) : Prop :=
  (∀ fd f', fs' !! fd = Some f' → ∃ f, fs !! fd = Some f ∧ f_device f' = f_device f ∧
     private_data f' = private_data f) ∧
  ∀ d, users fs' d = users fs d.

Lemma same_files_refl fs : same_files fs fs.
Proof. split; [eauto|done]. Qed.

Lemma same_files_update fs fd f f' :
  fs !! fd = Some f → f_device f' = f_device f → private_data f' = private_data f →
  same_files fs (<[fd := f']> fs).
Proof.
  intros Hf Hd Hp. split; [|intros d; by eapply users_update].
  intros fd0 f0. destruct (decide (fd = fd0)) as [<-|Hne].
  - rewrite lookup_insert_eq. intros [= <-]. eauto.
  - rewrite lookup_insert_ne by done. eauto.
Qed.

Lemma inv_quiet mine k fs k' fs' :
  sys_inv major (System k fs) → idle k' → wf_devs (devs k') → keeps mine k k' →
  ¬ mine 5%nat → same_files fs fs' → sys_inv major (System k' fs').
Proof.
  intros Hinv Hi Hwf Hk Hm5 [Hfs Hu]. split; cbn; [done|done| | |].
  - intros fd f' Hf'. destruct (Hfs fd f' Hf') as (f & Hf & -> & ->).
    by apply (inv_files _ _ Hinv fd).
  - intros d dev' Hd'. assert (is_device d) as Hd.
    { apply lookup_lt_Some in Hd'. destruct Hwf as [Hl _].
      unfold is_device, MTCADUMMY_NR_DEVS in *. lia. }
    destruct (inv_lookup _ d Hinv Hd) as (dev & Hdev & _). cbn in Hdev.
    destruct (Hk d dev Hdev) as (dev0 & Hd0 & (Hn1 & Hn2 & Hn3 & Hn4 & Hn5) & _).
    rewrite Hd' in Hd0. injection Hd0 as <-. rewrite Hn1, Hn2, Hn3, Hn4, Hn5, Hu.
    by apply (inv_devs _ _ Hinv).
  - destruct (Hk 5%nat _ (inv_dead _ _ Hinv)) as (dev0 & Hd0 & _ & [?| ->]); done.
Qed.

(** No device changes. *)
Lemma inv_same_devs k fs k' fs' :
  sys_inv major (System k fs) → devs k' = devs k → control_owner k' = control_owner k →
  same_files fs fs' → sys_inv major (System k' fs').
Proof.
  intros Hinv Hd Hc Hfs. apply (inv_quiet (λ _, False) k fs); try done.
  - apply (idle_keep k); [apply Hinv|done|]. rewrite Hd. apply Hinv.
  - rewrite Hd. apply Hinv.
  - by apply keeps_same_devs.
  - intros [].
Qed.

(** A call by file [fd] through the operation [op] of its table. *)
Lemma inv_file_call k fs fd f p {A} (op : prog A) a k' fs' :
  sys_inv major (System k fs) → fs !! fd = Some f → private_data f = Some p →
  (is_device p → wp (quiet_on (only p)) op no_locks released) →
  completes op k a k' → same_files fs fs' → sys_inv major (System k' fs').
Proof.
  intros Hinv Hf Hp Hwp Hc Hfs. destruct (inv_private _ _ _ _ _ Hinv Hf Hp) as (_ & Hd & Hn).
  destruct (quiet_completes (only p) op k a k') as (? & ? & ?); [auto|apply Hinv|apply Hinv|done|].
  eapply inv_quiet; [done..| |done]. unfold only. congruence.
Qed.

Lemma inv_set_device k fs k' fs' d dev i :
  sys_inv major (System k fs) → devs k !! d = Some dev → is_device d → d ≠ 5%nat →
  control_owner k' = control_owner k →
  devs k' = <[d := set_inUse (to_int i) dev]> (devs k) → i = users fs' d →
  (∀ d', d' ≠ d → users fs' d' = users fs d') →
  (∀ fd f, fs' !! fd = Some f → is_device (f_device f) ∧
     private_data f = if decide (f_device f = 5%nat) then None else Some (f_device f)) →
  sys_inv major (System k' fs').
Proof.
  intros Hinv Hd Hdv Hn Hc Hdevs -> Hu Hfs. pose proof (lookup_lt_Some _ _ _ Hd) as Hlt.
  assert (wf_dev d dev) as Hw by by apply (inv_wf _ _ Hinv).
  split; cbn; [| |done| |].
  - apply (idle_keep k); [apply Hinv|done|]. rewrite Hdevs. apply Forall_insert; [apply Hinv|].
    apply (idle_dev d dev k); [apply Hinv|done].
  - rewrite Hdevs. apply wf_devs_insert; [apply Hinv|done].
  - intros d' dev' Hd'. rewrite Hdevs in Hd'. destruct (decide (d = d')) as [<-|Hne].
    + rewrite list_lookup_insert_eq in Hd' by done. injection Hd' as <-. cbn.
      destruct (inv_devs _ _ Hinv d dev Hd) as (?&?&?&?&_). by split_and!.
    + rewrite list_lookup_insert_ne in Hd' by done. rewrite Hu by done.
      by apply (inv_devs _ _ Hinv).
  - rewrite Hdevs, list_lookup_insert_ne by done. apply (inv_dead _ _ Hinv).
Qed.

(** A new file of device [d]; device 5 gets no private data. *)
Lemma files_ok_insert k fs fd d pd :
  sys_inv major (System k fs) → is_device d →
  pd = (if decide (d = 5%nat) then None else Some d) →
  ∀ fd0 f, (<[fd := File d pd 0]> fs) !! fd0 = Some f → is_device (f_device f) ∧
     private_data f = if decide (f_device f = 5%nat) then None else Some (f_device f).
Proof.
  intros Hinv Hd -> fd0 f. destruct (decide (fd = fd0)) as [<-|Hne].
  - rewrite lookup_insert_eq. by intros [= <-].
  - rewrite lookup_insert_ne by done. apply (inv_files _ _ Hinv).
Qed.

Lemma inv_open k fs fd d ops op ret pd k' :
  sys_inv major (System k fs) → fs !! fd = None → table k d = Some ops →
  fop_open ops = Some op → completes (op d) k (ret, pd) k' →
  sys_inv major (System k' (if ret =? 0 then <[fd := File d pd 0]> fs else fs)).
Proof.
  intros Hinv Hfd Ht Hop (t & s & k1 & Hexec & ->).
  destruct (inv_table _ _ _ _ Hinv Ht) as (Hd & -> & dev & Hdev & Hu).
  assert (op = mtcaDummy_open ∧ d ≠ 5%nat) as [-> Hn5].
  { split; [|by intros ->]. destruct (device_ops d); by simplify_eq/=. }
  destruct (open_effect t d dev (with_signals s k) ret pd k1 Hdev Hexec)
    as [Hc [(-> & -> & Hdevs)|(Hr & -> & Hdevs)]].
  - change (0 =? 0) with true. cbv iota.
    apply (inv_set_device k fs _ _ d dev (users fs d + 1)); try done.
    + cbn. rewrite Hdevs. unfold count_use. by rewrite Hu, to_int_add.
    + rewrite users_insert by done. cbn. by rewrite decide_True.
    + intros d' Hne. rewrite users_insert by done. cbn. rewrite decide_False by congruence. lia.
    + apply (files_ok_insert k); [done|done|]. by rewrite decide_False.
  - replace (ret =? 0) with false by lia.
    by apply (inv_same_devs k fs); try apply same_files_refl.
Qed.

Lemma inv_open_null k fs fd d ops :
  sys_inv major (System k fs) → fs !! fd = None → table k d = Some ops → fop_open ops = None →
  sys_inv major (System k (<[fd := File d None 0]> fs)).
Proof.
  intros Hinv Hfd Ht Hop. destruct (inv_table _ _ _ _ Hinv Ht) as (Hd & -> & _).
  assert (d = 5%nat) as ->.
  { unfold is_device in Hd. do 7 (destruct d as [|d]; [done|]). lia. }
  split; cbn; [apply Hinv|apply Hinv| | |apply Hinv].
  - by apply (files_ok_insert k).
  - intros d' dev' Hd'. rewrite users_insert by done. cbn. rewrite decide_False by done.
    rewrite Z.add_0_r. by apply (inv_devs _ _ Hinv).
Qed.

Lemma files_ok_delete k fs fd :
  sys_inv major (System k fs) →
  ∀ fd0 f, delete fd fs !! fd0 = Some f → is_device (f_device f) ∧
     private_data f = if decide (f_device f = 5%nat) then None else Some (f_device f).
Proof. intros Hinv fd0 f [_ Hf]%lookup_delete_Some. by apply (inv_files _ _ Hinv fd0). Qed.

Lemma inv_close k fs fd f ops op p ret k' :
  sys_inv major (System k fs) → fs !! fd = Some f → table k (f_device f) = Some ops →
  fop_release ops = Some op → private_data f = Some p → completes (op p) k ret k' →
  sys_inv major (System k' (delete fd fs)).
Proof.
  intros Hinv Hf Ht Hop Hp (t & s & k1 & Hexec & ->).
  destruct (inv_private _ _ _ _ _ Hinv Hf Hp) as (-> & Hd & Hn5).
  destruct (inv_table _ _ _ _ Hinv Ht) as (_ & -> & dev & Hdev & Hu).
  assert (op = mtcaDummy_release) as -> by (destruct (device_ops (f_device f)); by simplify_eq/=).
  rewrite (release_effect t _ dev (with_signals s k) ret k1 Hdev Hexec).
  pose proof (λ d, users_delete fs fd f d Hf) as Hdel.
  apply (inv_set_device k fs _ _ (f_device f) dev (users fs (f_device f) + -1)); try done.
  - cbn. unfold count_use. by rewrite Hu, to_int_add.
  - rewrite (Hdel (f_device f)), decide_True by done. lia.
  - intros d' Hne. rewrite (Hdel d'), decide_False by congruence. lia.
  - by apply (files_ok_delete k).
Qed.

Lemma inv_close_null k fs fd f ops :
  sys_inv major (System k fs) → fs !! fd = Some f → table k (f_device f) = Some ops →
  fop_release ops = None → sys_inv major (System k (delete fd fs)).
Proof.
  intros Hinv Hf Ht Hop. destruct (inv_table _ _ _ _ Hinv Ht) as (Hd & -> & _).
  assert (f_device f = 5%nat) as E5.
  { revert Hop Hd. generalize (f_device f). intros d Hop Hd. unfold is_device in Hd.
    do 7 (destruct d as [|d]; [done|]). lia. }
  destruct (inv_files _ _ Hinv fd f Hf) as [_ Hp]. rewrite E5, decide_True in Hp by done.
  split; cbn; [apply Hinv|apply Hinv|by apply (files_ok_delete k)| |apply Hinv].
  intros d' dev' Hd'. pose proof (users_delete fs fd f d' Hf) as Hdel.
  rewrite Hp, decide_False in Hdel by done. rewrite Z.add_0_r in Hdel. rewrite <-Hdel.
  by apply (inv_devs _ _ Hinv).
Qed.

Lemma sys_inv_step e s s' : sys_step e s s' → sys_inv major s → sys_inv major s'.
Proof.
  intros Hstep Hinv.
  destruct Hstep as
    [ fd d ops op ret pd k k' fs Hfd Ht Hop Hc | fd d ops k fs Hfd Ht Hop
    | fd f ops op p ret k k' fs Hf Ht Hop Hp Hc | fd f ops k fs Hf Ht Hop
    | fd f ops op p buf count ret pos k k' fs Hf Ht Hop Hp Hpos Hcount Hc | fd f ops k fs Hf Ht Hop
    | fd f ops op p buf count ret pos k k' fs Hf Ht Hop Hp Hpos Hcount Hc | fd f ops k fs Hf Ht Hop
    | fd f ops op p cmd arg ret k k' fs Hf Ht Hop Hp Hc | fd f ops k fs Hf Ht Hop
    | fd f pos k fs Hf | ubuf count ret k k' fs Hc | d r k k' fs Hd Hc | u k fs ];
    try exact Hinv.
  - by eapply inv_open.
  - by eapply inv_open_null.
  - by eapply inv_close.
  - by eapply inv_close_null.
  - destruct (inv_table _ _ _ _ Hinv Ht) as (_ & -> & _).
    apply (inv_file_call k fs fd f p (op p buf count (f_pos f)) (ret, pos)); try done.
    + intros Hd. by eapply read_quiet.
    + by apply (same_files_update fs fd f).
  - destruct (inv_table _ _ _ _ Hinv Ht) as (_ & -> & _).
    apply (inv_file_call k fs fd f p (op p buf count (f_pos f)) (ret, pos)); try done.
    + intros Hd. by eapply write_quiet.
    + by apply (same_files_update fs fd f).
  - destruct (inv_table _ _ _ _ Hinv Ht) as (_ & -> & _).
    apply (inv_file_call k fs fd f p (op p cmd arg) ret); try done; [|apply same_files_refl].
    intros Hd. by eapply ioctl_quiet.
  - apply (inv_same_devs k fs); [done..|]. by apply (same_files_update fs fd f).
  - destruct (quiet_completes (λ _, False) _ k ret k' (proc_write_quiet ubuf count))
      as (? & ? & ?); [apply Hinv|apply Hinv|done|].
    apply (inv_quiet (λ _, False) k fs); [done..|by intros []|apply same_files_refl].
  - destruct (decide (d = 5%nat)) as [->|Hn5].
    + destruct Hc as (t & sg & k1 & Hexec & ->).
      rewrite (show_unused t 5 (fresh_device major 5) (with_signals sg k) r k1 (inv_dead _ _ Hinv)
        eq_refl Hexec).
      apply (inv_same_devs k fs); [done..|apply same_files_refl].
    + destruct (quiet_completes (only d) _ k r k' (show_quiet d Hd)) as (? & ? & ?);
        [apply Hinv|apply Hinv|done|].
      apply (inv_quiet (only d) k fs); [done..| |apply same_files_refl]. unfold only. congruence.
  - apply (inv_same_devs k fs); [done..|apply same_files_refl].
Qed.

Lemma sys_inv_loaded (u : U) : sys_inv major (System (loaded_state major u) ∅).
Proof.
  split; cbn [kernel files].
  - apply loaded_idle.
  - apply wf_fresh_devices.
  - intros fd f Hf. by rewrite lookup_empty in Hf.
  - intros d dev Hd. assert (d < 7)%nat as Hlt.
    { apply lookup_lt_Some in Hd. unfold loaded_state in Hd. cbn [devs] in Hd.
      by rewrite length_fresh_devices in Hd. }
    rewrite loaded_lookup in Hd by done. injection Hd as <-.
    split_and!; [done..|]. unfold users. by rewrite map_filter_empty, map_size_empty.
  - apply loaded_lookup. lia.
Qed.

Lemma sys_inv_reachable (u : U) s : sys_reachable major u s → sys_inv major s.
Proof.
  unfold sys_reachable. remember (System (loaded_state major u) ∅) as s0 eqn:E0. intros Hr.
  assert (sys_inv major s0) as Hinv by (subst; apply sys_inv_loaded).
  clear E0. induction Hr as [|s1 s2 s3 [e He] _ IH]; [done|].
  apply IH. by eapply sys_inv_step.
Qed.
End Preservation.
End System.

(** ** Properties *)

Section Properties.
Context {U : Type} `{UserSpace U} `{ByteOrder} `{IoctlEncoding} `{Vfs}.
Variable scan_i : list byte → option Z.

(** C8: after any sequence of system calls, interrupted by signals or not,
    no mutex is left locked, every device is well-formed and still has the
    operations and numbers it was given at loading, and its [inUse] counter is
    the number of open files that count as its users (as a C [int]). *)
Theorem driver_invariant (major : Z) (u : U) (s : system (U:=U))
    (Hr : sys_reachable scan_i major u s) :
  idle (kernel s) ∧ wf_devs (devs (kernel s)) ∧
  ∀ d dev, devs (kernel s) !! d = Some dev →
    cdev dev = device_ops d ∧ slotNr dev = Z.of_nat d ∧ minor dev = Z.of_nat d ∧
    Kernel.major dev = major ∧ inUse dev = to_int (users (files s) d).
Proof.
  pose proof (sys_inv_reachable scan_i major u s Hr) as Hinv.
  split_and!; [apply Hinv|apply Hinv|apply (inv_devs _ _ Hinv)].
Qed.

Lemma users_size (fs : gmap nat file) d : 0 <= users fs d <= Z.of_nat (size fs).
Proof.
  unfold users. split; [lia|]. apply inj_le. apply map_subseteq_size, map_filter_subseteq.
Qed.

(** With fewer than 2^31 files open, the proc file reports a device as
    not in use exactly when no file that went through [mtcaDummy_open] is open
    on it. *)
Theorem in_use_iff_open (major : Z) (u : U) (s : system (U:=U)) (d : nat) (dev : mtcaDummyData)
    (Hr : sys_reachable scan_i major u s) (Hsize : Z.of_nat (size (files s)) < 2147483648)
    (Hd : devs (kernel s) !! d = Some dev) :
  inUse dev = users (files s) d ∧
  (inUse dev ≠ 0 ↔ ∃ fd f, files s !! fd = Some f ∧ private_data f = Some d).
Proof.
  destruct (inv_devs _ _ (sys_inv_reachable scan_i major u s Hr) d dev Hd) as (_&_&_&_&Hu).
  pose proof (users_size (files s) d) as Hs.
  assert (inUse dev = users (files s) d) as E by (rewrite Hu; unfold to_int; lia).
  split; [done|]. rewrite E. unfold users. split.
  - intros Hne. destruct (decide (filter (λ '(_, f), private_data f = Some d) (files s) = ∅)) as [E0|E0].
    + rewrite E0, map_size_empty in Hne. done.
    + apply map_choose in E0 as (fd & f & [Hf Hp]%map_lookup_filter_Some). eauto.
  - intros (fd & f & Hf & Hp).
    assert (size (filter (λ '(_, f), private_data f = Some d) (files s)) ≠ 0%nat); [|lia].
    apply (map_size_ne_0_lookup_2 _ fd). exists f. by apply map_lookup_filter_Some.
Qed.

(** C31: the misspelt table of operations leaves device 5 without any: in
    every reachable state opening it succeeds (even while open errors are
    injected) without counting a user, reading, writing and ioctl calls on it
    fail with the kernel's own errors, and its registers, its memory and its
    counter never change. *)
Theorem device_without_operations (major : Z) (u : U) (s s' : system (U:=U)) (e : event)
    (Hr : sys_reachable scan_i major u s) (Hstep : sys_step scan_i e s s') :
  devs (kernel s') !! 5%nat = Some (fresh_device major 5) ∧
  match e with
  | Opened fd d ret => d = 5%nat → ret = 0 ∧ files s' !! fd = Some (File 5 None 0)
  | DidRead fd ret => (f_device <$> files s !! fd) = Some 5%nat → ret = no_read ∧ ret < 0
  | DidWrite fd ret => (f_device <$> files s !! fd) = Some 5%nat → ret = no_write ∧ ret < 0
  | DidIoctl fd ret => (f_device <$> files s !! fd) = Some 5%nat → ret = no_ioctl ∧ ret < 0
  | _ => True
  end.
Proof.
  pose proof (sys_inv_reachable scan_i major u s Hr) as Hinv.
  split; [apply (sys_inv_step scan_i major e s s' Hstep Hinv)|].
  assert (∀ k fs fd f ops, s = System k fs → fs !! fd = Some f →
    table k (f_device f) = Some ops → f_device <$> fs !! fd = Some 5%nat →
    ops = table_of noIoctlDummyFileOps) as Hnull.
  { intros k fs fd f ops -> Hf Ht E. rewrite Hf in E. injection E as E. rewrite E in Ht.
    by destruct (inv_table major k fs 5 ops Hinv Ht) as (_ & -> & _). }
  destruct Hstep as
    [ fd d ops op ret pd k k' fs Hfd Ht Hop Hc | fd d ops k fs Hfd Ht Hop
    | fd f ops op p ret k k' fs Hf Ht Hop Hp Hc | fd f ops k fs Hf Ht Hop
    | fd f ops op p buf count ret pos k k' fs Hf Ht Hop Hp Hpos Hcount Hc | fd f ops k fs Hf Ht Hop
    | fd f ops op p buf count ret pos k k' fs Hf Ht Hop Hp Hpos Hcount Hc | fd f ops k fs Hf Ht Hop
    | fd f ops op p cmd arg ret k k' fs Hf Ht Hop Hp Hc | fd f ops k fs Hf Ht Hop
    | fd f pos k fs Hf | ubuf count ret k k' fs Hc | d r k k' fs Hd Hc | u' k fs ]; try done.
  - intros ->. by destruct (inv_table major k fs 5 ops Hinv Ht) as (_ & -> & _).
  - intros ->. split; [done|]. cbn. apply lookup_insert_eq.
  - intros E. by rewrite (Hnull k fs fd f ops eq_refl Hf Ht E) in Hop.
  - intros _. split; [done|apply no_read_error].
  - intros E. by rewrite (Hnull k fs fd f ops eq_refl Hf Ht E) in Hop.
  - intros _. split; [done|apply no_write_error].
  - intros E. by rewrite (Hnull k fs fd f ops eq_refl Hf Ht E) in Hop.
  - intros _. split; [done|apply no_ioctl_error].
Qed.
End Properties.

(** ** Examples *)

#[local] Existing Instance little_endian.
#[local] Existing Instance asm_generic_ioctl.
#[local] Existing Instance linux_vfs.

(** Device 2 has been opened as file 3. *)
Definition sample_opened : system (U:=gmap Z byte) :=
  System (upd_dev 2 (count_use 1 (fresh_device 240 2)) (loaded_state 240 ∅))
    {[3%nat := File 2 (Some 2%nat) 0]}.

Lemma sample_opened_reachable : sys_reachable decimal_scan 240 ∅ sample_opened.
Proof.
  apply rtc_once. exists (Opened 3 2 0).
  apply (sys_open decimal_scan 3 2 mtcaDummyFileOps_table mtcaDummy_open 0 (Some 2%nat)
    (loaded_state 240 ∅) (kernel sample_opened) ∅); [done..|].
  exists 0%nat, [], (kernel sample_opened). by split.
Qed.

Lemma driver_invariant_witness :
  idle (kernel sample_opened) ∧ wf_devs (devs (kernel sample_opened)).
Proof.
  destruct (driver_invariant decimal_scan 240 ∅ sample_opened sample_opened_reachable)
    as (Hi & Hw & _). split; [exact Hi | exact Hw].
Defined.

Lemma in_use_iff_open_witness :
  ∃ dev, devs (kernel sample_opened) !! 2%nat = Some dev ∧ inUse dev = users (files sample_opened) 2.
Proof.
  eexists. split; [reflexivity|].
  apply (in_use_iff_open decimal_scan 240 ∅ sample_opened 2 _ sample_opened_reachable);
    reflexivity.
Defined.

Lemma device_without_operations_witness :
  ∃ s', sys_step decimal_scan (Opened 4 5 0) sample_opened s' ∧
    devs (kernel s') !! 5%nat = Some (fresh_device 240 5) ∧
    (5%nat = 5%nat → 0 = 0 ∧ files s' !! 4%nat = Some (File 5 None 0)).
Proof.
  eexists. split.
  - apply (sys_open_null decimal_scan 4 5 noIoctlDummyFileOps_table); reflexivity.
  - apply (device_without_operations decimal_scan 240 ∅ sample_opened _ (Opened 4 5 0)
      sample_opened_reachable).
    apply (sys_open_null decimal_scan 4 5 noIoctlDummyFileOps_table); reflexivity.
Defined.
