(* ===== verification/ProcFile.v ===== *)
(** * The proc file as a whole ([mtcadummy_proc.c])

    Opening the proc file, the tables that tie its operations together, and what
    a process that reads the whole file gets. The kernel's part is not in the
    repository: [seq_open] and [PDE_DATA] are an interface ([SeqLibrary]), and
    reading is the documented order of the calls ([seq_elements],
    [seq_session]): [start], then [show] and [next] in turns, then [stop]. *)

From S2P Require Import Prelude Abi Kernel UserMem Firmware ModuleInit.
From S2P Require Import Proc ProcDump Driver.
Local Open Scope Z_scope.

(** ** Model *)

Definition mtcadummy_seq_stop : prog unit := mret tt.

(** [struct seq_operations]; the elements are device numbers. *)
Record seq_operations := SeqOperations {
  seq_start : Z → option Z;
  seq_next : Z → Z * option Z;
  seq_stop : prog unit;
  seq_show : nat → prog (Z * string);
}.

Definition mtcadummy_seq_operations : seq_operations :=
  SeqOperations mtcadummy_seq_start mtcadummy_seq_next mtcadummy_seq_stop mtcadummy_seq_show.

(** [struct seq_file], and the field [private_data] of a [struct file] of the
    proc file; [None] is [NULL]. *)
Record seq_file := SeqFile { seq_ops : seq_operations; seq_private : option control_pointer }.
Record proc_file := ProcFile { file_private : option seq_file }.

(** What the kernel's [seq_open] and [PDE_DATA] promise: success leaves a new
    sequence file with the given operations behind [private_data]. *)
Class SeqLibrary := {
  inode : Type;
  PDE_DATA : inode → option control_pointer;
  seq_open : proc_file → seq_operations → Z * proc_file;
  seq_open_ok f ops f' : seq_open f ops = (0, f') → file_private f' = Some (SeqFile ops None);
}.

Section Model.
Context `{SeqLibrary}.
Variable scan_i : list byte → option Z.

(** [None] when the code dereferences [NULL]. *)
Definition mtcadummy_proc_open (node : inode) (file : proc_file) : option (Z * proc_file) :=
  let '(ret, file) := seq_open file mtcadummy_seq_operations in
  if ret =? 0 then
    match file_private file with
    | Some s => Some (ret, ProcFile (Some (SeqFile (seq_ops s) (PDE_DATA node))))
    | None => None
    end
  else Some (ret, file).

(** The kernel's routines in the table of the proc file. *)
Inductive seq_routine := seq_read | seq_lseek | seq_release.

(** [struct proc_ops] *)
Record proc_ops := ProcOps {
  proc_open : inode → proc_file → option (Z * proc_file);
  proc_read : seq_routine;
  proc_write : Z → Z → prog Z;
  proc_lseek : seq_routine;
  proc_release : seq_routine;
}.

Definition mtcadummy_proc_opperations : proc_ops :=
  ProcOps mtcadummy_proc_open seq_read (mtcadummy_proc_write scan_i) seq_lseek seq_release.
End Model.

(** ** Reading the file *)

Section Reading.
Context {U : Type} `{UserSpace U} `{ByteOrder}.
Implicit Types k : kstate U.

(** The text of one more element in front of the others. *)
Definition with_text (text : string) : option (Z * string) → option (Z * string) :=
  fmap (λ '(err, rest), (err, text +:+ rest)).

(** From the element at a position on: 0 or the error that ended the reading,
    and the text until then. An element is [data + *pos], so it takes a valid
    [private]; without one the result is [None]. *)
Inductive seq_elements (s : seq_file) :
    Z → option Z → kstate U → option (Z * string) → kstate U → Prop :=
  | elements_end pos k : seq_elements s pos None k (Some (0, "")) k
  | elements_null pos v k :
      seq_private s = None → seq_elements s pos (Some v) k None k
  | elements_error pos v p k err text k' :
      seq_private s = Some p → completes (seq_show (seq_ops s) (Z.to_nat v)) k (err, text) k' →
      err ≠ 0 → seq_elements s pos (Some v) k (Some (err, "")) k'
  | elements_show pos v p k text k1 r k' :
      seq_private s = Some p → completes (seq_show (seq_ops s) (Z.to_nat v)) k (0, text) k1 →
      seq_elements s (seq_next (seq_ops s) pos).1 (seq_next (seq_ops s) pos).2 k1 r k' →
      seq_elements s pos (Some v) k (with_text text r) k'.

(** Reading from position [pos] to the end. *)
Definition seq_session (s : seq_file) (pos : Z) k (r : option (Z * string)) k' : Prop :=
  ∃ k1, seq_elements s pos (seq_start (seq_ops s) pos) k r k1 ∧
        completes (seq_stop (seq_ops s)) k1 tt k'.

(** *** What there is to read *)

(** The text of some devices. *)
Definition dump_text (ds : list mtcaDummyData) : string := concat_lines (show_text <$> ds).

(** The ways reading [ds] can end: with the whole text, or interrupted at a device
    in use, with the text of the devices before it. *)
Definition dump_result (ds : list mtcaDummyData) (r : option (Z * string)) : Prop :=
  r = Some (0, dump_text ds) ∨
  ∃ ds1 dev ds2, ds = ds1 ++ dev :: ds2 ∧ inUse dev ≠ 0 ∧
    r = Some (- ERESTARTSYS, dump_text ds1).

Lemma dump_result_nil r : dump_result [] r ↔ r = Some (0, "").
Proof.
  split; [|by left]. intros [?|(ds1&?&?&E&_)]; [done|]. by destruct ds1.
Qed.

Lemma dump_result_cons dev ds r :
  dump_result (dev :: ds) r ↔
    (∃ r', dump_result ds r' ∧ r = with_text (show_text dev) r') ∨
    (inUse dev ≠ 0 ∧ r = Some (- ERESTARTSYS, "")).
Proof.
  split.
  - intros [->|(ds1&dev'&ds2&E&Hu&->)].
    + left. eexists. split; [by left|done].
    + destruct ds1 as [|dev1 ds1]; injection E as <- E; [by right|]. left.
      exists (Some (- ERESTARTSYS, dump_text ds1)). split; [right; naive_solver|done].
  - intros [(r'&[->|(ds1&dev'&ds2&->&Hu&->)]&->)|[Hu ->]].
    + by left.
    + right. by exists (dev :: ds1), dev', ds2.
    + right. by exists [], dev, ds.
Qed.

(** *** One element *)

Lemma completes_show d dev k r k' :
  idle k → signals k = [] → devs k !! d = Some dev → wf_dev d dev →
  completes (mtcadummy_seq_show d) k r k' ↔
    k' = k ∧ (r = (0, show_text dev) ∨ (inUse dev ≠ 0 ∧ r = (- ERESTARTSYS, ""))).
Proof.
  intros Hi Hs Hd Hw.
  assert (∀ s, with_signals [] (with_signals s k) = k) as Hk.
  { intros s. destruct k. cbn in *. by subst. }
  assert (∀ t s, exec t (mtcadummy_seq_show d) (with_signals s k) =
    if inUse dev =? 0 then Done ((0, show_text dev), with_signals s k)
    else Done (if default false (head s) then (- ERESTARTSYS, "") else (0, show_text dev),
               with_signals (tail s) k)) as He.
  { intros t s. by rewrite (mtcadummy_seq_show_refines t d dev (with_signals s k)). }
  split.
  - intros (t&s&k1&E&->). rewrite He in E. revert E. case (Z.eqb_spec (inUse dev) 0).
    + intros _ [= <- <-]. rewrite Hk. auto.
    + intros ? [= <- <-]. rewrite Hk. destruct (default false (head s)); auto.
  - intros [-> Hr]. destruct Hr as [->|[Hu ->]].
    + exists 0%nat, [], (with_signals [] k). rewrite He, Hk. split; [by destruct (_ =? _)|done].
    + exists 0%nat, [true], (with_signals [] k). rewrite He, Hk.
      by rewrite (proj2 (Z.eqb_neq _ _) Hu).
Qed.

Lemma seq_start_device p :
  mtcadummy_seq_start (Z.of_nat p) = if decide (p < 7)%nat then Some (Z.of_nat p) else None.
Proof.
  unfold mtcadummy_seq_start, MTCADUMMY_NR_DEVS.
  destruct (Z.leb_spec 7 (Z.of_nat p)), (decide (p < 7)%nat); done || lia.
Qed.

Lemma seq_next_start p : mtcadummy_seq_next (Z.of_nat p) =
  (Z.of_nat (S p), mtcadummy_seq_start (Z.of_nat (S p))).
Proof. unfold mtcadummy_seq_next. by replace (Z.of_nat p + 1) with (Z.of_nat (S p)) by lia. Qed.

(** *** All elements *)

Section Session.
Context (c : control_pointer) (k : kstate U).
Context (Hi : idle k) (Hs : signals k = []) (Hw : wf_devs (devs k)).

Abbreviation opened := (SeqFile mtcadummy_seq_operations (Some c)).

Lemma elements_step p dev r k' :
  devs k !! p = Some dev →
  seq_elements opened (Z.of_nat p) (Some (Z.of_nat p)) k r k' ↔
    (∃ r', seq_elements opened (Z.of_nat (S p)) (mtcadummy_seq_start (Z.of_nat (S p))) k r' k' ∧
           r = with_text (show_text dev) r') ∨
    (k' = k ∧ inUse dev ≠ 0 ∧ r = Some (- ERESTARTSYS, "")).
Proof.
  intros Hd.
  pose proof (λ r k', completes_show p dev k r k' Hi Hs Hd (proj2 Hw _ _ Hd)) as Hshow. split.
  - inversion 1; subst; [done| |];
      (rename select (completes _ _ _ _) into Hc; cbn [seq_ops seq_show mtcadummy_seq_operations] in Hc;
       rewrite Nat2Z.id in Hc; apply Hshow in Hc as [? [[=]|[? [=]]]]; simplify_eq; auto).
    left. rename select (seq_elements _ _ _ _ _ _) into Hn.
    cbn [seq_ops seq_next mtcadummy_seq_operations] in Hn.
    rewrite seq_next_start in Hn. eauto.
  - intros [(r'&Hr'&->)|(->&Hu&->)].
    + apply (elements_show _ _ _ c k _ k); cbn [seq_ops seq_show seq_next mtcadummy_seq_operations]; rewrite ?Nat2Z.id; [done| |].
      * apply Hshow; auto.
      * by rewrite seq_next_start.
    + apply (elements_error _ _ _ c k _ ""); cbn [seq_ops seq_show seq_next mtcadummy_seq_operations]; rewrite ?Nat2Z.id; [done| |done].
      apply Hshow; auto.
Qed.

Lemma elements_correct l : ∀ p r k',
  drop p (devs k) = l →
  seq_elements opened (Z.of_nat p) (mtcadummy_seq_start (Z.of_nat p)) k r k' ↔
    k' = k ∧ dump_result l r.
Proof.
  destruct Hw as [Hl _]. unfold MTCADUMMY_NR_DEVS in Hl.
  induction l as [|dev l IH]; intros p r k' Hp; rewrite seq_start_device.
  - assert (7 <= p)%nat. { apply (f_equal length) in Hp. rewrite length_drop in Hp. cbn in Hp. lia. }
    rewrite decide_False, dump_result_nil by lia. split.
    + by inversion 1.
    + intros [-> ->]. constructor.
  - assert (devs k !! p = Some dev) as Hd.
    { rewrite <-(Nat.add_0_r p), <-lookup_drop, Hp. done. }
    rewrite decide_True by (apply lookup_lt_Some in Hd; lia).
    rewrite (elements_step _ _ _ _ Hd), dump_result_cons.
    assert (drop (S p) (devs k) = l) as Hp'.
    { rewrite <-Nat.add_1_r, <-drop_drop, Hp. done. }
    setoid_rewrite (λ r, IH (S p) r k' Hp'). naive_solver.
Qed.

Lemma session_correct r k' :
  seq_session opened 0 k r k' ↔ k' = k ∧ dump_result (devs k) r.
Proof.
  rewrite <-(elements_correct (devs k) 0) by done. unfold seq_session. cbn.
  assert (∀ k1, seq_elements opened 0 (mtcadummy_seq_start 0) k r k1 → k1 = k) as Hk.
  { intros k1 He. by apply (elements_correct (devs k) 0) in He as [-> _]. }
  assert (with_signals [] k = k) as Hk0 by (destruct k; cbn in *; by subst).
  split.
  - intros (k1&He&t&s&k2&E&->). cbn in E. injection E as <-.
    pose proof (Hk _ He) as ->. change (with_signals [] (with_signals s k)) with (with_signals [] k).
    by rewrite Hk0.
  - intros He. exists k'. split; [done|]. pose proof (Hk _ He) as ->.
    exists 0%nat, [], (with_signals [] k). split; [done|]. by rewrite !Hk0.
Qed.
End Session.
End Reading.

(** ** Properties *)

(** C23: reading the proc file. A process that has opened the proc file of a
    driver on which nothing else happens, and reads it to the end, gets the dumps
    of the seven devices in order, once each, or, after a signal, the error
    [-ERESTARTSYS] with the dumps of the devices before one that is in use;
    nothing else can happen, each of these does, and the state is as before. The
    open operation never dereferences [NULL], and sets up what the sequence
    operations dereference. *)
Theorem proc_file_read {U} `{UserSpace U} `{ByteOrder} `{SeqLibrary}
    (scan_i : list byte → option Z) (node : inode) (file file' : proc_file) (s : seq_file)
    (k : kstate U)
    (Hnode : PDE_DATA node = Some controlData)
    (Hopen : proc_open (mtcadummy_proc_opperations scan_i) node file = Some (0, file'))
    (Hfile : file_private file' = Some s)
    (Hi : idle k) (Hs : signals k = []) (Hw : wf_devs (devs k)) :
  ∀ r k', seq_session s 0 k r k' ↔
    k' = k ∧
    (r = Some (0, dump_text (devs k)) ∨
     ∃ ds1 dev ds2, devs k = ds1 ++ dev :: ds2 ∧ inUse dev ≠ 0 ∧
       r = Some (- ERESTARTSYS, dump_text ds1)).
Proof.
  assert (s = SeqFile mtcadummy_seq_operations (Some controlData)) as ->.
  { cbn in Hopen. unfold mtcadummy_proc_open in Hopen.
    destruct (seq_open _ _) as [ret f] eqn:E. case (Z.eqb_spec ret 0) in Hopen; [subst|by simplify_eq].
    rewrite (seq_open_ok _ _ _ E), Hnode in Hopen. by simplify_eq/=. }
  intros r k'. by apply session_correct.
Qed.

(** Opening the proc file never dereferences [NULL]: it fails with the error
    of [seq_open], or sets up a sequence file with the driver's operations and
    the data registered with the entry. *)
Theorem proc_open_correct `{SeqLibrary} (node : inode) (file : proc_file) :
  ∃ ret file', mtcadummy_proc_open node file = Some (ret, file') ∧
    ret = (seq_open file mtcadummy_seq_operations).1 ∧
    (ret = 0 → file_private file' = Some (SeqFile mtcadummy_seq_operations (PDE_DATA node))).
Proof.
  unfold mtcadummy_proc_open. destruct (seq_open _ _) as [ret f] eqn:E. cbn.
  case (Z.eqb_spec ret 0); [intros ->|intros; by eexists _, _].
  rewrite (seq_open_ok _ _ _ E). by eauto.
Qed.

#[local] Existing Instance little_endian.

(** A library whose [seq_open] succeeds for a file without private data. *)
Definition plain_seq_open (f : proc_file) (ops : seq_operations) : Z * proc_file :=
  match file_private f with
  | None => (0, ProcFile (Some (SeqFile ops None)))
  | Some _ => (- EFAULT, f)
  end.

Lemma plain_seq_open_ok f ops f' :
  plain_seq_open f ops = (0, f') → file_private f' = Some (SeqFile ops None).
Proof. unfold plain_seq_open. by destruct (file_private f); intros [=<-]. Qed.

#[local] Instance plain_seq_library : SeqLibrary := {
  inode := unit;
  PDE_DATA _ := Some controlData;
  seq_open := plain_seq_open;
  seq_open_ok := plain_seq_open_ok;
}.

Lemma proc_file_read_witness :
  seq_session (SeqFile mtcadummy_seq_operations (Some controlData)) 0
    (loaded_state (U:=gmap Z byte) 240 ∅)
    (Some (0, dump_text (devs (loaded_state (U:=gmap Z byte) 240 ∅)))) (loaded_state 240 ∅).
Proof.
  apply (proc_file_read (λ _, None) (tt : @inode plain_seq_library) (ProcFile None)
    (ProcFile (Some (SeqFile mtcadummy_seq_operations (Some controlData)))) _
    (loaded_state (U:=gmap Z byte) 240 ∅)); [reflexivity..|apply loaded_idle|reflexivity| |by auto].
  apply wf_fresh_devices.
Defined.
