(* ===== verification/Serial.v ===== *)
(** * What the calls do when they take effect

    [Atomic] reduces a concurrent run to calls that run alone on their device, one
    after the other. This file says what such a call does to the bars and what it
    returns, in terms of the states in which it performed its operations: the flags it
    found, the request or the words it read from the user's memory, the signals. The
    logic [awp] proves it of the programs. Two consequences for every interleaving: words
    that no call addresses keep their start values, and without signals the read-only
    registers of the devices that take requests show their constants. *)

From S2P Require Import Prelude Abi Kernel UserMem Firmware ModuleInit Registers.
From S2P Require Import StructRW NoStructRW Ioctl OpenRelease Proc ProcDump Locking Concurrency.
From S2P Require Import Atomic.
From stdpp Require Import functions.
Local Open Scope Z_scope.

(** ** Words written to the bars *)

(** A device with these bars, whose mutex is held by thread 0. *)
Definition device_with (d : nat) (σ : bars) : mtcaDummyData :=
  MtcaDummyData 0 (device_ops d) (Some 0%nat) (Z.of_nat d) (Z.of_nat d) 0 (sys_words σ) (dma_words σ).

Definition wf_bars (σ : bars) : Prop :=
  length (sys_words σ) = 32%nat ∧ length (dma_words σ) = 1024%nat ∧
  Forall is_u32 (sys_words σ) ∧ Forall is_u32 (dma_words σ).

#[export] Instance wf_bars_dec σ : Decision (wf_bars σ).
Proof. unfold wf_bars. apply _. Defined.

(** A word stored into a bar, and a word written with the firmware's action. *)
Definition stored (b : bar_id) (off v : Z) (σ : bars) : bars :=
  set_words b (setz (off / 4) v (get_words b σ)) σ.

Definition written (spi : bool) (b : bar_id) (off v : Z) (σ : bars) : bars :=
  bars_of (word_write spi b off v (device_with 0 σ)).2.

(** A write to [off] fails. *)
Definition word_fails (b : bar_id) (off : Z) : bool :=
  bool_decide (b = SystemBar) && fw_broken off.

Lemma bars_of_device_with d σ : bars_of (device_with d σ) = σ.
Proof. by destruct σ. Qed.

Lemma wf_bars_device d σ : wf_bars σ → wf_dev d (device_with d σ).
Proof.
  intros (?&?&?&?). unfold wf_dev, MTCADUMMY_N_REGISTERS, MTCADUMMY_DMA_SIZE. cbn.
  split_and!; try done; lia.
Qed.

Lemma wf_device_bars d dev : wf_dev d dev → wf_bars (bars_of dev).
Proof.
  intros (?&?&?&?&?). unfold MTCADUMMY_N_REGISTERS, MTCADUMMY_DMA_SIZE in *.
  split_and!; cbn; try done; lia.
Qed.

Lemma written_wf spi b off v σ : wf_bars σ → is_u32 v → wf_bars (written spi b off v σ).
Proof.
  intros Hw Hv. eapply wf_device_bars, wf_word_write; [by apply wf_bars_device|done].
Qed.

Lemma stored_wf b off v σ : wf_bars σ → is_u32 v → wf_bars (stored b off v σ).
Proof.
  intros Hw Hv. unfold stored.
  rewrite <-(bars_of_device_with 0 σ), <-bars_of_set_bar, get_words_bars.
  eapply wf_device_bars, wf_set_word; [by apply wf_bars_device|done].
Qed.

(** The bars after a write depend on nothing but the bars before. *)
Lemma word_write_bars spi b off v dev dev' :
  bars_of dev = bars_of dev' →
  bars_of (word_write spi b off v dev).2 = bars_of (word_write spi b off v dev').2.
Proof.
  intros [= Hs Hd]. unfold word_write. destruct b; cbn; rewrite ?Hs, ?Hd; done.
Qed.

(** ** The effects of the writing calls *)

Section Effects.
Context {U : Type} `{UserSpace U} `{ByteOrder}.
(** The states in which the call performs its operations. *)
Variable seen : kstate U → Prop.

(** A signal interrupts the attempt to take a mutex. *)
Definition interrupts (w : kstate U) : Prop := head (signals w) = Some true.
Definition interrupted : Prop := ∃ w, seen w ∧ interrupts w.

(** A write of [n] words from [buf] to the bar from [off] on: 0 or the error, and the
    bars. Each word comes from the user's memory, and the spi_error flag from the
    control data, as they were when the call looked. A word that cannot be read, or
    whose action a signal interrupts, is stored without the action. *)
Inductive area_written (b : bar_id) : Z → nat → Z → bars → Z → bars → Prop :=
  | area_end off buf σ : area_written b off 0 buf σ 0 σ
  | area_word off n buf σ bs w w' e σ' :
      seen w → copy_from_user (user w) buf 4 = (bs, 0) → word_fails b off = false →
      seen w' →
      area_written b (off + 4) n (buf + 4)
        (written (spi_error (control w')) b off (u32_of_bytes bs) σ) e σ' →
      area_written b off (S n) buf σ e σ'
  | area_failed off n buf σ bs w w' :
      seen w → copy_from_user (user w) buf 4 = (bs, 0) → word_fails b off = true →
      seen w' →
      area_written b off (S n) buf σ (- EIO)
        (written (spi_error (control w')) b off (u32_of_bytes bs) σ)
  | area_fault off n buf σ bs nleft w :
      seen w → copy_from_user (user w) buf 4 = (bs, nleft) → nleft ≠ 0 →
      area_written b off (S n) buf σ (- EFAULT) (stored b off (u32_of_bytes bs) σ)
  | area_interrupted off n buf σ bs w :
      seen w → copy_from_user (user w) buf 4 = (bs, 0) → b = SystemBar → interrupted →
      area_written b off (S n) buf σ (- EIO) (stored b off (u32_of_bytes bs) σ).

(** The request of a write has been carried out on the bars [σ] ([struct_effect]),
    unless a signal interrupted the firmware's wait for the control mutex: then the
    word is in the register, and no action was taken. *)
Definition request_written (r : device_rw) (σ : bars) (ret : Z) (σ' : bars) : Prop :=
  (∃ w, seen w ∧ ret = (struct_effect (spi_error (control w)) (device_with 0 σ) r).1 ∧
     σ' = bars_of (struct_effect (spi_error (control w)) (device_with 0 σ) r).2) ∨
  mode_rw r = RW_D32 ∧ d32_target r = Some (SystemBar, offset_rw r / 4) ∧ interrupted ∧
  ret = - EIO ∧ σ' = stored SystemBar (offset_rw r) (data_rw r) σ.

(** The calls of the two write operations: interrupted while they wait for a mutex, or
    failing because of the write_error flag, or doing what they are asked for. *)
Definition write_effect (buf count : Z) (σ : bars) (ret : Z) (σ' : bars) : Prop :=
  (interrupted ∧ ret = - ERESTARTSYS ∧ σ' = σ) ∨
  ∃ w, seen w ∧
    if write_error (control w) then ret = - EFAULT ∧ σ' = σ
    else ∃ w', seen w' ∧
      match request_at (user w') buf count with
      | None => ret = - EFAULT ∧ σ' = σ
      | Some r => request_written r σ ret σ'
      end.

Definition write_no_struct_effect (buf count f_pos : Z) (σ : bars) (ret : Z) (σ' : bars) : Prop :=
  (interrupted ∧ ret = - ERESTARTSYS ∧ σ' = σ) ∨
  ∃ w, seen w ∧
    if write_error (control w) then ret = - EFAULT ∧ σ' = σ
    else match checkAndCalculateTransferInformation count f_pos with
         | inl e => ret = e ∧ σ' = σ
         | inr ti => ∃ e,
             area_written (ti_barStart ti) (ti_offset ti)
               (Z.to_nat (ti_nBytesToTransfer ti / sizeof_u32)) buf σ e σ' ∧
             ret = if e =? 0 then ti_nBytesToTransfer ti else e
         end.
End Effects.

(** ** The logic *)

Section Awp.
Context {U : Type} `{UserSpace U} `{ByteOrder}.
Variable seen : kstate U → Prop.
Variable d : nat.

(** An operation performed alone in one of the states [seen], on the bars [σ]. *)
Definition op_awp {X} (o : kop X) (σ : bars) (Q : X → bars → Prop) : Prop :=
  ∀ w, seen w →
  match o in kop X return (X → bars → Prop) → Prop with
  | MutexLockInterruptible m => λ Q, (interrupts w → Q true σ) ∧ Q false σ
  | MutexUnlock m => λ Q, Q tt σ
  | ControlGet f => λ Q, Q (ctl_get f (control w)) σ
  | ControlSet f b => λ Q, Q tt σ
  | AtomicAdd d' k => λ Q, Q tt σ
  | AtomicRead d' => λ Q, ∀ z, Q z σ
  | GetSlotNr d' => λ Q, Q (Z.of_nat d') σ
  | BarLoad d' b i => λ Q, d' = d ∧ Q (nthz (get_words b σ) i) σ
  | BarStore d' b i v => λ Q, d' = d ∧ Q tt (set_words b (setz i v (get_words b σ)) σ)
  | CopyFromUser a n => λ Q, Q (copy_from_user (user w) a n) σ
  | CopyToUser a bs => λ Q, ∀ z, Q z σ
  | CopyBarToUser a d' b i n => λ Q, ∀ z, Q z σ
  | CopyUserToBar d' b i a => λ Q,
      d' = d ∧ let '(bs, nleft) := copy_from_user (user w) a 4 in
               Q nleft (set_words b (setz i (u32_of_bytes bs) (get_words b σ)) σ)
  | AccessOk a n => λ Q, ∀ b, Q b σ
  end Q.

Fixpoint awp {A} (p : prog A) (σ : bars) (Q : A → bars → Prop) : Prop :=
  match p with
  | Ret a => Q a σ
  | Vis o k => op_awp o σ (λ x σ', awp (k x) σ' Q)
  end.

Lemma op_awp_mono {X} (o : kop X) σ (Q Q' : X → bars → Prop) :
  (∀ x σ, Q x σ → Q' x σ) → op_awp o σ Q → op_awp o σ Q'.
Proof.
  intros HQ Ho w Hw. specialize (Ho w Hw).
  destruct o as [[]|[]| | | | | | | | | | | | ]; cbn in *; try naive_solver.
  destruct (copy_from_user _ _ _). naive_solver.
Qed.

Lemma awp_mono {A} (p : prog A) (Q Q' : A → bars → Prop) :
  (∀ a σ, Q a σ → Q' a σ) → ∀ σ, awp p σ Q → awp p σ Q'.
Proof.
  intros HQ. induction p as [a|X o k IH]; intros σ; [apply HQ|].
  apply op_awp_mono. intros x σ'. apply IH.
Qed.

Lemma awp_bind {A B} (p : prog A) (f : A → prog B) Q : ∀ σ,
  awp p σ (λ a σ', awp (f a) σ' Q) → awp (p ≫= f) σ Q.
Proof.
  induction p as [a|X o k IH]; intros σ; [done|]. apply op_awp_mono. intros x σ'. apply IH.
Qed.

(** The logic is sound for calls that run alone. *)

Hypothesis seen_wf : ∀ w, seen w → wf_devs (devs w).

Lemma put_bars_on_bar {A} t b i n σ w (f : mtcaDummyData → outcome (A * kstate U)) r :
  on_bar t d b i n (put_bars d σ w) f = Done r →
  ∃ dev, devs w !! d = Some dev ∧ f (with_bars σ dev) = Done r.
Proof.
  unfold on_bar, on_dev. rewrite put_bars_lookup. destruct (devs w !! d) as [dev|]; [|done].
  cbn [fmap option_fmap option_map]. destruct (decide _); [|done]. destruct (_ && _); [|done].
  eauto.
Qed.

Lemma get_bar_with_bars b σ dev : get_bar b (with_bars σ dev) = get_words b σ.
Proof. by destruct b. Qed.

(** The bars after a store. *)
Lemma bars_at_store b ws σ (w : kstate U) dev :
  devs w !! d = Some dev →
  bars_at d (upd_dev d (set_bar b ws (with_bars σ dev)) (put_bars d σ w)) σ = set_words b ws σ.
Proof.
  intros Hd. unfold bars_at. rewrite devs_upd_dev.
  - by rewrite bars_of_set_bar, bars_of_with_bars.
  - apply lookup_lt_is_Some. rewrite put_bars_lookup, Hd. by eexists.
Qed.

Lemma op_awp_sound {X} t (o : kop X) σ Q w x st' :
  op_awp o σ Q → seen w → step_op t o (put_bars d σ w) = Done (x, st') →
  Q x (bars_at d st' σ).
Proof.
  intros Ho Hw E. specialize (Ho w Hw).
  destruct (decide (bar_access o = true)) as [Hb|Hb%not_true_is_false].
  - destruct o as [| | | | | | |d' b i|d' b i v| | |a d' b i n|d' b i a|]; try done;
      cbn [step_op] in E.
    + destruct Ho as [-> Ho]. apply put_bars_on_bar in E as (dev & Hd & [= <- <-]).
      by rewrite bars_at_put, get_bar_with_bars.
    + destruct Ho as [-> Ho]. apply put_bars_on_bar in E as (dev & Hd & [= <- <-]).
      by rewrite bars_at_store, get_bar_with_bars.
    + specialize (Ho x). replace (bars_at d st' σ) with σ; [done|].
      unfold on_bar, on_dev in E. destruct (devs (put_bars d σ w) !! d'); [|done].
      destruct (decide _); [|done]. destruct (_ && _); [|done].
      destruct (copy_to_user _ _ _). injection E as _ <-.
      symmetry. apply (bars_at_put d σ w).
    + destruct Ho as [-> Ho]. apply put_bars_on_bar in E as (dev & Hd & E).
      change (user (put_bars d σ w)) with (user w) in E.
      destruct (copy_from_user _ _ _) as [bs nleft]. injection E as <- <-.
      by rewrite bars_at_store, get_bar_with_bars.
  - rewrite (put_unchanged t o w x st' d σ) by done.
    destruct o as [m|m|f|f b|d' k|d'|d'|d' b i|d' b i v|a n|a bs|a d' b i n|d' b i a|a n];
      try done; cbn [step_op] in E.
    + destruct x; [|apply Ho]. apply Ho. unfold step_lock in E.
      destruct (owner _ _) as [ow|]; [|done]. change (signals (put_bars d σ w)) with (signals w) in E.
      unfold interrupts. destruct (head (signals w)) as [[]|]; cbn in E; [done|by destruct ow..].
    + by destruct x.
    + destruct (decide _); [|done]. by injection E as <- _.
    + by destruct x.
    + by destruct x.
    + unfold on_dev in E. destruct (devs (put_bars d σ w) !! d') as [dev|] eqn:Ed; [|done].
      injection E as <- _.
      destruct (devs w !! d') as [dev0|] eqn:Ed0.
      * destruct (put_bars_device d d' σ w dev0 Ed0) as (dev' & Ed' & _ & Hslot & _).
        rewrite Ed' in Ed. injection Ed as ->. rewrite Hslot.
        by rewrite (proj1 (proj2 (seen_wf w Hw) d' dev0 Ed0)).
      * destruct (decide (d' = d)) as [->|Hne];
          [by rewrite put_bars_lookup, Ed0 in Ed|rewrite put_bars_lookup_ne in Ed by done; congruence].
    + injection E as <- _. by destruct (copy_from_user _ _ _).
Qed.

Lemma awp_alone {A} t ws (p q : prog A) σ σ' Q :
  alone t d ws p σ q σ' → (∀ w, w ∈ ws → seen w) → awp p σ Q → awp q σ' Q.
Proof.
  induction 1 as [|ws p σ X o k σ1 w x st' Ha IH E]; intros Hseen Hp; [done|].
  refine (op_awp_sound t o σ1 (λ x σ', awp (k x) σ' Q) w x st' _ _ E).
  - apply IH; [|done]. intros w' Hw'. apply Hseen. set_solver.
  - apply Hseen. set_solver.
Qed.
End Awp.

(** ** The programs *)

(** Stores to a bar. *)
Definition stores {X} (o : kop X) : bool :=
  match o with BarStore _ _ _ _ | CopyUserToBar _ _ _ _ => true | _ => false end.

Fixpoint read_only {A} (p : prog A) : Prop :=
  match p with
  | Ret _ => True
  | Vis o k => stores o = false ∧ ∀ x, read_only (k x)
  end.

Lemma read_only_bind {A B} (p : prog A) (f : A → prog B) :
  read_only p → (∀ a, read_only (f a)) → read_only (p ≫= f).
Proof.
  intros Hp Hf. induction p as [a|X o k IH]; [apply Hf|].
  destruct Hp as [Ho Hp]. split; [done|]. intros x. by apply IH.
Qed.

(** Loads and stores of the bars of device [d]. *)
Fixpoint local_to (d : nat) {A} (p : prog A) : Prop :=
  match p with
  | Ret _ => True
  | Vis o k =>
      match o with BarLoad d' _ _ | BarStore d' _ _ _ => d' = d | _ => False end ∧
      ∀ x, local_to d (k x)
  end.

Lemma local_bind {A B} d (p : prog A) (f : A → prog B) :
  local_to d p → (∀ a, local_to d (f a)) → local_to d (p ≫= f).
Proof.
  intros Hp Hf. induction p as [a|X o k IH]; [apply Hf|].
  destruct Hp as [Ho Hp]. split; [done|]. intros x. by apply IH.
Qed.

Lemma sample_loop_local d n : ∀ i, local_to d (sample_loop d n i).
Proof. induction n as [|n IH]; intros i; cbn; [done|]. split; [done|]. intros []. apply IH. Qed.

(** A state in which thread 0 holds device [d], with these bars. *)
Definition alone_with (d : nat) (σ : bars) (spi : bool) : kstate (gmap Z byte) :=
  KState (<[d := device_with d σ]> (fresh_devices 0 7 0))
    (MtcaDummyControl false false false spi) None ∅ [].

Lemma alone_holds d σ spi :
  is_device d → holds 0 d (device_with d σ) (alone_with d σ spi).
Proof.
  intros Hd. split; [|done]. apply list_lookup_insert_eq. by rewrite length_fresh_devices.
Qed.

Section Programs.
Context {U : Type} `{UserSpace U} `{ByteOrder}.
Variable seen : kstate U → Prop.
Variable d : nat.

Local Abbreviation awp := (awp seen d).
Local Abbreviation interrupted := (interrupted seen).

(** What reads does not change the bars. *)
Lemma read_only_awp {A} (p : prog A) : ∀ ph (Q : phase → A → Prop) σ,
  read_only p → one_section d p ph Q → awp p σ (λ _ σ', σ' = σ).
Proof.
  induction p as [a|X o k IH]; intros ph Q σ Hro Hs; [done|].
  destruct Hro as [Ho Hro]. intros w Hw.
  destruct o as [[|d']|[|d']|f|f b|d' k'|d'|d'|d' b i|d' b i v|a n|a bs|a d' b i n|d' b i a|a n];
    cbn in Ho, Hs |- *; try done.
  - split; [intros _|]; by (eapply IH; [|apply Hs]).
  - destruct Hs as (_ & _ & H1 & H2). split; [intros _|]; by (eapply IH; [|eassumption]).
  - by (eapply IH; [|apply Hs]).
  - destruct Hs as (_ & _ & Hs). by (eapply IH; [|apply Hs]).
  - by (eapply IH; [|apply Hs]).
  - by (eapply IH; [|apply Hs]).
  - by (eapply IH; [|apply Hs]).
  - intros z. by (eapply IH; [|apply Hs]).
  - by (eapply IH; [|apply Hs]).
  - destruct Hs as (-> & _ & Hs). split; [done|]. by (eapply IH; [|apply Hs]).
  - by (eapply IH; [|apply Hs]).
  - intros z. by (eapply IH; [|apply Hs]).
  - intros z. destruct Hs as (_ & _ & Hs). by (eapply IH; [|apply Hs]).
  - intros b. by (eapply IH; [|apply Hs]).
Qed.

(** Loads and stores without anything in between have one outcome only. *)
Lemma local_awp {V} `{UserSpace V} {A B} t (p : prog A) (k : A → prog B) Q :
  ∀ dev (st st' : kstate V) a,
  local_to d p → devs st !! d = Some dev → exec t p st = Done (a, st') →
  ∃ dev', devs st' !! d = Some dev' ∧
    (awp (k a) (bars_of dev') Q → awp (p ≫= k) (bars_of dev) Q).
Proof.
  induction p as [a0|X o k' IH]; intros dev st st' a Hl Hd E; cbn [exec] in E.
  { injection E as -> ->. by exists dev. }
  destruct (step_op t o st) as [[x st1]| |] eqn:Eo; cbn [outcome_bind] in E; [|done..].
  destruct Hl as [Ho Hl]. destruct o; try done; subst.
  all: cbn [step_op] in Eo; unfold on_bar, on_dev in Eo; rewrite Hd in Eo.
  all: destruct (decide _); [|done]; destruct (_ && _); [|done]; injection Eo as <- <-.
  - destruct (IH _ dev st st' a (Hl _) Hd E) as (dev' & Hd' & Hk). exists dev'. split; [done|].
    intros HQ w Hw. split; [done|]. rewrite get_words_bars. by apply Hk.
  - edestruct (IH tt) as (dev' & Hd' & Hk); [apply Hl| |exact E|].
    { apply devs_upd_dev. by apply lookup_lt_Some in Hd. }
    exists dev'. split; [done|]. intros HQ w Hw. split; [done|].
    rewrite get_words_bars, <-bars_of_set_bar. by apply Hk.
Qed.

(** The block that opens the operations. *)
Lemma awp_control_flag {A B} f (e : prog A) (body : bool → prog A) (k : A → prog B) σ Q :
  (interrupted → awp (e ≫= k) σ Q) →
  (∀ w, seen w → awp (body (ctl_get f (control w)) ≫= k) σ Q) →
  awp ((interrupted ← call (MutexLockInterruptible controlMutex);
        if (interrupted : bool) then e else
        flag ← call (ControlGet f);
        call (MutexUnlock controlMutex) ;; body flag) ≫= k) σ Q.
Proof.
  intros He Hb w Hw. split; [intros Hi; apply He; by exists w|].
  intros w1 Hw1 w2 Hw2. by apply Hb.
Qed.

(** *** Writing a word *)

Context (Hdevice : is_device d).

(** The action the firmware takes on a stored word. *)
Lemma awp_action {A} σ off (k : Z → prog A) Q :
  wf_bars σ →
  (interrupted → awp (k (- ERESTARTSYS)) σ Q) →
  (∀ w, seen w → awp (k (if fw_broken off then -1 else 0))
     (bars_of (fw_dev (spi_error (control w)) off (device_with d σ))) Q) →
  awp (mtcadummy_performActionOnWrite off 0 (Z.of_nat d) ≫= k) σ Q.
Proof using All.
  intros Hw Hraw Hdone.
  assert (∀ spi, exec 0 (mtcadummy_performActionOnWrite off 0 (Z.of_nat d)) (alone_with d σ spi) =
    Done (if fw_broken off then -1 else 0,
      upd_dev d (fw_dev spi off (device_with d σ)) (alone_with d σ spi))) as Hexec.
  { intros spi. apply (performActionOnWrite_refines 0 d (device_with d σ)); try done.
    - by apply wf_bars_device.
    - by apply alone_holds.
    - apply Nat2Z.id. }
  unfold mtcadummy_performActionOnWrite in Hexec |- *. cbn [negb Z.eqb] in Hexec |- *.
  apply awp_control_flag; [exact Hraw|]. intros w Hw'. cbn [ctl_get].
  specialize (Hexec (spi_error (control w))). specialize (Hdone w Hw').
  generalize dependent (spi_error (control w)). intros spi Hdone Hexec.
  rewrite exec_control_flag in Hexec by done. cbn [ctl_get control spi_error alone_with] in Hexec.
  rewrite <-(bars_of_device_with d σ). revert Hexec. cbv zeta. rewrite Nat2Z.id. intros Hexec.
  match type of Hexec with exec _ ?p _ = _ => assert (local_to d p) as Hl end.
  { repeat match goal with
    | |- local_to ?d (prog_mbind _ _ ?f (Ret ?x)) => change (local_to d (f x)); cbv beta
    | |- local_to _ (if ?b then _ else _) => destruct b
    | |- local_to _ (mret _) => exact Logic.I
    | |- local_to _ (sample_loop _ _ _ ≫= _) =>
        apply local_bind; [apply sample_loop_local|intros []]
    | |- local_to _ _ => split; [reflexivity|intros ?]
    end. }
  destruct (local_awp 0 _ k Q _ _ _ _ Hl (proj1 (alone_holds d σ spi Hdevice)) Hexec)
    as (dev' & Hdev' & Hk).
  rewrite devs_upd_dev in Hdev'
    by (cbn [devs alone_with]; rewrite length_insert, length_fresh_devices; exact Hdevice).
  injection Hdev' as <-. by apply Hk.
Qed.

(** A word that has been stored under the mutex, and the action. *)
Lemma awp_written {A} b σ off v bar (k : Z → prog A) Q :
  wf_bars σ → is_u32 v → (bar =? 0) = bool_decide (b = SystemBar) → (∃ w, seen w) →
  (interrupted → b = SystemBar → awp (k (- ERESTARTSYS)) (stored b off v σ) Q) →
  (∀ w, seen w → awp (k (if word_fails b off then -1 else 0))
     (written (spi_error (control w)) b off v σ) Q) →
  awp (mtcadummy_performActionOnWrite off bar (Z.of_nat d) ≫= k) (stored b off v σ) Q.
Proof using All.
  intros Hσ Hv Hb [w0 Hw0] Hraw Hk. unfold word_fails in Hk.
  destruct (Z.eqb_spec bar 0) as [->|Hne].
  - destruct b; [|by rewrite bool_decide_eq_false_2 in Hb].
    apply awp_action; [by apply stored_wf|by intros Hs; apply Hraw|]. intros w Hw.
    specialize (Hk w Hw). unfold written in Hk.
    rewrite (word_write_bars _ _ _ _ _ (device_with d σ)) in Hk
      by by rewrite !bars_of_device_with.
    exact Hk.
  - unfold mtcadummy_performActionOnWrite. rewrite (proj2 (Z.eqb_neq bar 0) Hne).
    destruct b; [by rewrite bool_decide_eq_true_2 in Hb|]. specialize (Hk w0 Hw0).
    by destruct σ.
Qed.
End Programs.

(** ** The calls *)

Section Calls.
Context {U : Type} `{UserSpace U} `{ByteOrder}.
Variable seen : kstate U → Prop.
Variable d : nat.
Context (Hdevice : is_device d).

Local Abbreviation awp := (awp seen d).
Local Abbreviation interrupted := (interrupted seen).

Lemma awp_flag {A} f (e : prog A) (body : bool → prog A) σ Q :
  (interrupted → awp e σ Q) →
  (∀ w, seen w → awp (body (ctl_get f (control w))) σ Q) →
  awp (interrupted ← call (MutexLockInterruptible controlMutex);
       if (interrupted : bool) then e else
       flag ← call (ControlGet f); call (MutexUnlock controlMutex) ;; body flag) σ Q.
Proof.
  intros He Hb w Hw. split; [intros Hi; apply He; by exists w|].
  intros w1 Hw1 w2 Hw2. by apply Hb.
Qed.

Lemma awp_lock_device {A} (e k : prog A) σ Q :
  (interrupted → awp e σ Q) → awp k σ Q →
  awp (interrupted ← call (MutexLockInterruptible (deviceMutex d));
       if (interrupted : bool) then e else k) σ Q.
Proof. intros He Hk w Hw. split; [intros Hi; apply He; by exists w|done]. Qed.

Lemma awp_unlock_return r σ Q : Q r σ → awp (unlock_return d r) σ Q.
Proof. by intros HQ w Hw. Qed.

Lemma awp_unlock_return_pos r p σ Q : Q (r, p) σ → awp (unlock_return_pos d r p) σ Q.
Proof. by intros HQ w Hw. Qed.

Lemma awp_copy_from {A} a n (k : list byte * Z → prog A) σ Q :
  (∀ w, seen w → awp (k (copy_from_user (user w) a n)) σ Q) →
  awp (call (CopyFromUser a n) ≫= k) σ Q.
Proof. by intros Hk w Hw; apply Hk. Qed.

Lemma awp_store {A} b i v (k : unit → prog A) σ Q :
  (∀ w, seen w → awp (k tt) (stored b (4 * i) v σ) Q) →
  awp (call (BarStore d b i v) ≫= k) σ Q.
Proof.
  intros Hk w Hw. split; [done|]. specialize (Hk w Hw). unfold stored in Hk.
  by rewrite Z.mul_comm, Z.div_mul in Hk by done.
Qed.

Lemma awp_copy_word {A} b i a (k : Z → prog A) σ Q :
  (∀ w bs nleft, seen w → copy_from_user (user w) a 4 = (bs, nleft) →
     awp (k nleft) (stored b (4 * i) (u32_of_bytes bs) σ) Q) →
  awp (call (CopyUserToBar d b i a) ≫= k) σ Q.
Proof.
  intros Hk w Hw. split; [done|]. destruct (copy_from_user (user w) a 4) as [bs nleft] eqn:E.
  specialize (Hk w bs nleft Hw E). unfold stored in Hk.
  by rewrite Z.mul_comm, Z.div_mul in Hk by done.
Qed.

(** *** The write operation of the request structure *)

Lemma awp_write_d32 r σ :
  (∃ w, seen w) → is_device_rw r → mode_rw r = RW_D32 → wf_bars σ →
  awp (write_d32 d r) σ (request_written seen r σ).
Proof using All.
  intros [w0 Hw0] Hr Hm Hσ. unfold write_d32.
  assert (∀ e, struct_effect (spi_error (control w0)) (device_with 0 σ) r = (e, device_with 0 σ) →
    awp (unlock_return d e) σ (request_written seen r σ)) as Hsame.
  { intros e E. apply awp_unlock_return. left. exists w0.
    rewrite E. cbn [fst snd]. by rewrite bars_of_device_with. }
  unfold struct_effect in Hsame. rewrite Hm in Hsame. unfold d32_target in Hsame.
  destruct (select_bar (barx_rw r)) as [[b size]|] eqn:Eb; [|by apply Hsame].
  rewrite d32_guard in Hsame. destruct (negb _ || _) eqn:Eg; [by apply Hsame|]. clear Hsame.
  destruct (select_bar_Some _ _ _ Eb) as [Ebar _].
  pose proof (proj1 (proj2 Hr)) as Hv.
  assert (offset_rw r mod 4 = 0) as Ha by (apply orb_false_iff in Eg as [Ea _]; lia).
  assert (d32_target r = Some (b, offset_rw r / 4)) as Ht
    by (unfold d32_target; by rewrite Eb, d32_guard, Eg).
  apply awp_store. intros w Hw w1 Hw1.
  replace (4 * (offset_rw r / 4)) with (offset_rw r) by lia.
  apply awp_written; [done|done|done|done|by exists w| |].
  - intros Hi ->. apply awp_unlock_return. right. by split_and!.
  - intros w2 Hw2.
    assert (struct_effect (spi_error (control w2)) (device_with 0 σ) r =
      (if word_fails b (offset_rw r) then - EIO else sizeof_device_rw,
       (word_write (spi_error (control w2)) b (offset_rw r) (data_rw r) (device_with 0 σ)).2)) as E.
    { unfold struct_effect. rewrite Hm, Ht. change (RW_D32 =? RW_D32) with true. cbv iota.
      unfold word_write, word_fails. by destruct b. }
    destruct (word_fails b (offset_rw r)); apply awp_unlock_return; left; exists w2; by rewrite E.
Qed.

Lemma awp_mtcaDummy_write buf count σ :
  wf_bars σ → awp (mtcaDummy_write d buf count) σ (write_effect seen buf count σ).
Proof using All.
  intros Hσ. apply awp_flag; [by intros Hi; left|]. intros w Hw. cbn [ctl_get].
  destruct (write_error (control w)) eqn:Ew; [right; exists w; by rewrite Ew|].
  apply awp_lock_device; [by intros Hi; left|].
  assert (∀ p w', seen w' → awp p σ (λ ret σ', match request_at (user w') buf count with
      | None => ret = - EFAULT ∧ σ' = σ | Some r => request_written seen r σ ret σ' end) →
    awp p σ (write_effect seen buf count σ)) as Hreq.
  { intros p w' Hw'. apply awp_mono. intros ret σ' Hret. right. exists w. rewrite Ew.
    split; [done|]. by exists w'. }
  unfold request_at in Hreq. destruct (count <? sizeof_device_rw).
  { apply (Hreq _ w Hw). by apply awp_unlock_return. }
  apply awp_copy_from. intros w' Hw'. apply (Hreq _ w' Hw').
  pose proof (copy_from_user_length (user w') buf (Z.to_nat sizeof_device_rw)) as Hl.
  destruct (copy_from_user _ _ _) as [bytes nleft]. cbn [fst snd] in *.
  destruct (nleft =? 0); [|by apply awp_unlock_return]. cbn [negb].
  cbv zeta. apply device_rw_of_bytes_range in Hl.
  generalize dependent (device_rw_of_bytes bytes). intros r Hr.
  destruct (mode_rw r =? RW_D32) eqn:Em; [apply awp_write_d32; [by exists w|done|lia|done]|].
  assert (awp (unlock_return d (- EFAULT)) σ (request_written seen r σ)) as Hout.
  { apply awp_unlock_return. left. exists w. unfold struct_effect.
    rewrite Em. cbn [fst snd]. by rewrite bars_of_device_with. }
  destruct (_ || _); [exact Hout|]. destruct (mode_rw r =? RW_DMA); exact Hout.
Qed.

(** *** The write operation at a file position *)

Lemma awp_write_words ti buf n : ∀ i f_pos σ,
  wf_bars σ → 0 <= i → ti_offset ti mod 4 = 0 → 0 <= ti_offset ti →
  ti_offset ti / sizeof_u32 + i + Z.of_nat n <= bar_words (ti_barStart ti) →
  (ti_bar ti =? 0) = bool_decide (ti_barStart ti = SystemBar) →
  awp (write_words d ti buf n i f_pos) σ (λ '(r, _) σ', ∃ e,
    area_written seen (ti_barStart ti) (ti_offset ti + 4 * i) n (buf + 4 * i) σ e σ' ∧
    r = if e =? 0 then ti_nBytesToTransfer ti else e).
Proof using All.
  induction n as [|n IH]; intros i f_pos σ Hσ Hi Ha Ho Hn Hbar; cbn [write_words].
  { apply awp_unlock_return_pos. exists 0. split; [constructor|done]. }
  cbv zeta. unfold sizeof_u32 in *.
  assert (bar_words (ti_barStart ti) <= 1024) as Hbw by (by destruct (ti_barStart ti)).
  assert (wrap32 (i * 4) = 4 * i) as -> by (unfold wrap32; lia).
  assert (wrap32 (ti_offset ti + 4 * i) = ti_offset ti + 4 * i) as -> by (unfold wrap32; lia).
  apply awp_copy_word. intros w bs nleft Hw Ec.
  pose proof (copy_from_user_length (user w) (buf + 4 * i) 4) as Hl. rewrite Ec in Hl.
  apply u32_of_bytes_range in Hl. cbn [fst] in Hl.
  assert (4 * (ti_offset ti / 4 + i) = ti_offset ti + 4 * i) as -> by lia.
  destruct (Z.eqb_spec nleft 0) as [->|Hne]; cbn [negb].
  2: { apply awp_unlock_return_pos. exists (- EFAULT). split; [by eapply area_fault|done]. }
  intros w1 Hw1. apply awp_written; [done|done|done|done|by exists w| |].
  - intros Hint Eb. apply awp_unlock_return_pos. exists (- EIO).
    split; [by apply (area_interrupted _ _ _ _ _ _ bs w)|done].
  - intros w' Hw'. destruct (word_fails _ _) eqn:Ef; cbn [negb Z.eqb].
    { apply awp_unlock_return_pos. exists (- EIO). split; [by apply (area_failed _ _ _ _ _ _ bs w)|done]. }
    eapply awp_mono; [|apply IH; try done; [by apply written_wf|lia|lia]].
    intros [r pos] σ' (e & Harea & Hr). exists e. split; [|done].
    apply (area_word _ _ _ _ _ _ bs w w'); [done..|].
    replace (ti_offset ti + 4 * i + 4) with (ti_offset ti + 4 * (i + 1)) by lia.
    by replace (buf + 4 * i + 4) with (buf + 4 * (i + 1)) by lia.
Qed.

Lemma awp_mtcaDummy_write_no_struct buf count f_pos σ :
  wf_bars σ → 0 <= f_pos <= LOFF_MAX → 0 <= count <= MAX_RW_COUNT →
  awp (mtcaDummy_write_no_struct d buf count f_pos) σ
    (λ '(r, _), write_no_struct_effect seen buf count f_pos σ r).
Proof using All.
  intros Hσ Hp Hc. apply awp_flag; [by intros Hi; left|]. intros w Hw. cbn [ctl_get].
  destruct (write_error (control w)) eqn:Ew; [right; exists w; by rewrite Ew|].
  destruct (checkAndCalculateTransferInformation count f_pos) as [e|ti] eqn:Et.
  { right. exists w. by rewrite Ew, Et. }
  apply awp_lock_device; [by intros Hi; left|].
  destruct (transfer_accepted count f_pos ti 0 (fresh_device 240 0) Hp Hc (wf_fresh_device _ _) Et)
    as [Hbar Ha Ho Hh].
  rewrite (wf_dev_bar_length 0 _ _ (wf_fresh_device _ _)) in Hh.
  eapply awp_mono; [|apply awp_write_words; try done].
  - intros [r pos] σ' (e & Harea & Hr). right. exists w. rewrite Ew, Et. split; [done|].
    exists e. split; [|done]. by rewrite !Z.add_0_r in Harea.
  - unfold sizeof_u32, bar_words in *. destruct (ti_barStart ti); lia.
Qed.
End Calls.

(** *** The others only read *)

Lemma read_only_call {A X} (o : kop X) (k : X → prog A) :
  stores o = false → (∀ x, read_only (k x)) → read_only (call o ≫= k).
Proof. by intros Ho Hk. Qed.

Lemma read_only_preReadAction off bar slot :
  read_only (mtcadummy_performPreReadAction off bar slot).
Proof.
  unfold mtcadummy_performPreReadAction. destruct (negb _); [done|]. by destruct (_ =? _).
Qed.

Ltac reads :=
  repeat match goal with
  | |- read_only (if ?b then _ else _) => destruct b
  | |- read_only (mret _) => exact Logic.I
  | |- read_only (let '(_, _) := ?x in _) => destruct x
  | |- read_only (match ?x with inl _ => _ | inr _ => _ end) => destruct x
  | |- read_only (match ?x with Some _ => _ | None => _ end) => destruct x as [[]|]
  | |- read_only (unlock_return _ _) => by split
  | |- read_only (unlock_return_pos _ _ _) => by split
  | |- read_only (mtcadummy_performPreReadAction _ _ _ ≫= _) =>
      apply read_only_bind; [apply read_only_preReadAction|intros ?]
  | |- read_only (call _ ≫= _) => apply read_only_call; [reflexivity|intros ?]
  | |- read_only (call _) => by split
  end.

Lemma read_words_read_only `{ByteOrder} d ti buf n : ∀ i f_pos,
  read_only (read_words d ti buf n i f_pos).
Proof. induction n as [|n IH]; intros i f_pos; cbn [read_words]; cbv zeta; reads. apply IH. Qed.

Lemma register_lines_read_only d n : ∀ reg, read_only (register_lines d n reg).
Proof.
  induction n as [|n IH]; intros reg; cbn [register_lines]; reads.
  apply read_only_bind; [apply IH|done].
Qed.

Lemma dma_lines_read_only d n : ∀ index, read_only (dma_lines d n index).
Proof.
  induction n as [|n IH]; intros index; cbn [dma_lines]; reads.
  apply read_only_bind; [apply IH|done].
Qed.

Lemma set_or_read_read_only f value : read_only (set_or_read f value).
Proof. unfold set_or_read. reads. Qed.

Lemma ioctl_cases_read_only `{ByteOrder} d arg :
  read_only (ioctl_physical_slot d arg) ∧ read_only (ioctl_version d arg) ∧
  read_only (ioctl_read_dma d arg).
Proof.
  unfold ioctl_physical_slot, ioctl_version, ioctl_read_dma. split_and!; cbv zeta; reads.
Qed.

(** The calls that write to a bar. *)
Definition write_call (c : driver_call) : bool :=
  match c with WriteCall _ _ _ | WriteNoStructCall _ _ _ _ => true | _ => false end.

Lemma call_read_only `{ByteOrder} `{IoctlEncoding} scan_i c :
  write_call c = false → read_only (call_prog scan_i c).
Proof.
  assert (∀ B (p : prog (Z * B)), read_only p → read_only ('(r, _) ← p; mret r)) as Hresult.
  { intros B p Hp. apply read_only_bind; [done|]. by intros []. }
  intros Hc. destruct c; try done; cbn [call_prog].
  - apply Hresult. unfold mtcaDummy_open. reads.
  - unfold mtcaDummy_read, read_info, read_d32, read_dma. cbv zeta. reads.
  - apply Hresult. unfold mtcaDummy_read_no_struct. reads. apply read_words_read_only.
  - unfold mtcaDummy_ioctl. reads; apply ioctl_cases_read_only.
  - unfold llrfDummy_ioctl. reads; apply ioctl_cases_read_only.
  - unfold pcieuniDummy_ioctl. reads; apply ioctl_cases_read_only.
  - unfold mtcadummy_proc_write. cbv zeta. reads.
    do 4 (apply read_only_bind; [apply set_or_read_read_only|intros ?]). reads.
  - apply Hresult. unfold mtcadummy_seq_show. reads.
    apply read_only_bind; [apply register_lines_read_only|intros ?]. reads.
    apply read_only_bind; [apply dma_lines_read_only|intros ?]. reads.
Qed.

(** ** The specification of the concurrent driver *)

Section Spec.
Context {U : Type} `{UserSpace U} `{ByteOrder} `{IoctlEncoding}.
Variable scan_i : list byte → option Z.
Implicit Types (w : kstate U) (ws : list (kstate U)) (es : list (event U)).

(** What a call does that performs its operations in the states [ws]. *)
Definition call_effect ws (c : driver_call) (σ : bars) (r : Z) (σ' : bars) : Prop :=
  match c with
  | WriteCall d buf count => write_effect (λ w, w ∈ ws) buf count σ r σ'
  | WriteNoStructCall d buf count f_pos =>
      write_no_struct_effect (λ w, w ∈ ws) buf count f_pos σ r σ'
  | _ => σ' = σ
  end.

Lemma alone_call_effect t ws c σ r σ' :
  valid_call c → wf_bars σ → (∀ w, w ∈ ws → wf_devs (devs w)) →
  alone t (call_device c) ws (call_prog scan_i c) σ (Ret r) σ' → call_effect ws c σ r σ'.
Proof.
  intros Hv Hσ Hws Ha.
  pose proof (λ Q, awp_alone (λ w, w ∈ ws) (call_device c) Hws t ws _ _ σ σ' Q Ha (λ w Hw, Hw))
    as Hsound.
  destruct (write_call c) eqn:Ec.
  - destruct c as [| | |d buf count| |d buf count f_pos| | | | |]; try done; apply Hsound; cbn in Hv.
    + by apply awp_mtcaDummy_write.
    + destruct Hv as (Hd & Hp & Hc). apply awp_bind.
      eapply awp_mono; [|by apply awp_mtcaDummy_write_no_struct]. by intros [].
  - assert (σ' = σ) as ->; [|by destruct c].
    refine (Hsound (λ _ σ', σ' = σ) _).
    eapply read_only_awp; [by apply call_read_only|apply call_one_section].
Qed.

Lemma call_effect_wf ws c σ r σ' : call_effect ws c σ r σ' → wf_bars σ → wf_bars σ'.
Proof.
  assert (∀ (seen : kstate U → Prop) r σ ret σ', is_device_rw r → request_written seen r σ ret σ' →
    wf_bars σ → wf_bars σ') as Hreq.
  { intros seen req σ0 ret σ1 Hreq [(w & _ & _ & ->)|(_ & _ & _ & _ & ->)] Hσ;
      [|by apply stored_wf; [|apply Hreq]].
    unfold struct_effect.
    destruct (_ =? _); cbn [snd]; [|by rewrite bars_of_device_with].
    destruct (d32_target _) as [[b i]|]; cbn [snd]; [|by rewrite bars_of_device_with].
    pose proof (written_wf (spi_error (control w)) b (offset_rw req) (data_rw req) σ0 Hσ
      (proj1 (proj2 Hreq))) as Hwf.
    unfold written in Hwf. by destruct (word_write _ _ _ _ _). }
  intros Heff Hσ. destruct c as [| | |d buf count| |d buf count f_pos| | | | |]; cbn in Heff;
    try by subst.
  - destruct Heff as [(_ & _ & ->)|(w & _ & Heff)]; [done|].
    destruct (write_error _); [by destruct Heff as [_ ->]|]. destruct Heff as (w' & _ & Heff).
    destruct (request_at _ _ _) as [req|] eqn:E; [|by destruct Heff as [_ ->]].
    eapply Hreq; [|done..]. by eapply request_at_range.
  - destruct Heff as [(_ & _ & ->)|(w & _ & Heff)]; [done|].
    destruct (write_error _); [by destruct Heff as [_ ->]|].
    destruct (checkAndCalculateTransferInformation _ _) as [e|ti]; [by destruct Heff as [_ ->]|].
    destruct Heff as (e & Harea & _).
    assert (∀ w bs nleft a, copy_from_user (user w) a 4 = (bs, nleft) → is_u32 (u32_of_bytes bs))
      as Hword.
    { intros w0 bs nleft a Ec. pose proof (copy_from_user_length (user w0) a 4) as Hl.
      rewrite Ec in Hl. by apply u32_of_bytes_range. }
    induction Harea; eauto using written_wf, stored_wf.
Qed.

(** The specification: the calls take effect one at a time, at a moment between their
    entry and their return, as [call_effect] says. No program and no mutex occurs in it. *)
Inductive specified (major : Z) : list (event U) → serial_state → Prop :=
  | specified_loaded : specified major [] (SerialState (λ d, bars_of (fresh_device major d)) ∅)
  | specified_enter es s t c :
      specified major es s → s_calls s !! t = None →
      specified major (es ++ [Entered t c])
        (SerialState (s_bars s) (<[t := Running c []]> (s_calls s)))
  | specified_act es s t c ws w :
      specified major es s → s_calls s !! t = Some (Running c ws) →
      specified major (es ++ [Acted t w])
        (SerialState (s_bars s) (<[t := Running c (ws ++ [w])]> (s_calls s)))
  | specified_call es s t c ws r σ :
      specified major es s → s_calls s !! t = Some (Running c ws) →
      call_effect ws c (s_bars s (call_device c)) r σ →
      specified major es
        (SerialState (<[call_device c := σ]> (s_bars s)) (<[t := Finished r]> (s_calls s)))
  | specified_return es s t r :
      specified major es s → s_calls s !! t = Some (Finished r) →
      specified major (es ++ [Returned t r])
        (SerialState (s_bars s) (delete t (s_calls s))).

(** What the events of a run satisfy. *)
Definition event_ok (sig : Prop) (made : driver_call → Prop) (e : event U) : Prop :=
  match e with
  | Entered t c => valid_call c ∧ made c
  | Acted t w => wf_devs (devs w) ∧ (interrupts w → sig)
  | Returned t r => True
  end.

Lemma history_events sig made major u es m :
  history scan_i sig made major u es m → Forall (event_ok sig made) es.
Proof.
  induction 1 as [|es m es' m' Hh IH Hstep]; [done|]. apply Forall_app_2; [done|].
  apply history_reachable, reachable_with_wf in Hh.
  destruct Hstep as [t c Hn Hv Hm|t X o k s x st' Hlk Hs E|t r Hlk|u'];
    [by apply Forall_singleton|apply Forall_singleton|by apply Forall_singleton|done].
  split; [exact Hh|]. intros [= Hi]. by apply Hs.
Qed.

(** The calls in progress are among those of the events. *)
Definition calls_ok (sig : Prop) (made : driver_call → Prop) (s : serial_state) : Prop :=
  ∀ t c ws, s_calls s !! t = Some (Running c ws) →
    valid_call c ∧ made c ∧ ∀ w, w ∈ ws → wf_devs (devs w) ∧ (interrupts w → sig).

Lemma calls_ok_insert sig made s t p B :
  calls_ok sig made s →
  (∀ c ws, p = Running c ws →
     valid_call c ∧ made c ∧ ∀ w, w ∈ ws → wf_devs (devs w) ∧ (interrupts w → sig)) →
  calls_ok sig made (SerialState B (<[t := p]> (s_calls s))).
Proof.
  intros Hs Hp t' c ws. cbn. destruct (decide (t = t')) as [<-|Hne].
  - rewrite lookup_insert_eq. intros [= E]. by apply Hp.
  - rewrite lookup_insert_ne by done. apply Hs.
Qed.

(** An invariant of the bars under the calls that are made is one of every run that is
    as specified. *)
Lemma specified_invariant sig made (I : nat → bars → Prop) major es s :
  (∀ d, I d (bars_of (fresh_device major d))) →
  (∀ c ws σ r σ', valid_call c → made c → (∀ w, w ∈ ws → interrupts w → sig) →
     I (call_device c) σ → call_effect ws c σ r σ' → I (call_device c) σ') →
  Forall (event_ok sig made) es → specified major es s →
  calls_ok sig made s ∧ ∀ d, I d (s_bars s d).
Proof.
  intros Hinit Hcall Hev Hs. induction Hs as [|es s t c Hs IH Hn|es s t c ws w Hs IH Hc|
    es s t c ws r σ Hs IH Hc Heff|es s t r Hs IH Hc];
    try (apply Forall_app in Hev as [Hev He]; rewrite Forall_singleton in He);
    try (destruct (IH Hev) as [Hok HI]).
  - by split.
  - split; [|done]. apply calls_ok_insert; [done|]. intros c' ws' [= <- <-].
    split_and!; [by destruct He..|]. intros w Hw. by apply not_elem_of_nil in Hw.
  - split; [|done]. apply calls_ok_insert; [done|]. intros c' ws' [= <- <-].
    destruct (Hok _ _ _ Hc) as (Hv & Hm & Hws). split_and!; [done..|].
    intros w' [Hw| ->%list_elem_of_singleton]%elem_of_app; [by apply Hws|exact He].
  - split; [by apply calls_ok_insert; [|discriminate]|]. intros d. cbn.
    destruct (Hok _ _ _ Hc) as (Hv & Hm & Hws).
    destruct (decide (call_device c = d)) as [<-|Hne].
    + rewrite fn_lookup_insert. eapply Hcall; [done|done| |apply HI|exact Heff].
      intros w Hw. by apply Hws.
    + by rewrite fn_lookup_insert_ne.
  - split; [|done]. intros t' c ws. cbn. destruct (decide (t = t')) as [<-|Hne].
    + by rewrite lookup_delete_eq.
    + rewrite lookup_delete_ne by done. apply Hok.
Qed.

(** Serial runs are as specified. *)
Lemma serially_specified sig made major es s :
  Forall (event_ok sig made) es → serially scan_i major es s → specified major es s.
Proof.
  intros Hev Hs.
  induction Hs as [|es s t c Hs IH Hn|es s t c ws w Hs IH Hc|
    es s t c ws r σ Hs IH Hc Ha|es s t r Hs IH Hc];
    try (apply Forall_app in Hev as [Hev He]; specialize (IH Hev)).
  - constructor.
  - by constructor.
  - by econstructor.
  - specialize (IH Hev). eapply specified_call; [done|done|].
    destruct (specified_invariant sig made (λ _, wf_bars) major es s) as [Hok Hwf]; [| |done..|].
    { intros d. apply (wf_device_bars d), wf_fresh_device. }
    { intros. by eapply call_effect_wf. }
    destruct (Hok _ _ _ Hc) as (Hv & _ & Hws).
    eapply alone_call_effect; [done|apply Hwf| |exact Ha]. intros w Hw. by apply Hws.
  - by econstructor.
Qed.

Lemma history_specified sig made major u es (m : machine (U:=U)) :
  history scan_i sig made major u es m →
  ∃ s, specified major es s ∧
    ∀ d dev, devs (shared m) !! d = Some dev → devMutex dev = None → bars_of dev = s_bars s d.
Proof.
  intros Hh. destruct (history_simulated scan_i sig made major u es m Hh) as (s & Hser & Hsim).
  exists s. split; [eapply serially_specified; [by eapply history_events|done]|].
  intros d dev Hd Hm. symmetry. apply (sim_free scan_i m s Hsim), view_Some. by exists dev.
Qed.

(** Every invariant of whole calls is an invariant of the concurrent driver: it
    holds of the bars of every device whose mutex is free. *)
Lemma free_devices_satisfy sig made (I : nat → bars → Prop) major (u : U)
    (m : machine (U:=U)) d dev :
  (∀ d, I d (bars_of (fresh_device major d))) →
  (∀ c ws σ r σ', valid_call c → made c → (∀ w, w ∈ ws → interrupts w → sig) →
     I (call_device c) σ → call_effect ws c σ r σ' → I (call_device c) σ') →
  reachable_with scan_i sig made major u m → devs (shared m) !! d = Some dev →
  devMutex dev = None → I d (bars_of dev).
Proof.
  intros Hinit Hcall [es Hh]%reachable_history Hd Hm.
  destruct (history_specified _ _ _ _ _ _ Hh) as (s & Hs & Hfree).
  rewrite (Hfree d dev Hd Hm).
  eapply (specified_invariant sig made I); [done|done|by eapply history_events|exact Hs].
Qed.
End Spec.

(** ** Properties *)

Section Properties.
Context {U : Type} `{UserSpace U} `{ByteOrder} `{IoctlEncoding}.
Variable scan_i : list byte → option Z.
Implicit Types m : machine (U:=U).

(** C19: the concurrent driver refines a specification without programs and mutexes.
    Every run has the history of one in which each call takes effect at one moment
    between its entry and its return, as [call_effect] says: a write carries out the
    request, or transfers the words, that it read from the user's memory, with the
    flags it found, and returns the value that belongs to the effect; the other
    entry points leave the bars as they are. *)
Theorem driver_refines_atomic_calls (sig : Prop) (made : driver_call → Prop) (major : Z) (u : U)
    (es : list (event U)) m (Hh : history scan_i sig made major u es m) :
  ∃ s, specified major es s ∧
    ∀ d dev, devs (shared m) !! d = Some dev → devMutex dev = None → bars_of dev = s_bars s d.
Proof. by eapply history_specified. Qed.

(** The word [i] of the DMA memory of device [d] may change in the call [c]: the
    call carries a request, which may name any word, or its transfer covers the
    word, or goes to the registers and may start the sampling. *)
Definition addresses (c : driver_call) (d : nat) (i : Z) : Prop :=
  match c with
  | WriteCall d' _ _ => d' = d
  | WriteNoStructCall d' _ count f_pos =>
      d' = d ∧
      match checkAndCalculateTransferInformation count f_pos with
      | inl _ => False
      | inr ti => ti_barStart ti = DmaBar →
          ti_offset ti / 4 <= i < ti_offset ti / 4 + ti_nBytesToTransfer ti / 4
      end
  | _ => False
  end.

Lemma area_written_dma (seen : kstate U → Prop) off n buf σ e σ' i :
  area_written seen DmaBar off n buf σ e σ' → 0 <= off → 0 <= i →
  ¬ off / 4 <= i < off / 4 + Z.of_nat n → nthz (dma_words σ') i = nthz (dma_words σ) i.
Proof.
  intros Heff. remember DmaBar as b eqn:Eb.
  induction Heff as [|off n buf σ bs w w' e σ' Hw Ec Hf Hw' Heff IH|off n buf σ bs w w' Hw Ec Hf|
    off n buf σ bs nleft w Hw Ec Hn|off n buf σ bs w Hw Ec Eb'];
    intros Ho Hi Hn'; subst; [done|..].
  - rewrite IH by (done || lia). apply nthz_setz_ne; lia.
  - by unfold word_fails in Hf; rewrite bool_decide_eq_false_2 in Hf.
  - apply nthz_setz_ne; lia.
  - done.
Qed.

(** A transfer leaves the words of the DMA memory that it does not address. *)
Lemma write_no_struct_effect_dma (seen : kstate U → Prop) d buf count f_pos σ r σ' i :
  write_no_struct_effect seen buf count f_pos σ r σ' →
  0 <= f_pos <= LOFF_MAX → 0 <= count <= MAX_RW_COUNT → 0 <= i →
  ¬ addresses (WriteNoStructCall d buf count f_pos) d i →
  nthz (dma_words σ') i = nthz (dma_words σ) i.
Proof.
  intros [(_ & _ & ->)|(w & _ & Heff)] Hp Hc Hi Hn; [done|].
  destruct (write_error _); [by destruct Heff as [_ ->]|].
  unfold addresses in Hn.
  destruct (checkAndCalculateTransferInformation _ _) as [e|ti] eqn:Et;
    [by destruct Heff as [_ ->]|]. destruct Heff as (e & Harea & _).
  destruct (transfer_accepted count f_pos ti 0 (fresh_device 240 0) Hp Hc (wf_fresh_device _ _) Et)
    as [_ _ Ho _].
  destruct (ti_barStart ti); [by destruct Hn|].
  eapply area_written_dma; [exact Harea|done|done|].
  intros Hin. apply Hn. split; [done|]. intros _. unfold sizeof_u32 in Hin. lia.
Qed.

(** C25: isolation. A word of the DMA memory that no call addresses is 0 as
    after loading whenever the mutex of its device is free, whatever calls on
    other words and other devices are interleaved. *)
Theorem unaddressed_words_stay (made : driver_call → Prop) (major : Z) (u : U) m
    (d : nat) (dev : mtcaDummyData) (i : Z)
    (Hr : reachable scan_i made major u m)
    (Hd : devs (shared m) !! d = Some dev) (Hfree : devMutex dev = None)
    (Hi : 0 <= i) (Hn : ∀ c, made c → ¬ addresses c d i) :
  nthz (dmaBar dev) i = 0.
Proof.
  apply (free_devices_satisfy scan_i True made
    (λ d' σ, d' = d → nthz (dma_words σ) i = 0) major u m d dev); try done.
  - intros d' _. unfold nthz. destruct (dma_words _ !! Z.to_nat i) as [w|] eqn:E; [|done].
    apply lookup_replicate in E as [-> _]. done.
  - intros c ws σ r σ' Hv Hm _ Hσ Heff Ed. specialize (Hn c Hm). specialize (Hσ Ed).
    destruct c as [| | |d' buf count| |d' buf count f_pos| | | | |]; cbn in Heff, Ed;
      try (by subst σ'); [by destruct Hn|].
    destruct Hv as (_ & Hp & Hc). subst d'. by rewrite (write_no_struct_effect_dma _ d _ _ _ _ _ _ _ Heff).
  - by apply reachable_with_signals.
Qed.

(** Without signals a write request leaves the constants alone. *)
Lemma request_written_constants (seen : kstate U → Prop) r σ ret σ' :
  is_device_rw r → ¬ interrupted seen → request_written seen r σ ret σ' →
  shows_constants (device_with 0 σ) → shows_constants (device_with 0 σ').
Proof.
  intros Hr Hni [(w & _ & _ & ->)|(_ & _ & Hi & _)] Hσ; [|done].
  unfold struct_effect. destruct (_ =? _); [|done]. unfold d32_target.
  destruct (select_bar _) as [[b size]|]; [|done].
  destruct ((offset_rw r mod 4 =? 0) && _) eqn:Eg; [|done].
  pose proof (word_write_shows_constants (device_with 0 σ) (spi_error (control w)) b (offset_rw r)
    (data_rw r) (proj1 (proj1 Hr)) ltac:(lia) Hσ) as Hc.
  by destruct (word_write _ _ _ _ _).
Qed.

Lemma write_effect_constants (seen : kstate U → Prop) buf count σ r σ' :
  ¬ interrupted seen → write_effect seen buf count σ r σ' →
  shows_constants (device_with 0 σ) → shows_constants (device_with 0 σ').
Proof.
  intros Hni [(Hi & _)|(w & _ & Heff)] Hσ; [done|].
  destruct (write_error _); [by destruct Heff as [_ ->]|]. destruct Heff as (w' & _ & Heff).
  destruct (request_at _ _ _) as [req|] eqn:E; [|by destruct Heff as [_ ->]].
  eapply request_written_constants; [by eapply request_at_range|done..].
Qed.

(** C24: the read-only registers in every interleaving. As long as no signal
    interrupts a call, the registers that show a constant show it whenever the
    mutex of their device is free, however many threads write to them at the same
    time through the request structure. *)
Theorem constants_in_every_interleaving (made : driver_call → Prop) (major : Z) (u : U) m
    (d : nat) (dev : mtcaDummyData)
    (Hr : reachable_with scan_i False made major u m)
    (Hd : devs (shared m) !! d = Some dev) (Hfree : devMutex dev = None)
    (Hreq : ∀ buf count f_pos, ¬ made (WriteNoStructCall d buf count f_pos)) :
  shows_constants dev.
Proof.
  apply (free_devices_satisfy scan_i False made
    (λ d' σ, d' = d → shows_constants (device_with 0 σ)) major u m d dev); try done.
  - intros d' _ a v Ha. apply ro_value_cases in Ha as Hin. rewrite !elem_of_cons in Hin.
    by repeat destruct Hin as [->|Hin]; [injection Ha as <-..|apply not_elem_of_nil in Hin].
  - intros c ws σ r σ' Hv Hm Hsig Hσ Heff Ed. specialize (Hσ Ed).
    assert (¬ interrupted (λ w, w ∈ ws)) as Hni by (intros (w & Hw & Hi); by apply (Hsig w)).
    destruct c as [| | |d' buf count| |d' buf count f_pos| | | | |]; cbn in Heff, Ed;
      try (by subst σ'); [|subst d'; by destruct (Hreq buf count f_pos)].
    by eapply write_effect_constants.
Qed.
End Properties.

(** ** Examples *)

#[local] Existing Instance little_endian.
#[local] Existing Instance asm_generic_ioctl.

(** A thread inside a call on device 6. *)
Lemma sample_writer :
  reachable decimal_scan (λ c, c = WriteNoStructCall 6 1000 8 (2 * 2 ^ 60 + 16)) 240 ∅
    (sample_entered (WriteNoStructCall 6 1000 8 (2 * 2 ^ 60 + 16))).
Proof.
  apply sample_entered_reachable; [|reflexivity].
  cbn. unfold is_device, LOFF_MAX, MAX_RW_COUNT. lia.
Qed.

Lemma driver_refines_atomic_calls_witness :
  ∃ s, specified 240 [Entered 0 (WriteCall 2 1000 24)] s ∧
    bars_of (fresh_device 240 2) = s_bars s 2%nat.
Proof.
  destruct (driver_refines_atomic_calls decimal_scan False (λ c, c = WriteCall 2 1000 24) 240 ∅ _ _
    sample_history) as (s & Hs & Hfree).
  exists s. split; [exact Hs|]. apply Hfree; reflexivity.
Defined.

Lemma unaddressed_words_stay_witness :
  nthz (dmaBar (fresh_device 240 6)) 6 = 0 ∧
  addresses (WriteNoStructCall 6 1000 8 (2 * 2 ^ 60 + 16)) 6 5.
Proof.
  split.
  - apply (unaddressed_words_stay decimal_scan _ 240 ∅ _ 6 (fresh_device 240 6) 6 sample_writer);
      [reflexivity|reflexivity|lia|].
    intros c -> [_ Ha]. vm_compute in Ha. destruct (Ha eq_refl) as [_ Hlt]. discriminate.
  - split; [reflexivity|]. intros _. vm_compute. split; [discriminate|reflexivity].
Defined.

Lemma constants_in_every_interleaving_witness :
  shows_constants (fresh_device 240 2).
Proof.
  apply (constants_in_every_interleaving decimal_scan (λ c, c = WriteCall 2 1000 24) 240 ∅
    (sample_entered (WriteCall 2 1000 24)) 2 (fresh_device 240 2)).
  - exact (history_reachable _ _ _ _ _ _ _ sample_history).
  - reflexivity.
  - reflexivity.
  - discriminate.
Defined.
