(* ===== verification/Progress.v ===== *)
(** * Every call returns

    Termination of the concurrent driver of [Concurrency]. A thread inside the
    driver takes a [turn] when it performs an operation or leaves; between turns
    the user's memory may change, and every attempt to lock may be interrupted.
    Turns cannot go on for ever, whatever the threads do; and they only stop when
    all calls have returned, or at the one fault the driver has, a copy from beyond
    the end of a bar. So every schedule leads there ([inevitably]). *)

From S2P Require Import Prelude Abi Kernel UserMem Firmware ModuleInit Registers.
From S2P Require Import StructRW NoStructRW Ioctl OpenRelease Proc ProcDump Locking Concurrency.
Local Open Scope Z_scope.

(** ** The threads alone *)

(** What is left of a program after its next operation. *)
Definition next (p q : prog Z) : Prop :=
  match p with
  | Ret _ => False
  | Vis o k => ∃ x, q = k x
  end.

(** What a turn does to the threads, whatever the shared state answers. *)
Inductive threads_turn (T : gmap nat (prog Z)) : gmap nat (prog Z) → Prop :=
  | turn_operation t p q : T !! t = Some p → next p q → threads_turn T (<[t := q]> T)
  | turn_leave t r : T !! t = Some (Ret r) → threads_turn T (delete t T).

Definition turn_after (T' T : gmap nat (prog Z)) : Prop := threads_turn T T'.

(** One thread more does not matter: its program is a finite tree, and the
    others cannot interleave with it for ever. *)
Lemma turns_finite_insert t (p : prog Z) : ∀ T,
  Acc turn_after T → T !! t = None → Acc turn_after (<[t := p]> T).
Proof.
  assert (∀ p, (∀ q, next p q → ∀ T, Acc turn_after T → T !! t = None →
    Acc turn_after (<[t := q]> T)) → ∀ T, Acc turn_after T → T !! t = None →
    Acc turn_after (<[t := p]> T)) as Hstep.
  { clear p. intros p IH T HT. induction HT as [T HT IHT]. intros Ht. constructor.
    intros T' Hturn. inversion Hturn as [t' p' q Hlk Hq|t' r Hlk]; subst;
      destruct (decide (t = t')) as [<-|Hne].
    - rewrite lookup_insert_eq in Hlk. injection Hlk as ->. rewrite insert_insert_eq.
      by apply IH.
    - rewrite lookup_insert_ne in Hlk by done. rewrite insert_insert_ne by done.
      apply IHT; [by eapply turn_operation|by rewrite lookup_insert_ne].
    - by rewrite delete_insert_id.
    - rewrite lookup_insert_ne in Hlk by done. rewrite delete_insert_ne by done.
      apply IHT; [by eapply turn_leave|by rewrite lookup_delete_ne]. }
  induction p as [a|X o k IH]; apply Hstep; [done|]. intros q [x ->]. apply IH.
Qed.

Lemma turns_finite T : Acc turn_after T.
Proof.
  induction T as [|t p T Ht IH] using map_ind.
  - constructor. intros T' [t p q Hlk|t r Hlk]; by rewrite lookup_empty in Hlk.
  - by apply turns_finite_insert.
Qed.

(** ** The machine *)

Section Machine.
Context {U : Type} `{UserSpace U} `{ByteOrder} `{IoctlEncoding}.
Variable scan_i : list byte → option Z.
Variable made : driver_call → Prop.
Implicit Types m : machine (U:=U).

(** A thread inside the driver goes on, after the user's memory may have
    changed. *)
Definition turn (t : nat) m m' : Prop :=
  is_Some (threads m !! t) ∧
  ∃ u, step scan_i made (Some t) (Machine (threads m) (with_user u (shared m))) m'.

Lemma turn_threads t m m' : turn t m m' → threads_turn (threads m) (threads m').
Proof.
  intros [[p Hp] [u Hstep]]. remember (Machine (threads m) _) as m1 eqn:E1.
  remember (Some t) as l eqn:El.
  destruct Hstep as [t1 c m1 Hn|t1 X o k s x st' m1 Hlk E|t1 r m1 Hlk|u1 m1]; [..|done];
    injection El as ->; subst m1; cbn in *.
  - congruence.
  - apply (turn_operation _ t (Vis o k)); [done|by exists x].
  - by eapply turn_leave.
Qed.

(** [P] holds at some time on every way the threads can take. *)
Inductive inevitably (P : machine → Prop) m : Prop :=
  | inevitably_now : P m → inevitably P m
  | inevitably_later :
      (∃ t m', turn t m m') → (∀ t m', turn t m m' → inevitably P m') → inevitably P m.

(** What holds wherever the threads stop holds inevitably. *)
Lemma inevitably_stopped (I P : machine → Prop) :
  (∀ t m m', I m → turn t m m' → I m') →
  (∀ m, I m → P m ∨ ∃ t m', turn t m m') →
  ∀ m, I m → inevitably P m.
Proof.
  intros Hpres Hgo m Hm. remember (threads m) as T eqn:ET.
  revert m Hm ET. induction (turns_finite T) as [T _ IH]. intros m Hm ->.
  destruct (Hgo m Hm) as [HP|Hturn]; [by apply inevitably_now|].
  apply inevitably_later; [done|]. intros t m' Ht.
  by eapply IH; [by eapply turn_threads|by eapply Hpres|].
Qed.

Lemma turn_reachable major (u : U) t m m' :
  reachable scan_i made major u m → turn t m m' → reachable scan_i made major u m'.
Proof.
  intros Hr [_ [u' Hstep]]. unfold reachable in *.
  eapply rtc_r; [eapply rtc_r; [exact Hr|]|by exists (Some t)].
  exists None. apply step_user.
Qed.

(** A thread whose operation completes takes a turn, and so does one that leaves. *)
Lemma operation_turn m t {X} (o : kop X) k x st' :
  threads m !! t = Some (Vis o k) →
  step_op t o (with_signals [false] (shared m)) = Done (x, st') → ∃ m', turn t m m'.
Proof.
  intros Hlk E. eexists. split; [by eexists|]. exists (user (shared m)).
  replace (with_user _ _) with (shared m) by (by destruct m as [? []]). by eapply step_operation.
Qed.

Lemma leave_turn m t r : threads m !! t = Some (Ret r) → ∃ m', turn t m m'.
Proof.
  intros Hlk. eexists. split; [by eexists|]. exists (user (shared m)). by eapply step_leave.
Qed.
End Machine.

(** ** Properties *)

Section Properties.
Context {U : Type} `{UserSpace U} `{ByteOrder} `{IoctlEncoding}.
Variable scan_i : list byte → option Z.
Implicit Types m : machine (U:=U).

(** Termination. In no state of the machine, reachable or not, can the
    threads inside the driver take turns for ever: without new calls every
    interleaving is finite, whatever the signals and the changes of the user's
    memory. *)
Theorem turns_terminate (made : driver_call → Prop) :
  well_founded (λ m' m, ∃ t, turn scan_i made t m m').
Proof.
  intros m. remember (threads m) as T eqn:ET. revert m ET.
  induction (turns_finite T) as [T _ IH]. intros m ->. constructor. intros m' [t Ht].
  by eapply IH; [by eapply turn_threads|].
Qed.

(** A thread is about to copy from beyond the end of a bar to the user. *)
Definition overrun_next m : Prop :=
  ∃ t a d b i n (k : Z → prog Z), threads m !! t = Some (Vis (CopyBarToUser a d b i n) k) ∧
    ¬ (0 <= i ∧ 4 * i + n <= 4 * bar_words b).

Lemma overruns_next m t {X} (o : kop X) (k : X → prog Z) :
  threads m !! t = Some (Vis o k) → overruns o = true → overrun_next m.
Proof.
  intros Hlk Ho. destruct o as [| | | | | | | | | | |a d b i n| |]; try done.
  exists t, a, d, b, i, n, k. split; [done|]. cbn in Ho. lia.
Qed.

(** C14: every call returns. Whatever calls have been made, and whatever the threads
    have done since, every schedule of the threads inside the driver leads to the
    state where all calls have returned and all mutexes are free, unless a thread gets
    to copy from beyond the end of a bar. *)
Theorem calls_return (made : driver_call → Prop) (major : Z) (u : U) m
    (Hr : reachable scan_i made major u m) :
  inevitably scan_i made (λ m', threads m' = ∅ ∧ idle (shared m') ∨ overrun_next m') m.
Proof.
  revert m Hr. apply inevitably_stopped; [intros t m m'; apply turn_reachable|]. intros m Hr.
  pose proof (reachable_disciplined _ _ _ _ _ Hr) as Hinv.
  destruct (decide (threads m = ∅)) as [E|E].
  { left. left. split; [done|]. by eapply disciplined_quiet. }
  assert (∀ u a n, copied any_op a n (copy_from_user (U:=U) u a n).1 (copy_from_user u a n).2)
    as Hcopies by done.
  destruct (disciplined_progress any_op (λ _, True) (λ u a n _, Hcopies u a n) m Hinv I E)
    as [t Hgo].
  pose proof Hgo as (p & Hlk & Hstep). destruct p as [r|X o k].
  { right. exists t. by eapply leave_turn. }
  destruct (disciplined_operation any_op (λ _, True) (λ u a n _, Hcopies u a n) m t o k false
    Hinv I Hlk) as (h & Hs & _).
  destruct (step_op t o (with_signals [false] (shared m))) as [[x st']| |reason] eqn:Eo; [|done|].
  - right. exists t. by eapply operation_turn.
  - left. right. by eapply overruns_next; [|apply Hs].
Qed.
End Properties.

(** ** Example *)

#[local] Existing Instance little_endian.
#[local] Existing Instance asm_generic_ioctl.

Lemma calls_return_witness :
  inevitably decimal_scan any_call
    (λ m', threads m' = ∅ ∧ idle (shared m') ∨ overrun_next m')
    (sample_entered (ReadCall 2 1000 24)).
Proof.
  apply (calls_return decimal_scan any_call 240 ∅). apply sample_entered_reachable; [|exact I].
  unfold valid_call, is_device. lia.
Defined.
