(* ===== verification/Process.v ===== *)
(** * A process that uses the driver

    The system calls of one process on the driver's devices, as functions on the
    [system] of [Driver]: [open] looks the device node up and dispatches through
    the table of its device, [read], [write], [pread] and [pwrite] through the
    table of an open file. A program of the process ([client]) makes such calls,
    accesses its own memory and may throw an exception. Every run of such a
    program is a sequence of the steps of [Driver] ([stays_reachable]). *)

From S2P Require Import Prelude Abi Kernel UserMem Firmware ModuleInit Registers.
From S2P Require Import StructRW NoStructRW Ioctl OpenRelease Proc ProcDump Locking.
From S2P Require Import Concurrency Driver.
Local Open Scope Z_scope.

(** ** Device nodes *)

Definition MTCADUMMY_NAME : string := "mtcadummy".
Definition LLRFDUMMY_NAME : string := "llrfdummy".
Definition NOIOCTLDUMMY_NAME : string := "noioctldummy".
Definition PCIEUNIDUMMY_NAME : string := "pcieunidummy".

(** The name [mtcaDummy_init_module] gives to device [i]: the chosen name
    followed by [s%d]. *)
Definition device_name (i : nat) : string :=
  match i with
  | 4%nat => LLRFDUMMY_NAME
  | 5%nat => NOIOCTLDUMMY_NAME
  | 6%nat => PCIEUNIDUMMY_NAME
  | _ => MTCADUMMY_NAME
  end +:+ "s" +:+ fmt_d (Z.of_nat i).

(** The device whose node has the path [path]. *)
Definition device_at (path : string) : option nat :=
  list_find (λ i, "/dev/" +:+ device_name i = path) (seq 0 7) ≫= λ '(_, i), Some i.

(** ** Memory of the process *)

Section Memory.
Context {U : Type} `{UserSpace U}.
Implicit Types u : U.

(** The [n] bytes at [a]. *)
Definition within (a n : Z) (x : Z) : Prop := a <= x < a + n.

(** The process can read and write the [n] bytes at [a]. *)
Definition accessible u (a n : Z) : Prop :=
  ∀ x, within a n x → is_Some (user_byte u x) ∧ user_writable u x = true.

Definition bytes_at u (a : Z) (bs : list byte) : Prop :=
  ∀ i b, bs !! i = Some b → user_byte u (a + Z.of_nat i) = Some b.

(** No byte outside [P] has changed, and what was accessible still is. *)
Definition changes_only (P : Z → Prop) (u u' : U) : Prop :=
  (∀ x, ¬ P x → user_byte u' x = user_byte u x) ∧
  (∀ x, user_writable u' x = user_writable u x) ∧
  (∀ x, is_Some (user_byte u x) → is_Some (user_byte u' x)).

#[export] Instance changes_only_preorder P : PreOrder (changes_only P).
Proof.
  split; [intros u; by split_and!|]. intros u1 u2 u3 (H1&H2&H3) (H1'&H2'&H3').
  split_and!; intros; [rewrite H1', H1|rewrite H2', H2|apply H3', H3]; done.
Qed.

Lemma changes_only_mono (P Q : Z → Prop) u u' :
  (∀ x, P x → Q x) → changes_only P u u' → changes_only Q u u'.
Proof. intros HPQ (H1&H2&H3). split_and!; [|done..]. intros x Hx. apply H1. auto. Qed.

Lemma accessible_changed P u u' a n :
  changes_only P u u' → accessible u a n → accessible u' a n.
Proof.
  intros (_&H2&H3) Ha x Hx. destruct (Ha x Hx) as [Hr Hw]. split; [by apply H3|by rewrite H2].
Qed.

Lemma accessible_within u a n a' n' :
  accessible u a n → a <= a' → a' + n' <= a + n → accessible u a' n'.
Proof. intros Ha ?? x Hx. apply Ha. unfold within in *. lia. Qed.

Lemma bytes_at_changed P u u' a bs :
  changes_only P u u' → (∀ x, within a (Z.of_nat (length bs)) x → ¬ P x) →
  bytes_at u a bs → bytes_at u' a bs.
Proof.
  intros (H1&_) HP Hb i b Hi. rewrite H1; [by apply Hb|].
  apply HP. apply lookup_lt_Some in Hi. unfold within. lia.
Qed.

Lemma bytes_at_app u a bs bs' :
  bytes_at u a (bs ++ bs') ↔ bytes_at u a bs ∧ bytes_at u (a + Z.of_nat (length bs)) bs'.
Proof.
  split.
  - intros Hb. split; intros i b Hi.
    + apply Hb. by apply lookup_app_l_Some.
    + replace (a + Z.of_nat (length bs) + Z.of_nat i) with (a + Z.of_nat (length bs + i)) by lia.
      apply Hb. by rewrite lookup_app_r, Nat.add_sub' by lia.
  - intros [H1 H2] i b Hi. apply lookup_app_Some in Hi as [Hi|[Hl Hi]]; [by apply H1|].
    specialize (H2 _ _ Hi).
    by replace (a + Z.of_nat (length bs) + Z.of_nat (i - length bs)) with (a + Z.of_nat i)
      in H2 by lia.
Qed.

(** Storing into accessible memory. *)
Lemma store_accessible u a bs :
  accessible u a (Z.of_nat (length bs)) →
  ∃ u', copy_to_user u a bs = (u', 0) ∧ bytes_at u' a bs ∧
    changes_only (within a (Z.of_nat (length bs))) u u'.
Proof.
  intros Ha. pose proof (copy_to_user_ok u a bs) as Hz.
  pose proof (copy_to_user_byte u a bs) as Hb. pose proof (copy_to_user_writable u a bs) as Hw.
  destruct (copy_to_user u a bs) as [u' nleft]. cbn [fst snd] in *.
  rewrite Hz in * by (intros i Hi; apply Ha; unfold within; lia).
  exists u'. unfold changes_only, within. split_and!; [done| | |done|].
  - intros i b Hi. pose proof (lookup_lt_Some _ _ _ Hi). rewrite Hb.
    replace ((0 <=? _) && _) with true by lia. rewrite <-Hi. f_equal. lia.
  - intros x Hx. rewrite Hb. by replace ((0 <=? _) && _) with false by lia.
  - intros x Hx. rewrite Hb. destruct (_ && _) eqn:E; [|done]. apply lookup_lt_is_Some. lia.
Qed.

(** Loading from memory whose content is known. *)
Lemma load_known u a bs n :
  bytes_at u a bs → n = length bs → copy_from_user u a n = (bs, 0).
Proof.
  intros Hb ->. pose proof (copy_from_user_length u a (length bs)) as Hn.
  pose proof (copy_from_user_ok u a (length bs)) as Hz.
  pose proof (copy_from_user_copied u a (length bs)) as Hc.
  destruct (copy_from_user u a (length bs)) as [bs' nleft]. cbn [fst snd] in *.
  assert (∀ i, (i < length bs)%nat → user_byte u (a + Z.of_nat i) = bs !! i) as Hb'.
  { intros i Hi. destruct (lookup_lt_is_Some_2 bs i Hi) as [b Hbi]. rewrite Hbi. by apply Hb. }
  rewrite Hz in * by (intros i Hi; rewrite Hb' by done; by apply lookup_lt_is_Some).
  f_equal. apply list_eq. intros i. destruct (decide (i < length bs)%nat) as [Hi|Hi].
  - rewrite <-Hc by lia. by apply Hb'.
  - by rewrite !lookup_ge_None_2 by lia.
Qed.
End Memory.

(** ** Programs of the process *)

(** How a computation ends: with a value, with an exception, or with a
    segmentation fault. *)
Inductive completion (A : Type) : Type :=
  | Returned (a : A)
  | Thrown (what : string)
  | Crashed.
Arguments Returned {_}.
Arguments Thrown {_}.
Arguments Crashed {_}.

Section Client.
Context {U : Type} `{UserSpace U} `{ByteOrder} `{IoctlEncoding} `{Vfs}.
Definition client (A : Type) : Type :=
  system (U:=U) → outcome (completion A * system (U:=U)).

#[export] Instance client_ret : MRet client := λ A a s, Done (Returned a, s).
#[export] Instance client_bind : MBind client := λ A B f c s,
  match c s with
  | Done (Returned a, s') => f a s'
  | Done (Thrown what, s') => Done (Thrown what, s')
  | Done (Crashed, s') => Done (Crashed, s')
  | Blocked => Blocked
  | Oops r => Oops r
  end.

Definition throw {A} (what : string) : client A := λ s, Done (Thrown what, s).

Definition memory (s : system (U:=U)) : U := user (kernel s).
Definition with_memory (u : U) (s : system (U:=U)) : system (U:=U) :=
  System (with_user u (kernel s)) (files s).
Definition with_device (d : nat) (dev : mtcaDummyData) (s : system (U:=U)) :
    system (U:=U) :=
  System (upd_dev d dev (kernel s)) (files s).

(** The accesses of the process to its own memory. *)
Definition store_bytes (a : Z) (bs : list byte) : client unit := λ s,
  let '(u, nleft) := copy_to_user (memory s) a bs in
  Done (if nleft =? 0 then Returned tt else Crashed, with_memory u s).

Definition load_bytes (a : Z) (n : nat) : client (list byte) := λ s,
  let '(bs, nleft) := copy_from_user (memory s) a n in
  Done (if nleft =? 0 then Returned bs else Crashed, s).

(** *** System calls *)

(** The C library turns an error of the kernel into -1. *)
Definition libc_result (ret : Z) : Z := if ret <? 0 then -1 else ret.

(** A driver function called for the process, whose thread is number 0. *)
Definition enter {A} (p : prog A) (fs : A → gmap nat file → gmap nat file) (ret : A → Z) :
    client Z := λ s,
  match exec 0 p (kernel s) with
  | Done (a, k) => Done (Returned (libc_result (ret a)), System k (fs a (files s)))
  | Blocked => Blocked
  | Oops r => Oops r
  end.

(** A call on an open file: [null] is the answer when the table has no entry. *)
Definition on_file {Op} (fd : nat) (entry : file_operations → option Op) (null : Z)
    (run : file → nat → Op → client Z) : client Z := λ s,
  match files s !! fd with
  | None => Done (Returned (-1), s)
  | Some f =>
      match table (kernel s) (f_device f) ≫= entry, private_data f with
      | None, _ => Done (Returned (libc_result null), s)
      | Some op, Some p => run f p op s
      | Some op, None => Oops BadDevice
      end
  end.

(** What the kernel passes on as count and position. *)
Definition valid_position (pos : Z) : bool := (0 <=? pos) && (pos <=? LOFF_MAX).

Definition transfer (fd : nat) (f : file) (p : nat) (op : nat → Z → Z → Z → prog (Z * Z))
    (buf count pos : Z) (keep : bool) : client Z :=
  if valid_position pos && (0 <=? count) then
    enter (op p buf (Z.min count MAX_RW_COUNT) pos)
      (λ '(_, pos'), insert fd (File (f_device f) (Some p) (if keep then f_pos f else pos')))
      fst
  else mret (-1).

Definition libc_read (fd : nat) (buf count : Z) : client Z :=
  on_file fd fop_read no_read (λ f p op, transfer fd f p op buf count (f_pos f) false).
Definition libc_write (fd : nat) (buf count : Z) : client Z :=
  on_file fd fop_write no_write (λ f p op, transfer fd f p op buf count (f_pos f) false).
Definition libc_pread (fd : nat) (buf count pos : Z) : client Z :=
  on_file fd fop_read no_read (λ f p op, transfer fd f p op buf count pos true).
Definition libc_pwrite (fd : nat) (buf count pos : Z) : client Z :=
  on_file fd fop_write no_write (λ f p op, transfer fd f p op buf count pos true).

(** The lowest free descriptor; 0, 1 and 2 are the standard streams. *)
Definition free_fd (fs : gmap nat file) : nat :=
  default 3%nat (head (filter (λ fd, fs !! fd = None) (seq 3 (S (size fs))))).

Definition libc_open (path : string) : client Z := λ s,
  match device_at path with
  | None => Done (Returned (-1), s)
  | Some d =>
      let fd := free_fd (files s) in
      match fop_open <$> table (kernel s) d with
      | None => Done (Returned (-1), s)
      | Some None =>
          Done (Returned (Z.of_nat fd), System (kernel s) (<[fd := File d None 0]> (files s)))
      | Some (Some op) =>
          enter (op d)
            (λ '(ret, pd) fs, if ret =? 0 then <[fd := File d pd 0]> fs else fs)
            (λ '(ret, _), if ret =? 0 then Z.of_nat fd else ret) s
      end
  end.

Definition libc_close (fd : nat) : client Z :=
  λ s, match files s !! fd with
       | None => Done (Returned (-1), s)
       | Some f =>
           match fop_release <$> table (kernel s) (f_device f), private_data f with
           | Some None, _ => Done (Returned 0, System (kernel s) (delete fd (files s)))
           | Some (Some op), Some p => enter (op p) (λ _, delete fd) (λ _, 0) s
           | _, _ => Oops BadDevice
           end
       end.

(** *** Running programs *)

Lemma bind_returned {A B} (c : client A) (f : A → client B) s a s' :
  c s = Done (Returned a, s') → (c ≫= f) s = f a s'.
Proof. intros E. unfold mbind, client_bind. by rewrite E. Qed.

Lemma bind_thrown {A B} (c : client A) (f : A → client B) s what s' :
  c s = Done (Thrown what, s') → (c ≫= f) s = Done (Thrown what, s').
Proof. intros E. unfold mbind, client_bind. by rewrite E. Qed.

Lemma with_memory_memory s : with_memory (memory s) s = s.
Proof. by destruct s as [[]]. Qed.

Lemma run_store a bs s :
  accessible (memory s) a (Z.of_nat (length bs)) →
  ∃ u, store_bytes a bs s = Done (Returned tt, with_memory u s) ∧ bytes_at u a bs ∧
    changes_only (within a (Z.of_nat (length bs))) (memory s) u.
Proof.
  intros Ha. destruct (store_accessible _ _ _ Ha) as (u & E & Hb & Hc).
  exists u. unfold store_bytes. by rewrite E.
Qed.

Lemma run_load a bs n s :
  bytes_at (memory s) a bs → n = length bs → load_bytes a n s = Done (Returned bs, s).
Proof. intros Hb Hn. unfold load_bytes. by rewrite (load_known _ _ _ _ Hb Hn). Qed.

(** *** Runs are sequences of system steps *)

Lemma exec_signals_nil {A} t (p : prog A) st a st' :
  signals st = [] → exec t p st = Done (a, st') → signals st' = [].
Proof.
  revert st. induction p as [a'|X o k IH]; intros st Hs; cbn [exec]; [by intros [= _ <-]|].
  destruct (step_op t o st) as [[x st1]| |] eqn:E; cbn [outcome_bind]; [|done..].
  apply IH. clear IH.
  destruct o as [m|m|f|f b|d k'|d|d|d b i|d b i v|x' n|x' bs|x' d b i n|d b i x'|x' n];
    cbn [step_op] in E; unfold step_lock, step_unlock, on_bar, on_dev in E.
  1: { destruct (owner m st); [|done]. rewrite Hs in E. cbn in E.
       destruct o; [done|]. injection E as _ <-. by destruct m. }
  1: { destruct (owner m st); [|done]. destruct (decide _); [|done].
       injection E as _ <-. by destruct m. }
  all: repeat match type of E with
    | context [match ?e with _ => _ end] => destruct e
    end; simplify_eq; done.
Qed.

Lemma completes_exec {A} (p : prog A) k a k' :
  signals k = [] → exec 0 p k = Done (a, k') → completes p k a k'.
Proof.
  intros Hs E. exists 0%nat, [], k'. destruct k as [ds c o u sg], k' as [ds' c' o' u' sg'].
  cbn in Hs. subst sg.
  pose proof (exec_signals_nil 0 p (KState ds c o u []) a _ eq_refl E) as Hs'. cbn in Hs'.
  by subst sg'.
Qed.

Context (scan_i : list byte → option Z).

(** The system can have reached this state, and no signal is pending. *)
Definition live (major : Z) (u : U) (s : system (U:=U)) : Prop :=
  sys_reachable scan_i major u s ∧ signals (kernel s) = [].

(** A program that takes the system from states it can reach to others. *)
Definition stays_reachable {A} (c : client A) : Prop :=
  ∀ major u s r s', live major u s → c s = Done (r, s') → live major u s'.

Lemma stays_ret {A} (a : A) : stays_reachable (mret a).
Proof. by intros ????? Hl [= _ <-]. Qed.

Lemma stays_throw {A} what : stays_reachable (throw (A:=A) what).
Proof. by intros ????? Hl [= _ <-]. Qed.

Lemma stays_bind {A B} (c : client A) (f : A → client B) :
  stays_reachable c → (∀ a, stays_reachable (f a)) → stays_reachable (c ≫= f).
Proof.
  intros Hc Hf major u s r s' Hl. unfold mbind, client_bind.
  destruct (c s) as [[[a|what|] s1]| |] eqn:E; [..|done|done].
  - apply Hf. by eapply Hc.
  - intros [= <- <-]. by eapply Hc.
  - intros [= <- <-]. by eapply Hc.
Qed.

Lemma live_step major u e s s' :
  live major u s → sys_step scan_i e s s' → signals (kernel s') = [] → live major u s'.
Proof. intros [Hr _] Hs Hn. split; [|done]. eapply rtc_r; [done|]. by exists e. Qed.

Lemma stays_store a bs : stays_reachable (store_bytes a bs).
Proof.
  intros major u s r s' Hl. unfold store_bytes. destruct (copy_to_user _ _ _) as [u' nleft].
  intros [= _ <-]. eapply live_step; [done| |apply Hl]. destruct s. apply sys_user.
Qed.

Lemma stays_load a n : stays_reachable (load_bytes a n).
Proof.
  intros major u s r s' Hl. unfold load_bytes. destruct (copy_from_user _ _ _).
  by intros [= _ <-].
Qed.

(** A call of a driver function, given the step it is. *)
Lemma live_enter {A} (p : prog A) fs ret major u s r s' :
  (∀ a k, completes p (kernel s) a k →
     rtc (sys_any_step scan_i) s (System k (fs a (files s)))) →
  live major u s → enter p fs ret s = Done (r, s') → live major u s'.
Proof.
  intros Hstep [Hr Hs]. unfold enter. destruct (exec 0 p (kernel s)) as [[a k]| |] eqn:E; [|done..].
  intros [= _ <-]. pose proof (exec_signals_nil _ _ _ _ _ Hs E).
  split; [|done]. unfold sys_reachable in *. etrans; [exact Hr|]. by apply Hstep, completes_exec.
Qed.

(** Seeking, which a call with an explicit position amounts to. *)
Lemma seek_step s fd f pos :
  files s !! fd = Some f →
  sys_any_step scan_i s (System (kernel s) (<[fd := File (f_device f) (private_data f) pos]> (files s))).
Proof. intros Hf. exists Environment. destruct s. by apply sys_seek. Qed.

Lemma stays_on_file {Op} fd (entry : file_operations → option Op) null run :
  (∀ major u s f p op r s', live major u s → files s !! fd = Some f → private_data f = Some p →
     table (kernel s) (f_device f) ≫= entry = Some op →
     run f p op s = Done (r, s') → live major u s') →
  stays_reachable (on_file fd entry null run).
Proof.
  intros Hrun major u s r s' Hl. unfold on_file.
  destruct (files s !! fd) as [f|] eqn:Ef; [|by intros [= _ <-]].
  destruct (table _ _ ≫= entry) as [op|] eqn:Et; [|by intros [= _ <-]].
  destruct (private_data f) as [p|] eqn:Ep; [|done]. by apply (Hrun major u s f).
Qed.

(** Reads and writes share their proof: [step] is the constructor. *)
Lemma live_transfer fd f p op buf count pos keep major u s r s' :
  (∀ k ret pos' k' (fs : gmap nat file) f',
     fs !! fd = Some f' → f_device f' = f_device f → private_data f' = Some p →
     f_pos f' = pos → k = kernel s → 0 <= pos <= LOFF_MAX → 0 <= count →
     completes (op p buf (Z.min count MAX_RW_COUNT) pos) k (ret, pos') k' →
     sys_any_step scan_i (System k fs)
       (System k' (<[fd := File (f_device f) (Some p) pos']> fs))) →
  files s !! fd = Some f → private_data f = Some p → (keep = false → pos = f_pos f) →
  live major u s → transfer fd f p op buf count pos keep s = Done (r, s') → live major u s'.
Proof.
  intros Hstep Hf Hp Hpos Hl. unfold transfer. destruct (_ && _) eqn:Ev; [|by intros [= _ <-]].
  apply andb_true_iff in Ev as [[H0' H1']%andb_true_iff Hc].
  apply live_enter; [|done]. intros [ret pos'] k' Hcomp.
  destruct keep.
  - pose proof (seek_step s fd f pos Hf) as Hseek.
    eapply rtc_l; [exact Hseek|]. eapply rtc_l; [eapply Hstep; [by apply lookup_insert_eq|done|done|
      done|done|lia|lia|exact Hcomp]|].
    eapply rtc_l; [eapply (seek_step _ fd _ (f_pos f)); by apply lookup_insert_eq|].
    cbn. rewrite !insert_insert_eq. reflexivity.
  - apply rtc_once. destruct s as [k fs].
    eapply (Hstep k ret pos' k' fs f); try done; [symmetry; by apply Hpos|lia|lia].
Qed.

Lemma read_step fd buf count s f p op ret pos k' :
  files s !! fd = Some f → private_data f = Some p →
  table (kernel s) (f_device f) ≫= fop_read = Some op →
  0 <= f_pos f <= LOFF_MAX → 0 <= count →
  completes (op p buf (Z.min count MAX_RW_COUNT) (f_pos f)) (kernel s) (ret, pos) k' →
  sys_any_step scan_i s (System k' (<[fd := File (f_device f) (Some p) pos]> (files s))).
Proof.
  intros Hf Hp Hop ?? Hcomp. exists (DidRead fd ret).
  destruct (table _ _) as [ops|] eqn:Et; [|done]. destruct s as [k fs].
  eapply sys_read; try done. unfold MAX_RW_COUNT. lia.
Qed.

Lemma write_step fd buf count s f p op ret pos k' :
  files s !! fd = Some f → private_data f = Some p →
  table (kernel s) (f_device f) ≫= fop_write = Some op →
  0 <= f_pos f <= LOFF_MAX → 0 <= count →
  completes (op p buf (Z.min count MAX_RW_COUNT) (f_pos f)) (kernel s) (ret, pos) k' →
  sys_any_step scan_i s (System k' (<[fd := File (f_device f) (Some p) pos]> (files s))).
Proof.
  intros Hf Hp Hop ?? Hcomp. exists (DidWrite fd ret).
  destruct (table _ _) as [ops|] eqn:Et; [|done]. destruct s as [k fs].
  eapply sys_write; try done. unfold MAX_RW_COUNT. lia.
Qed.

(** The four transfers differ in the step they amount to. *)
Ltac solve_transfer step :=
  apply stays_on_file; intros major u s f p op r s' Hl Hf Hp Hop; apply live_transfer; [|done..];
  intros k ret pos' k' fs f' Hf' Hd Hp' <- -> ?? Hcomp; rewrite <-Hd in *;
  by eapply (step _ _ _ (System (kernel s) fs)).

Lemma stays_libc_read fd buf count : stays_reachable (libc_read fd buf count).
Proof. solve_transfer read_step. Qed.

Lemma stays_libc_pread fd buf count pos : stays_reachable (libc_pread fd buf count pos).
Proof. solve_transfer read_step. Qed.

Lemma stays_libc_write fd buf count : stays_reachable (libc_write fd buf count).
Proof. solve_transfer write_step. Qed.

Lemma stays_libc_pwrite fd buf count pos : stays_reachable (libc_pwrite fd buf count pos).
Proof. solve_transfer write_step. Qed.

Lemma free_fd_free fs : fs !! free_fd fs = None.
Proof.
  unfold free_fd. destruct (filter (λ fd, fs !! fd = None) (seq 3 (S (size fs)))) as [|fd l] eqn:E.
  - exfalso. assert (seq 3 (S (size fs)) ⊆+ elements (dom fs)) as Hs%submseteq_length.
    { apply NoDup_submseteq; [apply NoDup_seq|]. intros x Hx. rewrite elem_of_elements.
      apply elem_of_dom. destruct (fs !! x) eqn:Ex; [done|].
      assert (x ∈ filter (λ fd, fs !! fd = None) (seq 3 (S (size fs)))) as Hin
        by by apply list_elem_of_filter.
      rewrite E in Hin. by apply not_elem_of_nil in Hin. }
    rewrite length_seq in Hs. change (length (elements (dom fs))) with (size (dom fs)) in Hs.
    rewrite size_dom in Hs. lia.
  - cbn. assert (fd ∈ filter (λ fd, fs !! fd = None) (seq 3 (S (size fs)))) as Hin
      by (rewrite E; apply list_elem_of_here).
    by apply list_elem_of_filter in Hin as [? _].
Qed.

Lemma stays_libc_open path : stays_reachable (libc_open path).
Proof.
  intros major u s r s' Hl. unfold libc_open. destruct (device_at path) as [d|].
  2: { by intros [= _ <-]. }
  destruct (table (kernel s) d) as [ops|] eqn:Et; cbn [fmap option_fmap option_map].
  2: { by intros [= _ <-]. }
  pose proof (free_fd_free (files s)) as Hfree.
  destruct (fop_open ops) as [op|] eqn:Eop.
  - apply live_enter; [|done]. intros [ret pd] k Hcomp. apply rtc_once.
    exists (Opened (free_fd (files s)) d ret). destruct s as [k0 fs]. by eapply sys_open.
  - intros [= _ <-]. eapply (live_step _ _ (Opened (free_fd (files s)) d 0)); [done| |apply Hl].
    destruct s as [k0 fs]. by eapply sys_open_null.
Qed.

Lemma stays_libc_close fd : stays_reachable (libc_close fd).
Proof.
  intros major u s r s' Hl. unfold libc_close. destruct (files s !! fd) as [f|] eqn:Ef.
  2: { by intros [= _ <-]. }
  destruct (table (kernel s) (f_device f)) as [ops|] eqn:Et; cbn [fmap option_fmap option_map];
    [|done].
  destruct (fop_release ops) as [op|] eqn:Eop.
  - destruct (private_data f) as [p|] eqn:Ep; [|done]. apply live_enter; [|done].
    intros ret k Hcomp. apply rtc_once. exists (Closed fd). destruct s as [k0 fs].
    by eapply sys_close.
  - intros [= _ <-]. eapply (live_step _ _ (Closed fd)); [done| |apply Hl].
    destruct s as [k0 fs]. by eapply sys_close_null.
Qed.
End Client.

(** ** The concrete memory *)

Lemma umem_put_mapped bs : ∀ a m x,
  within a (Z.of_nat (length bs)) x → is_mapped (umem_put a bs m) x = true.
Proof.
  unfold within. induction bs as [|b bs IH]; intros a m x Hx; cbn [length umem_put] in *; [lia|].
  unfold is_mapped. apply bool_decide_eq_true. destruct (decide (x = a)) as [->|].
  - rewrite lookup_insert_eq. by eexists.
  - rewrite lookup_insert_ne by done.
    eapply bool_decide_eq_true, IH. lia.
Qed.

Lemma umem_put_accessible a bs m a' n :
  a <= a' → a' + n <= a + Z.of_nat (length bs) → accessible (umem_put a bs m) a' n.
Proof.
  intros Ha Hn x Hx. unfold within in Hx.
  assert (is_mapped (umem_put a bs m) x = true) as Hm
    by (apply umem_put_mapped; unfold within; lia).
  split; [|exact Hm]. unfold is_mapped in Hm. by apply bool_decide_eq_true in Hm.
Qed.
