(* ===== verification/Returns.v ===== *)
(** * What the calls return

    A logic for the results of the driver's programs ([results]), in which the
    answers to the operations are any that some state can give ([may_answer]): what it shows
    of a call holds however the call is interleaved with others. It yields that a
    call which asks to be restarted has done nothing yet. The end of the file shows
    what a DMA request does that asks for more than the count of the call. *)

From S2P Require Import Prelude Abi Kernel UserMem Firmware ModuleInit Registers.
From S2P Require Import StructRW NoStructRW Ioctl OpenRelease Proc ProcDump Locking Concurrency.
From S2P Require Import Process.
Local Open Scope Z_scope.

(** ** The logic *)

(** Operations that change what outlives the call: the devices, the flags, the
    user's memory. Taking and releasing mutexes does not count. *)
Definition writes {X} (o : kop X) : bool :=
  match o with
  | ControlSet _ _ | AtomicAdd _ _ | BarStore _ _ _ _ | CopyToUser _ _
  | CopyBarToUser _ _ _ _ _ | CopyUserToBar _ _ _ _ => true
  | _ => false
  end.

Section Logic.
Context {U : Type} `{UserSpace U} `{ByteOrder}.

(** The sizes of the bars, which no operation changes. *)
Definition shaped (st : kstate U) : Prop :=
  Forall (λ dev, length (systemBar dev) = 32%nat ∧ length (dmaBar dev) = 1024%nat) (devs st).

(** Some state of the driver gives this answer to the operation. *)
Definition may_answer {X} (o : kop X) (x : X) : Prop :=
  ∃ t (st st' : kstate U), shaped st ∧ step_op t o st = Done (x, st').

(** A run of a program to its end, with any such answers: whether it wrote
    anything, and what it returns. *)
Inductive runs {A} : prog A → bool → A → Prop :=
  | runs_ret a : runs (Ret a) false a
  | runs_op {X} (o : kop X) (k : X → prog A) x w a :
      may_answer o x → runs (k x) w a → runs (Vis o k) (writes o || w) a.

(** Every run that follows what is already written ([w]) ends in [Q]. *)
Fixpoint results {A} (w : bool) (p : prog A) (Q : bool → A → Prop) : Prop :=
  match p with
  | Ret a => Q w a
  | Vis o k => ∀ x, may_answer o x → results (w || writes o) (k x) Q
  end.

Lemma results_runs {A} (p : prog A) Q w' a :
  runs p w' a → ∀ w, results w p Q → Q (w || w') a.
Proof.
  induction 1 as [a|X o k x w1 a Hx _ IH]; intros w Hp.
  - by rewrite orb_false_r.
  - rewrite orb_assoc. by apply IH, Hp.
Qed.

Lemma results_bind {A B} (p : prog A) (f : A → prog B) Q : ∀ w,
  results w p (λ w' a, results w' (f a) Q) → results w (p ≫= f) Q.
Proof.
  induction p as [a|X o k IH]; intros w Hp; [done|]. intros x Hx. by apply IH, Hp.
Qed.

Lemma results_mono {A} (p : prog A) (Q Q' : bool → A → Prop) :
  (∀ w a, Q w a → Q' w a) → ∀ w, results w p Q → results w p Q'.
Proof.
  intros HQ. induction p as [a|X o k IH]; intros w Hp; [by apply HQ|].
  intros x Hx. by apply IH, Hp.
Qed.

(** Where the result and the writes of a part do not matter. *)
Lemma results_any {A B} (p : prog A) (f : A → prog B) Q : ∀ w,
  (∀ w' a, results w' (f a) Q) → results w (p ≫= f) Q.
Proof. induction p as [a|X o k IH]; intros w Hf; [apply Hf|]. intros x _. by apply IH. Qed.

(** What outlives a call: everything but the mutexes and the pending signals. *)
Definition untouched (st st' : kstate U) : Prop :=
  set_owner None <$> devs st' = set_owner None <$> devs st ∧
  control st' = control st ∧ user st' = user st.

#[local] Instance untouched_preorder : PreOrder untouched.
Proof.
  unfold untouched. split; [by intros st|]. intros st1 st2 st3 (?&?&?) (?&?&?). split_and!; congruence.
Qed.

Lemma shaped_upd_dev d dev dev' st :
  shaped st → devs st !! d = Some dev →
  length (systemBar dev') = length (systemBar dev) → length (dmaBar dev') = length (dmaBar dev) →
  shaped (upd_dev d dev' st).
Proof.
  intros Hs Hd Hl1 Hl2. apply Forall_insert; [done|]. rewrite Hl1, Hl2.
  by eapply Forall_lookup_1 in Hs.
Qed.

Lemma shaped_set_mutex m o st : shaped st → shaped (set_mutex m o st).
Proof.
  intros Hs. destruct m as [|d]; [done|]. cbn. apply Forall_alter; [done|]. by intros ? ? [].
Qed.

Lemma untouched_set_mutex m o st : untouched st (set_mutex m o st).
Proof.
  unfold untouched. destruct m as [|d]; [done|]. split_and!; [|done..]. cbn. apply list_eq. intros i.
  rewrite !list_lookup_fmap. destruct (decide (i = d)) as [->|Hne].
  - rewrite list_lookup_alter_eq. by destruct (devs st !! d).
  - by rewrite list_lookup_alter_ne.
Qed.

Lemma step_op_kept {X} t (o : kop X) st x st' :
  shaped st → step_op t o st = Done (x, st') →
  shaped st' ∧ (writes o = false → untouched st st').
Proof.
  intros Hs E. destruct o as [m|m|f|f b|d k'|d|d|d b i|d b i v|a n|a bs|a d b i n|d b i a|a n];
    cbn [step_op] in E; unfold step_lock, step_unlock, on_bar, on_dev in E.
  - destruct (owner m st) as [ow|]; [|done].
    destruct (default false (head (signals st))); [by injection E as _ <-|].
    destruct ow; [done|]. injection E as _ <-.
    split; [by apply shaped_set_mutex|]. intros _.
    by etrans; [|apply untouched_set_mutex].
  - destruct (owner m st) as [ow|]; [|done]. destruct (decide _); [|done]. injection E as _ <-.
    split; [by apply shaped_set_mutex|]. intros _. apply untouched_set_mutex.
  - destruct (decide _); by simplify_eq.
  - destruct (decide _); by simplify_eq.
  - destruct (devs st !! d) as [dev|] eqn:Ed; simplify_eq. split; [|done].
    by eapply shaped_upd_dev.
  - destruct (devs st !! d); by simplify_eq.
  - destruct (devs st !! d); by simplify_eq.
  - destruct (devs st !! d); [|done]. destruct (decide _); [|done].
    destruct (_ && _); by simplify_eq.
  - destruct (devs st !! d) as [dev|] eqn:Ed; [|done]. destruct (decide _); [|done].
    destruct (_ && _); simplify_eq. split; [|done].
    eapply shaped_upd_dev; [done..| |]; destruct b; cbn; by rewrite ?length_setz.
  - by simplify_eq.
  - destruct (copy_to_user _ _ _). by simplify_eq.
  - destruct (devs st !! d); [|done]. destruct (decide _); [|done].
    destruct (_ && _); [|done]. destruct (copy_to_user _ _ _). by simplify_eq.
  - destruct (devs st !! d) as [dev|] eqn:Ed; [|done]. destruct (decide _); [|done].
    destruct (_ && _); [|done]. destruct (copy_from_user _ _ _). simplify_eq. split; [|done].
    eapply shaped_upd_dev; [done..| |]; destruct b; cbn; by rewrite ?length_setz.
  - by simplify_eq.
Qed.

(** A run without interference is one of the runs, and touches nothing when it
    writes nothing. *)
Lemma exec_runs {A} t (p : prog A) : ∀ st a st',
  shaped st → exec t p st = Done (a, st') →
  ∃ w, runs p w a ∧ (w = false → untouched st st').
Proof.
  induction p as [a|X o k IH]; intros st a' st' Hs E; cbn [exec] in E.
  { injection E as -> ->. exists false. split; [constructor|done]. }
  destruct (step_op t o st) as [[x st1]| |] eqn:Eo; cbn [outcome_bind] in E; [|done..].
  destruct (step_op_kept t o st x st1 Hs Eo) as [Hs1 Hw1].
  destruct (IH x st1 a' st' Hs1 E) as (w & Hr & Hw).
  exists (writes o || w). split.
  - econstructor; [|done]. by exists t, st, st1.
  - intros [Ho ->]%orb_false_iff. etrans; [by apply Hw1|by apply Hw].
Qed.

(** What an answer says of the operation. *)
Lemma copy_bar_in_bounds a d b i n x :
  may_answer (CopyBarToUser a d b i n) x → 0 <= i ∧ 4 * i + n <= 4 * bar_words b.
Proof.
  intros (t & st & st' & Hs & E). cbn [step_op] in E. unfold on_bar, on_dev in E.
  destruct (devs st !! d) as [dev|] eqn:Ed; [|done]. destruct (decide _); [|done].
  eapply Forall_lookup_1 in Hs as [Hl1 Hl2]; [|exact Ed].
  destruct (_ && _) eqn:Eb; [|done]. unfold bar_words. destruct b; cbn [get_bar] in Eb; lia.
Qed.

Lemma copy_from_length a n bs nleft :
  may_answer (CopyFromUser a n) (bs, nleft) → length bs = n.
Proof.
  intros (t & st & st' & _ & E). cbn [step_op] in E. injection E as E _.
  pose proof (copy_from_user_length (user st) a n) as Hl. by rewrite E in Hl.
Qed.
End Logic.

(** ** The entry points *)

Section Calls.
Context {U : Type} `{UserSpace U} `{ByteOrder} `{IoctlEncoding}.
Variable scan_i : list byte → option Z.

Local Abbreviation results := (results (U:=U)).

(** A call that is to be restarted has written nothing. *)
Definition restartable (w : bool) (r : Z) : Prop := r = - ERESTARTSYS → w = false.

Lemma results_unlock w d r Q : Q w r → results w (unlock_return d r) Q.
Proof. intros HQ [] _. cbn. by rewrite orb_false_r. Qed.

Lemma results_unlock_pos w d r p Q : Q w (r, p) → results w (unlock_return_pos d r p) Q.
Proof. intros HQ [] _. cbn. by rewrite orb_false_r. Qed.

(** The block that opens the handlers, and the locking of the device. *)
Lemma results_control_flag {A} f (e : prog A) (k : bool → prog A) Q :
  results false e Q → (∀ b, results false (k b) Q) →
  results false (interrupted ← call (MutexLockInterruptible controlMutex);
    if (interrupted : bool) then e else
    flag ← call (ControlGet f); call (MutexUnlock controlMutex) ;; k flag) Q.
Proof. intros He Hk [] _; [exact He|]. intros b _ [] _. apply Hk. Qed.

Lemma results_lock_device {A} d (e k : prog A) Q :
  results false e Q → results false k Q →
  results false (interrupted ← call (MutexLockInterruptible (deviceMutex d));
    if (interrupted : bool) then e else k) Q.
Proof. by intros He Hk [] _. Qed.

Lemma mtcaDummy_open_results d : results false (call_prog scan_i (OpenCall d)) restartable.
Proof.
  apply results_bind, results_control_flag; [done|]. intros []; [done|]. by intros [] _.
Qed.

(** Past the last lock, every result other than -ERESTARTSYS is good. *)
Lemma other_result w r : r ≠ - ERESTARTSYS → restartable w r.
Proof. by intros Hr ?. Qed.

Lemma nonnegative_result w r : 0 <= r → restartable w r.
Proof. intros Hr. apply other_result. unfold ERESTARTSYS. lia. Qed.

Ltac norm :=
  repeat match goal with
         | |- Returns.results ?w (prog_mbind _ _ ?f (Ret ?x)) ?Q =>
             change (Returns.results w (f x) Q)
         end;
  cbv beta iota zeta.

Ltac branch :=
  norm;
  match goal with |- Returns.results _ (if ?b then _ else _) _ => destruct b end.

Lemma mtcaDummy_write_results d buf count :
  results false (mtcaDummy_write d buf count) restartable.
Proof.
  set (Q := restartable).
  assert (∀ w, results w (unlock_return d (- EFAULT)) Q ∧ results w (unlock_return d (- EIO)) Q ∧
    results w (unlock_return d sizeof_device_rw) Q) as Hout
    by (intros w; split_and!; by apply results_unlock, other_result).
  apply results_control_flag; [done|]. intros []; [done|].
  apply results_lock_device; [done|].
  branch; [apply Hout|]. intros [bytes nleft] _. branch; [apply Hout|].
  cbv zeta. branch.
  2: { branch; [apply Hout|]. branch; apply Hout. }
  unfold write_d32. destruct (select_bar _) as [[b size]|]; [|apply Hout].
  branch; [apply Hout|]. intros [] _ slot _. norm; apply results_any. intros w e.
  branch; apply Hout.
Qed.

Lemma mtcaDummy_read_results d buf count :
  results false (mtcaDummy_read d buf count) restartable.
Proof.
  set (Q := restartable).
  assert (∀ w r, 0 <= r → results w (unlock_return d r) Q) as Hsize
    by (intros w r Hr; by apply results_unlock, nonnegative_result).
  assert (∀ w, results w (unlock_return d (- EFAULT)) Q ∧ results w (unlock_return d (- EIO)) Q ∧
    results w (unlock_return d sizeof_device_rw) Q) as Hout
    by (intros w; split_and!; by apply results_unlock, other_result).
  apply results_control_flag; [done|]. intros []; [done|].
  apply results_lock_device; [done|].
  branch; [apply Hout|]. intros [bytes nleft] Hl%copy_from_length. branch; [apply Hout|].
  pose proof (device_rw_of_bytes_range _ Hl) as Hreq. cbv zeta. branch.
  { intros slot _ left _. branch; apply Hout. }
  branch.
  { unfold read_d32. destruct (select_bar _) as [[b size]|]; [|apply Hout].
    branch; [apply Hout|]. intros slot _. norm; apply results_any. intros w e.
    branch; [apply Hout|]. intros v _ left _. branch; apply Hout. }
  branch; [apply Hout|]. branch; [|apply Hout].
  unfold read_dma. branch; [by apply Hsize|]. branch; [apply Hout|].
  intros left _. branch; [apply Hout|]. apply Hsize. apply Hreq.
Qed.

Lemma read_words_results d ti buf n : ∀ w i f_pos,
  0 <= ti_nBytesToTransfer ti →
  results w (read_words d ti buf n i f_pos) (λ w a, restartable w a.1).
Proof.
  induction n as [|n IH]; intros w i f_pos Hn; cbn [read_words].
  { by apply results_unlock_pos, nonnegative_result. }
  intros slot _. norm; apply results_any. intros w' e.
  branch; [by apply results_unlock_pos, other_result|]. intros left _.
  branch; [by apply results_unlock_pos, other_result|]. by apply IH.
Qed.

Lemma write_words_results d ti buf n : ∀ w i f_pos,
  0 <= ti_nBytesToTransfer ti →
  results w (write_words d ti buf n i f_pos) (λ w a, restartable w a.1).
Proof.
  induction n as [|n IH]; intros w i f_pos Hn; cbn [write_words].
  { by apply results_unlock_pos, nonnegative_result. }
  intros left _. branch; [by apply results_unlock_pos, other_result|].
  intros slot _. norm; apply results_any. intros w' e.
  branch; [by apply results_unlock_pos, other_result|]. by apply IH.
Qed.

(** The check of [mtcadummy_rw_no_struct.c] fails with -EFAULT only, and grants
    no negative number of bytes. *)
Lemma transfer_check_results count f_pos :
  0 <= f_pos <= LOFF_MAX → 0 <= count <= MAX_RW_COUNT →
  match checkAndCalculateTransferInformation count f_pos with
  | inl e => e = - EFAULT
  | inr ti => 0 <= ti_nBytesToTransfer ti
  end.
Proof.
  intros Hp Hc. rewrite transfer_correct by done. unfold transfer_spec.
  destruct (select_bar _) as [[b size]|]; [|done]. destruct (_ && _) eqn:E; [|done]. cbn. lia.
Qed.

Lemma no_struct_results c d buf count f_pos :
  c = ReadNoStructCall d buf count f_pos ∨ c = WriteNoStructCall d buf count f_pos →
  valid_call c → results false (call_prog scan_i c) restartable.
Proof.
  intros Hcall Hv. assert (0 <= f_pos <= LOFF_MAX ∧ 0 <= count <= MAX_RW_COUNT) as [Hp Hc]
    by (destruct Hcall as [-> | ->]; apply Hv).
  pose proof (transfer_check_results count f_pos Hp Hc) as Hti.
  destruct Hcall as [-> | ->]; apply results_bind, results_control_flag; try done.
  all: intros []; [done|].
  all: destruct (checkAndCalculateTransferInformation count f_pos) as [e|ti]; [by subst|].
  all: apply results_lock_device; [done|].
  - eapply results_mono; [|by apply read_words_results]. by intros w [r pos].
  - eapply results_mono; [|by apply write_words_results]. by intros w [r pos].
Qed.

(** The three ioctl handlers share their cases. *)
Lemma ioctl_cases_results d arg w :
  results w (ioctl_physical_slot d arg) restartable ∧
  results w (ioctl_version d arg) restartable ∧ results w (ioctl_read_dma d arg) restartable.
Proof.
  assert (∀ w (b : bool), results w (unlock_return d (if b then - EFAULT else 0)) restartable) as Hif
    by (intros w' []; by apply results_unlock, other_result).
  assert (∀ w, results w (unlock_return d (- EFAULT)) restartable) as Hout
    by (intros w'; exact (Hif w' true)).
  split_and!; intros [bytes nleft] _; (branch; [apply Hout|]).
  - intros slot _ left _. apply Hif.
  - intros left _. apply Hif.
  - branch; [apply Hout|]. branch; [apply Hout|]. intros left _. apply Hif.
Qed.

Lemma ioctl_results c d cmd arg :
  c = MtcaIoctlCall d cmd arg ∨ c = LlrfIoctlCall d cmd arg ∨ c = PcieuniIoctlCall d cmd arg →
  results false (call_prog scan_i c) restartable.
Proof.
  intros Hcall. assert (∀ w, results w (unlock_return d (- ENOTTY)) restartable) as Hout
    by (intros w; by apply results_unlock, other_result).
  destruct Hcall as [-> | [-> | ->]]; cbn [call_prog].
  all: unfold mtcaDummy_ioctl, llrfDummy_ioctl, pcieuniDummy_ioctl.
  all: branch; [done|]; branch; [done|].
  all: intros ok _; branch; [done|].
  all: intros [] _; [done|].
  all: repeat (branch; [apply ioctl_cases_results|]); apply Hout.
Qed.

Lemma mtcadummy_proc_write_results ubuf count :
  0 <= count → results false (mtcadummy_proc_write scan_i ubuf count) restartable.
Proof.
  intros Hc. intros [cmd nleft] _. branch; [done|]. intros [] _; [done|]. norm.
  do 4 (apply results_any; intros ? _). intros [] _. by apply nonnegative_result.
Qed.

Lemma mtcadummy_seq_show_results d :
  results false (call_prog scan_i (ProcShowCall d)) restartable.
Proof.
  apply results_bind. intros inUse _. branch; [done|].
  intros [] _; [done|]. intros slot _. norm. apply results_any. intros w regs.
  intros slot' _. norm. apply results_any. intros w' dma. by intros [] _.
Qed.

Lemma call_results c :
  valid_call c → (∀ ubuf count, c = ProcWriteCall ubuf count → 0 <= count) →
  results false (call_prog scan_i c) restartable.
Proof.
  intros Hv Hc. destruct c.
  - apply mtcaDummy_open_results.
  - by intros [] _.
  - apply mtcaDummy_read_results.
  - apply mtcaDummy_write_results.
  - eapply no_struct_results; [by left|done].
  - eapply no_struct_results; [by right|done].
  - eapply ioctl_results. by left.
  - eapply ioctl_results. by right; left.
  - eapply ioctl_results. by right; right.
  - apply mtcadummy_proc_write_results. by eapply Hc.
  - apply mtcadummy_seq_show_results.
Qed.
End Calls.

(** ** Properties *)

Section Properties.
Context {U : Type} `{UserSpace U} `{ByteOrder} `{IoctlEncoding}.
Variable scan_i : list byte → option Z.

(** C20: restarting is safe. A call that returns -ERESTARTSYS, upon which the
    kernel makes it again, has changed neither a device nor a flag nor the
    user's memory, so nothing happens twice; in particular a signal that arrives
    while a write waits inside the firmware does not lead to a restart. *)
Theorem restarted_calls_change_nothing (c : driver_call) (t : nat) (st st' : kstate U)
    (Hv : valid_call c) (Hcount : ∀ ubuf count, c = ProcWriteCall ubuf count → 0 <= count)
    (Hw : wf_devs (devs st))
    (Hr : exec t (call_prog scan_i c) st = Done (- ERESTARTSYS, st')) :
  untouched st st'.
Proof.
  assert (shaped st) as Hs.
  { apply Forall_lookup_2. intros d dev Hd. destruct (proj2 Hw d dev Hd) as (_ & Hl1 & Hl2 & _).
    unfold MTCADUMMY_N_REGISTERS, MTCADUMMY_DMA_SIZE in *. split; lia. }
  destruct (exec_runs t _ _ _ _ Hs Hr) as (w & Hrun & Hsame). apply Hsame.
  exact (results_runs _ _ _ _ Hrun false (call_results scan_i c Hv Hcount) eq_refl).
Qed.
End Properties.

Section DmaCount.
Context {U : Type} `{UserSpace U} `{ByteOrder}.

(** C39: reading with a DMA request ignores the count of the system call beyond
    the size of the request: with enough writable memory behind the buffer, the
    call stores all the bytes the request asks for and returns their number, even
    where that is more than the count. *)
Theorem dma_read_ignores_count (t d : nat) (dev : mtcaDummyData) (st : kstate U)
    (buf count : Z) (r : device_rw)
    (Hi : idle st) (Hs : signals st = []) (Hd : devs st !! d = Some dev) (Hw : wf_dev d dev)
    (Hre : read_error (control st) = false) (Hreq : request_at (user st) buf count = Some r)
    (Hmode : mode_rw r = RW_DMA) (Hsize : 0 < size_rw r)
    (Hbar : offset_rw r + size_rw r <= MTCADUMMY_DMA_SIZE)
    (Hmem : ∀ i, 0 <= i < size_rw r → user_writable (user st) (buf + i) = true) :
  ∃ u', exec t (mtcaDummy_read d buf count) st = Done (size_rw r, with_user u' st) ∧
    ∀ i : nat, Z.of_nat i < size_rw r →
      user_byte u' (buf + Z.of_nat i) =
        bar_bytes (offset_rw r / 4) (size_rw r) (dmaBar dev) !! i.
Proof.
  rewrite (mtcaDummy_read_refines t d dev) by done. unfold read_outcome. rewrite Hre, Hreq.
  unfold struct_reply. rewrite Hmode.
  destruct (request_at_range _ _ _ _ Hreq) as ([Ho _] & _).
  change (RW_DMA =? RW_INFO) with false. change (RW_DMA =? RW_D32) with false.
  change (RW_DMA =? RW_DMA) with true. cbv iota.
  rewrite (proj2 (Z.eqb_neq _ 0)) by lia.
  unfold MTCADUMMY_DMA_SIZE in *. rewrite wrap32_small by (unfold is_u32; lia).
  rewrite (proj2 (Z.ltb_ge _ _)), (proj2 (Z.leb_le _ _)) by lia. cbn [outcome_bind copy_out].
  set (bytes := bar_bytes _ _ _).
  assert (Z.of_nat (length bytes) = size_rw r) as Hl.
  { unfold bytes, bar_bytes. rewrite length_take, length_bytes_of_words, length_drop.
    destruct Hw as (_ & _ & Hl & _). unfold MTCADUMMY_DMA_SIZE in Hl. lia. }
  pose proof (copy_to_user_ok (user st) buf bytes) as Hok.
  pose proof (copy_to_user_byte (user st) buf bytes) as Hb.
  destruct (copy_to_user (user st) buf bytes) as [u' nleft]. cbn [fst snd] in *.
  rewrite Hok in * by (intros i Hi'; apply Hmem; lia).
  exists u'. split; [done|]. intros i Hi'. rewrite Hb.
  replace ((0 <=? _) && _) with true by lia. f_equal. lia.
Qed.
End DmaCount.

(** ** Examples *)

#[local] Existing Instance little_endian.
#[local] Existing Instance asm_generic_ioctl.

(** An interrupted write. *)
Lemma restarted_calls_change_nothing_witness :
  untouched (with_signals [false; true] (sample_request (DeviceRw 0x44 1 RW_D32 0 0 0)))
    (with_signals [] (sample_request (DeviceRw 0x44 1 RW_D32 0 0 0))).
Proof.
  apply (restarted_calls_change_nothing decimal_scan (WriteCall 2 1000 24) 0).
  - unfold valid_call, is_device. lia.
  - discriminate.
  - exact (wf_fresh_devices 240).
  - vm_compute. reflexivity.
Defined.

(** The whole DMA memory in answer to a read of 24 bytes. *)
Lemma dma_read_ignores_count_witness :
  ∃ st u', exec 0 (mtcaDummy_read 2 1000 24) st = Done (4096, with_user u' st).
Proof.
  set (r := DeviceRw 0 0 RW_DMA 2 4096 0).
  set (m := umem_put 1000 (bytes_of_device_rw r ++ replicate (Z.to_nat 4072) x00) ∅).
  exists (loaded_state 240 m).
  destruct (dma_read_ignores_count 0 2 (fresh_device 240 2) (loaded_state 240 m) 1000 24 r)
    as (u' & E & _).
  - apply loaded_idle.
  - reflexivity.
  - apply loaded_lookup. lia.
  - apply wf_fresh_device.
  - reflexivity.
  - vm_compute. reflexivity.
  - reflexivity.
  - reflexivity.
  - vm_compute. discriminate.
  - intros i Hi. apply umem_put_mapped. rewrite length_app, length_replicate.
    unfold within. cbn in *. lia.
  - exists u'. exact E.
Defined.
