(* ===== verification/ReaderWriter.v ===== *)
(** * The interface of the test library ([automatic_test/include/ReaderWriter.h])

    The abstract class [ReaderWriter]: its constructor and destructor, and its
    four virtual functions as a record of operations. What a device answers to
    them is specified on the device alone ([read_word], [write_word], [read_area],
    [write_area]), without system calls, user memory or positions; the class
    [IsReaderWriter] says that an implementation behaves as this specification,
    and its clients are verified against it. *)

From S2P Require Import Prelude Abi Kernel Firmware ModuleInit Registers StructRW NoStructRW.
From S2P Require Import Ioctl OpenRelease Driver Process.
Local Open Scope Z_scope.

(** ** Model *)

Section Model.
Context {U : Type} `{UserSpace U} `{ByteOrder} `{IoctlEncoding} `{Vfs}.

(** The virtual functions. Their first argument is [_fileDescriptor]; a buffer
    is its address. *)
Record reader_writer := {
  readSingle : nat → Z → Z → client (U:=U) Z;
  readArea : nat → Z → Z → Z → Z → client (U:=U) unit;
  writeSingle : nat → Z → Z → Z → client (U:=U) unit;
  writeArea : nat → Z → Z → Z → Z → client (U:=U) unit;
}.

(** The constructor: the descriptor of the opened device. *)
Definition ReaderWriter (deviceFileName : string) : client (U:=U) nat :=
  _fileDescriptor ← libc_open deviceFileName;
  if _fileDescriptor <=? 0
  then throw ("Could not open file " +:+ deviceFileName +:+
    ". Check that the udev rules are installed and the kernel module is loaded!")
  else mret (Z.to_nat _fileDescriptor).

(** The destructor. *)
Definition delete_ReaderWriter (_fileDescriptor : nat) : client (U:=U) unit :=
  _ ← libc_close _fileDescriptor; mret tt.

(** C's [int32_t] arrays in the memory of the process. *)
Definition load_word (a : Z) : client (U:=U) Z :=
  bs ← load_bytes a 4; mret (to_int (u32_of_bytes bs)).
Definition store_word (a v : Z) : client (U:=U) unit :=
  store_bytes a (bytes_of_u32 (wrap32 v)).
End Model.
Arguments reader_writer _ : clear implicits.

(** ** Specification *)

(** The word an offset in a bar denotes. *)
Definition word_target (bar off : Z) : option (bar_id * Z) :=
  d32_target (DeviceRw off 0 RW_D32 bar 0 0).

(** What reading a word gives, if it does not fail. *)
Definition read_word (dev : mtcaDummyData) (bar off : Z) : option Z :=
  match word_target bar off with
  | Some (b, i) =>
      if bool_decide (b = SystemBar) && (off =? MTCADUMMY_BROKEN_REGISTER) then None
      else Some (nthz (get_bar b dev) i)
  | None => None
  end.

(** Whether writing a word succeeds, and the device afterwards. *)
Definition write_word (spiFail : bool) (bar off v : Z) (dev : mtcaDummyData) :
    bool * mtcaDummyData :=
  match word_target bar off with
  | Some (b, _) => let '(err, dev') := word_write spiFail b off v dev in (negb err, dev')
  | None => (false, dev)
  end.

(** Words are read one after the other up to the first failure. *)
Fixpoint read_area (dev : mtcaDummyData) (bar off : Z) (n : nat) : list Z * bool :=
  match n with
  | O => ([], true)
  | S n' => match read_word dev bar off with
            | None => ([], false)
            | Some v => let '(vs, ok) := read_area dev bar (off + 4) n' in (v :: vs, ok)
            end
  end.

Fixpoint write_area (spiFail : bool) (bar off : Z) (vs : list Z) (dev : mtcaDummyData) :
    bool * mtcaDummyData :=
  match vs with
  | [] => (true, dev)
  | v :: vs' =>
      let '(ok, dev') := write_word spiFail bar off v dev in
      if (ok : bool) then write_area spiFail bar (off + 4) vs' dev' else (false, dev')
  end.

(** How a call ends that has the value [o] to return, if any. *)
Definition answers {A} (r : completion A) (o : option A) : Prop :=
  match o with
  | Some a => r = Returned a
  | None => ∃ what, r = Thrown what
  end.

Lemma wrap32_to_int v : is_u32 v → wrap32 (to_int v) = v.
Proof. unfold is_u32, wrap32, to_int. lia. Qed.

Lemma to_int_wrap32 v : -2147483648 <= v < 2147483648 → to_int (wrap32 v) = v.
Proof. unfold wrap32, to_int. lia. Qed.

Section Interface.
Context {U : Type} `{UserSpace U} `{ByteOrder} `{IoctlEncoding} `{Vfs}.

(** The descriptor [fd] is an open file of device [d], whose operations satisfy
    [serves]; no call is in progress, and the injected errors are off. *)
Record connected (serves : file_operations → Prop) (fd d : nat) (dev : mtcaDummyData)
    (s : system (U:=U)) : Prop := {
  con_idle : idle (kernel s);
  con_signals : signals (kernel s) = [];
  con_read : read_error (control (kernel s)) = false;
  con_write : write_error (control (kernel s)) = false;
  con_dev : devs (kernel s) !! d = Some dev;
  con_wf : wf_dev d dev;
  con_file : ∃ pos, files s !! fd = Some (File d (Some d) pos) ∧ 0 <= pos <= LOFF_MAX;
  con_table : ∃ ops, table (kernel s) d = Some ops ∧ serves ops;
}.

(** The state after a call: the device may have changed, and the memory. *)
Definition after (d : nat) (dev : mtcaDummyData) (u : U) (s : system (U:=U)) : system (U:=U) :=
  with_device d dev (with_memory u s).

(** [frame] is the address of the 24 bytes of stack the functions use. *)
Class IsReaderWriter (frame : Z) (rw : reader_writer U) (serves : file_operations → Prop) := {
  rw_readSingle fd d dev s off bar :
    connected serves fd d dev s → accessible (memory s) frame 24 →
    is_u32 off → is_u32 bar →
    ∃ r u, readSingle rw fd off bar s = Done (r, after d dev u s) ∧
      answers r (to_int <$> read_word dev bar off) ∧
      changes_only (within frame 24) (memory s) u;
  rw_writeSingle fd d dev s off bar v :
    connected serves fd d dev s → accessible (memory s) frame 24 →
    is_u32 off → is_u32 bar →
    let '(ok, dev') := write_word (spi_error (control (kernel s))) bar off (wrap32 v) dev in
    ∃ r u, writeSingle rw fd off bar v s = Done (r, after d dev' u s) ∧
      answers r (if ok then Some tt else None) ∧
      changes_only (within frame 24) (memory s) u;
  rw_readArea fd d dev s off bar n buf :
    connected serves fd d dev s → accessible (memory s) frame 24 →
    accessible (memory s) buf (4 * Z.of_nat n) →
    (∀ x, within buf (4 * Z.of_nat n) x → ¬ within frame 24 x) →
    is_u32 off → is_u32 bar → is_u32 (Z.of_nat n) → (0 < n)%nat →
    let '(vs, ok) := read_area dev bar off n in
    ∃ r u, readArea rw fd off bar (Z.of_nat n) buf s = Done (r, after d dev u s) ∧
      answers r (if ok then Some tt else None) ∧ bytes_at u buf (bytes_of_words vs) ∧
      changes_only (λ x, within frame 24 x ∨ within buf (4 * Z.of_nat (length vs)) x)
        (memory s) u;
  rw_writeArea fd d dev s off bar vs buf :
    connected serves fd d dev s → accessible (memory s) frame 24 →
    bytes_at (memory s) buf (bytes_of_words vs) → Forall is_u32 vs →
    (∀ x, within buf (4 * Z.of_nat (length vs)) x → ¬ within frame 24 x) →
    is_u32 off → is_u32 bar → is_u32 (Z.of_nat (length vs)) → (0 < length vs)%nat →
    let '(ok, dev') := write_area (spi_error (control (kernel s))) bar off vs dev in
    ∃ r u, writeArea rw fd off bar (Z.of_nat (length vs)) buf s = Done (r, after d dev' u s) ∧
      answers r (if ok then Some tt else None) ∧
      changes_only (within frame 24) (memory s) u;
}.

(** *** Facts about the specification *)

Lemma word_target_Some bar off b i :
  word_target bar off = Some (b, i) →
  ∃ size, select_bar bar = Some (b, size) ∧ off mod 4 = 0 ∧ off < size ∧ i = off / 4.
Proof.
  unfold word_target, d32_target. cbn [barx_rw offset_rw].
  destruct (select_bar bar) as [[b' size]|]; [|done]. destruct (_ && _) eqn:E; [|done].
  intros [= -> <-]. exists size. split_and!; try done; lia.
Qed.

Lemma word_target_bar bar off : word_target bar off = None ∨ 0 <= bar <= 2.
Proof.
  unfold word_target, d32_target, select_bar. cbn [barx_rw].
  destruct (Z.eqb_spec bar 0); [right; lia|]. destruct (Z.eqb_spec bar 2); [right; lia|by left].
Qed.

(** A word that can be accessed lies below the end of the bars. *)
Lemma read_word_small dev bar off v : read_word dev bar off = Some v → off < 4096.
Proof.
  unfold read_word. destruct (word_target bar off) as [[b i]|] eqn:E; [|done]. intros _.
  destruct (word_target_Some _ _ _ _ E) as (size & Hs & _ & ? & _).
  destruct (select_bar_Some _ _ _ Hs) as [_ ->]. destruct b; lia.
Qed.

Lemma write_word_small spi bar off v dev dev' :
  write_word spi bar off v dev = (true, dev') → off < 4096.
Proof.
  unfold write_word. destruct (word_target bar off) as [[b i]|] eqn:E; [|done]. intros _.
  destruct (word_target_Some _ _ _ _ E) as (size & Hs & _ & ? & _).
  destruct (select_bar_Some _ _ _ Hs) as [_ ->]. destruct b; lia.
Qed.

Lemma read_word_u32 d dev bar off v :
  wf_dev d dev → read_word dev bar off = Some v → is_u32 v.
Proof.
  intros Hw. unfold read_word. destruct (word_target bar off) as [[b i]|]; [|done].
  destruct (_ && _); [done|]. intros [= <-].
  apply Forall_nthz; [by eapply wf_dev_bar_words|apply is_u32_0].
Qed.

(** Reading an area within the bar gives all its words. *)
Lemma read_area_words d dev bar off n vs :
  wf_dev d dev → read_area dev bar off n = (vs, true) → length vs = n ∧ Forall is_u32 vs.
Proof.
  intros Hw. revert off vs. induction n as [|n IH]; intros off vs; cbn [read_area].
  { intros [= <-]. by split. }
  destruct (read_word dev bar off) as [v|] eqn:Ev; [|done].
  destruct (read_area dev bar (off + 4) n) as [vs' ok] eqn:E. intros [= <- ->].
  destruct (IH _ _ E) as [Hl Hu]. split; [cbn; lia|].
  constructor; [by eapply (read_word_u32 d)|done].
Qed.

(** Neither kind of write touches what identifies the device. *)
Definition same_identity (dev dev' : mtcaDummyData) : Prop :=
  devMutex dev' = devMutex dev ∧ inUse dev' = inUse dev ∧ cdev dev' = cdev dev.

#[export] Instance same_identity_preorder : PreOrder same_identity.
Proof.
  split; [by intros dev|]. intros ??? (?&?&?) (?&?&?). split_and!; congruence.
Qed.

Lemma write_word_frame d spi bar off v dev :
  wf_dev d dev → is_u32 v →
  wf_dev d (write_word spi bar off v dev).2 ∧ same_identity dev (write_word spi bar off v dev).2.
Proof.
  intros Hw Hv. unfold write_word. destruct (word_target bar off) as [[b i]|]; [|done].
  pose proof (wf_word_write spi b off v d dev Hw Hv) as Hw'.
  assert (same_identity dev (word_write spi b off v dev).2) by by destruct b.
  by destruct (word_write spi b off v dev).
Qed.

Lemma write_area_frame d spi bar vs : ∀ off dev,
  wf_dev d dev → Forall is_u32 vs →
  wf_dev d (write_area spi bar off vs dev).2 ∧
  same_identity dev (write_area spi bar off vs dev).2.
Proof.
  induction vs as [|v vs IH]; intros off dev Hw Hvs; cbn [write_area]; [done|].
  apply Forall_cons_1 in Hvs as [Hv Hvs].
  destruct (write_word_frame d spi bar off v dev Hw Hv) as [Hw' Hid].
  destruct (write_word spi bar off v dev) as [[] dev']; cbn [snd] in *; [|done].
  destruct (IH (off + 4) dev' Hw' Hvs) as [? Hid']. split; [done|]. by etrans.
Qed.

(** A call leaves the file connected. *)
Lemma connected_after serves fd d dev dev' u s :
  connected serves fd d dev s → wf_dev d dev' → same_identity dev dev' →
  connected serves fd d dev' (after d dev' u s).
Proof.
  intros [Hi Hs Hr Hwr Hd Hw Hf (ops & Ht & Hserves)] Hw' (Hm & _ & Hc).
  pose proof (idle_dev _ _ _ Hi Hd) as Ho.
  assert (devs (upd_dev d dev' (with_user u (kernel s))) !! d = Some dev') as Hd'
    by (apply devs_upd_dev; by apply lookup_lt_Some in Hd).
  split; try done.
  - apply idle_upd_dev; [done|congruence].
  - exists ops. split; [|done]. rewrite <-Ht. unfold table. cbn [kernel after with_device].
    cbn [kernel with_memory]. rewrite Hd', Hd. cbn. unfold compose. by rewrite Hc.
Qed.

Lemma after_after d dev dev' u u' s : after d dev' u' (after d dev u s) = after d dev' u' s.
Proof.
  unfold after, with_device, with_memory. cbn [kernel files]. f_equal.
  exact (upd_dev_upd_dev d dev' dev (with_user u' (kernel s))).
Qed.

Lemma after_id d dev s :
  devs (kernel s) !! d = Some dev → after d dev (memory s) s = s.
Proof.
  intros Hd. unfold after. rewrite with_memory_memory. unfold with_device.
  rewrite upd_dev_id by done. by destruct s.
Qed.

Lemma after_memory d dev u s :
  devs (kernel s) !! d = Some dev → after d dev u s = with_memory u s.
Proof. intros Hd. unfold after, with_device. by rewrite upd_dev_id by done. Qed.

Lemma connected_memory serves fd d dev u s :
  connected serves fd d dev s → connected serves fd d dev (with_memory u s).
Proof. intros []. by split. Qed.

(** *** Opening and closing *)

Implicit Types s : system (U:=U).

(** Opening a device whose table has the driver's [open]. *)
Lemma run_open path d dev s :
  device_at path = Some d → idle (kernel s) → signals (kernel s) = [] →
  open_error (control (kernel s)) = false → devs (kernel s) !! d = Some dev →
  fop_open (table_of (cdev dev)) = Some mtcaDummy_open →
  ReaderWriter path s =
    Done (Returned (free_fd (files s)),
      System (upd_dev d (count_use 1 dev) (kernel s))
        (<[free_fd (files s) := File d (Some d) 0]> (files s))).
Proof.
  intros Hp Hi Hs Ho Hd Hop. unfold ReaderWriter. set (fd := free_fd (files s)).
  assert (3 <= fd)%nat as Hfd.
  { unfold fd, free_fd. destruct (filter _ _) as [|x l] eqn:E; [done|]. cbn.
    assert (x ∈ seq 3 (S (size (files s)))) as Hx%elem_of_seq; [|lia].
    eapply list_elem_of_filter. rewrite E. apply list_elem_of_here. }
  assert (libc_open path s = Done (Returned (Z.of_nat fd),
    System (upd_dev d (count_use 1 dev) (kernel s)) (<[fd := File d (Some d) 0]> (files s)))) as E.
  { unfold libc_open. rewrite Hp. unfold table. rewrite Hd. cbn. rewrite Hop. unfold enter.
    rewrite (mtcaDummy_open_refines 0 d dev) by (done || apply Hi). rewrite Ho.
    assert (libc_result (Z.of_nat fd) = Z.of_nat fd) as El
      by (unfold libc_result; by rewrite (proj2 (Z.ltb_ge (Z.of_nat fd) 0)) by lia).
    exact (f_equal (λ z, Done (Returned z, _)) El). }
  rewrite (bind_returned _ _ _ _ _ E).
  rewrite (proj2 (Z.leb_gt (Z.of_nat fd) 0)) by lia. by rewrite Nat2Z.id.
Qed.

Lemma run_close fd d dev pos s :
  files s !! fd = Some (File d (Some d) pos) → devs (kernel s) !! d = Some dev →
  fop_release (table_of (cdev dev)) = Some mtcaDummy_release →
  delete_ReaderWriter fd s =
    Done (Returned tt, System (upd_dev d (count_use (-1) dev) (kernel s)) (delete fd (files s))).
Proof.
  intros Hf Hd Hop. unfold delete_ReaderWriter, libc_close, mbind, client_bind.
  rewrite Hf. cbn [f_device private_data]. unfold table. rewrite Hd. cbn. rewrite Hop.
  unfold enter. by rewrite (mtcaDummy_release_refines 0 d dev).
Qed.

(** The driver at rest, with device [d] as a test needs it. *)
Record quiet (d : nat) (dev : mtcaDummyData) s : Prop := {
  qu_idle : idle (kernel s);
  qu_signals : signals (kernel s) = [];
  qu_open : open_error (control (kernel s)) = false;
  qu_read : read_error (control (kernel s)) = false;
  qu_write : write_error (control (kernel s)) = false;
  qu_dev : devs (kernel s) !! d = Some dev;
  qu_wf : wf_dev d dev;
}.

(** Opening connects. *)
Lemma connect serves path d dev s :
  quiet d dev s → device_at path = Some d → serves (table_of (cdev dev)) →
  fop_open (table_of (cdev dev)) = Some mtcaDummy_open →
  ∃ s', ReaderWriter path s = Done (Returned (free_fd (files s)), s') ∧
    connected serves (free_fd (files s)) d (count_use 1 dev) s' ∧
    s' = System (upd_dev d (count_use 1 dev) (kernel s))
      (<[free_fd (files s) := File d (Some d) 0]> (files s)).
Proof.
  intros [Hi Hs Ho Hr Hw Hd Hwf] Hp Hserves Hop. eexists. split_and!; [by eapply run_open| |done].
  pose proof (idle_dev _ _ _ Hi Hd) as Hown.
  assert (devs (upd_dev d (count_use 1 dev) (kernel s)) !! d = Some (count_use 1 dev)) as Hd'
    by (apply devs_upd_dev; by apply lookup_lt_Some in Hd).
  split; try done.
  - by apply idle_upd_dev.
  - exists 0. cbn. rewrite lookup_insert_eq. split; [done|]. unfold LOFF_MAX. lia.
  - exists (table_of (cdev dev)). split; [|done]. unfold table. cbn [kernel]. by rewrite Hd'.
Qed.

(** Closing a connected file. *)
Lemma close_connected (table0 : file_operations) fd d dev s :
  connected (eq table0) fd d dev s → fop_release table0 = Some mtcaDummy_release →
  delete_ReaderWriter fd s =
    Done (Returned tt, System (upd_dev d (count_use (-1) dev) (kernel s)) (delete fd (files s))).
Proof.
  intros [_ _ _ _ Hd _ (pos & Hf & _) (ops & Ht & <-)] Hop. unfold table in Ht. rewrite Hd in Ht.
  injection Ht as Ht. eapply run_close; [done..|by rewrite Ht].
Qed.

(** A file stays connected while another device is opened or closed. *)
Lemma connected_other serves fd d dev d' dev' k fs s :
  connected serves fd d dev s → d ≠ d' → devs (kernel s) !! d' = Some dev' →
  fs !! fd = files s !! fd →
  connected serves fd d dev (System (upd_dev d' (count_use k dev') (kernel s)) fs).
Proof.
  intros [Hi Hs Hr Hw Hd Hwf Hfile (ops & Ht & Hops)] Hne Hd' Hfs.
  assert (devs (upd_dev d' (count_use k dev') (kernel s)) !! d = devs (kernel s) !! d) as E
    by (cbn; by rewrite list_lookup_insert_ne).
  pose proof (idle_dev _ _ _ Hi Hd') as Hown. split; try done.
  - by apply idle_upd_dev.
  - by rewrite <-Hd.
  - cbn. by rewrite Hfs.
  - exists ops. unfold table in *. cbn [kernel]. by rewrite E.
Qed.
End Interface.
