(* ===== verification/StructReaderWriter.v ===== *)
(** * The library class [StructReaderWriter]

    [automatic_test/src/StructReaderWriter.cc]: words are transferred with
    requests in a [device_rw], areas word by word. The end of the file shows that
    the class satisfies the interface of [ReaderWriter] on the devices that
    understand these requests. *)

From S2P Require Import Prelude Abi Kernel Firmware ModuleInit Registers StructRW NoStructRW.
From S2P Require Import Ioctl Driver Process ReaderWriter.
Local Open Scope Z_scope.

(** ** Model *)

Section Model.
Context {U : Type} `{UserSpace U} `{ByteOrder} `{IoctlEncoding} `{Vfs}.

(** Where the local variables [readInstruction] and [writeInstruction] lie. *)
Variable frame : Z.

Definition StructReaderWriter_readSingle (fd : nat) (offset bar : Z) : client (U:=U) Z :=
  let readInstruction := DeviceRw offset 0 RW_D32 bar 0 0 in
  _ ← store_bytes frame (bytes_of_device_rw readInstruction);
  status ← libc_read fd frame sizeof_device_rw;
  if negb (wrap64 status =? sizeof_device_rw) then throw "Error reading from device" else
  bytes ← load_bytes frame (Z.to_nat sizeof_device_rw);
  mret (to_int (data_rw (device_rw_of_bytes bytes))).

(** The loop of [readArea], [n] iterations from [i] on. *)
Fixpoint struct_read_loop (fd : nat) (offset bar : Z) (n : nat) (i readBuffer : Z) :
    client (U:=U) unit :=
  match n with
  | O => mret tt
  | S n' =>
      word ← StructReaderWriter_readSingle fd (wrap32 (offset + i * sizeof_u32)) bar;
      _ ← store_word (readBuffer + i * sizeof_u32) word;
      struct_read_loop fd offset bar n' (i + 1) readBuffer
  end.

Definition StructReaderWriter_readArea (fd : nat) (offset bar nWords readBuffer : Z) :
    client (U:=U) unit :=
  struct_read_loop fd offset bar (Z.to_nat nWords) 0 readBuffer.

Definition StructReaderWriter_writeSingle (fd : nat) (offset bar value : Z) :
    client (U:=U) unit :=
  let writeInstruction := DeviceRw offset (wrap32 value) RW_D32 bar 0 0 in
  _ ← store_bytes frame (bytes_of_device_rw writeInstruction);
  status ← libc_write fd frame sizeof_device_rw;
  if negb (wrap64 status =? sizeof_device_rw) then throw "Error writing to device"
  else mret tt.

(** The loop of [writeArea]. *)
Fixpoint struct_write_loop (fd : nat) (offset bar : Z) (n : nat) (i writeBuffer : Z) :
    client (U:=U) unit :=
  match n with
  | O => mret tt
  | S n' =>
      word ← load_word (writeBuffer + i * sizeof_u32);
      _ ← StructReaderWriter_writeSingle fd (wrap32 (offset + i * sizeof_u32)) bar word;
      struct_write_loop fd offset bar n' (i + 1) writeBuffer
  end.

Definition StructReaderWriter_writeArea (fd : nat) (offset bar nWords writeBuffer : Z) :
    client (U:=U) unit :=
  struct_write_loop fd offset bar (Z.to_nat nWords) 0 writeBuffer.

Definition StructReaderWriter : reader_writer U :=
  Build_reader_writer StructReaderWriter_readSingle StructReaderWriter_readArea
    StructReaderWriter_writeSingle StructReaderWriter_writeArea.
End Model.

(** ** The interface *)

Section Interface.
Context {U : Type} `{UserSpace U} `{ByteOrder} `{IoctlEncoding} `{Vfs}.
Variable frame : Z.

(** The devices that take requests. *)
Definition takes_requests (ops : file_operations) : Prop :=
  fop_read ops = Some (with_position mtcaDummy_read) ∧
  fop_write ops = Some (with_position mtcaDummy_write).

Lemma run_struct_read fd d dev buf count s :
  connected takes_requests fd d dev s → 0 <= count <= MAX_RW_COUNT →
  libc_read fd buf count s =
    match read_outcome dev buf count (kernel s) with
    | Done (ret, k) => Done (Returned (libc_result ret), System (U:=U) k (files s))
    | Blocked => Blocked
    | Oops r => Oops r
    end.
Proof.
  intros [Hi Hs _ _ Hd Hw (pos & Hf & Hpos) (ops & Ht & Hr & _)] Hc.
  unfold libc_read, on_file. rewrite Hf. cbn [f_device private_data]. rewrite Ht. cbn.
  rewrite Hr. unfold transfer, valid_position. cbn [f_pos f_device].
  rewrite !(proj2 (Z.leb_le _ _)) by lia. cbn [andb]. rewrite Z.min_l by lia.
  unfold enter, with_position. rewrite exec_bind, (mtcaDummy_read_refines 0 d dev) by done.
  destruct (read_outcome dev buf count (kernel s)) as [[ret k]| |]; cbn; [|done..].
  by rewrite insert_id.
Qed.

Lemma run_struct_write fd d dev buf count s :
  connected takes_requests fd d dev s → 0 <= count <= MAX_RW_COUNT →
  libc_write fd buf count s =
    Done (Returned (libc_result (write_outcome d dev buf count (kernel s)).1),
          System (U:=U) (write_outcome d dev buf count (kernel s)).2 (files s)).
Proof.
  intros [Hi Hs _ _ Hd Hw (pos & Hf & Hpos) (ops & Ht & _ & Hr)] Hc.
  unfold libc_write, on_file. rewrite Hf. cbn [f_device private_data]. rewrite Ht. cbn.
  rewrite Hr. unfold transfer, valid_position. cbn [f_pos f_device].
  rewrite !(proj2 (Z.leb_le _ _)) by lia. cbn [andb]. rewrite Z.min_l by lia.
  unfold enter, with_position. rewrite exec_bind, (mtcaDummy_write_refines 0 d dev) by done.
  destruct (write_outcome d dev buf count (kernel s)) as [ret k]; cbn.
  by rewrite insert_id.
Qed.

Lemma word_request off v bar :
  is_u32 off → is_u32 v → is_u32 bar → is_device_rw (DeviceRw off v RW_D32 bar 0 0).
Proof. intros. split_and!; cbn; try done; apply (bool_decide_unpack _); by vm_compute. Qed.

(** A request stored in the frame is the one the driver sees. *)
Lemma request_in_frame u r :
  is_device_rw r → bytes_at u frame (bytes_of_device_rw r) → request_at u frame 24 = Some r.
Proof.
  intros Hr Hb. apply request_at_bytes; [done|lia|].
  by apply load_known; [|by rewrite length_bytes_of_device_rw].
Qed.

Lemma struct_reply_word dev off bar :
  ∃ e, e < 0 ∧ struct_reply dev (DeviceRw off 0 RW_D32 bar 0 0) =
    Done match read_word dev bar off with
         | Some v => Data (bytes_of_device_rw (DeviceRw off v RW_D32 bar 0 0)) 24
         | None => NoData e
         end.
Proof.
  unfold struct_reply, read_word, word_target. cbn [mode_rw offset_rw].
  change (RW_D32 =? RW_INFO) with false. change (RW_D32 =? RW_D32) with true. cbv iota.
  destruct (d32_target _) as [[b i]|]; [destruct (_ && _)|].
  - exists (- EIO). done.
  - exists (- EIO). done.
  - exists (- EFAULT). done.
Qed.

Lemma struct_readSingle fd d dev s off bar :
  connected takes_requests fd d dev s → accessible (memory s) frame 24 →
  is_u32 off → is_u32 bar →
  ∃ r u, StructReaderWriter_readSingle frame fd off bar s = Done (r, after d dev u s) ∧
    answers r (to_int <$> read_word dev bar off) ∧
    changes_only (within frame 24) (memory s) u.
Proof.
  intros Hcon Ha Hoff Hbar. unfold StructReaderWriter_readSingle. cbv zeta.
  set (r0 := DeviceRw off 0 RW_D32 bar 0 0).
  assert (is_device_rw r0) as Hr0 by (apply word_request; auto with mtca).
  destruct (run_store frame (bytes_of_device_rw r0) s) as (u1 & E1 & Hb1 & Hc1);
    [by rewrite length_bytes_of_device_rw|].
  rewrite length_bytes_of_device_rw in Hc1. change (Z.of_nat 24) with 24 in Hc1.
  rewrite (bind_returned _ _ _ _ _ E1).
  pose proof (connected_memory _ _ _ _ u1 _ Hcon) as Hcon1.
  pose proof (run_struct_read fd d dev frame sizeof_device_rw _ Hcon1) as Er.
  unfold read_outcome in Er. cbn [kernel with_memory user with_user control] in Er.
  rewrite (con_read _ _ _ _ _ Hcon) in Er.
  change sizeof_device_rw with 24 in *. rewrite (request_in_frame u1 r0 Hr0 Hb1) in Er.
  destruct (struct_reply_word dev off bar) as (e & He & Hrep). fold r0 in Hrep.
  rewrite Hrep in Er. cbn [outcome_bind] in Er.
  destruct (read_word dev bar off) as [v|] eqn:Ev; cbn [copy_out fmap option_fmap option_map] in *.
  - set (r1 := DeviceRw off v RW_D32 bar 0 0) in *.
    assert (is_device_rw r1) as Hr1.
    { apply word_request; [done| |done]. by eapply read_word_u32; [apply Hcon|]. }
    destruct (store_accessible u1 frame (bytes_of_device_rw r1)) as (u2 & E2 & Hb2 & Hc2).
    { rewrite length_bytes_of_device_rw. by eapply accessible_changed. }
    rewrite length_bytes_of_device_rw in Hc2. change (Z.of_nat 24) with 24 in Hc2.
    cbn [user with_user] in Er. rewrite E2 in Er. cbn in Er.
    rewrite (bind_returned _ _ _ _ _ (Er ltac:(unfold MAX_RW_COUNT; lia))).
    cbv beta. change (negb (wrap64 24 =? 24)) with false. cbv iota.
    erewrite bind_returned by (apply (run_load _ (bytes_of_device_rw r1)); [exact Hb2|
      by rewrite length_bytes_of_device_rw]).
    exists (Returned (to_int v)), u2. rewrite device_rw_of_bytes_of by done. split_and!.
    + rewrite (after_memory d dev u2 s) by apply Hcon. done.
    + done.
    + by etrans.
  - rewrite (bind_returned _ _ _ _ _ (Er ltac:(unfold MAX_RW_COUNT; lia))).
    exists (Thrown "Error reading from device"), u1.
    unfold libc_result. rewrite (proj2 (Z.ltb_lt e 0)) by done.
    change (negb (wrap64 (-1) =? 24)) with true. cbv iota. split_and!.
    + rewrite (after_memory d dev u1 s) by apply Hcon. done.
    + by eexists.
    + done.
Qed.

Lemma struct_effect_word spi dev off v bar :
  ∃ e, e < 0 ∧ struct_effect spi dev (DeviceRw off v RW_D32 bar 0 0) =
    (if (write_word spi bar off v dev).1 then 24 else e, (write_word spi bar off v dev).2).
Proof.
  unfold struct_effect, write_word, word_target. cbn [mode_rw offset_rw data_rw].
  change (RW_D32 =? RW_D32) with true. cbv iota.
  change (d32_target (DeviceRw off v RW_D32 bar 0 0))
    with (d32_target (DeviceRw off 0 RW_D32 bar 0 0)).
  destruct (d32_target _) as [[b i]|]; [|by exists (- EFAULT)].
  destruct (word_write spi b off v dev) as [[] dev']; exists (- EIO); done.
Qed.

Lemma struct_writeSingle fd d dev s off bar v :
  connected takes_requests fd d dev s → accessible (memory s) frame 24 →
  is_u32 off → is_u32 bar →
  let '(ok, dev') := write_word (spi_error (control (kernel s))) bar off (wrap32 v) dev in
  ∃ r u, StructReaderWriter_writeSingle frame fd off bar v s = Done (r, after d dev' u s) ∧
    answers r (if ok then Some tt else None) ∧ changes_only (within frame 24) (memory s) u.
Proof.
  intros Hcon Ha Hoff Hbar. unfold StructReaderWriter_writeSingle. cbv zeta.
  set (r0 := DeviceRw off (wrap32 v) RW_D32 bar 0 0).
  assert (is_device_rw r0) as Hr0 by (apply word_request; auto with mtca).
  destruct (run_store frame (bytes_of_device_rw r0) s) as (u1 & E1 & Hb1 & Hc1);
    [by rewrite length_bytes_of_device_rw|].
  rewrite length_bytes_of_device_rw in Hc1. change (Z.of_nat 24) with 24 in Hc1.
  rewrite (bind_returned _ _ _ _ _ E1).
  pose proof (connected_memory _ _ _ _ u1 _ Hcon) as Hcon1.
  pose proof (run_struct_write fd d dev frame sizeof_device_rw _ Hcon1) as Ew.
  unfold write_outcome in Ew. cbn [kernel with_memory user with_user control] in Ew.
  rewrite (con_write _ _ _ _ _ Hcon) in Ew.
  change sizeof_device_rw with 24 in *. rewrite (request_in_frame u1 r0 Hr0 Hb1) in Ew.
  destruct (struct_effect_word (spi_error (control (kernel s))) dev off (wrap32 v) bar)
    as (e & He & Heff). fold r0 in Heff. rewrite Heff in Ew. cbn [fst snd] in Ew.
  destruct (write_word _ _ _ _ _) as [ok dev']. cbn [fst snd] in Ew.
  rewrite (bind_returned _ _ _ _ _ (Ew ltac:(unfold MAX_RW_COUNT; lia))).
  exists (if ok then Returned tt else Thrown "Error writing to device"), u1.
  destruct ok; cbv beta; [change (negb (wrap64 (libc_result 24) =? 24)) with false|].
  - by split_and!.
  - unfold libc_result. rewrite (proj2 (Z.ltb_lt e 0)) by done.
    change (negb (wrap64 (-1) =? 24)) with true. split_and!; [done| |done]. by eexists.
Qed.

(** One word of an area: the offset does not wrap around, since the words before
    it are inside the bar. *)
Lemma struct_read_loop_correct fd d dev bar buf off n : ∀ i s,
  connected takes_requests fd d dev s → accessible (memory s) frame 24 →
  accessible (memory s) (buf + 4 * i) (4 * Z.of_nat n) →
  (∀ x, within (buf + 4 * i) (4 * Z.of_nat n) x → ¬ within frame 24 x) →
  is_u32 (off + 4 * i) → is_u32 bar →
  let '(vs, ok) := read_area dev bar (off + 4 * i) n in
  ∃ r u, struct_read_loop frame fd off bar n i buf s = Done (r, after d dev u s) ∧
    answers r (if ok then Some tt else None) ∧
    bytes_at u (buf + 4 * i) (bytes_of_words vs) ∧
    changes_only (λ x, within frame 24 x ∨ within (buf + 4 * i) (4 * Z.of_nat (length vs)) x)
      (memory s) u.
Proof.
  induction n as [|n IH]; intros i s Hcon Ha Hbuf Hdis Hoff Hbar; cbn [read_area struct_read_loop].
  { exists (Returned tt), (memory s). rewrite after_id by apply Hcon. by split_and!. }
  unfold sizeof_u32. rewrite (Z.mul_comm i 4), wrap32_small by done.
  destruct (struct_readSingle fd d dev s (off + 4 * i) bar Hcon Ha Hoff Hbar)
    as (r & u1 & E & Hr & Hc).
  rewrite after_memory in E by apply Hcon.
  destruct (read_word dev bar (off + 4 * i)) as [v|] eqn:Ev; cbn in Hr.
  2: { destruct Hr as [what ->]. rewrite (bind_thrown _ _ _ _ _ E).
       exists (Thrown what), u1. rewrite after_memory by apply Hcon.
       split_and!; [done|by eexists|done|]. eapply changes_only_mono; [|exact Hc]. by left. }
  subst r. rewrite (bind_returned _ _ _ _ _ E).
  pose proof (read_word_small _ _ _ _ Ev). pose proof (read_word_u32 _ _ _ _ _ (con_wf _ _ _ _ _ Hcon) Ev).
  set (s1 := with_memory u1 s). unfold store_word. rewrite wrap32_to_int by done.
  destruct (run_store (buf + 4 * i) (bytes_of_u32 v) s1) as (u2 & E2 & Hb2 & Hc2).
  { rewrite length_bytes_of_u32. eapply accessible_changed; [exact Hc|].
    eapply accessible_within; [exact Hbuf|lia..]. }
  rewrite length_bytes_of_u32 in Hc2. rewrite (bind_returned _ _ _ _ _ E2).
  assert (changes_only (λ x, within frame 24 x ∨ within (buf + 4 * i) 4 x) (memory s) u2) as Hc12.
  { etrans; (eapply changes_only_mono; [|eassumption]); [by left|by right]. }
  assert (is_u32 (off + 4 * (i + 1))) as Hoff' by (unfold is_u32 in *; lia).
  specialize (IH (i + 1) (with_memory u2 s1)).
  replace (off + 4 * i + 4) with (off + 4 * (i + 1)) by lia.
  destruct (read_area dev bar (off + 4 * (i + 1)) n) as [vs ok].
  destruct IH as (r & u3 & E3 & Hr3 & Hb3 & Hc3).
  { by apply connected_memory, connected_memory. }
  { by eapply accessible_changed. }
  { eapply accessible_changed; [exact Hc12|]. eapply accessible_within; [exact Hbuf|lia..]. }
  { intros x Hx. apply Hdis. unfold within in *. lia. }
  { done. }
  { done. }
  exists r, u3. rewrite E3. split_and!; [|done| |].
  - rewrite !after_memory by apply Hcon. done.
  - change (bytes_of_words (v :: vs)) with (bytes_of_u32 v ++ bytes_of_words vs).
    apply bytes_at_app. rewrite length_bytes_of_u32. split.
    + eapply bytes_at_changed; [exact Hc3| |exact Hb2]. rewrite length_bytes_of_u32.
      intros x Hx [Hf|Hn]; [|unfold within in *; lia].
      apply (Hdis x); [|done]. unfold within in *. lia.
    + by replace (buf + 4 * i + Z.of_nat 4) with (buf + 4 * (i + 1)) by lia.
  - etrans; (eapply changes_only_mono; [|eassumption]); unfold within; cbn [length]; lia.
Qed.

Lemma struct_write_loop_correct fd d bar buf off vs : ∀ i dev s,
  connected takes_requests fd d dev s → accessible (memory s) frame 24 →
  bytes_at (memory s) (buf + 4 * i) (bytes_of_words vs) → Forall is_u32 vs →
  (∀ x, within (buf + 4 * i) (4 * Z.of_nat (length vs)) x → ¬ within frame 24 x) →
  is_u32 (off + 4 * i) → is_u32 bar →
  let '(ok, dev') := write_area (spi_error (control (kernel s))) bar (off + 4 * i) vs dev in
  ∃ r u, struct_write_loop frame fd off bar (length vs) i buf s = Done (r, after d dev' u s) ∧
    answers r (if ok then Some tt else None) ∧ changes_only (within frame 24) (memory s) u.
Proof.
  induction vs as [|v vs IH]; intros i dev s Hcon Ha Hb Hvs Hdis Hoff Hbar;
    cbn [write_area struct_write_loop length].
  { exists (Returned tt), (memory s). rewrite after_id by apply Hcon. by split_and!. }
  apply Forall_cons_1 in Hvs as [Hv Hvs].
  change (bytes_of_words (v :: vs)) with (bytes_of_u32 v ++ bytes_of_words vs) in Hb.
  apply bytes_at_app in Hb as [Hb Hb']. rewrite length_bytes_of_u32 in Hb'.
  unfold sizeof_u32. rewrite (Z.mul_comm i 4), wrap32_small by done. unfold load_word.
  rewrite (bind_returned _ _ s (to_int v) s).
  2: { erewrite bind_returned by (apply (run_load _ (bytes_of_u32 v));
         [exact Hb|by rewrite length_bytes_of_u32]).
       by rewrite u32_of_bytes_of_u32, wrap32_small. }
  pose proof (struct_writeSingle fd d dev s (off + 4 * i) bar (to_int v) Hcon Ha Hoff Hbar) as Hw.
  rewrite wrap32_to_int in Hw by done.
  destruct (write_word_frame d (spi_error (control (kernel s))) bar (off + 4 * i) v dev
    (con_wf _ _ _ _ _ Hcon) Hv) as [Hw1 Hid1].
  destruct (write_word _ _ _ _ _) as [ok dev1] eqn:Ew. cbn [snd] in *.
  destruct Hw as (r & u1 & E & Hr & Hc). destruct ok; cbn in Hr.
  2: { destruct Hr as [what ->]. rewrite (bind_thrown _ _ _ _ _ E).
       exists (Thrown what), u1. split_and!; [done|by eexists|done]. }
  subst r. rewrite (bind_returned _ _ _ _ _ E).
  pose proof (write_word_small _ _ _ _ _ _ Ew).
  pose proof (connected_after _ _ _ _ dev1 u1 _ Hcon Hw1 Hid1) as Hcon1.
  specialize (IH (i + 1) dev1 (after d dev1 u1 s)).
  replace (off + 4 * i + 4) with (off + 4 * (i + 1)) by lia.
  change (control (kernel (after d dev1 u1 s))) with (control (kernel s)) in IH.
  destruct (write_area _ bar (off + 4 * (i + 1)) vs dev1) as [ok' dev2].
  destruct IH as (r & u2 & E2 & Hr2 & Hc2); try done.
  { by eapply accessible_changed. }
  { replace (buf + 4 * (i + 1)) with (buf + 4 * i + Z.of_nat 4) by lia.
    eapply bytes_at_changed; [exact Hc| |exact Hb']. rewrite length_bytes_of_words.
    intros x Hx. apply Hdis. unfold within in *. cbn [length]. lia. }
  { intros x Hx. apply Hdis. unfold within in *. cbn [length]. lia. }
  { unfold is_u32 in *. lia. }
  exists r, u2. rewrite E2, after_after. split_and!; [done|done|]. by etrans.
Qed.

(** [StructReaderWriter] implements the interface. *)
#[export] Instance StructReaderWriter_correct :
  IsReaderWriter frame (StructReaderWriter frame) takes_requests.
Proof.
  split.
  - apply struct_readSingle.
  - apply struct_writeSingle.
  - intros fd d dev s off bar n buf Hcon Ha Hbuf Hdis Hoff Hbar Hn _.
    pose proof (struct_read_loop_correct fd d dev bar buf off n 0 s) as Hl.
    rewrite !Z.mul_0_r, !Z.add_0_r in Hl. cbn [readArea StructReaderWriter].
    unfold StructReaderWriter_readArea. rewrite Nat2Z.id. by apply Hl.
  - intros fd d dev s off bar vs buf Hcon Ha Hb Hvs Hdis Hoff Hbar Hn _.
    pose proof (struct_write_loop_correct fd d bar buf off vs 0 dev s) as Hl.
    rewrite !Z.mul_0_r, !Z.add_0_r in Hl. cbn [writeArea StructReaderWriter].
    unfold StructReaderWriter_writeArea. rewrite Nat2Z.id. by apply Hl.
Qed.
End Interface.
