(* ===== verification/NormalReaderWriter.v ===== *)
(** * The library class [NormalReaderWriter]

    [automatic_test/src/NormalReaderWriter.cc]: areas are transferred with
    [pread] and [pwrite] at a position that carries the bar, words as areas of
    one word. The end of the file shows that the class satisfies the interface of
    [ReaderWriter] on the pcieunidummy device. *)

From S2P Require Import Prelude Abi Kernel Firmware ModuleInit Registers StructRW NoStructRW.
From S2P Require Import Ioctl Driver Process ReaderWriter.
Local Open Scope Z_scope.

(** ** Model *)

Section Model.
Context {U : Type} `{UserSpace U} `{ByteOrder} `{IoctlEncoding} `{Vfs}.

(** Where [returnValue] and the parameter [value] lie. *)
Variable frame : Z.

(** [PCIEUNI_BAR_OFFSETS[bar] + offset] *)
Definition virtualOffset (offset bar : Z) : Z :=
  nthz PCIEUNI_BAR_OFFSETS bar + offset.

Definition NormalReaderWriter_readArea (fd : nat) (offset bar nWords readBuffer : Z) :
    client (U:=U) unit :=
  if 5 <? bar then throw "Bar number is too large." else
  let count := wrap64 (nWords * sizeof_u32) in
  status ← libc_pread fd readBuffer count (virtualOffset offset bar);
  if negb (wrap64 status =? count) then throw "Error reading from device" else mret tt.

Definition NormalReaderWriter_readSingle (fd : nat) (offset bar : Z) : client (U:=U) Z :=
  _ ← NormalReaderWriter_readArea fd offset bar 1 frame;
  load_word frame.

(** [writeStatus] is an [int]. *)
Definition NormalReaderWriter_writeArea (fd : nat) (offset bar nWords writeBuffer : Z) :
    client (U:=U) unit :=
  if 5 <? bar then throw "Bar number is too large." else
  let count := wrap64 (nWords * sizeof_u32) in
  writeStatus ← libc_pwrite fd writeBuffer count (virtualOffset offset bar);
  if negb (wrap64 (to_int writeStatus) =? count) then throw "Error writing to device"
  else mret tt.

Definition NormalReaderWriter_writeSingle (fd : nat) (offset bar value : Z) :
    client (U:=U) unit :=
  _ ← store_word frame value;
  NormalReaderWriter_writeArea fd offset bar 1 frame.

Definition NormalReaderWriter : reader_writer U :=
  Build_reader_writer NormalReaderWriter_readSingle NormalReaderWriter_readArea
    NormalReaderWriter_writeSingle NormalReaderWriter_writeArea.
End Model.

(** ** The driver's transfers as areas of words *)

Section Areas.
Context {U : Type} `{UserSpace U} `{ByteOrder}.

Lemma word_target_in_bar bar b size off :
  select_bar bar = Some (b, size) → off mod 4 = 0 →
  word_target bar off = if off <? size then Some (b, off / 4) else None.
Proof.
  intros Hs Ha. unfold word_target, d32_target. cbn [barx_rw offset_rw]. rewrite Hs, Ha.
  change (0 =? 0) with true. cbn [andb]. done.
Qed.

Lemma read_area_nothing dev bar off n :
  word_target bar off = None → (0 < n)%nat → read_area dev bar off n = ([], false).
Proof. intros Ht Hn. destruct n; [lia|]. cbn. unfold read_word. by rewrite Ht. Qed.

Lemma write_area_nothing spi bar off vs dev :
  word_target bar off = None → (0 < length vs)%nat → write_area spi bar off vs dev = (false, dev).
Proof. intros Ht Hn. destruct vs; cbn in *; [lia|]. unfold write_word. by rewrite Ht. Qed.

(** The driver's loop over the words that lie in the bar. *)
Lemma area_read_words dev bar b size n : ∀ off (u : U) buf m,
  select_bar bar = Some (b, size) → off mod 4 = 0 → 0 <= off <= size → size mod 4 = 0 →
  accessible u buf (4 * Z.of_nat n) → Z.of_nat m = Z.min (Z.of_nat n) ((size - off) / 4) →
  let '(vs, ok) := read_area dev bar off n in
  ∃ e u', area_read dev b off m u buf = (e, length vs, u') ∧
    ok = (e =? 0) && (m =? n)%nat ∧ (e = 0 ∨ e = - EIO) ∧
    bytes_at u' buf (bytes_of_words vs) ∧
    changes_only (within buf (4 * Z.of_nat (length vs))) u u'.
Proof.
  induction n as [|n IH]; intros off u buf m Hs Ha Hoff Hsz Hacc Hm; cbn [read_area].
  { assert (m = O) as -> by lia. exists 0, u. split_and!; auto; done. }
  unfold read_word. rewrite (word_target_in_bar bar b size) by done.
  destruct (Z.ltb_spec off size).
  2: { assert (m = O) as -> by lia. exists 0, u. split_and!; auto; done. }
  destruct m as [|m]; [lia|]. cbn [area_read].
  destruct (_ && _) eqn:Eb; [exists (- EIO), u; split_and!; auto; done|].
  destruct (store_accessible u buf (bytes_of_u32 (nthz (get_bar b dev) (off / 4))))
    as (u1 & E1 & Hb1 & Hc1); rewrite length_bytes_of_u32 in *.
  { eapply accessible_within; [exact Hacc|lia..]. }
  rewrite E1. change (0 =? 0) with true. cbv iota.
  specialize (IH (off + 4) u1 (buf + 4) m Hs ltac:(lia) ltac:(lia) Hsz).
  destruct (read_area dev bar (off + 4) n) as [vs ok].
  destruct IH as (e & u2 & E2 & Hok & He & Hb2 & Hc2); [|lia|].
  { eapply accessible_changed; [exact Hc1|]. eapply accessible_within; [exact Hacc|lia..]. }
  exists e, u2. rewrite E2. split_and!; [done|by rewrite Hok|done| |].
  - change (bytes_of_words (?v :: vs)) with (bytes_of_u32 v ++ bytes_of_words vs).
    apply bytes_at_app. rewrite length_bytes_of_u32. split; [|done].
    eapply bytes_at_changed; [exact Hc2| |exact Hb1]. rewrite length_bytes_of_u32.
    unfold within. lia.
  - etrans; (eapply changes_only_mono; [|eassumption]); unfold within; cbn [length]; lia.
Qed.

Lemma area_write_words spi bar b size vs : ∀ off (u : U) buf m dev,
  select_bar bar = Some (b, size) → off mod 4 = 0 → 0 <= off <= size → size mod 4 = 0 →
  bytes_at u buf (bytes_of_words vs) → Forall is_u32 vs →
  Z.of_nat m = Z.min (Z.of_nat (length vs)) ((size - off) / 4) →
  let '(ok, dev') := write_area spi bar off vs dev in
  ∃ e k, area_write spi u b off m buf dev = (e, k, dev') ∧
    ok = (e =? 0) && (m =? length vs)%nat ∧ (e = 0 ∨ e = - EIO).
Proof.
  induction vs as [|v vs IH]; intros off u buf m dev Hs Ha Hoff Hsz Hb Hvs Hm;
    cbn [write_area length] in *.
  { assert (m = O) as -> by lia. exists 0, O. auto. }
  apply Forall_cons_1 in Hvs as [Hv Hvs].
  change (bytes_of_words (v :: vs)) with (bytes_of_u32 v ++ bytes_of_words vs) in Hb.
  apply bytes_at_app in Hb as [Hb Hb']. rewrite length_bytes_of_u32 in Hb'.
  unfold write_word. rewrite (word_target_in_bar bar b size) by done.
  destruct (Z.ltb_spec off size).
  2: { assert (m = O) as -> by lia. exists 0, O. auto. }
  destruct m as [|m]; [lia|]. cbn [area_write].
  rewrite (load_known u buf (bytes_of_u32 v) 4 Hb) by by rewrite length_bytes_of_u32.
  change (0 =? 0) with true. cbv iota. rewrite u32_of_bytes_of_u32, wrap32_small by done.
  destruct (word_write spi b off v dev) as [[] dev1]; cbn [negb]; [exists (- EIO), O; auto|].
  specialize (IH (off + 4) u (buf + 4) m dev1 Hs ltac:(lia) ltac:(lia) Hsz Hb' Hvs ltac:(lia)).
  destruct (write_area spi bar (off + 4) vs dev1) as [ok dev2].
  destruct IH as (e & k & E & Hok & He). exists e, (S k). by rewrite E.
Qed.

(** A request that names no word of a bar: it starts in no bar, at an odd place or
    behind the end. *)
Lemma transfer_refused bar off count :
  0 <= bar <= 5 → is_u32 off →
  match select_bar bar with
  | Some (_, size) => (off mod 4 =? 0) && (off <=? size) = false
  | None => True
  end →
  transfer_spec count (bar * 2 ^ 60 + off) = inl (- EFAULT) ∧ word_target bar off = None.
Proof.
  intros Hb Ho Hc. unfold transfer_spec, word_target, d32_target, is_u32 in *.
  cbn [barx_rw offset_rw].
  destruct (bar_offset_split bar off) as [-> ->].
  { change (2 ^ 60) with 1152921504606846976. lia. }
  destruct (select_bar bar) as [[b size]|] eqn:Es; [|done].
  replace ((bar * 2 ^ 60 + off) mod 4) with (off mod 4)
    by (change (2 ^ 60) with (2 ^ 58 * 4); rewrite Z.mul_assoc, Z.add_comm, Z.mod_add; lia).
  destruct (off mod 4 =? 0) eqn:Ea; cbn [andb] in *; [|done]. rewrite Hc.
  destruct (Z.ltb_spec off size); [lia|]. by destruct (count mod 4 =? 0).
Qed.

(** A request that starts in a bar, or at its end. *)
Lemma transfer_words bar off n b size :
  0 <= bar <= 5 → is_u32 off → select_bar bar = Some (b, size) →
  (off mod 4 =? 0) && (off <=? size) = true →
  let m := Z.to_nat (Z.min (Z.of_nat n) ((size - off) / 4)) in
  transfer_spec (Z.min (4 * Z.of_nat n) MAX_RW_COUNT) (bar * 2 ^ 60 + off) =
    inr (TransferInformation bar off size b (b, size / 4) (4 * Z.of_nat m)).
Proof.
  intros Hb Ho Hs Hc m. unfold transfer_spec, is_u32 in *.
  destruct (bar_offset_split bar off) as [-> ->].
  { change (2 ^ 60) with 1152921504606846976. lia. }
  rewrite Hs.
  replace ((bar * 2 ^ 60 + off) mod 4) with (off mod 4)
    by (change (2 ^ 60) with (2 ^ 58 * 4); rewrite Z.mul_assoc, Z.add_comm, Z.mod_add; lia).
  apply andb_true_iff in Hc as [Ha Hle]. rewrite Ha, Hle. unfold MAX_RW_COUNT, m.
  destruct (select_bar_Some _ _ _ Hs) as [_ ->].
  replace (Z.min (4 * Z.of_nat n) 2147479552 mod 4 =? 0) with true by (destruct b; lia).
  cbn [andb]. do 2 f_equal. destruct b; lia.
Qed.

Lemma position_in_range bar off :
  0 <= bar <= 5 → is_u32 off → 0 <= bar * 2 ^ 60 + off <= LOFF_MAX.
Proof.
  unfold is_u32, LOFF_MAX. change (2 ^ 60) with 1152921504606846976. lia.
Qed.

(** The return value tells whether all [n] words were transferred. *)
Lemma complete_transfer e m n :
  e = 0 ∨ e = - EIO → (m <= 1024)%nat →
  let ret := if e =? 0 then 4 * Z.of_nat m else e in
  (e =? 0) && (m =? n)%nat = (ret =? 4 * Z.of_nat n) ∧ -4096 <= ret <= 4096.
Proof.
  intros [->| ->] Hm; cbn [andb].
  - change (0 =? 0) with true. cbv iota zeta. cbn [andb]. split; [|lia].
    destruct (Nat.eqb_spec m n), (Z.eqb_spec (4 * Z.of_nat m) (4 * Z.of_nat n)); lia || done.
  - change (- EIO =? 0) with false. cbv iota zeta. cbn [andb]. unfold EIO. split; [|lia].
    symmetry. apply Z.eqb_neq. lia.
Qed.

Lemma no_struct_read_words dev bar off n buf (k : kstate U) :
  0 <= bar <= 5 → is_u32 off → (0 < n)%nat → read_error (control k) = false →
  accessible (user k) buf (4 * Z.of_nat n) →
  let '(vs, ok) := read_area dev bar off n in
  ∃ ret pos' u',
    read_no_struct_outcome dev buf (Z.min (4 * Z.of_nat n) MAX_RW_COUNT)
      (bar * 2 ^ 60 + off) k = ((ret, pos'), with_user u' k) ∧
    ok = (ret =? 4 * Z.of_nat n) ∧ -4096 <= ret <= 4096 ∧
    bytes_at u' buf (bytes_of_words vs) ∧
    changes_only (within buf (4 * Z.of_nat (length vs))) (user k) u'.
Proof.
  intros Hbar Hoff Hn Herr Hacc. unfold read_no_struct_outcome. rewrite Herr.
  rewrite transfer_correct by (by apply position_in_range || (unfold MAX_RW_COUNT; lia)).
  destruct (select_bar bar) as [[b size]|] eqn:Es.
  2: { destruct (transfer_refused bar off (Z.min (4 * Z.of_nat n) MAX_RW_COUNT) Hbar Hoff)
         as [-> Ht]; [by rewrite Es|]. rewrite read_area_nothing by done.
       exists (- EFAULT), (bar * 2 ^ 60 + off), (user k).
       destruct k. split_and!; try done. unfold EFAULT. cbn. lia. }
  destruct ((off mod 4 =? 0) && (off <=? size)) eqn:Eg.
  2: { destruct (transfer_refused bar off (Z.min (4 * Z.of_nat n) MAX_RW_COUNT) Hbar Hoff)
         as [-> Ht]; [by rewrite Es|]. rewrite read_area_nothing by done.
       exists (- EFAULT), (bar * 2 ^ 60 + off), (user k).
       destruct k. split_and!; try done. unfold EFAULT. cbn. lia. }
  rewrite (transfer_words bar off n b size) by done. cbn [ti_nBytesToTransfer ti_barStart ti_offset].
  set (m := Z.to_nat (Z.min (Z.of_nat n) _)).
  replace (Z.to_nat (4 * Z.of_nat m / 4)) with m by lia.
  destruct (select_bar_Some _ _ _ Es) as [_ Esz]. unfold is_u32 in Hoff.
  assert (0 <= size <= 4096 ∧ size mod 4 = 0) as [Hsz Hsz4] by (rewrite Esz; destruct b; lia).
  pose proof (area_read_words dev bar b size n off (user k) buf m Es ltac:(lia) ltac:(lia)
    Hsz4 Hacc ltac:(lia)) as Hread.
  destruct (read_area dev bar off n) as [vs ok].
  destruct Hread as (e & u' & -> & -> & He & Hb & Hc). do 3 eexists.
  split; [reflexivity|].
  destruct (complete_transfer e m n He ltac:(unfold m; lia)) as [-> Hret].
  exact (conj eq_refl (conj Hret (conj Hb Hc))).
Qed.

Lemma no_struct_write_words d dev bar off vs buf (k : kstate U) :
  0 <= bar <= 5 → is_u32 off → (0 < length vs)%nat → write_error (control k) = false →
  bytes_at (user k) buf (bytes_of_words vs) → Forall is_u32 vs → devs k !! d = Some dev →
  let '(ok, dev') := write_area (spi_error (control k)) bar off vs dev in
  ∃ ret pos',
    write_no_struct_outcome d dev buf (Z.min (4 * Z.of_nat (length vs)) MAX_RW_COUNT)
      (bar * 2 ^ 60 + off) k = ((ret, pos'), upd_dev d dev' k) ∧
    ok = (ret =? 4 * Z.of_nat (length vs)) ∧ -4096 <= ret <= 4096.
Proof.
  intros Hbar Hoff Hn Herr Hb Hvs Hd. unfold write_no_struct_outcome. rewrite Herr.
  rewrite transfer_correct by (by apply position_in_range || (unfold MAX_RW_COUNT; lia)).
  set (n := length vs) in *.
  assert (match select_bar bar with
          | Some (_, size) => (off mod 4 =? 0) && (off <=? size) = false
          | None => True
          end ∨ ∃ b size, select_bar bar = Some (b, size) ∧
            (off mod 4 =? 0) && (off <=? size) = true) as [Hr|(b & size & Es & Eg)].
  { destruct (select_bar bar) as [[b size]|]; [|by left].
    destruct (_ && _) eqn:E; [right; eauto|by left]. }
  - destruct (transfer_refused bar off (Z.min (4 * Z.of_nat n) MAX_RW_COUNT) Hbar Hoff Hr)
      as [-> Ht]. rewrite write_area_nothing by done.
    exists (- EFAULT), (bar * 2 ^ 60 + off). rewrite upd_dev_id by done.
    split_and!; [done| |done..]. unfold EFAULT. lia.
  - rewrite (transfer_words bar off n b size) by done.
    cbn [ti_nBytesToTransfer ti_barStart ti_offset]. set (m := Z.to_nat (Z.min (Z.of_nat n) _)).
    replace (Z.to_nat (4 * Z.of_nat m / 4)) with m by lia.
    destruct (select_bar_Some _ _ _ Es) as [_ Esz]. unfold is_u32 in Hoff.
    assert (0 <= size <= 4096 ∧ size mod 4 = 0) as [Hsz Hsz4] by (rewrite Esz; destruct b; lia).
    pose proof (area_write_words (spi_error (control k)) bar b size vs off (user k) buf m dev Es
      ltac:(lia) ltac:(lia) Hsz4 Hb Hvs ltac:(lia)) as Hwrite. fold n in Hwrite.
    destruct (write_area _ bar off vs dev) as [ok dev'].
    destruct Hwrite as (e & j & -> & -> & He). do 2 eexists. split; [reflexivity|].
    by apply complete_transfer; [|unfold m; lia].
Qed.
End Areas.

(** ** The interface *)

Section Interface.
Context {U : Type} `{UserSpace U} `{ByteOrder} `{IoctlEncoding} `{Vfs}.
Variable frame : Z.

(** The devices that take positions. *)
Definition takes_positions (ops : file_operations) : Prop :=
  fop_read ops = Some mtcaDummy_read_no_struct ∧
  fop_write ops = Some mtcaDummy_write_no_struct.

Lemma nth_bar_offset bar : 0 <= bar <= 5 → nthz PCIEUNI_BAR_OFFSETS bar = bar * 2 ^ 60.
Proof.
  intros Hb. assert (bar = 0 ∨ bar = 1 ∨ bar = 2 ∨ bar = 3 ∨ bar = 4 ∨ bar = 5) as Hc by lia.
  by repeat destruct Hc as [->|Hc]; [..|subst].
Qed.

Lemma run_pread fd d dev buf count pos s :
  connected takes_positions fd d dev s → 0 <= count → 0 <= pos <= LOFF_MAX →
  libc_pread fd buf count pos s =
    let '((ret, _), k) :=
      read_no_struct_outcome dev buf (Z.min count MAX_RW_COUNT) pos (kernel s) in
    Done (Returned (libc_result ret), System (U:=U) k (files s)).
Proof.
  intros [Hi Hs _ _ Hd Hw (pos0 & Hf & Hpos0) (ops & Ht & Hr & _)] Hc Hpos.
  unfold libc_pread, on_file. rewrite Hf. cbn [f_device private_data]. rewrite Ht. cbn.
  rewrite Hr. unfold transfer, valid_position. cbn [f_pos f_device].
  rewrite !(proj2 (Z.leb_le _ _)) by lia. cbn [andb]. unfold enter.
  rewrite (mtcaDummy_read_no_struct_refines 0 d dev) by (done || unfold MAX_RW_COUNT; lia).
  destruct (read_no_struct_outcome _ _ _ _ _) as [[ret pos'] k]; cbn. by rewrite insert_id.
Qed.

Lemma run_pwrite fd d dev buf count pos s :
  connected takes_positions fd d dev s → 0 <= count → 0 <= pos <= LOFF_MAX →
  libc_pwrite fd buf count pos s =
    let '((ret, _), k) :=
      write_no_struct_outcome d dev buf (Z.min count MAX_RW_COUNT) pos (kernel s) in
    Done (Returned (libc_result ret), System (U:=U) k (files s)).
Proof.
  intros [Hi Hs _ _ Hd Hw (pos0 & Hf & Hpos0) (ops & Ht & _ & Hr)] Hc Hpos.
  unfold libc_pwrite, on_file. rewrite Hf. cbn [f_device private_data]. rewrite Ht. cbn.
  rewrite Hr. unfold transfer, valid_position. cbn [f_pos f_device].
  rewrite !(proj2 (Z.leb_le _ _)) by lia. cbn [andb]. unfold enter.
  rewrite (mtcaDummy_write_no_struct_refines 0 d dev) by (done || unfold MAX_RW_COUNT; lia).
  destruct (write_no_struct_outcome _ _ _ _ _ _) as [[ret pos'] k]; cbn. by rewrite insert_id.
Qed.

(** Comparing the C library's result with the number of bytes. *)
Lemma result_complete ret n :
  -4096 <= ret <= 4096 → (0 < n)%nat → is_u32 (Z.of_nat n) →
  (wrap64 (libc_result ret) =? wrap64 (Z.of_nat n * 4)) = (ret =? 4 * Z.of_nat n) ∧
  to_int (libc_result ret) = libc_result ret.
Proof.
  unfold libc_result, is_u32, to_int, wrap64. intros Hr Hn Hu. destruct (Z.ltb_spec ret 0).
  - split; [|done]. destruct (Z.eqb_spec ret (4 * Z.of_nat n)); [lia|].
    apply Z.eqb_neq. lia.
  - split; [|lia]. destruct (Z.eqb_spec ret (4 * Z.of_nat n)) as [->|Hne].
    + apply Z.eqb_eq. lia.
    + apply Z.eqb_neq. lia.
Qed.

Lemma normal_readArea fd d dev s off bar n buf :
  connected takes_positions fd d dev s →
  accessible (memory s) buf (4 * Z.of_nat n) →
  is_u32 off → is_u32 bar → is_u32 (Z.of_nat n) → (0 < n)%nat →
  let '(vs, ok) := read_area dev bar off n in
  ∃ r u, NormalReaderWriter_readArea fd off bar (Z.of_nat n) buf s = Done (r, after d dev u s) ∧
    answers r (if ok then Some tt else None) ∧ bytes_at u buf (bytes_of_words vs) ∧
    changes_only (within buf (4 * Z.of_nat (length vs))) (memory s) u.
Proof.
  intros Hcon Hacc Hoff Hbar Hu Hn. unfold NormalReaderWriter_readArea.
  destruct (Z.ltb_spec 5 bar) as [Hb|Hb].
  { destruct (word_target_bar bar off) as [Ht|]; [|lia]. rewrite read_area_nothing by done.
    exists (Thrown "Bar number is too large."), (memory s). rewrite after_id by apply Hcon.
    split_and!; [done|by eexists|done|done]. }
  assert (0 <= bar <= 5) as Hb5 by (unfold is_u32 in *; lia).
  cbv zeta. unfold virtualOffset, sizeof_u32. rewrite nth_bar_offset by done.
  pose proof (run_pread fd d dev buf (4 * Z.of_nat n) (bar * 2 ^ 60 + off) s Hcon ltac:(lia)
    (position_in_range bar off Hb5 Hoff)) as Er.
  pose proof (no_struct_read_words dev bar off n buf (kernel s) Hb5 Hoff Hn
    (con_read _ _ _ _ _ Hcon) Hacc) as Hread.
  destruct (read_area dev bar off n) as [vs ok].
  destruct Hread as (ret & pos' & u & Eo & -> & Hret & Hbytes & Hc). rewrite Eo in Er.
  destruct (result_complete ret n Hret Hn Hu) as [Heq _].
  assert (wrap64 (Z.of_nat n * 4) = 4 * Z.of_nat n) as Ew
    by (unfold is_u32 in Hu; rewrite wrap64_small; lia).
  rewrite Ew in *. rewrite (bind_returned _ _ _ _ _ Er). cbv beta. rewrite Heq.
  exists (if ret =? 4 * Z.of_nat n then Returned tt else Thrown "Error reading from device"), u.
  rewrite after_memory by apply Hcon.
  destruct (ret =? 4 * Z.of_nat n); split_and!; try done. by eexists.
Qed.

Lemma normal_writeArea fd d dev s off bar vs buf :
  connected takes_positions fd d dev s →
  bytes_at (memory s) buf (bytes_of_words vs) → Forall is_u32 vs →
  is_u32 off → is_u32 bar → is_u32 (Z.of_nat (length vs)) → (0 < length vs)%nat →
  let '(ok, dev') := write_area (spi_error (control (kernel s))) bar off vs dev in
  ∃ r, NormalReaderWriter_writeArea fd off bar (Z.of_nat (length vs)) buf s =
      Done (r, after d dev' (memory s) s) ∧
    answers r (if ok then Some tt else None).
Proof.
  intros Hcon Hb Hvs Hoff Hbar Hu Hn. unfold NormalReaderWriter_writeArea.
  destruct (Z.ltb_spec 5 bar) as [Hb'|Hb'].
  { destruct (word_target_bar bar off) as [Ht|]; [|lia]. rewrite write_area_nothing by done.
    exists (Thrown "Bar number is too large."). rewrite after_id by apply Hcon.
    split; [done|by eexists]. }
  assert (0 <= bar <= 5) as Hb5 by (unfold is_u32 in *; lia).
  cbv zeta. unfold virtualOffset, sizeof_u32. rewrite nth_bar_offset by done.
  pose proof (run_pwrite fd d dev buf (4 * Z.of_nat (length vs)) (bar * 2 ^ 60 + off) s Hcon
    ltac:(lia) (position_in_range bar off Hb5 Hoff)) as Er.
  pose proof (no_struct_write_words d dev bar off vs buf (kernel s) Hb5 Hoff Hn
    (con_write _ _ _ _ _ Hcon) Hb Hvs (con_dev _ _ _ _ _ Hcon)) as Hwrite.
  destruct (write_area _ bar off vs dev) as [ok dev'].
  destruct Hwrite as (ret & pos' & Eo & -> & Hret). rewrite Eo in Er.
  destruct (result_complete ret (length vs) Hret Hn Hu) as [Heq Hint].
  assert (wrap64 (Z.of_nat (length vs) * 4) = 4 * Z.of_nat (length vs)) as Ew
    by (unfold is_u32 in Hu; rewrite wrap64_small; lia).
  rewrite Ew in *. rewrite (bind_returned _ _ _ _ _ Er). cbv beta. rewrite Hint, Heq.
  exists (if ret =? 4 * Z.of_nat (length vs) then Returned tt else Thrown "Error writing to device").
  unfold after. rewrite with_memory_memory.
  destruct (ret =? 4 * Z.of_nat (length vs)); split; try done. by eexists.
Qed.

(** An empty area: the driver checks the place all the same. *)
Definition accepts_position (bar off : Z) : bool :=
  match select_bar bar with
  | Some (_, size) => (off mod 4 =? 0) && (off <=? size)
  | None => false
  end.

Lemma empty_transfer bar off :
  0 <= bar <= 5 → is_u32 off →
  if accepts_position bar off then
    ∃ b size, checkAndCalculateTransferInformation 0 (bar * 2 ^ 60 + off) =
      inr (TransferInformation bar off size b (b, size / 4) 0)
  else checkAndCalculateTransferInformation 0 (bar * 2 ^ 60 + off) = inl (- EFAULT).
Proof.
  intros Hbar Hoff. rewrite transfer_correct by (by apply position_in_range || done).
  unfold accepts_position. destruct (select_bar bar) as [[b size]|] eqn:Es.
  - destruct (_ && _) eqn:Eg.
    + exists b, size. pose proof (transfer_words bar off 0 b size Hbar Hoff Es Eg) as Ht.
      cbv zeta in Ht. change (Z.min (4 * Z.of_nat 0) MAX_RW_COUNT) with 0 in Ht. rewrite Ht.
      destruct (select_bar_Some _ _ _ Es) as [_ ->]. do 2 f_equal. destruct b; lia.
    + apply (transfer_refused bar off 0 Hbar Hoff). by rewrite Es.
  - apply (transfer_refused bar off 0 Hbar Hoff). by rewrite Es.
Qed.

Lemma normal_readArea_empty fd d dev s off bar buf :
  connected takes_positions fd d dev s → is_u32 off → is_u32 bar →
  NormalReaderWriter_readArea fd off bar 0 buf s =
    Done (if 5 <? bar then Thrown "Bar number is too large."
          else if accepts_position bar off then Returned tt
          else Thrown "Error reading from device", s).
Proof.
  intros Hcon Hoff Hbar. unfold NormalReaderWriter_readArea.
  destruct (Z.ltb_spec 5 bar) as [Hb|Hb]; [done|].
  assert (0 <= bar <= 5) as Hb5 by (unfold is_u32 in *; lia).
  cbv zeta. unfold virtualOffset. rewrite nth_bar_offset by done.
  pose proof (run_pread fd d dev buf 0 (bar * 2 ^ 60 + off) s Hcon ltac:(lia)
    (position_in_range bar off Hb5 Hoff)) as Er.
  change (Z.min 0 MAX_RW_COUNT) with 0 in Er. unfold read_no_struct_outcome in Er.
  rewrite (con_read _ _ _ _ _ Hcon) in Er.
  pose proof (empty_transfer bar off Hb5 Hoff) as Ht.
  change (wrap64 (0 * sizeof_u32)) with 0.
  destruct (accepts_position bar off); [destruct Ht as (b & size & Ht)|]; rewrite Ht in Er.
  - cbn in Er. rewrite (bind_returned _ _ _ _ _ Er). cbv beta.
    change (negb (wrap64 (libc_result 0) =? 0)) with false. cbv iota.
    by destruct s as [[] fs].
  - rewrite (bind_returned _ _ _ _ _ Er). cbv beta. by destruct s as [k fs].
Qed.

Lemma normal_writeArea_empty fd d dev s off bar buf :
  connected takes_positions fd d dev s → is_u32 off → is_u32 bar →
  NormalReaderWriter_writeArea fd off bar 0 buf s =
    Done (if 5 <? bar then Thrown "Bar number is too large."
          else if accepts_position bar off then Returned tt
          else Thrown "Error writing to device", s).
Proof.
  intros Hcon Hoff Hbar. unfold NormalReaderWriter_writeArea.
  destruct (Z.ltb_spec 5 bar) as [Hb|Hb]; [done|].
  assert (0 <= bar <= 5) as Hb5 by (unfold is_u32 in *; lia).
  cbv zeta. unfold virtualOffset. rewrite nth_bar_offset by done.
  pose proof (run_pwrite fd d dev buf 0 (bar * 2 ^ 60 + off) s Hcon ltac:(lia)
    (position_in_range bar off Hb5 Hoff)) as Er.
  change (Z.min 0 MAX_RW_COUNT) with 0 in Er. unfold write_no_struct_outcome in Er.
  rewrite (con_write _ _ _ _ _ Hcon) in Er.
  pose proof (empty_transfer bar off Hb5 Hoff) as Ht.
  change (wrap64 (0 * sizeof_u32)) with 0.
  destruct (accepts_position bar off); [destruct Ht as (b & size & Ht)|]; rewrite Ht in Er.
  - cbn in Er. rewrite (bind_returned _ _ _ _ _ Er). cbv beta.
    change (negb (wrap64 (to_int (libc_result 0)) =? 0)) with false. cbv iota.
    rewrite upd_dev_id by apply Hcon. by destruct s as [k fs].
  - rewrite (bind_returned _ _ _ _ _ Er). cbv beta. by destruct s as [k fs].
Qed.

(** An area of one word. *)
Lemma read_area_one dev bar off :
  read_area dev bar off 1 =
    match read_word dev bar off with Some v => ([v], true) | None => ([], false) end.
Proof. cbn. by destruct (read_word dev bar off). Qed.

Lemma write_area_one spi bar off v dev :
  write_area spi bar off [v] dev = write_word spi bar off v dev.
Proof. cbn. by destruct (write_word spi bar off v dev) as [[] dev']. Qed.

Lemma normal_readSingle fd d dev s off bar :
  connected takes_positions fd d dev s → accessible (memory s) frame 24 →
  is_u32 off → is_u32 bar →
  ∃ r u, NormalReaderWriter_readSingle frame fd off bar s = Done (r, after d dev u s) ∧
    answers r (to_int <$> read_word dev bar off) ∧
    changes_only (within frame 24) (memory s) u.
Proof.
  intros Hcon Ha Hoff Hbar. unfold NormalReaderWriter_readSingle.
  pose proof (normal_readArea fd d dev s off bar 1 frame Hcon) as Hr.
  rewrite read_area_one in Hr.
  assert (accessible (memory s) frame (4 * Z.of_nat 1)) as Ha4
    by (eapply accessible_within; [exact Ha|lia..]).
  assert (is_u32 (Z.of_nat 1)) as Hone by by vm_compute.
  destruct (read_word dev bar off) as [v|] eqn:Ev.
  - destruct (Hr Ha4 Hoff Hbar Hone ltac:(lia)) as (r & u & E & -> & Hb & Hc).
    change (Z.of_nat 1) with 1 in E. rewrite (bind_returned _ _ _ _ _ E).
    rewrite after_memory in * by apply Hcon.
    exists (Returned (to_int v)), u. rewrite after_memory by apply Hcon. split_and!; [|done|].
    + unfold load_word. unfold bytes_of_words in Hb. cbn in Hb. rewrite app_nil_r in Hb.
      erewrite bind_returned by (apply (run_load _ (bytes_of_u32 v));
        [exact Hb|by rewrite length_bytes_of_u32]).
      rewrite u32_of_bytes_of_u32, wrap32_small; [done|].
      by eapply read_word_u32; [apply Hcon|].
    + eapply changes_only_mono; [|exact Hc]. unfold within. cbn. lia.
  - destruct (Hr Ha4 Hoff Hbar Hone ltac:(lia)) as (r & u & E & [what ->] & Hb & Hc).
    change (Z.of_nat 1) with 1 in E. rewrite (bind_thrown _ _ _ _ _ E).
    exists (Thrown what), u. split_and!; [done|by eexists|].
    eapply changes_only_mono; [|exact Hc]. unfold within. cbn. lia.
Qed.

Lemma normal_writeSingle fd d dev s off bar v :
  connected takes_positions fd d dev s → accessible (memory s) frame 24 →
  is_u32 off → is_u32 bar →
  let '(ok, dev') := write_word (spi_error (control (kernel s))) bar off (wrap32 v) dev in
  ∃ r u, NormalReaderWriter_writeSingle frame fd off bar v s = Done (r, after d dev' u s) ∧
    answers r (if ok then Some tt else None) ∧ changes_only (within frame 24) (memory s) u.
Proof.
  intros Hcon Ha Hoff Hbar. unfold NormalReaderWriter_writeSingle, store_word.
  destruct (run_store frame (bytes_of_u32 (wrap32 v)) s) as (u1 & E1 & Hb1 & Hc1).
  { rewrite length_bytes_of_u32. eapply accessible_within; [exact Ha|lia..]. }
  rewrite length_bytes_of_u32 in Hc1. rewrite (bind_returned _ _ _ _ _ E1).
  pose proof (normal_writeArea fd d dev (with_memory u1 s) off bar [wrap32 v] frame
    (connected_memory _ _ _ _ u1 _ Hcon)) as Hw.
  rewrite write_area_one in Hw. unfold bytes_of_words in Hw. cbn in Hw. rewrite app_nil_r in Hw.
  destruct (write_word _ _ _ _ _) as [ok dev'].
  destruct Hw as (r & E & Hr); [done|repeat constructor; apply wrap32_range|done..|lia|].
  exists r, u1. change (Z.of_nat 1) with 1 in E. rewrite E. split_and!; [done|done|].
  eapply changes_only_mono; [|exact Hc1]. unfold within. lia.
Qed.

(** [NormalReaderWriter] implements the interface. *)
#[export] Instance NormalReaderWriter_correct :
  IsReaderWriter frame (NormalReaderWriter frame) takes_positions.
Proof.
  split.
  - apply normal_readSingle.
  - apply normal_writeSingle.
  - intros fd d dev s off bar n buf Hcon _ Hacc _ Hoff Hbar Hu Hn.
    pose proof (normal_readArea fd d dev s off bar n buf Hcon Hacc Hoff Hbar Hu Hn) as Hr.
    destruct (read_area dev bar off n) as [vs ok]. destruct Hr as (r & u & E & Ha & Hb & Hc).
    exists r, u. split_and!; [done..|]. eapply changes_only_mono; [|exact Hc]. by right.
  - intros fd d dev s off bar vs buf Hcon _ Hb Hvs _ Hoff Hbar Hu Hn.
    pose proof (normal_writeArea fd d dev s off bar vs buf Hcon Hb Hvs Hoff Hbar Hu Hn) as Hw.
    destruct (write_area _ bar off vs dev) as [ok dev']. destruct Hw as (r & E & Ha).
    by exists r, (memory s).
Qed.
End Interface.
