(* ===== verification/TestProgram.v ===== *)
(** * The automatic test ([automatic_test/executables_src/testMtcaDummy.cpp])

    The tests of [MtcaDummyTest] are programs over the interface of
    [ReaderWriter], and are verified against it, for every implementation. The
    test program runs them with the two implementations on two devices. *)

From S2P Require Import Prelude Abi Kernel UserMem Firmware ModuleInit Registers StructRW.
From S2P Require Import NoStructRW Ioctl OpenRelease Proc Driver Process ReaderWriter.
From S2P Require Import StructReaderWriter NormalReaderWriter.
From stdpp Require Import functions.
Local Open Scope Z_scope.

(** ** Model *)

Definition N_WORDS_DMA : Z := MTCADUMMY_DMA_SIZE / sizeof_u32.

Section Model.
Context {U : Type} `{UserSpace U} `{ByteOrder} `{IoctlEncoding} `{Vfs}.

(** The vectors of the tests, by the address of their elements. *)
Definition store_words (a : Z) (ws : list Z) : client (U:=U) unit :=
  store_bytes a (bytes_of_words ws).

Definition load_words (a : Z) (n : nat) : client (U:=U) (list Z) :=
  bs ← load_bytes a (4 * n);
  mret ((λ i, to_int (u32_at bs (4 * i))) <$> seq 0 n).

(** [for(i = ...; i < ...; ++i) v[i] = i * i;], [n] iterations from [i] on. *)
Fixpoint store_squares (a : Z) (n : nat) (i : Z) : client (U:=U) unit :=
  match n with
  | O => mret tt
  | S n' => _ ← store_word (a + i * sizeof_u32) (wrap32 (i * i));
            store_squares a n' (i + 1)
  end.

(** [BOOST_CHECK_THROW] and [BOOST_CHECK_NO_THROW] with [DeviceIOException]. *)
Definition check_throw {A} (c : client (U:=U) A) : client (U:=U) bool := λ s,
  match c s with
  | Done (Thrown _, s') => Done (Returned true, s')
  | Done (Returned _, s') => Done (Returned false, s')
  | Done (Crashed, s') => Done (Crashed, s')
  | Blocked => Blocked
  | Oops r => Oops r
  end.

Definition check_no_throw {A} (c : client (U:=U) A) : client (U:=U) bool :=
  thrown ← check_throw c; mret (negb thrown).

Section Tests.
(** [_readerWriter] with its descriptor, and the addresses of [bufferHelix] and
    of the local vectors of the tests. [bufferA] is never used. *)
Variables (rw : reader_writer U) (fd : nat).
Variables (bufferHelix readBuffer expectedBuffer : Z).

(** The constructor. *)
Definition MtcaDummyTest : client (U:=U) unit :=
  _ ← store_words bufferHelix (replicate (Z.to_nat N_WORDS_DMA) 0);
  _ ← store_squares bufferHelix 25 0;
  writeArea rw fd 0 2 N_WORDS_DMA bufferHelix.

Definition testReadSingle : client (U:=U) (list bool) :=
  a ← readSingle rw fd MTCADUMMY_WORD_DUMMY 0;
  b ← readSingle rw fd (8 * sizeof_u32) 2;
  mret [a =? MTCADUMMY_DMMY_AS_ASCII; b =? 8 * 8].

Definition testReadSingleWithError : client (U:=U) (list bool) :=
  a ← check_throw (readSingle rw fd MTCADUMMY_BROKEN_REGISTER 0);
  b ← check_no_throw (readSingle rw fd MTCADUMMY_BROKEN_WRITE 0);
  mret [a; b].

(** The words are [uint32_t], the functions take and return [int32_t]. *)
Definition increment_word (offset bar : Z) : client (U:=U) bool :=
  word ← readSingle rw fd offset bar;
  let word := wrap32 (wrap32 word + 1) in
  _ ← writeSingle rw fd offset bar (to_int word);
  back ← readSingle rw fd offset bar;
  mret (wrap32 back =? word).

Definition testWriteSingle : client (U:=U) (list bool) :=
  a ← increment_word MTCADUMMY_WORD_USER 0;
  b ← increment_word 0x20 2;
  mret [a; b].

Definition testWriteSingleWithError : client (U:=U) (list bool) :=
  a ← check_throw (writeSingle rw fd MTCADUMMY_BROKEN_REGISTER 0 42);
  b ← check_throw (writeSingle rw fd MTCADUMMY_BROKEN_WRITE 0 42);
  mret [a; b].

Definition testReadArea : client (U:=U) (list bool) :=
  let startIndex := 13 in
  let nWordsToRead := 5 in
  _ ← store_words readBuffer (replicate (Z.to_nat N_WORDS_DMA) 0xB0B0B0B0);
  _ ← readArea rw fd (startIndex * sizeof_u32) 2 nWordsToRead
        (readBuffer + startIndex * sizeof_u32);
  buffer ← load_words readBuffer (Z.to_nat N_WORDS_DMA);
  mret ((λ i, wrap32 (nthz buffer i) =?
                if (startIndex <=? i) && (i <? startIndex + nWordsToRead)
                then wrap32 (i * i) else 0xB0B0B0B0) <$> seqZ 0 N_WORDS_DMA).

Definition testWriteArea : client (U:=U) (list bool) :=
  let startIndex := 100 in
  let nWordsToRead := 8 in
  _ ← writeSingle rw fd MTCADUMMY_WORD_ADC_ENA 0 1;
  helix ← load_words bufferHelix (Z.to_nat N_WORDS_DMA);
  _ ← store_words expectedBuffer (wrap32 <$> helix);
  _ ← store_squares expectedBuffer (Z.to_nat nWordsToRead) startIndex;
  _ ← writeArea rw fd (startIndex * sizeof_u32) 2 nWordsToRead
        (expectedBuffer + startIndex * sizeof_u32);
  _ ← store_words readBuffer (replicate (Z.to_nat N_WORDS_DMA) 0);
  _ ← readArea rw fd 0 2 N_WORDS_DMA readBuffer;
  buffer ← load_words readBuffer (Z.to_nat N_WORDS_DMA);
  expected ← load_words expectedBuffer (Z.to_nat N_WORDS_DMA);
  mret [bool_decide (buffer = expected)].

(** A test case passes when it returns with all checks true; an exception that
    leaves it is a failure. *)
Definition run_test (test : client (U:=U) (list bool)) : client (U:=U) bool := λ s,
  match test s with
  | Done (Returned checks, s') => Done (Returned (forallb id checks), s')
  | Done (Thrown _, s') => Done (Returned false, s')
  | Done (Crashed, s') => Done (Crashed, s')
  | Blocked => Blocked
  | Oops r => Oops r
  end.

(** [MtcaDummyTestSuite] *)
Definition MtcaDummyTestSuite : client (U:=U) (list bool) :=
  a ← run_test testReadSingle;
  b ← run_test testReadSingleWithError;
  c ← run_test testWriteSingle;
  d ← run_test testWriteSingleWithError;
  e ← run_test testReadArea;
  f ← run_test testWriteArea;
  mret [a; b; c; d; e; f].
End Tests.

(** [init_unit_test_suite] creates the two test objects, then the cases run, and
    the files are closed at the end. *)
Definition test_program (frame helix0 helix6 readBuffer expectedBuffer : Z) :
    client (U:=U) (list bool) :=
  let rw0 := StructReaderWriter frame in
  let rw6 := NormalReaderWriter frame in
  fd0 ← ReaderWriter ("/dev/" +:+ MTCADUMMY_NAME +:+ "s0");
  _ ← MtcaDummyTest rw0 fd0 helix0;
  fd6 ← ReaderWriter ("/dev/" +:+ PCIEUNIDUMMY_NAME +:+ "s6");
  _ ← MtcaDummyTest rw6 fd6 helix6;
  a ← MtcaDummyTestSuite rw0 fd0 helix0 readBuffer expectedBuffer;
  b ← MtcaDummyTestSuite rw6 fd6 helix6 readBuffer expectedBuffer;
  _ ← delete_ReaderWriter fd0;
  _ ← delete_ReaderWriter fd6;
  mret (a ++ b).
End Model.

(** ** Word arrays in memory *)

Section Words.
Context {U : Type} `{UserSpace U} `{ByteOrder}.
Implicit Types u : U.

Lemma bytes_of_words_cons w ws : bytes_of_words (w :: ws) = bytes_of_u32 w ++ bytes_of_words ws.
Proof. done. Qed.

Lemma words_at_app u a ws vs :
  bytes_at u a (bytes_of_words (ws ++ vs)) ↔
  bytes_at u a (bytes_of_words ws) ∧
  bytes_at u (a + 4 * Z.of_nat (length ws)) (bytes_of_words vs).
Proof.
  rewrite bytes_of_words_app, bytes_at_app, length_bytes_of_words.
  by replace (a + Z.of_nat (4 * length ws)) with (a + 4 * Z.of_nat (length ws)) by lia.
Qed.

(** Every accessible array holds some words. *)
Lemma accessible_words u n : ∀ a,
  accessible u a (4 * Z.of_nat n) →
  ∃ ws, length ws = n ∧ Forall is_u32 ws ∧ bytes_at u a (bytes_of_words ws).
Proof.
  induction n as [|n IH]; intros a Ha; [by exists []|].
  destruct (IH (a + 4)) as (ws & Hl & Hu & Hb); [eapply accessible_within; [exact Ha|lia..]|].
  exists (user_word u a :: ws). split_and!; [cbn; lia| |].
  - constructor; [|done]. apply u32_of_bytes_range, copy_from_user_length.
  - rewrite bytes_of_words_cons. apply bytes_at_app. rewrite length_bytes_of_u32.
    split; [|done]. intros i b Hi.
    assert (i < 4)%nat by (apply lookup_lt_Some in Hi; by rewrite length_bytes_of_u32 in Hi).
    rewrite bytes_of_user_word in Hi; [done| |done].
    intros j Hj. apply Ha. unfold within. lia.
Qed.

(** Storing over a part of an array. *)
Lemma words_patched u u' a ws vs k :
  bytes_at u a (bytes_of_words ws) → (k + length vs <= length ws)%nat →
  bytes_at u' (a + 4 * Z.of_nat k) (bytes_of_words vs) →
  (∀ x, within a (4 * Z.of_nat (length ws)) x →
     ¬ within (a + 4 * Z.of_nat k) (4 * Z.of_nat (length vs)) x →
     user_byte u' x = user_byte u x) →
  bytes_at u' a (bytes_of_words (take k ws ++ vs ++ drop (k + length vs) ws)).
Proof.
  intros Hb Hk Hv Hsame.
  rewrite <-(take_drop k ws), <-(take_drop (length vs) (drop k ws)) in Hb.
  rewrite drop_drop, !words_at_app, !length_take, !length_drop in Hb.
  destruct Hb as (Hb1 & _ & Hb3).
  replace (k `min` length ws)%nat with k in * by lia.
  replace (length vs `min` (length ws - k))%nat with (length vs) in * by lia.
  rewrite !words_at_app, length_take. replace (k `min` length ws)%nat with k by lia.
  split_and!; [|done|].
  - intros i b Hi. rewrite Hsame; [by apply Hb1|..]; apply lookup_lt_Some in Hi;
      rewrite length_bytes_of_words, length_take in Hi; unfold within; lia.
  - intros i b Hi. rewrite Hsame; [by apply Hb3|..]; apply lookup_lt_Some in Hi;
      rewrite length_bytes_of_words, length_drop in Hi; unfold within; lia.
Qed.

Lemma patch_setz k v ws :
  (k < length ws)%nat → take k ws ++ [v] ++ drop (k + 1) ws = setz (Z.of_nat k) v ws.
Proof.
  intros Hk. unfold setz. rewrite Nat2Z.id, insert_take_drop by done.
  by rewrite Nat.add_1_r.
Qed.

(** The elements of an array read back as [int32_t]. *)
Lemma loaded_words ws :
  Forall is_u32 ws →
  (λ i, to_int (u32_at (bytes_of_words ws) (4 * i))) <$> seq 0 (length ws) = to_int <$> ws.
Proof.
  intros Hu. apply list_eq. intros i. rewrite !list_lookup_fmap.
  destruct (decide (i < length ws)%nat) as [Hi|Hi].
  - rewrite lookup_seq_lt by done. destruct (lookup_lt_is_Some_2 ws i Hi) as [w Hw].
    rewrite Hw. cbn. rewrite (u32_at_bytes_of_words ws i w) by done.
    rewrite wrap32_small; [done|]. by eapply Forall_lookup_1 in Hw.
  - rewrite lookup_seq_ge, (lookup_ge_None_2 ws) by lia. done.
Qed.
End Words.

(** ** The state during a test *)

(** [set_squares n i ws]: the squares stored into the words [i] to [i + n - 1]. *)
Fixpoint set_squares (n : nat) (i : Z) (ws : list Z) : list Z :=
  match n with
  | O => ws
  | S n' => set_squares n' (i + 1) (setz i (wrap32 (i * i)) ws)
  end.

Definition helix : list Z := set_squares 25 0 (replicate 1024 0).

Lemma set_squares_u32 n : ∀ i ws, Forall is_u32 ws → Forall is_u32 (set_squares n i ws).
Proof. induction n; intros i ws Hu; cbn; auto with mtca. Qed.

Lemma length_set_squares n : ∀ i ws, length (set_squares n i ws) = length ws.
Proof. induction n as [|n IH]; intros i ws; cbn; [done|]. by rewrite IH, length_setz. Qed.

(** The arrays of the program: the [bufferHelix] of the two test objects, and the
    local vectors. *)
Inductive array := Helix0 | Helix6 | ReadBuffer | ExpectedBuffer.

#[export] Instance array_eq_dec : EqDecision array.
Proof. solve_decision. Defined.

Section Testing.
Context {U : Type} `{UserSpace U} `{ByteOrder} `{IoctlEncoding} `{Vfs}.
Variables (frame : Z) (address : array → Z).

(** The arrays and the stack frame are accessible and do not overlap. *)
Record memory_layout (u : U) : Prop := {
  lay_frame : accessible u frame 24;
  lay_array ρ : accessible u (address ρ) 4096;
  lay_apart ρ x : within (address ρ) 4096 x → ¬ within frame 24 x;
  lay_disjoint ρ ρ' x : ρ ≠ ρ' → within (address ρ) 4096 x → ¬ within (address ρ') 4096 x;
}.

(** The arrays hold the words [m]. *)
Definition arrays_hold (m : array → list Z) (u : U) : Prop :=
  ∀ ρ, length (m ρ) = 1024%nat ∧ Forall is_u32 (m ρ) ∧
    bytes_at u (address ρ) (bytes_of_words (m ρ)).

(** Only device [d] and the memory differ from [s0]. *)
Definition elsewhere (d : nat) (s0 s : system (U:=U)) : Prop :=
  files s = files s0 ∧ control (kernel s) = control (kernel s0) ∧
  control_owner (kernel s) = control_owner (kernel s0) ∧
  signals (kernel s) = signals (kernel s0) ∧
  ∀ d', d' ≠ d → devs (kernel s) !! d' = devs (kernel s0) !! d'.

Context (serves : file_operations → Prop) (rw : reader_writer U).
Context (fd d : nat) (s0 : system (U:=U)).

(** The state between two steps of a test on device [d]. *)
Record testing (m : array → list Z) (dev : mtcaDummyData) (s : system (U:=U)) : Prop := {
  te_connected : connected serves fd d dev s;
  te_layout : memory_layout (memory s);
  te_arrays : arrays_hold m (memory s);
  te_elsewhere : elsewhere d s0 s;
}.

Lemma memory_layout_changed P u u' : changes_only P u u' → memory_layout u → memory_layout u'.
Proof.
  intros Hc [? ? ? ?]. split; [by eapply accessible_changed| |done..].
  intros ρ. by eapply accessible_changed.
Qed.

Lemma elsewhere_after dev u s : elsewhere d s0 s → elsewhere d s0 (after d dev u s).
Proof.
  intros (?&?&?&?&Hd). split_and!; [done..|]. intros d' Hne. cbn.
  rewrite list_lookup_insert_ne by done. by apply Hd.
Qed.

(** A call that changes no array. *)
Lemma testing_call m dev dev' u s P :
  testing m dev s → wf_dev d dev' → same_identity dev dev' →
  changes_only P (memory s) u → (∀ x, P x → within frame 24 x) →
  testing m dev' (after d dev' u s).
Proof.
  intros [Hcon Hlay Harr Hel] Hw Hid Hc HP. split.
  - by eapply connected_after.
  - by eapply memory_layout_changed.
  - intros ρ. destruct (Harr ρ) as (Hl & Hu & Hb). split_and!; [done..|].
    eapply bytes_at_changed; [exact Hc| |exact Hb].
    rewrite length_bytes_of_words, Hl. intros x Hx Hf%HP. by eapply (lay_apart _ Hlay ρ x).
  - by apply elsewhere_after.
Qed.

(** A call that stores the words [vs] into an array, from element [k] on. *)
Lemma testing_patch m dev u s ρ k vs :
  testing m dev s → (k + length vs <= 1024)%nat → Forall is_u32 vs →
  bytes_at u (address ρ + 4 * Z.of_nat k) (bytes_of_words vs) →
  changes_only (λ x, within frame 24 x ∨
    within (address ρ + 4 * Z.of_nat k) (4 * Z.of_nat (length vs)) x) (memory s) u →
  testing (<[ρ := take k (m ρ) ++ vs ++ drop (k + length vs) (m ρ)]> m) dev (with_memory u s).
Proof.
  intros [Hcon Hlay Harr Hel] Hk Hvs Hb Hc. split.
  - by apply connected_memory.
  - by eapply memory_layout_changed.
  - intros ρ'. destruct (decide (ρ = ρ')) as [<-|Hne].
    + rewrite fn_lookup_insert. destruct (Harr ρ) as (Hl & Hu & Hbm). split_and!.
      * rewrite !length_app, length_take, length_drop. lia.
      * rewrite !Forall_app. split_and!; [by apply Forall_take|done|by apply Forall_drop].
      * eapply words_patched; [exact Hbm|lia|exact Hb|]. rewrite Hl. intros x Hx Hn.
        apply Hc. intros [Hf|?]; [|done]. by eapply (lay_apart _ Hlay ρ x).
    + rewrite fn_lookup_insert_ne by done. destruct (Harr ρ') as (Hl & Hu & Hbm).
      split_and!; [done..|]. eapply bytes_at_changed; [exact Hc| |exact Hbm].
      rewrite length_bytes_of_words, Hl. intros x Hx [Hf|Hv].
      * by eapply (lay_apart _ Hlay ρ' x).
      * apply (lay_disjoint _ Hlay ρ' ρ x); [done..|]. unfold within in *. lia.
  - destruct Hel as (?&?&?&?&?). by split_and!.
Qed.
End Testing.
