(* ===== verification/Library.v ===== *)
(** * Any sequence of calls of the test library

    What a client of [ReaderWriter] observes: a sequence of calls is answered as
    by a device in isolation ([library_answers]), exceptions with their messages
    included. The classes give different answers to some calls, those with a bar
    number above 5 and some with an empty area; [portable] says exactly which. *)

From S2P Require Import Prelude Abi Kernel UserMem Firmware ModuleInit Registers StructRW.
From S2P Require Import NoStructRW Ioctl OpenRelease Driver Process ReaderWriter StructReaderWriter.
From S2P Require Import NormalReaderWriter TestProgram.
Local Open Scope Z_scope.

(** ** Clients *)

(** A call, with the words it writes. *)
Inductive library_call :=
  | ReadSingle (offset bar : Z)
  | WriteSingle (offset bar value : Z)
  | ReadArea (offset bar : Z) (nWords : nat)
  | WriteArea (offset bar : Z) (words : list Z).

(** The place a call names, and the number of words it transfers. *)
Definition call_bar (c : library_call) : Z :=
  match c with
  | ReadSingle _ bar | WriteSingle _ bar _ | ReadArea _ bar _ | WriteArea _ bar _ => bar
  end.

Definition call_offset (c : library_call) : Z :=
  match c with
  | ReadSingle off _ | WriteSingle off _ _ | ReadArea off _ _ | WriteArea off _ _ => off
  end.

Definition call_words (c : library_call) : nat :=
  match c with
  | ReadSingle _ _ | WriteSingle _ _ _ => 1
  | ReadArea _ _ n => n
  | WriteArea _ _ vs => length vs
  end.

(** The arguments are of their types, and the words fit into the client's array. *)
Definition valid_call (capacity : nat) (c : library_call) : Prop :=
  is_u32 (call_offset c) ∧ is_u32 (call_bar c) ∧
  match c with WriteArea _ _ vs => Forall is_u32 vs | _ => True end ∧
  (call_words c <= capacity)%nat.

Section Client.
Context {U : Type} `{UserSpace U} `{ByteOrder} `{IoctlEncoding} `{Vfs}.

(** The answer of a computation that may throw: what it returns, or the message of
    the exception. *)
Definition attempt {A} (c : client (U:=U) A) : client (U:=U) (string + A) := λ s,
  match c s with
  | Done (Returned a, s') => Done (Returned (inr a), s')
  | Done (Thrown what, s') => Done (Returned (inl what), s')
  | Done (Crashed, s') => Done (Crashed, s')
  | Blocked => Blocked
  | Oops r => Oops r
  end.

(** One call; areas go through the array at [buffer]. *)
Definition library_step (rw : reader_writer U) (fd : nat) (buffer : Z) (c : library_call) :
    client (U:=U) (list Z) :=
  match c with
  | ReadSingle off bar => v ← readSingle rw fd off bar; mret [v]
  | WriteSingle off bar v => _ ← writeSingle rw fd off bar v; mret []
  | ReadArea off bar n =>
      _ ← readArea rw fd off bar (Z.of_nat n) buffer; load_words buffer n
  | WriteArea off bar vs =>
      _ ← store_words buffer vs;
      _ ← writeArea rw fd off bar (Z.of_nat (length vs)) buffer; mret []
  end.

Fixpoint library_run (rw : reader_writer U) (fd : nat) (buffer : Z) (cs : list library_call) :
    client (U:=U) (list (string + list Z)) :=
  match cs with
  | [] => mret []
  | c :: cs' =>
      a ← attempt (library_step rw fd buffer c);
      rest ← library_run rw fd buffer cs'; mret (a :: rest)
  end.
End Client.

(** ** The two classes *)

Inductive reader_writer_class := WithStruct | WithoutStruct.

Section Classes.
Context {U : Type} `{UserSpace U} `{ByteOrder} `{IoctlEncoding} `{Vfs}.

(** The class, and the tables of the devices it is for. *)
Definition class_of (frame : Z) (c : reader_writer_class) : reader_writer U :=
  match c with
  | WithStruct => StructReaderWriter frame
  | WithoutStruct => NormalReaderWriter frame
  end.

Definition class_serves (c : reader_writer_class) : file_operations → Prop :=
  match c with WithStruct => takes_requests | WithoutStruct => takes_positions end.

#[export] Instance class_correct frame c :
  IsReaderWriter frame (class_of frame c) (class_serves c).
Proof. destruct c; apply _. Qed.
End Classes.

(** ** Specification *)

(** The message of a class that fails to do [what]. *)
Definition complaint (cl : reader_writer_class) (bar : Z) (what : string) : string :=
  match cl with
  | WithStruct => what
  | WithoutStruct => if 5 <? bar then "Bar number is too large." else what
  end.

(** Empty areas: one class makes no system call, the other asks the driver. *)
Definition takes_area (cl : reader_writer_class) (bar off : Z) (n : nat) : bool :=
  match cl with
  | WithStruct => true
  | WithoutStruct => (0 <? n)%nat || accepts_position bar off
  end.

Definition class_read_area (cl : reader_writer_class) (dev : mtcaDummyData) (bar off : Z)
    (n : nat) : list Z * bool :=
  if takes_area cl bar off n then read_area dev bar off n else ([], false).

Definition class_write_area (cl : reader_writer_class) (spi : bool) (bar off : Z) (vs : list Z)
    (dev : mtcaDummyData) : bool * mtcaDummyData :=
  if takes_area cl bar off (length vs) then write_area spi bar off vs dev else (false, dev).

(** The answer with the value [o], if any, and the message [what] else. *)
Definition answer {A} (what : string) (o : option A) : string + A :=
  match o with Some a => inr a | None => inl what end.

(** The answer to one call, and the device afterwards. *)
Definition library_answer (cl : reader_writer_class) (spi : bool) (dev : mtcaDummyData)
    (c : library_call) : (string + list Z) * mtcaDummyData :=
  let reading := complaint cl (call_bar c) "Error reading from device" in
  let writing := complaint cl (call_bar c) "Error writing to device" in
  match c with
  | ReadSingle off bar => (answer reading ((λ v, [to_int v]) <$> read_word dev bar off), dev)
  | WriteSingle off bar v =>
      let '(ok, dev') := write_word spi bar off (wrap32 v) dev in
      (answer writing (if ok then Some [] else None), dev')
  | ReadArea off bar n =>
      let '(vs, ok) := class_read_area cl dev bar off n in
      (answer reading (if ok then Some (to_int <$> vs) else None), dev)
  | WriteArea off bar vs =>
      let '(ok, dev') := class_write_area cl spi bar off vs dev in
      (answer writing (if ok then Some [] else None), dev')
  end.

Fixpoint library_answers (cl : reader_writer_class) (spi : bool) (dev : mtcaDummyData)
    (cs : list library_call) : list (string + list Z) * mtcaDummyData :=
  match cs with
  | [] => ([], dev)
  | c :: cs' =>
      let '(a, dev1) := library_answer cl spi dev c in
      let '(rest, dev2) := library_answers cl spi dev1 cs' in (a :: rest, dev2)
  end.

(** The calls that both classes answer alike. *)
Definition portable (c : library_call) : Prop :=
  call_bar c <= 5 ∧
  ((0 < call_words c)%nat ∨ accepts_position (call_bar c) (call_offset c) = true).

(** Devices with the same content. *)
Definition same_content (dev dev' : mtcaDummyData) : Prop :=
  systemBar dev = systemBar dev' ∧ dmaBar dev = dmaBar dev'.

#[export] Instance same_content_equiv : Equivalence same_content.
Proof. split; [done|by intros ??[]|]. intros ??? [] []. split; congruence. Qed.

Lemma get_bar_content b dev dev' : same_content dev dev' → get_bar b dev = get_bar b dev'.
Proof. intros []. by destruct b. Qed.

#[export] Instance read_word_content :
  Proper (same_content ==> eq ==> eq ==> eq) read_word.
Proof.
  intros dev dev' Hd ? bar -> ? off ->. unfold read_word.
  destruct (word_target bar off) as [[b i]|]; [|done]. by rewrite (get_bar_content b dev dev').
Qed.

Lemma write_word_content spi bar off v dev dev' :
  same_content dev dev' →
  (write_word spi bar off v dev).1 = (write_word spi bar off v dev').1 ∧
  same_content (write_word spi bar off v dev).2 (write_word spi bar off v dev').2.
Proof.
  intros [Hs Hd]. unfold write_word. destruct (word_target bar off) as [[b i]|]; [|done].
  unfold word_write. destruct b; cbn; rewrite ?Hs, ?Hd; by split.
Qed.

Lemma read_area_content bar n : ∀ off dev dev',
  same_content dev dev' → read_area dev bar off n = read_area dev' bar off n.
Proof.
  induction n as [|n IH]; intros off dev dev' Hd; cbn [read_area]; [done|].
  rewrite Hd at 1. by rewrite (IH _ dev dev').
Qed.

Lemma write_area_content spi bar vs : ∀ off dev dev',
  same_content dev dev' →
  (write_area spi bar off vs dev).1 = (write_area spi bar off vs dev').1 ∧
  same_content (write_area spi bar off vs dev).2 (write_area spi bar off vs dev').2.
Proof.
  induction vs as [|v vs IH]; intros off dev dev' Hd; cbn [write_area]; [done|].
  destruct (write_word_content spi bar off v dev dev' Hd) as [Hok Hd'].
  destruct (write_word spi bar off v dev) as [ok dev1], (write_word spi bar off v dev') as [ok' dev1'].
  cbn [fst snd] in *. subst ok'. destruct ok; [by apply IH|done].
Qed.

(** *** The answers of the two classes *)

Lemma portable_iff c :
  portable c ↔
  call_bar c <= 5 ∧ takes_area WithoutStruct (call_bar c) (call_offset c) (call_words c) = true.
Proof. unfold portable, takes_area. by rewrite orb_true_iff, Nat.ltb_lt. Qed.

(** No bar has a number above 5. *)
Lemma read_word_no_bar dev bar off : 5 < bar → read_word dev bar off = None.
Proof. intros Hb. unfold read_word. by destruct (word_target_bar bar off) as [->|]; [|lia]. Qed.

Lemma write_word_no_bar spi bar off v dev : 5 < bar → write_word spi bar off v dev = (false, dev).
Proof. intros Hb. unfold write_word. by destruct (word_target_bar bar off) as [->|]; [|lia]. Qed.

Lemma accepts_no_bar bar off : 5 < bar → accepts_position bar off = false.
Proof.
  intros Hb. unfold accepts_position, select_bar.
  by rewrite !(proj2 (Z.eqb_neq _ _)) by lia.
Qed.

Lemma class_read_area_no_bar dev bar off n :
  5 < bar → class_read_area WithoutStruct dev bar off n = ([], false).
Proof.
  intros Hb. unfold class_read_area, takes_area. rewrite accepts_no_bar, orb_false_r by done.
  destruct n as [|n]; [done|]. cbn. by rewrite read_word_no_bar.
Qed.

Lemma class_write_area_no_bar spi dev bar off vs :
  5 < bar → class_write_area WithoutStruct spi bar off vs dev = (false, dev).
Proof.
  intros Hb. unfold class_write_area, takes_area. rewrite accepts_no_bar, orb_false_r by done.
  destruct vs as [|v vs]; [done|]. cbn. by rewrite write_word_no_bar.
Qed.

(** Where one class has the answer [o] and the other, if it takes the call, too. *)
Lemma answer_classes {A} bar what (takes : bool) (o o' : option A) :
  what ≠ "Bar number is too large." → o' = (if takes then o else None) →
  (takes = false → o ≠ None) → (5 < bar → o' = None) →
  answer what o = answer (complaint WithoutStruct bar what) o' ↔ bar <= 5 ∧ takes = true.
Proof.
  intros Hwhat Ho Hrefused Hbar. cbn [complaint]. destruct (Z.ltb_spec 5 bar) as [Hb|Hb].
  - rewrite (Hbar Hb). split; [|lia]. destruct o; cbn; congruence.
  - rewrite Ho. destruct takes; [by split|]. split; [|by intros []].
    destruct o; [done|]. by destruct (Hrefused eq_refl).
Qed.

Lemma library_answer_classes spi dev dev' c :
  same_content dev dev' →
  ((library_answer WithStruct spi dev c).1 = (library_answer WithoutStruct spi dev' c).1 ↔
    portable c) ∧
  same_content (library_answer WithStruct spi dev c).2 (library_answer WithoutStruct spi dev' c).2.
Proof.
  intros Hd. rewrite portable_iff.
  destruct c as [off bar|off bar v|off bar n|off bar vs];
    cbn [library_answer call_bar call_offset call_words fst snd].
  - split; [|done]. rewrite <-(read_word_content dev dev' Hd bar bar eq_refl off off eq_refl).
    apply answer_classes; [done..|]. intros Hb. by rewrite read_word_no_bar.
  - destruct (write_word_content spi bar off (wrap32 v) dev dev' Hd) as [E Hd1].
    pose proof (write_word_no_bar spi bar off (wrap32 v) dev') as Hno.
    destruct (write_word _ _ _ _ dev) as [ok dev1], (write_word _ _ _ _ dev') as [ok' dev1'].
    cbn [fst snd] in *. subst ok'. split; [|done].
    apply (answer_classes bar "Error writing to device" true (if ok then Some [] else None));
      [done..|].
    intros Hb. by injection (Hno Hb) as -> _.
  - pose proof (class_read_area_no_bar dev' bar off n) as Hno. unfold class_read_area in *.
    rewrite <-(read_area_content bar n off dev dev' Hd) in *. cbn [takes_area] in *.
    destruct n as [|n]; cbn [Nat.ltb Nat.leb orb read_area] in *.
    + destruct (accepts_position bar off) eqn:Ea; cbn [fst snd]; (split; [|done]).
      all: apply answer_classes; try done.
      intros Hb. by rewrite accepts_no_bar in Ea.
    + destruct (match read_word dev bar off with Some _ => _ | None => _ end) as [vs ok].
      cbn [fst snd]. split; [|done]. apply answer_classes; [done..|].
      intros Hb. by injection (Hno Hb) as -> ->.
  - pose proof (class_write_area_no_bar spi dev' bar off vs) as Hno. unfold class_write_area in *.
    destruct (write_area_content spi bar vs off dev dev' Hd) as [E Hd1].
    cbn [takes_area] in *.
    destruct vs as [|v vs]; cbn [length Nat.ltb Nat.leb orb] in *.
    + cbn [write_area]. destruct (accepts_position bar off) eqn:Ea; cbn [fst snd]; (split; [|done]).
      all: apply answer_classes; try done.
      intros Hb. by rewrite accepts_no_bar in Ea.
    + destruct (write_area _ _ _ _ dev) as [ok dev1], (write_area _ _ _ _ dev') as [ok' dev1'].
      cbn [fst snd] in *. subst ok'. split; [|done].
      apply (answer_classes bar "Error writing to device" true (if ok then Some [] else None));
      [done..|].
    intros Hb. by injection (Hno Hb) as -> _.
Qed.

Lemma library_answers_classes spi cs : ∀ dev dev',
  same_content dev dev' →
  let '(answers, dev1) := library_answers WithStruct spi dev cs in
  let '(answers', dev1') := library_answers WithoutStruct spi dev' cs in
  (∀ i c, cs !! i = Some c → answers !! i = answers' !! i ↔ portable c) ∧
  (Forall portable cs → answers = answers') ∧ same_content dev1 dev1'.
Proof.
  induction cs as [|c cs IH]; intros dev dev' Hd; cbn [library_answers]; [done|].
  destruct (library_answer_classes spi dev dev' c Hd) as [Ha Hd1].
  destruct (library_answer WithStruct spi dev c) as [a dev1],
    (library_answer WithoutStruct spi dev' c) as [a' dev1']. cbn [fst snd] in *.
  specialize (IH dev1 dev1' Hd1).
  destruct (library_answers WithStruct spi dev1 cs), (library_answers WithoutStruct spi dev1' cs).
  destruct IH as (Hi & Hall & Hd2). split_and!; [|intros [Hc Hcs]%Forall_cons_1|done].
  - intros [|i] c' Hc; cbn in *; [|by apply Hi]. injection Hc as <-. rewrite <-Ha.
    split; [by intros [= ->]|by intros ->].
  - f_equal; [by apply Ha|by apply Hall].
Qed.

(** ** Areas of the DMA bar *)

Lemma dma_words d dev : wf_dev d dev → length (dmaBar dev) = 1024%nat.
Proof. intros (_ & _ & Hl & _). unfold MTCADUMMY_DMA_SIZE in Hl. lia. Qed.

Lemma dma_target off :
  off mod 4 = 0 → off < MTCADUMMY_DMA_SIZE → word_target 2 off = Some (DmaBar, off / 4).
Proof.
  intros Ha Hs. unfold word_target, d32_target. cbn [barx_rw offset_rw].
  change (select_bar 2) with (Some (DmaBar, MTCADUMMY_DMA_SIZE)). cbv iota.
  apply Z.eqb_eq in Ha. apply Z.ltb_lt in Hs. by rewrite Ha, Hs.
Qed.

Lemma read_word_dma dev k :
  0 <= k < 1024 → read_word dev 2 (4 * k) = Some (nthz (dmaBar dev) k).
Proof.
  intros Hk. unfold read_word. rewrite dma_target by (unfold MTCADUMMY_DMA_SIZE; lia).
  cbn.
  do 2 f_equal. lia.
Qed.

Lemma write_word_dma spi dev k v :
  0 <= k < 1024 → write_word spi 2 (4 * k) v dev = (true, set_bar DmaBar (setz k v (dmaBar dev)) dev).
Proof.
  intros Hk. unfold write_word. rewrite dma_target by (unfold MTCADUMMY_DMA_SIZE; lia).
  cbn. do 3 f_equal. lia.
Qed.

Lemma read_area_dma dev n : ∀ k,
  length (dmaBar dev) = 1024%nat → (k + n <= 1024)%nat →
  read_area dev 2 (4 * Z.of_nat k) n = (take n (drop k (dmaBar dev)), true).
Proof.
  induction n as [|n IH]; intros k Hl Hk; cbn [read_area]; [by rewrite take_0|].
  rewrite read_word_dma by lia. replace (4 * Z.of_nat k + 4) with (4 * Z.of_nat (S k)) by lia.
  rewrite IH by lia. f_equal. symmetry. rewrite (drop_S _ (nthz (dmaBar dev) (Z.of_nat k)) k); [done|].
  rewrite <-(Nat2Z.id k) at 1. apply lookup_nthz. lia.
Qed.

Lemma write_area_dma spi vs : ∀ k dev,
  length (dmaBar dev) = 1024%nat → (k + length vs <= 1024)%nat →
  write_area spi 2 (4 * Z.of_nat k) vs dev =
    (true, set_bar DmaBar (take k (dmaBar dev) ++ vs ++ drop (k + length vs) (dmaBar dev)) dev).
Proof.
  induction vs as [|v vs IH]; intros k dev Hl Hk; cbn [write_area length] in *.
  { rewrite Nat.add_0_r, app_nil_l, take_drop. by destruct dev. }
  rewrite write_word_dma by lia. replace (4 * Z.of_nat k + 4) with (4 * Z.of_nat (S k)) by lia.
  rewrite IH by (cbn; rewrite ?length_setz; lia). unfold set_bar. cbn. do 2 f_equal.
  unfold setz. rewrite Nat2Z.id, drop_insert_lt by lia.
  rewrite (take_S_r _ k v) by (apply list_lookup_insert_eq; lia). rewrite take_insert_ge by done.
  rewrite <-app_assoc. by replace (k + S (length vs))%nat with (S k + length vs)%nat by lia.
Qed.

(** ** The messages of the exceptions *)

Section Messages.
Context {U : Type} `{UserSpace U} `{ByteOrder} `{IoctlEncoding} `{Vfs}.
Context (msg : string).

(** The computation throws nothing but [msg]. *)
Definition complains {A} (c : client (U:=U) A) : Prop :=
  ∀ s what s', c s = Done (Thrown what, s') → what = msg.

Lemma complains_ret {A} (a : A) : complains (mret a).
Proof. by intros s what s' [=]. Qed.

Lemma complains_throw {A} : complains (throw (A:=A) msg).
Proof. by intros s what s' [= ->]. Qed.

Lemma complains_bind {A B} (c : client A) (f : A → client B) :
  complains c → (∀ a, complains (f a)) → complains (c ≫= f).
Proof.
  intros Hc Hf s what s'. unfold mbind, client_bind.
  destruct (c s) as [[[a|what'|] s1]| |] eqn:E; [apply Hf| |done..].
  intros [= -> _]. by eapply Hc.
Qed.

Lemma complains_if {A} (b : bool) (c c' : client A) :
  complains c → complains c' → complains (if b then c else c').
Proof. by destruct b. Qed.

Lemma complains_store a bs : complains (store_bytes a bs).
Proof.
  intros s what s'. unfold store_bytes. destruct (copy_to_user _ _ _) as [u nleft].
  by destruct (nleft =? 0).
Qed.

Lemma complains_load a n : complains (load_bytes a n).
Proof.
  intros s what s'. unfold load_bytes. destruct (copy_from_user _ _ _) as [bs nleft].
  by destruct (nleft =? 0).
Qed.

(** System calls throw nothing. *)
Lemma complains_enter {A} (p : prog A) fs ret : complains (enter p fs ret).
Proof. intros s what s'. unfold enter. by destruct (exec 0 p (kernel s)) as [[]| |]. Qed.

Lemma complains_transfer fd entry null buf count pos keep :
  complains (on_file fd entry null (λ f p op, transfer fd f p op buf count (pos f) keep)).
Proof.
  intros s what s'. unfold on_file. destruct (files s !! fd) as [f|]; [|done].
  destruct (_ ≫= entry) as [op|], (private_data f) as [p|]; try done.
  unfold transfer. destruct (_ && _); [apply complains_enter|done].
Qed.
End Messages.

Create HintDb messages.
#[export] Hint Resolve complains_ret complains_throw complains_bind complains_if complains_store
  complains_load : messages.
#[export] Hint Extern 1 (complains _ (libc_read _ _ _)) => apply complains_transfer : messages.
#[export] Hint Extern 1 (complains _ (libc_write _ _ _)) => apply complains_transfer : messages.
#[export] Hint Extern 1 (complains _ (libc_pread _ _ _ _)) => apply complains_transfer : messages.
#[export] Hint Extern 1 (complains _ (libc_pwrite _ _ _ _)) => apply complains_transfer : messages.

Section ClassMessages.
Context {U : Type} `{UserSpace U} `{ByteOrder} `{IoctlEncoding} `{Vfs}.
Context (frame : Z) (fd : nat) (off bar : Z).

Lemma struct_read_loop_complains n : ∀ off' i buf,
  complains (U:=U) "Error reading from device" (struct_read_loop frame fd off' bar n i buf).
Proof.
  induction n; intros; cbn [struct_read_loop]; unfold StructReaderWriter_readSingle, store_word;
    auto 10 with messages.
Qed.

Lemma struct_write_loop_complains n : ∀ off' i buf,
  complains (U:=U) "Error writing to device" (struct_write_loop frame fd off' bar n i buf).
Proof.
  induction n; intros; cbn [struct_write_loop]; unfold StructReaderWriter_writeSingle, load_word;
    auto 10 with messages.
Qed.

Lemma normal_read_complains n buf :
  complains (U:=U) (complaint WithoutStruct bar "Error reading from device")
    (NormalReaderWriter_readArea fd off bar n buf).
Proof.
  unfold NormalReaderWriter_readArea, complaint. destruct (5 <? bar); auto 10 with messages.
Qed.

Lemma normal_write_complains n buf :
  complains (U:=U) (complaint WithoutStruct bar "Error writing to device")
    (NormalReaderWriter_writeArea fd off bar n buf).
Proof.
  unfold NormalReaderWriter_writeArea, complaint. destruct (5 <? bar); auto 10 with messages.
Qed.

Context (cl : reader_writer_class).

Lemma readSingle_complains :
  complains (U:=U) (complaint cl bar "Error reading from device")
    (readSingle (class_of frame cl) fd off bar).
Proof.
  destruct cl; cbn [class_of readSingle StructReaderWriter NormalReaderWriter].
  - cbn [complaint]. unfold StructReaderWriter_readSingle. auto 10 with messages.
  - unfold NormalReaderWriter_readSingle, load_word.
    auto 10 using normal_read_complains with messages.
Qed.

Lemma writeSingle_complains v :
  complains (U:=U) (complaint cl bar "Error writing to device")
    (writeSingle (class_of frame cl) fd off bar v).
Proof.
  destruct cl; cbn [class_of writeSingle StructReaderWriter NormalReaderWriter].
  - cbn [complaint]. unfold StructReaderWriter_writeSingle. auto 10 with messages.
  - unfold NormalReaderWriter_writeSingle, store_word.
    auto 10 using normal_write_complains with messages.
Qed.

Lemma readArea_complains n buf :
  complains (U:=U) (complaint cl bar "Error reading from device")
    (readArea (class_of frame cl) fd off bar n buf).
Proof. destruct cl; [apply struct_read_loop_complains|apply normal_read_complains]. Qed.

Lemma writeArea_complains n buf :
  complains (U:=U) (complaint cl bar "Error writing to device")
    (writeArea (class_of frame cl) fd off bar n buf).
Proof. destruct cl; [apply struct_write_loop_complains|apply normal_write_complains]. Qed.
End ClassMessages.

(** ** Refinement *)

Section Refinement.
Context {U : Type} `{UserSpace U} `{ByteOrder} `{IoctlEncoding} `{Vfs}.
Context (frame buffer : Z) (capacity : nat) (cl : reader_writer_class) (fd d : nat).
Context (Hapart : ∀ x, within buffer (4 * Z.of_nat capacity) x → ¬ within frame 24 x).
Implicit Types s : system (U:=U).

Local Abbreviation rw := (class_of frame cl).

(** The state between two calls. *)
Record between (dev : mtcaDummyData) s : Prop := {
  be_connected : connected (class_serves cl) fd d dev s;
  be_frame : accessible (memory s) frame 24;
  be_buffer : accessible (memory s) buffer (4 * Z.of_nat capacity);
}.

Lemma between_after P dev dev' s u :
  between dev s → wf_dev d dev' → same_identity dev dev' → changes_only P (memory s) u →
  between dev' (after d dev' u s).
Proof.
  intros [Hcon Hf Hb] Hw Hid Hc.
  split; [by eapply connected_after|by eapply accessible_changed..].
Qed.

(** How a call ends that has the value [o] to return, or [what] to complain. *)
Definition reply {A} (what : string) (o : option A) : completion A :=
  match o with Some a => Returned a | None => Thrown what end.

Lemma answers_reply {A} (c : client (U:=U) A) what s r s' o :
  c s = Done (r, s') → complains what c → answers r o → c s = Done (reply what o, s').
Proof.
  intros E Hc Ha. destruct o as [a|]; cbn in Ha; [by subst|].
  destruct Ha as [w ->]. by rewrite (Hc _ _ _ E) in E.
Qed.

Lemma attempt_reply {A} (c : client (U:=U) A) what s s' o :
  c s = Done (reply what o, s') → attempt c s = Done (Returned (answer what o), s').
Proof. intros E. unfold attempt. rewrite E. by destruct o. Qed.

(** A call that ends with [c] and then returns [f]. *)
Lemma bind_reply {A B} (c : client (U:=U) A) (f : A → B) what s s' o :
  c s = Done (reply what o, s') →
  (a ← c; mret (f a)) s = Done (reply what (f <$> o), s').
Proof. intros E. unfold mbind, client_bind. rewrite E. by destruct o. Qed.

Definition flag_of s : bool := spi_error (control (kernel s)).
Local Abbreviation reading bar := (complaint cl bar "Error reading from device").
Local Abbreviation writing bar := (complaint cl bar "Error writing to device").

(** Empty areas transfer nothing. *)
Lemma empty_areas dev s off bar buf :
  between dev s → is_u32 off → is_u32 bar →
  let o := if takes_area cl bar off 0 then Some tt else None in
  readArea rw fd off bar 0 buf s = Done (reply (reading bar) o, s) ∧
  writeArea rw fd off bar 0 buf s = Done (reply (writing bar) o, s).
Proof.
  intros [Hcon _ _] Ho Hbar. destruct cl; [done|].
  cbn [class_of readArea writeArea NormalReaderWriter class_serves] in *.
  rewrite (normal_readArea_empty fd d dev), (normal_writeArea_empty fd d dev) by done.
  cbn [takes_area Nat.ltb Nat.leb orb complaint]. destruct (Z.ltb_spec 5 bar).
  - by rewrite accepts_no_bar.
  - by destruct (accepts_position bar off).
Qed.

(** The area functions of the class, for areas of any length. *)
Lemma class_readArea dev s off bar n :
  between dev s → is_u32 off → is_u32 bar → (n <= capacity)%nat → is_u32 (Z.of_nat n) →
  let '(vs, ok) := class_read_area cl dev bar off n in
  ∃ u, readArea rw fd off bar (Z.of_nat n) buffer s =
      Done (reply (reading bar) (if ok then Some tt else None), after d dev u s) ∧
    bytes_at u buffer (bytes_of_words vs) ∧ changes_only (λ _, True) (memory s) u.
Proof.
  intros Hbt Ho Hbar Hn Hnu. pose proof Hbt as [Hcon Hf Hb]. unfold class_read_area.
  destruct n as [|n].
  - destruct (empty_areas dev s off bar buffer Hbt Ho Hbar) as [E _].
    change (Z.of_nat 0) with 0. rewrite E. cbn [read_area].
    destruct (takes_area _ _ _ _); exists (memory s); by rewrite after_id by apply Hcon.
  - replace (takes_area cl bar off (S n)) with true by by destruct cl.
    pose proof (rw_readArea (rw:=rw) fd d dev s off bar (S n) buffer Hcon Hf) as Hcall.
    destruct (read_area dev bar off (S n)) as [vs ok].
    destruct Hcall as (r & u & E & Ha & Hbytes & Hc); try done; [|..|lia|].
    { eapply accessible_within; [exact Hb|lia..]. }
    { intros x Hx. apply Hapart. unfold within in *. lia. }
    exists u. split_and!; [|done|by eapply changes_only_mono; [|done]].
    eapply answers_reply; [done|apply readArea_complains|done].
Qed.

Lemma class_writeArea dev s off bar vs :
  between dev s → bytes_at (memory s) buffer (bytes_of_words vs) → is_u32 off → is_u32 bar →
  Forall is_u32 vs → (length vs <= capacity)%nat → is_u32 (Z.of_nat (length vs)) →
  let '(ok, dev') := class_write_area cl (flag_of s) bar off vs dev in
  ∃ u, writeArea rw fd off bar (Z.of_nat (length vs)) buffer s =
      Done (reply (writing bar) (if ok then Some tt else None), after d dev' u s) ∧
    changes_only (λ _, True) (memory s) u ∧ wf_dev d dev' ∧ same_identity dev dev'.
Proof.
  intros Hbt Hbytes Ho Hbar Hvs Hn Hnu. pose proof Hbt as [Hcon Hf Hb].
  unfold class_write_area. destruct vs as [|v vs].
  - destruct (empty_areas dev s off bar buffer Hbt Ho Hbar) as [_ E].
    change (Z.of_nat (length [])) with 0. change (length []) with 0%nat. rewrite E.
    cbn [write_area].
    destruct (takes_area _ _ _ _); exists (memory s); rewrite after_id by apply Hcon;
      split_and!; try done; apply Hcon.
  - replace (takes_area cl bar off (length (v :: vs))) with true by by destruct cl.
    pose proof (rw_writeArea (rw:=rw) fd d dev s off bar (v :: vs) buffer Hcon Hf) as Hcall.
    destruct (write_area_frame d (flag_of s) bar (v :: vs) off dev) as [Hw Hid];
      [apply Hcon|done|]. unfold flag_of in *.
    destruct (write_area _ _ _ _ _) as [ok dev'].
    destruct Hcall as (r & u & E & Ha & Hc); try done; [|cbn; lia|].
    { intros x Hx. apply Hapart. unfold within in *. lia. }
    exists u. split_and!; [|by eapply changes_only_mono; [|done]|done..].
    eapply answers_reply; [done|apply writeArea_complains|done].
Qed.

Lemma area_read_answers dev s off bar n :
  between dev s → is_u32 off → is_u32 bar → (n <= capacity)%nat → is_u32 (Z.of_nat n) →
  let '(vs, ok) := class_read_area cl dev bar off n in
  ∃ u, attempt (_ ← readArea rw fd off bar (Z.of_nat n) buffer; load_words buffer n) s =
      Done (Returned (answer (reading bar) (if ok then Some (to_int <$> vs) else None)),
        after d dev u s) ∧
    between dev (after d dev u s).
Proof.
  intros Hbt Ho Hbar Hn Hnu. pose proof Hbt as [Hcon _ _].
  pose proof (class_readArea dev s off bar n Hbt Ho Hbar Hn Hnu) as Hcall.
  assert (∀ vs, class_read_area cl dev bar off n = (vs, true) → length vs = n ∧ Forall is_u32 vs)
    as Hwords.
  { intros vs. unfold class_read_area. destruct (takes_area _ _ _ _); [|done].
    by apply (read_area_words d), Hcon. }
  destruct (class_read_area cl dev bar off n) as [vs ok]. destruct Hcall as (u & E & Hbytes & Hc).
  exists u. split; [|by eapply between_after; [|apply Hcon|reflexivity|]].
  apply attempt_reply. destruct ok; cbn [reply] in *; [|by rewrite (bind_thrown _ _ _ _ _ E)].
  destruct (Hwords vs eq_refl) as [Hl Hu]. rewrite (bind_returned _ _ _ _ _ E). unfold load_words.
  erewrite bind_returned by (apply (run_load _ (bytes_of_words vs));
    [exact Hbytes|rewrite length_bytes_of_words; lia]).
  by rewrite <-Hl, loaded_words.
Qed.

Lemma area_write_answers dev s off bar vs :
  between dev s → is_u32 off → is_u32 bar → Forall is_u32 vs → (length vs <= capacity)%nat →
  is_u32 (Z.of_nat (length vs)) →
  let '(ok, dev') := class_write_area cl (flag_of s) bar off vs dev in
  ∃ u, attempt (_ ← store_words buffer vs;
      _ ← writeArea rw fd off bar (Z.of_nat (length vs)) buffer; mret []) s =
      Done (Returned (answer (writing bar) (if ok then Some (A:=list Z) [] else None)),
        after d dev' u s) ∧
    between dev' (after d dev' u s).
Proof.
  intros Hbt Ho Hbar Hvs Hn Hnu. pose proof Hbt as [Hcon Hf Hb].
  destruct (run_store buffer (bytes_of_words vs) s) as (u1 & E1 & Hb1 & Hc1).
  { rewrite length_bytes_of_words. eapply accessible_within; [exact Hb|lia..]. }
  assert (between dev (with_memory u1 s)) as Hbt1
    by (split; [by apply connected_memory|by eapply accessible_changed..]).
  pose proof (class_writeArea dev _ off bar vs Hbt1 Hb1 Ho Hbar Hvs Hn Hnu) as Hcall.
  change (flag_of (with_memory u1 s)) with (flag_of s) in Hcall.
  destruct (class_write_area _ _ _ _ _ _) as [ok dev']. destruct Hcall as (u & E & Hc & Hw & Hid).
  exists u. split.
  - unfold store_words. apply attempt_reply. rewrite (bind_returned _ _ _ _ _ E1).
    apply (bind_reply _ (λ _, [] : list Z)) in E. rewrite E. by destruct ok.
  - eapply (between_after (λ _, True)); [exact Hbt|done|done|].
    etrans; (eapply changes_only_mono; [|done]; done).
Qed.

Context (Hcap : is_u32 (Z.of_nat capacity)).

Lemma library_step_answers dev s c :
  between dev s → valid_call capacity c →
  let '(a, dev') := library_answer cl (flag_of s) dev c in
  ∃ u, attempt (library_step rw fd buffer c) s = Done (Returned a, after d dev' u s) ∧
    between dev' (after d dev' u s).
Proof.
  intros Hbt (Ho & Hbar & Hvs & Hn). pose proof Hbt as [Hcon Hf Hb].
  assert (is_u32 (Z.of_nat (call_words c))) as Hnu by (unfold is_u32 in *; lia).
  destruct c as [off bar|off bar v|off bar n|off bar vs];
    cbn [library_answer library_step call_words call_bar call_offset] in *.
  - destruct (rw_readSingle fd d dev s off bar Hcon Hf Ho Hbar) as (r & u & E & Ha & Hc).
    exists u. split; [|by eapply between_after; [|apply Hcon|reflexivity|]].
    eapply answers_reply in E; [|apply readSingle_complains|exact Ha].
    apply (bind_reply _ (λ v, [v])), attempt_reply in E. rewrite E.
    by destruct (read_word dev bar off).
  - pose proof (rw_writeSingle (rw:=rw) fd d dev s off bar v Hcon Hf Ho Hbar) as Hcall.
    pose proof (write_word_frame d (flag_of s) bar off (wrap32 v) dev (con_wf _ _ _ _ _ Hcon)
      (wrap32_range v)) as [Hw Hid].
    unfold flag_of in *. destruct (write_word _ _ _ _ _) as [ok dev'].
    destruct Hcall as (r & u & E & Ha & Hc). exists u. split; [|by eapply between_after].
    eapply answers_reply in E; [|apply writeSingle_complains|exact Ha].
    apply (bind_reply _ (λ _, [] : list Z)), attempt_reply in E. rewrite E. by destruct ok.
  - pose proof (area_read_answers dev s off bar n Hbt Ho Hbar Hn Hnu) as Hcall.
    by destruct (class_read_area _ _ _ _ _).
  - pose proof (area_write_answers dev s off bar vs Hbt Ho Hbar Hvs Hn Hnu) as Hcall.
    by destruct (class_write_area _ _ _ _ _ _).
Qed.

Lemma library_run_answers cs : ∀ dev s,
  between dev s → Forall (valid_call capacity) cs →
  let '(answers, dev') := library_answers cl (flag_of s) dev cs in
  ∃ u, library_run rw fd buffer cs s = Done (Returned answers, after d dev' u s) ∧
    between dev' (after d dev' u s).
Proof.
  induction cs as [|c cs IH]; intros dev s Hbt Hcs; cbn [library_answers library_run].
  - exists (memory s). by rewrite after_id by apply Hbt.
  - apply Forall_cons_1 in Hcs as [Hc Hcs].
    pose proof (library_step_answers dev s c Hbt Hc) as Hstep.
    destruct (library_answer cl (flag_of s) dev c) as [a dev1]. destruct Hstep as (u1 & E1 & Hbt1).
    specialize (IH dev1 _ Hbt1 Hcs).
    change (flag_of (after d dev1 u1 s)) with (flag_of s) in IH.
    destruct (library_answers cl (flag_of s) dev1 cs) as [rest dev2]. destruct IH as (u2 & E2 & Hbt2).
    exists u2. rewrite after_after in E2, Hbt2.
    rewrite (bind_returned _ _ _ _ _ E1), (bind_returned _ _ _ _ _ E2). done.
Qed.
End Refinement.

(** ** Properties *)

Section Properties.
Context {U : Type} `{UserSpace U} `{ByteOrder} `{IoctlEncoding} `{Vfs}.
Context (frame buffer : Z) (capacity : nat) (Hcap : is_u32 (Z.of_nat capacity)).
Context (Hapart : ∀ x, within buffer (4 * Z.of_nat capacity) x → ¬ within frame 24 x).

(** C10: refinement of the device in isolation. While no read or write errors are
    injected and no signal is pending, a client that makes any sequence of calls
    through either class of the library gets the answers of [library_answers] for
    that class: words, or the message of an exception; calls that fail in the
    middle and empty areas are included. The device holds afterwards what the
    sequence leaves; system calls, requests, file positions and buffers do not
    show. *)
Theorem library_refines_device (c : reader_writer_class) fd d dev (s : system (U:=U))
    (cs : list library_call)
    (Hs : between frame buffer capacity c fd d dev s)
    (Hcs : Forall (valid_call capacity) cs) :
  let '(answers, dev') := library_answers c (spi_error (control (kernel s))) dev cs in
  ∃ u, library_run (class_of frame c) fd buffer cs s =
      Done (Returned answers, after d dev' u s) ∧
    between frame buffer capacity c fd d dev' (after d dev' u s).
Proof. exact (library_run_answers frame buffer capacity c fd d Hapart Hcap cs dev s Hs Hcs). Qed.

(** C11: how far the two classes are interchangeable. On two devices with the
    same content, one that takes requests and one that takes positions, the same
    calls leave the same content behind through [StructReaderWriter] as through
    [NormalReaderWriter]. The answers, messages included, agree at every
    [portable] call, and differ at every other one (a bar number above 5, an
    empty area at a place that is in no bar): clients with portable calls only
    cannot tell the classes apart. *)
Theorem classes_agree_on_portable_calls fd1 fd2 d1 d2 dev1 dev2 (s1 s2 : system (U:=U))
    (cs : list library_call)
    (Hs1 : between frame buffer capacity WithStruct fd1 d1 dev1 s1)
    (Hs2 : between frame buffer capacity WithoutStruct fd2 d2 dev2 s2)
    (Hsame : same_content dev1 dev2)
    (Hflag : spi_error (control (kernel s1)) = spi_error (control (kernel s2)))
    (Hcs : Forall (valid_call capacity) cs) :
  ∃ answers1 answers2 dev1' dev2' u1 u2,
    library_run (StructReaderWriter frame) fd1 buffer cs s1 =
      Done (Returned answers1, after d1 dev1' u1 s1) ∧
    library_run (NormalReaderWriter frame) fd2 buffer cs s2 =
      Done (Returned answers2, after d2 dev2' u2 s2) ∧
    same_content dev1' dev2' ∧ (Forall portable cs → answers1 = answers2) ∧
    ∀ i c, cs !! i = Some c → answers1 !! i = answers2 !! i ↔ portable c.
Proof.
  pose proof (library_run_answers frame buffer capacity WithStruct fd1 d1
    Hapart Hcap cs dev1 s1 Hs1 Hcs) as H1'.
  pose proof (library_run_answers frame buffer capacity WithoutStruct fd2 d2
    Hapart Hcap cs dev2 s2 Hs2 Hcs) as H2'.
  unfold flag_of in *. rewrite <-Hflag in H2'.
  pose proof (library_answers_classes (spi_error (control (kernel s1))) cs dev1 dev2 Hsame) as Hc.
  destruct (library_answers WithStruct _ dev1 cs) as [a1 dev1'],
    (library_answers WithoutStruct _ dev2 cs) as [a2 dev2'].
  destruct H1' as (u1 & E1 & _), H2' as (u2 & E2 & _), Hc as (Hi & Hall & Hd).
  by exists a1, a2, dev1', dev2', u1, u2.
Qed.

(** C33: words written to the DMA memory with [writeArea] come back with
    [readArea], as [int32_t], through either class of the library. *)
Theorem library_write_then_read (c : reader_writer_class) fd d dev (s : system (U:=U)) (k : nat)
    (vs : list Z)
    (Hs : between frame buffer capacity c fd d dev s)
    (Hvs : Forall is_u32 vs) (Hlen : (length vs <= capacity)%nat)
    (Hk : (k + length vs <= 1024)%nat) :
  ∃ s', library_run (class_of frame c) fd buffer
      [WriteArea (4 * Z.of_nat k) 2 vs; ReadArea (4 * Z.of_nat k) 2 (length vs)] s =
    Done (Returned [inr []; inr (to_int <$> vs)], s').
Proof.
  assert (is_u32 (4 * Z.of_nat k) ∧ is_u32 2) as [Hoff Hbar] by (unfold is_u32; lia).
  pose proof (library_run_answers frame buffer capacity c fd d Hapart Hcap
    [WriteArea (4 * Z.of_nat k) 2 vs; ReadArea (4 * Z.of_nat k) 2 (length vs)] dev s Hs
    ltac:(repeat apply Forall_cons_2; [by split_and!..|done])) as Hrun.
  assert (length (dmaBar dev) = 1024%nat) as Hl
    by (apply (dma_words d); apply (be_connected _ _ _ _ _ _ _ _ Hs)).
  assert (takes_area c 2 (4 * Z.of_nat k) (length vs) = true) as Htakes.
  { destruct c; [done|]. unfold takes_area, accepts_position.
    change (select_bar 2) with (Some (DmaBar, MTCADUMMY_DMA_SIZE)). unfold MTCADUMMY_DMA_SIZE. lia. }
  cbn [library_answers library_answer] in Hrun. unfold class_read_area, class_write_area in Hrun.
  rewrite Htakes, write_area_dma in Hrun by lia.
  rewrite read_area_dma in Hrun
    by (cbn; rewrite ?length_app, ?length_take, ?length_drop, ?length_app; lia).
  destruct Hrun as (u & E & _). eexists. rewrite E. cbn [set_bar dmaBar answer].
  rewrite drop_app_ge, length_take by (rewrite length_take; lia).
  replace (k - k `min` length (dmaBar dev))%nat with 0%nat by lia.
  by rewrite drop_0, take_app_length.
Qed.
End Properties.

Section Interfaces.
Context {U : Type} `{UserSpace U} `{ByteOrder} `{IoctlEncoding} `{Vfs}.

(** C16: [StructReaderWriter] implements the interface of [ReaderWriter] on the
    devices that take requests: each of its functions ends as the device in
    isolation answers, throws exactly when that fails, and changes nothing but
    the device, its own stack frame and the words it was asked to read. *)
Theorem struct_class_implements_interface (frame : Z) :
  IsReaderWriter (U:=U) frame (StructReaderWriter frame) takes_requests.
Proof. apply StructReaderWriter_correct. Qed.

(** C17: [NormalReaderWriter] implements the interface of [ReaderWriter] on the
    devices that take positions. *)
Theorem normal_class_implements_interface (frame : Z) :
  IsReaderWriter (U:=U) frame (NormalReaderWriter frame) takes_positions.
Proof. apply NormalReaderWriter_correct. Qed.
End Interfaces.

(** ** Examples *)

#[local] Existing Instance little_endian.
#[local] Existing Instance asm_generic_ioctl.
#[local] Existing Instance linux_vfs.

(** The driver just loaded, and two pages of memory: the stack and a buffer. *)
Definition sample_client : system (U:=gmap Z byte) :=
  System (loaded_state 240 (umem_put 4096 (replicate (Z.to_nat 8192) x00) ∅)) ∅.

Lemma sample_client_quiet d : (d < 7)%nat → quiet d (fresh_device 240 d) sample_client.
Proof.
  intros Hd. split; [apply loaded_idle|reflexivity..|by apply loaded_lookup|apply wf_fresh_device].
Qed.

(** Device [d] opened as file 3. *)
Lemma sample_between cl path d :
  device_at path = Some d → (d < 7)%nat → class_serves cl (table_of (cdev (fresh_device 240 d))) →
  fop_open (table_of (cdev (fresh_device 240 d))) = Some mtcaDummy_open →
  between 4096 8192 1024 cl 3 d (count_use 1 (fresh_device 240 d))
    (System (upd_dev d (count_use 1 (fresh_device 240 d)) (kernel sample_client))
      {[3%nat := File d (Some d) 0]}).
Proof.
  intros Hp Hd Hserves Hop.
  destruct (connect _ path d _ sample_client (sample_client_quiet d Hd) Hp Hserves Hop)
    as (s & _ & Hcon & ->).
  split; [exact Hcon|apply umem_put_accessible; rewrite ?length_replicate; lia..].
Qed.

Lemma sample_apart x : within 8192 (4 * Z.of_nat 1024) x → ¬ within 4096 24 x.
Proof. unfold within. lia. Qed.

(** Some of everything: an error, a register that starts the sampling, areas, a bar
    with too large a number, empty areas. *)
Definition sample_calls : list library_call :=
  [ReadSingle MTCADUMMY_WORD_DUMMY 0; ReadSingle MTCADUMMY_BROKEN_REGISTER 0;
   WriteSingle MTCADUMMY_WORD_ADC_ENA 0 1; ReadArea 12 2 3;
   WriteArea 4096 2 [5; 6]; WriteArea 8 2 [5; 6]; ReadArea 0 2 4;
   ReadSingle 0 6; WriteArea 0 6 []; ReadArea 4096 2 0].

Definition sample_answers (cl : reader_writer_class) : list (string + list Z) :=
  [inr [MTCADUMMY_DMMY_AS_ASCII]; inl "Error reading from device"; inr []; inr [9; 16; 25];
   inl "Error writing to device"; inr []; inr [0; 1; 5; 6]]%string ++
  match cl with
  | WithStruct => [inl "Error reading from device"; inr []; inr []]
  | WithoutStruct =>
      [inl "Bar number is too large."; inl "Bar number is too large."; inr []]
  end%string.

Lemma sample_calls_valid : Forall (valid_call 1024) sample_calls.
Proof.
  assert (∀ z, (0 <=? z) && (z <? 4294967296) = true → is_u32 z) as Hu by (unfold is_u32; lia).
  repeat constructor; cbn; try (by apply Hu); lia.
Qed.

Lemma sample_capacity : is_u32 (Z.of_nat 1024).
Proof. unfold is_u32. lia. Qed.

Lemma library_refines_device_witness :
  ∃ s u dev', library_run (NormalReaderWriter 4096) 3 8192 sample_calls s =
    Done (Returned (sample_answers WithoutStruct), after 6 dev' u s).
Proof.
  pose proof (library_refines_device 4096 8192 1024 sample_capacity
    sample_apart WithoutStruct 3 6 _ _
    sample_calls (sample_between WithoutStruct "/dev/pcieunidummys6" 6 eq_refl ltac:(lia)
      (conj eq_refl eq_refl) eq_refl) sample_calls_valid) as Hrun.
  match type of Hrun with
  | let '(_, _) := ?x in _ =>
      assert (x.1 = sample_answers WithoutStruct) as E by (vm_compute; reflexivity);
      destruct x as [a dev']
  end.
  cbn [fst] in E. subst a. destruct Hrun as (u & Hrun & _). eexists _, u, dev'. exact Hrun.
Defined.

Lemma classes_agree_on_portable_calls_witness :
  ∃ s1 s2 answers1 answers2 dev1 dev2 u1 u2,
    library_run (StructReaderWriter 4096) 3 8192 sample_calls s1 =
      Done (Returned answers1, after 0 dev1 u1 s1) ∧
    library_run (NormalReaderWriter 4096) 3 8192 sample_calls s2 =
      Done (Returned answers2, after 6 dev2 u2 s2) ∧
    same_content dev1 dev2 ∧ (Forall portable sample_calls → answers1 = answers2) ∧
    ∀ i c, sample_calls !! i = Some c → answers1 !! i = answers2 !! i ↔ portable c.
Proof.
  eexists _, _. apply (classes_agree_on_portable_calls 4096 8192 1024 sample_capacity sample_apart
    3 3 0 6 (count_use 1 (fresh_device 240 0)) (count_use 1 (fresh_device 240 6))
    _ _ sample_calls).
  - apply (sample_between WithStruct "/dev/mtcadummys0" 0); [vm_compute; reflexivity|lia| |reflexivity].
    split; reflexivity.
  - apply (sample_between WithoutStruct "/dev/pcieunidummys6" 6); [vm_compute; reflexivity|lia| |reflexivity].
    split; reflexivity.
  - split; reflexivity.
  - transitivity false; reflexivity.
  - exact sample_calls_valid.
Defined.

Lemma library_write_then_read_witness :
  ∃ s s', library_run (StructReaderWriter 4096) 3 8192
      [WriteArea (4 * Z.of_nat 1022) 2 [7; 8]; ReadArea (4 * Z.of_nat 1022) 2 2] s =
    Done (Returned [inr []; inr [7; 8]], s').
Proof.
  eexists. apply (library_write_then_read 4096 8192 1024 sample_capacity sample_apart
    WithStruct 3 0
    (count_use 1 (fresh_device 240 0)) _ 1022 [7; 8]).
  - apply (sample_between WithStruct "/dev/mtcadummys0" 0); [vm_compute; reflexivity|lia| |reflexivity].
    split; reflexivity.
  - repeat constructor; vm_compute; discriminate || reflexivity.
  - cbn. lia.
  - cbn. lia.
Defined.
