(* ===== verification/TestSuite.v ===== *)
(** * The automatic test passes

    The tests of [TestProgram] step by step: [takes] is a triple for a part of a
    test, with the words of the arrays and the device before and after it. The
    rules for the calls of the library follow from the interface alone, so the
    suite passes with every implementation of it. The last part runs the whole
    program: it passes on every quiet state of the driver. *)

From S2P Require Import Prelude Abi Kernel UserMem Firmware ModuleInit Registers StructRW.
From S2P Require Import NoStructRW Ioctl OpenRelease Proc Driver Process ReaderWriter.
From S2P Require Import StructReaderWriter NormalReaderWriter TestProgram Library.
From stdpp Require Import functions.
Local Open Scope Z_scope.

(** ** Rules *)

Section Rules.
Context {U : Type} `{UserSpace U} `{ByteOrder} `{IoctlEncoding} `{Vfs}.
Variables (frame : Z) (address : array → Z).
Context (serves : file_operations → Prop) (rw : reader_writer U).
Context {Hrw : IsReaderWriter frame rw serves}.
Context (fd d : nat) (s0 : system (U:=U)).
Implicit Types (m : array → list Z) (dev : mtcaDummyData).

(** The flag with which the firmware answers the SPI handshake. *)
Definition spi_flag : bool := spi_error (control (kernel s0)).

(** Run with the arrays [m] and the device [dev], the computation [c] returns
    the value [o], or throws if there is none, and leaves [m'] and [dev']. *)
Definition takes {A} m dev (c : client (U:=U) A) (o : option A) m' dev' : Prop :=
  ∀ s, testing frame address serves fd d s0 m dev s →
  ∃ r s', c s = Done (r, s') ∧ answers r o ∧ testing frame address serves fd d s0 m' dev' s'.

Lemma takes_ret {A} m dev (a : A) : takes m dev (mret a) (Some a) m dev.
Proof. intros s Hs. by exists (Returned a), s. Qed.

Lemma takes_bind {A B} m dev (c : client (U:=U) A) a m1 dev1 (f : A → client (U:=U) B) o m' dev' :
  takes m dev c (Some a) m1 dev1 → takes m1 dev1 (f a) o m' dev' →
  takes m dev (c ≫= f) o m' dev'.
Proof.
  intros Hc Hf s Hs. destruct (Hc s Hs) as (r & s1 & E & -> & Hs1).
  rewrite (bind_returned _ _ _ _ _ E). by apply Hf.
Qed.

Lemma takes_check_throw {A} m dev (c : client (U:=U) A) o m' dev' :
  takes m dev c o m' dev' →
  takes m dev (check_throw c) (Some (bool_decide (o = None))) m' dev'.
Proof.
  intros Hc s Hs. destruct (Hc s Hs) as (r & s1 & E & Ha & Hs1). unfold check_throw.
  rewrite E. destruct o as [a|]; cbn in Ha; [subst r|destruct Ha as [what ->]];
    by do 2 eexists.
Qed.

Lemma takes_run_test m dev test checks m' dev' :
  takes m dev test (Some checks) m' dev' →
  takes m dev (run_test test) (Some (forallb id checks)) m' dev'.
Proof.
  intros Hc s Hs. destruct (Hc s Hs) as (r & s1 & E & Ha & Hs1). cbn in Ha. subst r.
  unfold run_test. rewrite E. by do 2 eexists.
Qed.

(** *** The calls of the library *)

Lemma testing_control m dev s :
  testing frame address serves fd d s0 m dev s → spi_error (control (kernel s)) = spi_flag.
Proof. intros [_ _ _ (_ & Hc & _)]. unfold spi_flag. by rewrite Hc. Qed.

Lemma takes_readSingle m dev off bar :
  is_u32 off → is_u32 bar →
  takes m dev (readSingle rw fd off bar) (to_int <$> read_word dev bar off) m dev.
Proof.
  intros Ho Hb s Hs. pose proof (te_connected _ _ _ _ _ _ _ _ _ Hs) as Hcon.
  destruct (rw_readSingle fd d dev s off bar Hcon) as (r & u & E & Ha & Hc); try done.
  { apply Hs. }
  exists r, (after d dev u s). split_and!; [done..|].
  by eapply testing_call; [done|apply Hcon|reflexivity|exact Hc|].
Qed.

Lemma takes_read m dev off bar v :
  is_u32 off → is_u32 bar → read_word dev bar off = Some v →
  takes m dev (readSingle rw fd off bar) (Some (to_int v)) m dev.
Proof. intros Ho Hb Ev. pose proof (takes_readSingle m dev off bar Ho Hb) as Ht. by rewrite Ev in Ht. Qed.

Lemma takes_writeSingle m dev off bar v ok dev' :
  is_u32 off → is_u32 bar → write_word spi_flag bar off (wrap32 v) dev = (ok, dev') →
  takes m dev (writeSingle rw fd off bar v) (if ok then Some tt else None) m dev'.
Proof.
  intros Ho Hb Ew s Hs. pose proof (te_connected _ _ _ _ _ _ _ _ _ Hs) as Hcon.
  pose proof (rw_writeSingle fd d dev s off bar v Hcon) as Hcall.
  rewrite (testing_control _ _ _ Hs), Ew in Hcall.
  destruct Hcall as (r & u & E & Ha & Hc); try done.
  { apply Hs. }
  pose proof (write_word_frame d spi_flag bar off (wrap32 v) dev (con_wf _ _ _ _ _ Hcon)
    (wrap32_range v)) as [Hw Hid]. rewrite Ew in Hw, Hid.
  exists r, (after d dev' u s). split_and!; [done..|]. by eapply testing_call.
Qed.

(** [put ρ k vs m]: the words [vs] stored into array [ρ] from element [k] on. *)
Definition put (ρ : array) (k : nat) (vs : list Z) m : array → list Z :=
  <[ρ := take k (m ρ) ++ vs ++ drop (k + length vs) (m ρ)]> m.

Lemma takes_readArea m dev off bar ρ k n vs :
  is_u32 off → is_u32 bar → (0 < n)%nat → (k + n <= 1024)%nat →
  read_area dev bar off n = (vs, true) →
  takes m dev (readArea rw fd off bar (Z.of_nat n) (address ρ + 4 * Z.of_nat k)) (Some tt)
    (put ρ k vs m) dev.
Proof.
  intros Ho Hb Hn Hk Er s Hs. pose proof (te_connected _ _ _ _ _ _ _ _ _ Hs) as Hcon.
  destruct (te_layout _ _ _ _ _ _ _ _ _ Hs) as [Hfr Harr Hap _].
  pose proof (rw_readArea fd d dev s off bar n (address ρ + 4 * Z.of_nat k) Hcon Hfr) as Hcall.
  rewrite Er in Hcall. destruct (read_area_words d dev bar off n vs) as [Hl Hu];
    [apply Hcon|done|].
  destruct Hcall as (r & u & E & Ha & Hbytes & Hc); try done.
  - eapply accessible_within; [apply (Harr ρ)|lia..].
  - intros x Hx. apply (Hap ρ). unfold within in *. lia.
  - unfold is_u32. lia.
  - exists r, (after d dev u s). split_and!; [done..|].
    rewrite after_memory by apply Hcon. apply testing_patch; [done|lia|done..].
Qed.

Lemma bytes_at_part u a ws k n :
  bytes_at u a (bytes_of_words ws) → (k <= length ws)%nat →
  bytes_at u (a + 4 * Z.of_nat k) (bytes_of_words (take n (drop k ws))).
Proof.
  intros Hb Hk. rewrite <-(take_drop k ws) in Hb. apply words_at_app in Hb as [_ Hb].
  rewrite length_take, Nat.min_l in Hb by done.
  rewrite <-(take_drop n (drop k ws)) in Hb. by apply words_at_app in Hb as [Hb _].
Qed.

Lemma takes_writeArea m dev off bar ρ k n ok dev' :
  is_u32 off → is_u32 bar → (0 < n)%nat → (k + n <= 1024)%nat →
  write_area spi_flag bar off (take n (drop k (m ρ))) dev = (ok, dev') →
  takes m dev (writeArea rw fd off bar (Z.of_nat n) (address ρ + 4 * Z.of_nat k))
    (if ok then Some tt else None) m dev'.
Proof.
  intros Ho Hb Hn Hk Ew s Hs. pose proof (te_connected _ _ _ _ _ _ _ _ _ Hs) as Hcon.
  destruct (te_layout _ _ _ _ _ _ _ _ _ Hs) as [Hfr _ Hap _].
  destruct (te_arrays _ _ _ _ _ _ _ _ _ Hs ρ) as (Hl & Hu & Hbytes).
  set (vs := take n (drop k (m ρ))) in *.
  assert (length vs = n) as Hlv by (unfold vs; rewrite length_take, length_drop; lia).
  assert (Forall is_u32 vs) as Huv by by apply Forall_take, Forall_drop.
  pose proof (rw_writeArea fd d dev s off bar vs (address ρ + 4 * Z.of_nat k) Hcon Hfr) as Hcall.
  rewrite (testing_control _ _ _ Hs), Ew, Hlv in Hcall.
  destruct Hcall as (r & u & E & Ha & Hc); try done.
  - apply bytes_at_part; [done|lia].
  - intros x Hx. apply (Hap ρ). unfold within in *. lia.
  - unfold is_u32. lia.
  - pose proof (write_area_frame d spi_flag bar vs off dev (con_wf _ _ _ _ _ Hcon) Huv)
      as [Hw Hid]. rewrite Ew in Hw, Hid.
    exists r, (after d dev' u s). split_and!; [done..|]. by eapply testing_call.
Qed.

(** *** The accesses to the arrays *)

Lemma takes_ext {A} m dev (c : client (U:=U) A) o m1 m2 dev' :
  (∀ ρ, m1 ρ = m2 ρ) → takes m dev c o m1 dev' → takes m dev c o m2 dev'.
Proof.
  intros Hm Hc s Hs. destruct (Hc s Hs) as (r & s1 & E & Ha & [? ? Harr ?]).
  exists r, s1. split_and!; [done..|]. split; [done..| |done].
  intros ρ. rewrite <-Hm. apply Harr.
Qed.

Lemma takes_store m dev ρ k vs a :
  (k + length vs <= 1024)%nat → Forall is_u32 vs → a = address ρ + 4 * Z.of_nat k →
  takes m dev (store_words a vs) (Some tt) (put ρ k vs m) dev.
Proof.
  intros Hk Hu -> s Hs. destruct (te_layout _ _ _ _ _ _ _ _ _ Hs) as [_ Harr _ _].
  destruct (run_store (address ρ + 4 * Z.of_nat k) (bytes_of_words vs) s) as (u & E & Hb & Hc).
  { rewrite length_bytes_of_words. eapply accessible_within; [apply (Harr ρ)|lia..]. }
  exists (Returned tt), (with_memory u s). split_and!; [done..|].
  apply testing_patch; [done..|]. eapply changes_only_mono; [|exact Hc].
  intros x Hx. right. rewrite length_bytes_of_words in Hx. unfold within in *. lia.
Qed.

(** What a test may assume of the arrays and the device. *)
Lemma takes_with {A} m dev (c : client (U:=U) A) o m' dev' :
  (wf_dev d dev → (∀ ρ, length (m ρ) = 1024%nat ∧ Forall is_u32 (m ρ)) →
   takes m dev c o m' dev') → takes m dev c o m' dev'.
Proof.
  intros Hc s Hs. apply Hc; [apply (te_connected _ _ _ _ _ _ _ _ _ Hs)| |done].
  intros ρ. by destruct (te_arrays _ _ _ _ _ _ _ _ _ Hs ρ) as (? & ? & _).
Qed.

Lemma takes_store_words m dev ρ vs :
  length vs = 1024%nat → Forall is_u32 vs →
  takes m dev (store_words (address ρ) vs) (Some tt) (<[ρ := vs]> m) dev.
Proof.
  intros Hl Hu. apply takes_with. intros _ Hm. apply (takes_ext _ _ _ _ (put ρ 0 vs m)).
  - intros ρ'. unfold put. destruct (decide (ρ = ρ')) as [<-|Hne].
    + rewrite !fn_lookup_insert, take_0, drop_ge, app_nil_r; [done|].
      destruct (Hm ρ). lia.
    + by rewrite !fn_lookup_insert_ne.
  - apply takes_store; [lia|done|lia].
Qed.

Lemma takes_store_word m dev ρ i v a :
  0 <= i < 1024 → a = address ρ + i * sizeof_u32 →
  takes m dev (store_word a v) (Some tt) (<[ρ := setz i (wrap32 v) (m ρ)]> m) dev.
Proof.
  intros Hi ->. apply takes_with. intros _ Hm. destruct (Hm ρ) as [Hl _].
  replace (setz i (wrap32 v) (m ρ)) with
    (take (Z.to_nat i) (m ρ) ++ [wrap32 v] ++ drop (Z.to_nat i + 1) (m ρ)).
  2: { rewrite patch_setz by lia. by rewrite Z2Nat.id by lia. }
  replace (store_word _ _) with (store_words (U:=U) (address ρ + i * sizeof_u32) [wrap32 v]).
  2: { unfold store_words, store_word, bytes_of_words. cbn. by rewrite app_nil_r. }
  apply takes_store; [cbn; lia|auto with mtca|unfold sizeof_u32; lia].
Qed.

Lemma takes_store_squares dev ρ n : ∀ m i,
  0 <= i → i + Z.of_nat n <= 1024 →
  takes m dev (store_squares (address ρ) n i) (Some tt) (<[ρ := set_squares n i (m ρ)]> m) dev.
Proof.
  induction n as [|n IH]; intros m i Hi Hn; cbn [store_squares set_squares].
  - apply (takes_ext _ _ _ _ m); [|apply takes_ret]. intros ρ'.
    destruct (decide (ρ = ρ')) as [<-|]; [by rewrite fn_lookup_insert|by rewrite fn_lookup_insert_ne].
  - eapply takes_bind; [apply (takes_store_word _ _ ρ i); [lia|done]|].
    eapply takes_ext; [|apply IH; lia]. intros ρ'. rewrite fn_lookup_insert.
    destruct (decide (ρ = ρ')) as [<-|].
    + by rewrite !fn_lookup_insert, wrap32_small by apply wrap32_range.
    + by rewrite !fn_lookup_insert_ne.
Qed.

Lemma takes_load_words m dev ρ :
  takes m dev (load_words (address ρ) 1024) (Some (to_int <$> m ρ)) m dev.
Proof.
  intros s Hs. destruct (te_arrays _ _ _ _ _ _ _ _ _ Hs ρ) as (Hl & Hu & Hb).
  exists (Returned (to_int <$> m ρ)), s. split_and!; [|done..]. unfold load_words.
  erewrite bind_returned by (apply (run_load _ (bytes_of_words (m ρ)));
    [exact Hb|rewrite length_bytes_of_words; lia]).
  rewrite <-loaded_words by done. by rewrite Hl.
Qed.
End Rules.

(** ** The registers the tests access *)

Lemma read_word_system dev off :
  off mod 4 = 0 → off < 128 → off ≠ MTCADUMMY_BROKEN_REGISTER →
  read_word dev 0 off = Some (register dev off).
Proof.
  intros Ha Hs Hb. unfold read_word, word_target, d32_target. cbn [barx_rw offset_rw].
  change (select_bar 0) with (Some (SystemBar, 128)). cbv iota.
  apply Z.eqb_eq in Ha. apply Z.ltb_lt in Hs. apply Z.eqb_neq in Hb. by rewrite Ha, Hs, Hb.
Qed.

Lemma write_word_system spi dev off v :
  off mod 4 = 0 → off < 128 →
  write_word spi 0 off v dev =
    (negb (word_write spi SystemBar off v dev).1, (word_write spi SystemBar off v dev).2).
Proof.
  intros Ha Hs. unfold write_word, word_target, d32_target. cbn [barx_rw offset_rw].
  change (select_bar 0) with (Some (SystemBar, 128)). cbv iota.
  apply Z.eqb_eq in Ha. apply Z.ltb_lt in Hs. by rewrite Ha, Hs.
Qed.

(** Writing a register the firmware does not react to. *)
Lemma write_word_plain d spi dev off v :
  wf_dev d dev → is_register off = true → off ∉ trigger_registers →
  write_word spi 0 off v dev =
    (negb (fw_broken off), set_bar SystemBar (setz (off / 4) v (systemBar dev)) dev).
Proof.
  intros Hw Ho Hn. unfold is_register in Ho. rewrite write_word_system by lia.
  by rewrite (word_write_plain d dev Hw).
Qed.

(** Starting the sampling. *)
Lemma write_word_adc_ena spi dev v :
  length (systemBar dev) = 32%nat → v ≠ 0 →
  ∃ dev', write_word spi 0 MTCADUMMY_WORD_ADC_ENA v dev = (true, dev') ∧
    dmaBar dev' = parabola ++ drop 25 (dmaBar dev).
Proof.
  intros Hl Hv. rewrite write_word_system by done. eexists. split; [done|].
  cbn [word_write snd fw_dev set_bar dmaBar systemBar get_bar]. unfold fw_dma.
  change (MTCADUMMY_WORD_ADC_ENA =? MTCADUMMY_WORD_ADC_ENA) with true.
  unfold REG, sizeof_u32. rewrite nthz_setz_eq by (rewrite Hl; unfold MTCADUMMY_WORD_ADC_ENA; lia).
  by rewrite (proj2 (Z.eqb_neq _ _) Hv).
Qed.

(** The constants stay visible. *)
Lemma write_word_constants spi dev bar off v :
  0 <= off → shows_constants dev →
  shows_constants (write_word spi bar off v dev).2.
Proof.
  intros Ho Hc. unfold write_word. destruct (word_target bar off) as [[b i]|] eqn:E; [|done].
  destruct (word_target_Some _ _ _ _ E) as (size & _ & Ha & _).
  pose proof (word_write_shows_constants dev spi b off v Ho Ha Hc) as Hc'.
  by destruct (word_write spi b off v dev).
Qed.

(** ** The tests *)

Section Suite.
Context {U : Type} `{UserSpace U} `{ByteOrder} `{IoctlEncoding} `{Vfs}.
Variables (frame : Z) (address : array → Z).
Context (serves : file_operations → Prop) (rw : reader_writer U).
Context {Hrw : IsReaderWriter frame rw serves}.
Context (fd d : nat) (s0 : system (U:=U)).
(** The array [bufferHelix] of the test object, and all such arrays. *)
Context (h : array) (built : array → Prop) (Hh : built h).
Context (Hbuilt : ∀ ρ, built ρ → ρ ≠ ReadBuffer ∧ ρ ≠ ExpectedBuffer).

(** Between two tests: the words of the DMA bar, and what does not change. *)
Definition ready (dma : list Z) (m : array → list Z) (dev : mtcaDummyData) : Prop :=
  (∀ ρ, built ρ → m ρ = helix) ∧ shows_constants dev ∧ dmaBar dev = dma.

(** From a state of the first kind, the computation returns [a] in one of the
    second. *)
Definition passes {A} (P : (array → list Z) → mtcaDummyData → Prop) (c : client (U:=U) A)
    (a : A) (Q : (array → list Z) → mtcaDummyData → Prop) : Prop :=
  ∀ m dev s, testing frame address serves fd d s0 m dev s → P m dev →
  ∃ m' dev' s', c s = Done (Returned a, s') ∧
    testing frame address serves fd d s0 m' dev' s' ∧ Q m' dev'.

Lemma passes_takes {A} P (c : client (U:=U) A) a Q :
  (∀ m dev, wf_dev d dev → (∀ ρ, length (m ρ) = 1024%nat) → P m dev →
   ∃ m' dev', takes frame address serves fd d s0 m dev c (Some a) m' dev' ∧ Q m' dev') →
  passes P c a Q.
Proof.
  intros Hc m dev s Hs HP. destruct (Hc m dev) as (m' & dev' & Ht & HQ); [| |done|].
  - apply (te_connected _ _ _ _ _ _ _ _ _ Hs).
  - intros ρ. apply (te_arrays _ _ _ _ _ _ _ _ _ Hs ρ).
  - destruct (Ht s Hs) as (r & s' & E & -> & Hs'). by exists m', dev', s'.
Qed.

Lemma passes_bind {A B} P (c : client (U:=U) A) a Q (f : A → client (U:=U) B) b R :
  passes P c a Q → passes Q (f a) b R → passes P (c ≫= f) b R.
Proof.
  intros Hc Hf m dev s Hs HP. destruct (Hc m dev s Hs HP) as (m1 & dev1 & s1 & E & Hs1 & HQ).
  rewrite (bind_returned _ _ _ _ _ E). by apply (Hf m1 dev1).
Qed.

Lemma passes_ret {A} P (a : A) : passes P (mret a) a P.
Proof. intros m dev s Hs HP. by exists m, dev, s. Qed.

Lemma passes_run_test P test checks Q :
  passes P test checks Q → passes P (run_test test) (forallb id checks) Q.
Proof.
  intros Hc m dev s Hs HP. destruct (Hc m dev s Hs HP) as (m1 & dev1 & s1 & E & ?).
  exists m1, dev1, s1. unfold run_test. by rewrite E.
Qed.

Lemma MtcaDummyTest_passes :
  passes (λ m dev, (∀ ρ, built ρ → ρ ≠ h → m ρ = helix) ∧ shows_constants dev)
    (MtcaDummyTest rw fd (address h)) tt (ready helix).
Proof.
  apply passes_takes. intros m dev Hw Hm (Hm0 & Hc).
  exists (<[h := helix]> (<[h := replicate 1024 0]> m)), (set_bar DmaBar helix dev). split.
  - unfold MtcaDummyTest. eapply takes_bind; [apply takes_store_words; [done|]|].
    { change (Z.to_nat N_WORDS_DMA) with 1024%nat. by apply Forall_replicate. }
    eapply takes_bind; [apply (takes_store_squares _ _ _ _ _ _ _ h 25); lia|].
    rewrite fn_lookup_insert. change (Z.to_nat N_WORDS_DMA) with 1024%nat.
    fold helix. set (m' := <[h:=helix]> _).
    pose proof (takes_writeArea frame address serves rw fd d s0 m' dev 0 2 h 0 1024 true
      (set_bar DmaBar helix dev)) as Hcall.
    rewrite Z.add_0_r in Hcall. apply Hcall; [by vm_compute..|lia|lia|]. clear Hcall.
    rewrite drop_0. unfold m'. rewrite fn_lookup_insert.
    rewrite take_ge by (unfold helix; rewrite length_set_squares, length_replicate; lia).
    rewrite (write_area_dma _ helix 0) by (try done; by apply (dma_words d)).
    rewrite take_0, drop_ge, app_nil_r; [done|].
    rewrite (dma_words d) by done. unfold helix.
    rewrite length_set_squares, length_replicate. lia.
  - split_and!; [|done..]. intros ρ Hρ. destruct (decide (h = ρ)) as [<-|Hne].
    + by rewrite fn_lookup_insert.
    + rewrite !fn_lookup_insert_ne by done. by apply Hm0.
Qed.

(** The offset and the bar of a call are constants. *)
Ltac u32 := first [exact Hrw|by apply (bool_decide_unpack _); vm_compute].

Lemma testReadSingle_passes :
  passes (ready helix) (testReadSingle rw fd) [true; true] (ready helix).
Proof.
  apply passes_takes. intros m dev Hw Hm (Hm0 & Hc & Hd). exists m, dev. split; [|done].
  unfold testReadSingle. eapply takes_bind.
  { apply takes_read; [u32..|]. rewrite read_word_system by done.
    by rewrite (Hc MTCADUMMY_WORD_DUMMY MTCADUMMY_DMMY_AS_ASCII). }
  eapply takes_bind.
  { apply takes_read; [u32..|]. apply (read_word_dma dev 8). lia. }
  rewrite Hd. apply takes_ret.
Qed.

Lemma testReadSingleWithError_passes :
  passes (ready helix) (testReadSingleWithError rw fd) [true; true] (ready helix).
Proof.
  apply passes_takes. intros m dev Hw Hm HP. exists m, dev. split; [|done].
  unfold testReadSingleWithError. eapply takes_bind.
  { by apply takes_check_throw, takes_readSingle; u32. }
  eapply takes_bind.
  { unfold check_no_throw. eapply takes_bind; [|apply takes_ret].
    apply takes_check_throw, takes_read; [u32..|]. by rewrite read_word_system. }
  apply takes_ret.
Qed.

(** A word that keeps what is written to it. *)
Lemma increment_word_takes m dev off bar v dev' :
  is_u32 off → is_u32 bar → read_word dev bar off = Some v → is_u32 v →
  write_word (spi_flag s0) bar off (wrap32 (v + 1)) dev = (true, dev') →
  read_word dev' bar off = Some (wrap32 (v + 1)) →
  takes frame address serves fd d s0 m dev (increment_word rw fd off bar) (Some true) m dev'.
Proof.
  intros Ho Hb Hv Hu Hw Hv'. unfold increment_word.
  eapply takes_bind; [by apply takes_read|]. cbv zeta. rewrite wrap32_to_int by done.
  eapply takes_bind.
  { apply (takes_writeSingle frame address serves rw fd d s0 m dev off bar _ true dev'); try done.
    by rewrite wrap32_to_int by apply wrap32_range. }
  eapply takes_bind; [by apply takes_read|]. rewrite wrap32_to_int by apply wrap32_range.
  rewrite Z.eqb_refl. apply takes_ret.
Qed.

Lemma testWriteSingle_passes :
  passes (ready helix) (testWriteSingle rw fd) [true; true] (ready (setz 8 65 helix)).
Proof.
  apply passes_takes. intros m dev Hw Hm (Hm0 & Hc & Hd).
  set (v := register dev MTCADUMMY_WORD_USER).
  assert (write_word (spi_flag s0) 0 MTCADUMMY_WORD_USER (wrap32 (v + 1)) dev =
    (true, set_bar SystemBar (setz 3 (wrap32 (v + 1)) (systemBar dev)) dev)) as Ew.
  { rewrite (write_word_plain d) by (done || u32). done. }
  set (dev1 := set_bar SystemBar _ dev) in Ew.
  exists m, (set_bar DmaBar (setz 8 65 helix) dev1). split.
  - unfold testWriteSingle. eapply takes_bind.
    { apply (increment_word_takes m dev MTCADUMMY_WORD_USER 0 v dev1); [u32..| | |done|].
      - by apply read_word_system.
      - unfold v, register. apply Forall_nthz; [apply Hw|apply is_u32_0].
      - rewrite read_word_system by done. unfold register, dev1. cbn [systemBar set_bar].
        f_equal. change (REG MTCADUMMY_WORD_USER) with 3. apply nthz_setz_eq.
        rewrite (wf_dev_system_length d) by done. lia. }
    eapply takes_bind.
    { apply (increment_word_takes m dev1 0x20 2 64); [u32..| |u32| |].
      - etrans; [by apply (read_word_dma dev1 8)|]. change (dmaBar dev1) with (dmaBar dev).
        by rewrite Hd.
      - etrans; [by apply (write_word_dma _ dev1 8)|]. change (dmaBar dev1) with (dmaBar dev).
        by rewrite Hd.
      - etrans; [by apply (read_word_dma _ 8)|]. cbn [dmaBar set_bar]. by vm_compute. }
    apply takes_ret.
  - split_and!; [done| |done].
    pose proof (write_word_constants (spi_flag s0) dev 0 MTCADUMMY_WORD_USER (wrap32 (v + 1))
      ltac:(done) Hc) as Hc'. by rewrite Ew in Hc'.
Qed.

Lemma testWriteSingleWithError_passes dma :
  passes (ready dma) (testWriteSingleWithError rw fd) [true; true] (ready dma).
Proof.
  apply passes_takes. intros m dev Hw Hm (Hm0 & Hc & Hd).
  pose proof (write_word_plain d (spi_flag s0) dev MTCADUMMY_BROKEN_REGISTER (wrap32 42) Hw
    ltac:(done) ltac:(u32)) as E1. set (dev1 := set_bar _ _ dev) in E1.
  pose proof (write_word_frame d (spi_flag s0) 0 MTCADUMMY_BROKEN_REGISTER (wrap32 42) dev Hw
    ltac:(u32)) as [Hw1 _].
  pose proof (write_word_constants (spi_flag s0) dev 0 MTCADUMMY_BROKEN_REGISTER (wrap32 42)
    ltac:(done) Hc) as Hc1. rewrite E1 in Hw1, Hc1. cbn [snd] in Hw1, Hc1.
  pose proof (write_word_plain d (spi_flag s0) dev1 MTCADUMMY_BROKEN_WRITE (wrap32 42) Hw1
    ltac:(done) ltac:(u32)) as E2. set (dev2 := set_bar _ _ dev1) in E2.
  pose proof (write_word_constants (spi_flag s0) dev1 0 MTCADUMMY_BROKEN_WRITE (wrap32 42)
    ltac:(done) Hc1) as Hc2. rewrite E2 in Hc2.
  exists m, dev2. split; [|done]. unfold testWriteSingleWithError.
  eapply takes_bind; [apply takes_check_throw; eapply takes_writeSingle; [u32..|exact E1]|].
  eapply takes_bind; [apply takes_check_throw; eapply takes_writeSingle; [u32..|exact E2]|].
  apply takes_ret.
Qed.

Lemma testReadArea_passes :
  passes (ready (setz 8 65 helix)) (testReadArea rw fd (address ReadBuffer))
    (replicate 1024 true) (ready (setz 8 65 helix)).
Proof.
  apply passes_takes. intros m dev Hw Hm (Hm0 & Hc & Hd).
  set (m1 := <[ReadBuffer := replicate 1024 0xB0B0B0B0]> m).
  exists (put ReadBuffer 13 (take 5 (drop 13 (dmaBar dev))) m1), dev. split.
  - unfold testReadArea. eapply takes_bind.
    { apply (takes_store_words _ _ _ _ _ _ m _ ReadBuffer); [done|].
      apply Forall_replicate. u32. }
    change (<[ReadBuffer := _]> m) with m1. eapply takes_bind.
    { apply (takes_readArea frame address serves rw fd d s0 m1 dev (4 * Z.of_nat 13) 2
        ReadBuffer 13 5 (take 5 (drop 13 (dmaBar dev)))); [u32..|lia|lia|].
      apply read_area_dma; [by apply (dma_words d)|lia]. }
    eapply takes_bind; [apply takes_load_words|]. rewrite Hd.
    unfold put. rewrite fn_lookup_insert. unfold m1. rewrite fn_lookup_insert.
    match goal with |- context [mret ?l] => assert (l = replicate 1024 true) as -> end.
    { match goal with |- context [nthz ?buffer _] => pattern buffer end. by vm_compute. }
    apply takes_ret.
  - split; [|done]. intros ρ Hρ. destruct (Hbuilt ρ Hρ) as [Hr He].
    unfold put, m1. rewrite !fn_lookup_insert_ne by done. auto.
Qed.

Lemma testWriteArea_passes :
  passes (ready (setz 8 65 helix))
    (testWriteArea rw fd (address h) (address ReadBuffer) (address ExpectedBuffer))
    [true] (ready (set_squares 8 100 helix)).
Proof.
  apply passes_takes. intros m dev Hw Hm (Hm0 & Hc & Hd).
  destruct (write_word_adc_ena (spi_flag s0) dev (wrap32 1)) as (dev1 & E1 & Hd1);
    [by apply (wf_dev_system_length d)|done|].
  pose proof (write_word_frame d (spi_flag s0) 0 MTCADUMMY_WORD_ADC_ENA (wrap32 1) dev Hw
    ltac:(u32)) as [Hw1 _].
  pose proof (write_word_constants (spi_flag s0) dev 0 MTCADUMMY_WORD_ADC_ENA (wrap32 1)
    ltac:(done) Hc) as Hc1. rewrite E1 in Hw1, Hc1. cbn [snd] in Hw1, Hc1.
  assert (dmaBar dev1 = helix) as Hd1' by (rewrite Hd1, Hd; by vm_compute). clear Hd Hd1.
  set (expected := set_squares 8 100 helix).
  set (m1 := <[ExpectedBuffer := expected]> (<[ExpectedBuffer := helix]> m)).
  set (m2 := <[ReadBuffer := replicate 1024 0]> m1).
  set (dev2 := set_bar DmaBar expected dev1).
  assert (m1 ExpectedBuffer = expected) as Hm1 by (unfold m1; by rewrite fn_lookup_insert).
  exists (put ReadBuffer 0 expected m2), dev2. split.
  - unfold testWriteArea. eapply takes_bind.
    { by apply (takes_writeSingle frame address serves rw fd d s0 m dev _ 0 1 true dev1); [u32..|]. }
    eapply takes_bind; [apply takes_load_words|]. rewrite (Hm0 h Hh).
    replace (wrap32 <$> (to_int <$> helix)) with helix by by vm_compute.
    eapply takes_bind; [apply (takes_store_words _ _ _ _ _ _ m _ ExpectedBuffer helix); u32|].
    eapply takes_bind; [apply (takes_store_squares _ _ _ _ _ _ _ ExpectedBuffer 8); lia|].
    rewrite fn_lookup_insert. fold expected m1. eapply takes_bind.
    { apply (takes_writeArea frame address serves rw fd d s0 m1 dev1 (4 * Z.of_nat 100) 2
        ExpectedBuffer 100 8 true dev2); [u32..|lia|lia|].
      rewrite Hm1, write_area_dma;
        [|by apply (dma_words d)|by apply Nat.leb_le; vm_compute].
      rewrite Hd1'. unfold dev2. f_equal. }
    eapply takes_bind; [apply (takes_store_words _ _ _ _ _ _ m1 _ ReadBuffer); u32|].
    change (<[ReadBuffer := _]> m1) with m2. eapply takes_bind.
    { rewrite <-(Z.add_0_r (address ReadBuffer)).
      apply (takes_readArea frame address serves rw fd d s0 m2 dev2 (4 * Z.of_nat 0) 2
        ReadBuffer 0 1024 expected); [u32..|lia|lia|].
      rewrite read_area_dma by (done || lia). by vm_compute. }
    eapply takes_bind; [apply takes_load_words|].
    eapply takes_bind; [apply takes_load_words|].
    unfold put. rewrite fn_lookup_insert, fn_lookup_insert_ne by done.
    unfold m2. rewrite fn_lookup_insert, fn_lookup_insert_ne, Hm1 by done.
    rewrite take_0, drop_ge, app_nil_r, bool_decide_eq_true_2 by by vm_compute.
    apply takes_ret.
  - split; [|done]. intros ρ Hρ. destruct (Hbuilt ρ Hρ) as [Hr He].
    unfold put, m2, m1. rewrite !fn_lookup_insert_ne by done. auto.
Qed.

Lemma MtcaDummyTestSuite_passes :
  passes (ready helix)
    (MtcaDummyTestSuite rw fd (address h) (address ReadBuffer) (address ExpectedBuffer))
    (replicate 6 true) (ready (set_squares 8 100 helix)).
Proof.
  unfold MtcaDummyTestSuite.
  eapply passes_bind; [apply passes_run_test, testReadSingle_passes|].
  eapply passes_bind; [apply passes_run_test, testReadSingleWithError_passes|].
  eapply passes_bind; [apply passes_run_test, testWriteSingle_passes|].
  eapply passes_bind; [apply passes_run_test, testWriteSingleWithError_passes|].
  eapply passes_bind; [apply passes_run_test, testReadArea_passes|].
  eapply passes_bind; [apply passes_run_test, testWriteArea_passes|].
  apply passes_ret.
Qed.
End Suite.

(** ** The whole program *)

Section Program.
Context {U : Type} `{UserSpace U} `{ByteOrder} `{IoctlEncoding} `{Vfs}.
Variables (frame : Z) (address : array → Z).
Implicit Types s : system (U:=U).

(** The arrays hold some words. *)
Lemma some_arrays u : memory_layout frame address u → ∃ m, arrays_hold address m u.
Proof.
  intros Hlay.
  assert (∀ ρ, ∃ ws, length ws = 1024%nat ∧ Forall is_u32 ws ∧
    bytes_at u (address ρ) (bytes_of_words ws)) as Hsome.
  { intros ρ. apply (accessible_words u 1024), (lay_array _ _ _ Hlay). }
  destruct (Hsome Helix0) as [w0 ?], (Hsome Helix6) as [w6 ?], (Hsome ReadBuffer) as [wr ?],
    (Hsome ExpectedBuffer) as [we ?].
  exists (λ ρ, match ρ with
               | Helix0 => w0 | Helix6 => w6 | ReadBuffer => wr | ExpectedBuffer => we
               end).
  by intros [].
Qed.

Lemma elsewhere_refl d s : elsewhere d s s.
Proof. by split_and!. Qed.

(** Two connections to different devices: the tests alternate between them. *)
Lemma testing_switch serves serves' fd fd' d d' m dev dev' s0 s :
  testing frame address serves fd d s0 m dev s → connected serves' fd' d' dev' s0 → d ≠ d' →
  testing frame address serves' fd' d' s m dev' s.
Proof.
  intros [Hcon Hlay Harr (Hf & Hc & _ & Hsig & Hd)] Hcon' Hne. split; [|done..|apply elsewhere_refl].
  destruct Hcon' as [_ Hs Hr Hw Hd' Hwf Hfile Htab]. specialize (Hd d' ltac:(done)).
  split; try congruence; [apply Hcon|..].
  - by rewrite Hf.
  - destruct Htab as (ops & Ht & Hops). exists ops. split; [|done]. unfold table in *.
    by rewrite Hd.
Qed.
End Program.

(** ** Runs of the program are runs of the system *)

Section Stays.
Context {U : Type} `{UserSpace U} `{ByteOrder} `{IoctlEncoding} `{Vfs}.
Context (scan_i : list byte → option Z).

Local Create HintDb stays.
#[local] Hint Resolve stays_ret stays_throw stays_store stays_load stays_libc_read
  stays_libc_pread stays_libc_write stays_libc_pwrite stays_libc_open stays_libc_close : stays.

(** Walks through a program. *)
Ltac stays :=
  repeat first
    [solve [eauto with stays]
    |apply stays_bind; [|intros ?]
    |match goal with |- stays_reachable _ (if ?b then _ else _) => destruct b end].

(** The library classes. *)
Definition rw_stays (rw : reader_writer U) : Prop :=
  (∀ fd off bar, stays_reachable scan_i (readSingle rw fd off bar)) ∧
  (∀ fd off bar n a, stays_reachable scan_i (readArea rw fd off bar n a)) ∧
  (∀ fd off bar v, stays_reachable scan_i (writeSingle rw fd off bar v)) ∧
  (∀ fd off bar n a, stays_reachable scan_i (writeArea rw fd off bar n a)).

Lemma StructReaderWriter_stays frame : rw_stays (StructReaderWriter frame).
Proof.
  assert (∀ fd off bar, stays_reachable scan_i (StructReaderWriter_readSingle frame fd off bar))
    as Hr by (intros; unfold StructReaderWriter_readSingle; cbv zeta; stays).
  assert (∀ fd off bar v, stays_reachable scan_i (StructReaderWriter_writeSingle frame fd off bar v))
    as Hw by (intros; unfold StructReaderWriter_writeSingle; cbv zeta; stays).
  split_and!; [done| |done|]; intros fd off bar n a; cbn.
  - unfold StructReaderWriter_readArea. generalize 0. induction (Z.to_nat n) as [|k IH];
      intros i; cbn [struct_read_loop]; unfold store_word; stays.
  - unfold StructReaderWriter_writeArea. generalize 0. induction (Z.to_nat n) as [|k IH];
      intros i; cbn [struct_write_loop]; unfold load_word; stays.
Qed.

Lemma NormalReaderWriter_stays frame : rw_stays (NormalReaderWriter frame).
Proof.
  assert (∀ fd off bar n a, stays_reachable scan_i (NormalReaderWriter_readArea fd off bar n a))
    as Hr by (intros; unfold NormalReaderWriter_readArea; cbv zeta; stays).
  assert (∀ fd off bar n a, stays_reachable scan_i (NormalReaderWriter_writeArea fd off bar n a))
    as Hw by (intros; unfold NormalReaderWriter_writeArea; cbv zeta; stays).
  split_and!; [|done| |done]; intros; cbn.
  - unfold NormalReaderWriter_readSingle, load_word. stays.
  - unfold NormalReaderWriter_writeSingle, store_word. stays.
Qed.

Lemma stays_check_throw {A} (c : client (U:=U) A) :
  stays_reachable scan_i c → stays_reachable scan_i (check_throw c).
Proof.
  intros Hc major u s r s' Hl. unfold check_throw.
  destruct (c s) as [[[a|what|] s1]| |] eqn:E; [..|done|done]; intros [= <- <-]; by eapply Hc.
Qed.

Lemma stays_run_test test :
  stays_reachable scan_i test → stays_reachable scan_i (run_test (U:=U) test).
Proof.
  intros Hc major u s r s' Hl. unfold run_test.
  destruct (test s) as [[[a|what|] s1]| |] eqn:E; [..|done|done]; intros [= <- <-]; by eapply Hc.
Qed.

Lemma stays_store_squares a n : ∀ i, stays_reachable scan_i (store_squares (U:=U) a n i).
Proof.
  induction n as [|n IH]; intros i; cbn [store_squares]; unfold store_word; stays.
Qed.

#[local] Hint Resolve stays_check_throw stays_run_test stays_store_squares : stays.

Lemma suite_stays rw fd a b c :
  rw_stays rw →
  stays_reachable scan_i (MtcaDummyTest rw fd a) ∧
  stays_reachable scan_i (MtcaDummyTestSuite rw fd a b c).
Proof.
  intros (Hrs & Hra & Hws & Hwa). split; [unfold MtcaDummyTest, store_words; stays|].
  unfold MtcaDummyTestSuite, testReadSingle, testReadSingleWithError, testWriteSingle,
    testWriteSingleWithError, testReadArea, testWriteArea, check_no_throw, increment_word,
    store_words, load_words. cbv zeta.
  repeat (apply stays_bind; [apply stays_run_test; stays|intros ?]). stays.
Qed.

Lemma test_program_stays frame a b c d :
  stays_reachable scan_i (test_program (U:=U) frame a b c d).
Proof.
  pose proof (StructReaderWriter_stays frame) as Hs. pose proof (NormalReaderWriter_stays frame) as Hn.
  unfold test_program, ReaderWriter, delete_ReaderWriter. cbv zeta.
  repeat (apply stays_bind; [first [by apply suite_stays|stays]|intros ?]). stays.
Qed.
End Stays.

(** ** Properties *)

Section Properties.
Context {U : Type} `{UserSpace U} `{ByteOrder} `{IoctlEncoding} `{Vfs}.
Context (frame : Z) (address : array → Z).
Implicit Types s : system (U:=U).

(** The constructor of the test object and the suite, with any implementation of
    the interface. *)
Lemma object_and_suite_pass serves rw `{!IsReaderWriter frame rw serves} fd d h s m dev :
  h ≠ ReadBuffer → h ≠ ExpectedBuffer → shows_constants dev →
  connected serves fd d dev s → memory_layout frame address (memory s) →
  arrays_hold address m (memory s) →
  ∃ m' dev' s', (_ ← MtcaDummyTest rw fd (address h);
     MtcaDummyTestSuite rw fd (address h) (address ReadBuffer) (address ExpectedBuffer)) s =
      Done (Returned (replicate 6 true), s') ∧
    testing frame address serves fd d s m' dev' s' ∧
    ready (eq h) (set_squares 8 100 helix) m' dev'.
Proof.
  intros Hne1 Hne2 Hc Hcon Hlay Harr.
  assert (∀ ρ, h = ρ → ρ ≠ ReadBuffer ∧ ρ ≠ ExpectedBuffer) as Hb by by intros ? <-.
  apply (passes_bind frame address serves fd d s
    (λ m dev, (∀ ρ, h = ρ → ρ ≠ h → m ρ = helix) ∧ shows_constants dev) _ tt (ready (eq h) helix))
    with (m := m) (dev := dev).
  - by eapply MtcaDummyTest_passes.
  - by eapply MtcaDummyTestSuite_passes.
  - split; [done..|apply elsewhere_refl].
  - split; [|done]. by intros ? <-.
Qed.

(** C27: the six tests pass with every implementation of the interface of
    [ReaderWriter], on every device that the implementation can serve and that
    shows its constants, while no read or write errors are injected and no signal
    is pending; whatever else its registers and its DMA memory hold, and whether
    SPI errors are injected or not. The test object and the suite
    change nothing but that device and the memory of the process. *)
Theorem suite_passes_with_any_implementation serves rw
    (Hrw : IsReaderWriter frame rw serves) fd d h dev (s : system (U:=U))
    (Hh : h = Helix0 ∨ h = Helix6) (Hc : shows_constants dev)
    (Hcon : connected serves fd d dev s) (Hlay : memory_layout frame address (memory s)) :
  ∃ s' dev', (_ ← MtcaDummyTest rw fd (address h);
     MtcaDummyTestSuite rw fd (address h) (address ReadBuffer) (address ExpectedBuffer)) s =
      Done (Returned (replicate 6 true), s') ∧
    connected serves fd d dev' s' ∧ shows_constants dev' ∧
    dmaBar dev' = set_squares 8 100 helix ∧ elsewhere d s s'.
Proof.
  destruct (some_arrays frame address _ Hlay) as [m Harr].
  destruct (object_and_suite_pass serves rw fd d h s m dev) as (m' & dev' & s' & E & Ht & Hr);
    try done; [by destruct Hh as [-> | ->]..|].
  exists s', dev'. destruct Ht, Hr as (_ & ? & ?). by split_and!.
Qed.

(** The descriptors of the two objects: an implementation also serves fewer tables. *)
Lemma serves_mono (serves serves' : file_operations → Prop) rw :
  (∀ ops, serves' ops → serves ops) → IsReaderWriter frame rw serves →
  IsReaderWriter (U:=U) frame rw serves'.
Proof.
  intros Hm Hrw.
  assert (∀ fd d dev (s : system (U:=U)), connected serves' fd d dev s → connected serves fd d dev s) as Hcon.
  { intros fd d dev s [? ? ? ? ? ? ? (ops & ? & ?)]. split; try done. exists ops. auto. }
  split; intros.
  - apply rw_readSingle; auto.
  - apply rw_writeSingle; auto.
  - apply rw_readArea; auto.
  - apply rw_writeArea; auto.
Qed.

Lemma StructReaderWriter_device_0 :
  IsReaderWriter (U:=U) frame (StructReaderWriter frame) (eq mtcaDummyFileOps_table).
Proof. eapply serves_mono; [|apply _]. by intros ? <-. Qed.

Lemma NormalReaderWriter_device_6 :
  IsReaderWriter (U:=U) frame (NormalReaderWriter frame) (eq pcieuniDummyFileOps_table).
Proof. eapply serves_mono; [|apply _]. by intros ? <-. Qed.

Lemma testing_connected serves fd d s0 m dev s :
  testing frame address serves fd d s0 m dev s → connected serves fd d dev s.
Proof. by intros []. Qed.

(** A test object: its device opened and its constructor run. *)
Lemma object_built serves rw `{!IsReaderWriter frame rw serves} path d dev h built m
    (s : system (U:=U)) :
  quiet d dev s → device_at path = Some d → serves (table_of (cdev dev)) →
  fop_open (table_of (cdev dev)) = Some mtcaDummy_open → shows_constants dev →
  memory_layout frame address (memory s) → arrays_hold address m (memory s) →
  built h → (∀ ρ, built ρ → ρ ≠ h → m ρ = helix) →
  (∀ ρ, built ρ → ρ ≠ ReadBuffer ∧ ρ ≠ ExpectedBuffer) →
  let fd := free_fd (files s) in
  let s1 := System (upd_dev d (count_use 1 dev) (kernel s)) (<[fd := File d (Some d) 0]> (files s)) in
  ∃ s2 m' dev', ReaderWriter path s = Done (Returned fd, s1) ∧
    MtcaDummyTest rw fd (address h) s1 = Done (Returned tt, s2) ∧
    testing frame address serves fd d s1 m' dev' s2 ∧ ready built helix m' dev'.
Proof.
  intros Hq Hp Hserves Hop Hc Hlay Harr Hh Hm Hb fd s1.
  destruct (connect serves path d dev s Hq Hp Hserves Hop) as (s1' & E & Hcon & ->).
  destruct (MtcaDummyTest_passes frame address serves rw fd d s1 h built m (count_use 1 dev) s1)
    as (m' & dev' & s2 & ? & ? & ?); [|by split|by exists s2, m', dev'].
  split; [done..|apply elsewhere_refl].
Qed.

Lemma quiet_elsewhere d d' dev s0 s :
  quiet d dev s0 → d ≠ d' → elsewhere d' s0 s → idle (kernel s) → quiet d dev s.
Proof.
  intros [Hi Hs Ho Hr Hw Hd Hwf] Hne (_ & Hc & _ & Hsig & Hdevs) Hi'.
  split; try congruence. by rewrite Hdevs.
Qed.

(** The two suites, on two connected devices. *)
Lemma suites_pass fd0 fd6 dev0 dev6 m s :
  connected (eq mtcaDummyFileOps_table) fd0 0 dev0 s →
  connected (eq pcieuniDummyFileOps_table) fd6 6 dev6 s →
  memory_layout frame address (memory s) → arrays_hold address m (memory s) →
  let built ρ := ρ = Helix0 ∨ ρ = Helix6 in
  ready built helix m dev0 → ready built helix m dev6 →
  ∃ s1 s2 dev0' dev6',
    MtcaDummyTestSuite (StructReaderWriter frame) fd0 (address Helix0) (address ReadBuffer)
      (address ExpectedBuffer) s = Done (Returned (replicate 6 true), s1) ∧
    MtcaDummyTestSuite (NormalReaderWriter frame) fd6 (address Helix6) (address ReadBuffer)
      (address ExpectedBuffer) s1 = Done (Returned (replicate 6 true), s2) ∧
    connected (eq mtcaDummyFileOps_table) fd0 0 dev0' s2 ∧
    connected (eq pcieuniDummyFileOps_table) fd6 6 dev6' s2 ∧
    elsewhere 0 s s1 ∧ elsewhere 6 s1 s2 ∧
    dmaBar dev0' = set_squares 8 100 helix ∧ dmaBar dev6' = set_squares 8 100 helix.
Proof.
  intros Hc0 Hc6 Hlay Harr built Hr0 Hr6.
  assert (∀ ρ, built ρ → ρ ≠ ReadBuffer ∧ ρ ≠ ExpectedBuffer) as Hb by by intros ρ [-> | ->].
  pose proof StructReaderWriter_device_0 as Hstruct.
  pose proof NormalReaderWriter_device_6 as Hnormal.
  assert (testing frame address (eq mtcaDummyFileOps_table) fd0 0 s m dev0 s) as Ht0
    by (split; [done..|apply elsewhere_refl]).
  destruct (MtcaDummyTestSuite_passes frame address (eq mtcaDummyFileOps_table) _ fd0 0 s Helix0 built ltac:(by left) Hb
    m dev0 s Ht0 Hr0) as (m1 & dev0' & s1 & E1 & Ht1 & Hr1).
  pose proof (testing_switch frame address _ _ _ _ _ _ _ _ _ _ _ Ht1 Hc6 ltac:(done)) as Ht6.
  assert (ready built helix m1 dev6) as Hr6' by (destruct Hr1, Hr6; by split).
  destruct (MtcaDummyTestSuite_passes frame address (eq pcieuniDummyFileOps_table) _ fd6 6 s1 Helix6 built ltac:(by right) Hb
    m1 dev6 s1 Ht6 Hr6') as (m2 & dev6' & s2 & E2 & Ht2 & Hr2).
  pose proof (testing_switch frame address _ _ _ _ _ _ _ _ _ _ _ Ht2
    (testing_connected _ _ _ _ _ _ _ Ht1) ltac:(done)) as Ht0'.
  exists s1, s2, dev0', dev6'. split_and!; try done; try by eapply testing_connected.
  - apply Ht1.
  - apply Ht2.
  - apply Hr1.
  - apply Hr2.
Qed.

(** The program up to the closing of the files. *)
Lemma test_program_open s dev0 dev6 :
  quiet 0 dev0 s → quiet 6 dev6 s → cdev dev0 = device_ops 0 → cdev dev6 = device_ops 6 →
  shows_constants dev0 → shows_constants dev6 → memory_layout frame address (memory s) →
  ∃ fd0 fd6 s' dev0' dev6' (finish : client (U:=U) (list bool)),
    finish = (_ ← delete_ReaderWriter fd0; _ ← delete_ReaderWriter fd6; mret (replicate 12 true)) ∧
    test_program frame (address Helix0) (address Helix6) (address ReadBuffer)
      (address ExpectedBuffer) s = finish s' ∧
    connected (eq mtcaDummyFileOps_table) fd0 0 dev0' s' ∧
    connected (eq pcieuniDummyFileOps_table) fd6 6 dev6' s' ∧
    dmaBar dev0' = set_squares 8 100 helix ∧ dmaBar dev6' = set_squares 8 100 helix ∧
    fd0 ≠ fd6 ∧ delete fd6 (delete fd0 (files s')) = files s ∧
    ∀ d, d ≠ 0%nat → d ≠ 6%nat → devs (kernel s') !! d = devs (kernel s) !! d.
Proof.
  intros Hq0 Hq6 Ho0 Ho6 Hc0 Hc6 Hlay. set (built ρ := ρ = Helix0 ∨ ρ = Helix6).
  assert (∀ ρ, built ρ → ρ ≠ ReadBuffer ∧ ρ ≠ ExpectedBuffer) as Hb by by intros ρ [-> | ->].
  pose proof StructReaderWriter_device_0 as Hstruct.
  pose proof NormalReaderWriter_device_6 as Hnormal.
  destruct (some_arrays frame address _ Hlay) as [m Harr].
  destruct (object_built (eq mtcaDummyFileOps_table) (StructReaderWriter frame)
    ("/dev/" +:+ MTCADUMMY_NAME +:+ "s0") 0 dev0 Helix0 (eq Helix0) m s)
    as (s2 & m2 & dev0' & Eopen0 & Ebuild0 & Ht0 & Hr0);
    try done; [by rewrite Ho0|by rewrite Ho0|by intros ? <-|].
  pose proof (testing_connected _ _ _ _ _ _ _ Ht0) as Hcon0.
  destruct Ht0 as [_ Hlay2 Harr2 Hel2].
  assert (quiet 6 dev6 s2) as Hq6'.
  { eapply (quiet_elsewhere 6 0); [|done|exact Hel2|apply Hcon0].
    pose proof (idle_dev _ _ _ (qu_idle _ _ _ Hq0) (qu_dev _ _ _ Hq0)) as Hown.
    destruct Hq6. split; try done; [by apply idle_upd_dev|].
    cbn. by rewrite list_lookup_insert_ne. }
  destruct (object_built (eq pcieuniDummyFileOps_table) (NormalReaderWriter frame)
    ("/dev/" +:+ PCIEUNIDUMMY_NAME +:+ "s6") 6 dev6 Helix6 built m2 s2)
    as (s4 & m4 & dev6' & Eopen6 & Ebuild6 & Ht6 & Hr6); try done;
    [by rewrite Ho6|by rewrite Ho6|by right|intros ρ [->| ->] ?; [by apply Hr0|done]|].
  set (fd0 := free_fd (files s)) in *. set (fd6 := free_fd (files s2)) in *.
  assert (files s2 !! fd6 = None) as Hfree6 by apply free_fd_free.
  destruct Hel2 as (Hf2 & _ & _ & _ & Hd2). cbn in Hf2.
  assert (fd0 ≠ fd6) as Hne by (intros E; by rewrite Hf2, <-E, lookup_insert_eq in Hfree6).
  pose proof (connected_other _ fd0 0 dev0' 6 dev6 1 (<[fd6 := File 6 (Some 6%nat) 0]> (files s2))
    s2 Hcon0 ltac:(done) (qu_dev _ _ _ Hq6') ltac:(by rewrite lookup_insert_ne)) as Hcon0'.
  pose proof (testing_connected _ _ _ _ _ _ _
    (testing_switch frame address _ _ _ _ _ _ _ _ _ _ _ Ht6 Hcon0' ltac:(done))) as Hcon0''.
  destruct (suites_pass fd0 fd6 dev0' dev6' m4 s4)
    as (s5 & s6 & dev0'' & dev6'' & Es0 & Es6 & Hc0' & Hc6' & Hel5 & Hel6 & ? & ?);
    try done; [by eapply testing_connected|apply Ht6|apply Ht6|destruct Hr0, Hr6; by split|].
  destruct Ht6 as [_ _ _ (Hf4 & _ & _ & _ & Hd4)], Hel5 as (Hf5 & _ & _ & _ & Hd5),
    Hel6 as (Hf6 & _ & _ & _ & Hd6). cbn in Hf4.
  exists fd0, fd6, s6, dev0'', dev6''. eexists. split_and!; try done.
  - unfold test_program. rewrite (bind_returned _ _ _ _ _ Eopen0).
    rewrite (bind_returned _ _ _ _ _ Ebuild0), (bind_returned _ _ _ _ _ Eopen6).
    rewrite (bind_returned _ _ _ _ _ Ebuild6), (bind_returned _ _ _ _ _ Es0).
    by rewrite (bind_returned _ _ _ _ _ Es6).
  - rewrite Hf6, Hf5, Hf4, Hf2, delete_delete.
    rewrite delete_insert_id by (by rewrite <-Hf2).
    apply delete_insert_id, free_fd_free.
  - intros d H0' H6'. rewrite Hd6, Hd5, Hd4 by done. cbn. rewrite list_lookup_insert_ne by done.
    rewrite Hd2 by done. cbn. by rewrite list_lookup_insert_ne.
Qed.

(** C9: the automatic test. Run on the driver in any state that system calls can
    have left it in, with no open, read or write errors injected, no signal
    pending and the constant registers of the devices 0 and 6 intact, and with
    memory for its arrays, the test program opens both devices, passes all twelve
    tests and closes the files again; this is a run of the system, it does not
    touch the other devices, and it leaves the squares it wrote in both DMA
    memories. *)
Theorem test_program_passes (scan_i : list byte → option Z) major u s dev0 dev6
    (Hr : sys_reachable scan_i major u s) (Hs : signals (kernel s) = [])
    (Ho : open_error (control (kernel s)) = false)
    (Hre : read_error (control (kernel s)) = false)
    (Hwe : write_error (control (kernel s)) = false)
    (Hdev0 : devs (kernel s) !! 0%nat = Some dev0) (Hc0 : shows_constants dev0)
    (Hdev6 : devs (kernel s) !! 6%nat = Some dev6) (Hc6 : shows_constants dev6)
    (Hlay : memory_layout frame address (memory s)) :
  ∃ s' dev0' dev6', test_program frame (address Helix0) (address Helix6)
      (address ReadBuffer) (address ExpectedBuffer) s = Done (Returned (replicate 12 true), s') ∧
    sys_reachable scan_i major u s' ∧ files s' = files s ∧
    devs (kernel s') !! 0%nat = Some dev0' ∧ dmaBar dev0' = set_squares 8 100 helix ∧
    devs (kernel s') !! 6%nat = Some dev6' ∧ dmaBar dev6' = set_squares 8 100 helix ∧
    ∀ d, d ≠ 0%nat → d ≠ 6%nat → devs (kernel s') !! d = devs (kernel s) !! d.
Proof.
  pose proof (sys_inv_reachable scan_i major u s Hr) as Hinv.
  assert (∀ d dev, devs (kernel s) !! d = Some dev → quiet d dev s ∧ cdev dev = device_ops d)
    as Hq.
  { intros d dev Hd. split; [|by apply (inv_devs _ _ Hinv d)].
    split; try done; [apply Hinv|by apply (inv_wf _ _ Hinv)]. }
  destruct (Hq 0%nat dev0 Hdev0) as [Hq0 Hop0], (Hq 6%nat dev6 Hdev6) as [Hq6 Hop6].
  destruct (test_program_open s dev0 dev6 Hq0 Hq6 Hop0 Hop6 Hc0 Hc6 Hlay)
    as (fd0 & fd6 & s1 & dev0' & dev6' & finish & -> & E & Hcon0 & Hcon6 & Hd0 & Hd6 & Hne & Hf & Hd).
  rewrite (bind_returned _ _ _ _ _ (close_connected _ _ _ _ _ Hcon0 eq_refl)) in E.
  set (s2 := System (upd_dev 0 _ _) _) in E.
  assert (connected (eq pcieuniDummyFileOps_table) fd6 6 dev6' s2) as Hcon6'.
  { eapply connected_other; [done|done|apply Hcon0|]. by rewrite lookup_delete_ne. }
  rewrite (bind_returned _ _ _ _ _ (close_connected _ _ _ _ _ Hcon6' eq_refl)) in E.
  pose proof (lookup_lt_Some _ _ _ (con_dev _ _ _ _ _ Hcon0)) as Hl0.
  pose proof (lookup_lt_Some _ _ _ (con_dev _ _ _ _ _ Hcon6)) as Hl6.
  eexists. exists (count_use (-1) dev0'), (count_use (-1) dev6'). split; [exact E|]. split_and!.
  - eapply test_program_stays; [|exact E]. by split.
  - exact Hf.
  - cbn. rewrite list_lookup_insert_ne by done. by apply list_lookup_insert_eq.
  - done.
  - cbn. apply list_lookup_insert_eq. by rewrite length_insert.
  - done.
  - intros d H0' H6'. rewrite <-Hd by done. cbn. by rewrite !list_lookup_insert_ne.
Qed.
End Properties.

(** ** Examples *)

#[local] Existing Instance little_endian.
#[local] Existing Instance asm_generic_ioctl.
#[local] Existing Instance linux_vfs.

(** A page for the stack, and one for each array. *)
Definition sample_memory : gmap Z byte := umem_put 4096 (replicate (Z.to_nat 20480) x00) ∅.

Definition sample_address (ρ : array) : Z :=
  match ρ with
  | Helix0 => 8192 | Helix6 => 12288 | ReadBuffer => 16384 | ExpectedBuffer => 20480
  end.

Lemma sample_memory_accessible a n :
  4096 <= a → a + n <= 24576 → accessible sample_memory a n.
Proof.
  intros Ha Hn. apply umem_put_accessible; [done|]. rewrite length_replicate. lia.
Qed.

Lemma sample_layout : memory_layout 4096 sample_address sample_memory.
Proof.
  split.
  - apply sample_memory_accessible; lia.
  - intros ρ. apply sample_memory_accessible; destruct ρ; cbn; lia.
  - intros ρ x. unfold within. destruct ρ; cbn; lia.
  - intros ρ ρ' x. unfold within. destruct ρ, ρ'; cbn; done || lia.
Qed.

Lemma fresh_shows_constants major d : shows_constants (fresh_device major d).
Proof.
  intros a v Hv. pose proof (ro_value_cases a v Hv) as Ha. rewrite !elem_of_cons in Ha.
  by repeat destruct Ha as [->|Ha]; [injection Hv as <-..|apply not_elem_of_nil in Ha].
Qed.

(** The driver just loaded. *)
Definition sample_loaded : system (U:=gmap Z byte) :=
  System (loaded_state 240 sample_memory) ∅.

Lemma test_program_passes_witness :
  ∃ s', test_program 4096 8192 12288 16384 20480 sample_loaded =
    Done (Returned (replicate 12 true), s').
Proof.
  destruct (test_program_passes 4096 sample_address decimal_scan 240 sample_memory sample_loaded
    (fresh_device 240 0) (fresh_device 240 6)) as (s' & dev0 & dev6 & E & _).
  - apply rtc_refl.
  - reflexivity.
  - reflexivity.
  - reflexivity.
  - reflexivity.
  - apply loaded_lookup. lia.
  - apply fresh_shows_constants.
  - apply loaded_lookup. lia.
  - apply fresh_shows_constants.
  - exact sample_layout.
  - exists s'. exact E.
Defined.

(** Device 6, just opened. *)
Lemma suite_passes_with_any_implementation_witness :
  ∃ s s', (_ ← MtcaDummyTest (NormalReaderWriter 4096) 3 12288;
     MtcaDummyTestSuite (NormalReaderWriter 4096) 3 12288 16384 20480) s =
      Done (Returned (replicate 6 true), s') ∧
    files s = {[3%nat := File 6 (Some 6%nat) 0]}.
Proof.
  destruct (connect takes_positions "/dev/pcieunidummys6" 6 (fresh_device 240 6) sample_loaded)
    as (s & _ & Hcon & Es).
  - split; [apply loaded_idle|reflexivity..|apply wf_fresh_device].
  - vm_compute. reflexivity.
  - split; reflexivity.
  - reflexivity.
  - destruct (suite_passes_with_any_implementation 4096 sample_address takes_positions
      (NormalReaderWriter 4096) (NormalReaderWriter_correct 4096) 3 6 Helix6
      (count_use 1 (fresh_device 240 6)) s) as (s' & dev' & E & _).
    + right. reflexivity.
    + exact (fresh_shows_constants 240 6).
    + exact Hcon.
    + rewrite Es. exact sample_layout.
    + exists s, s'. split; [exact E|]. rewrite Es. reflexivity.
Defined.
