(* ===== verification/ManualTest.v ===== *)
(** * The manual test program ([test/testMtcaDummy.cpp])

    The program opens the first device, starts the sampling, resets the clock
    counters, samples again, stops, and closes the device. Its output and the
    waiting for the user ([pause]) touch no device and are left out. *)

From S2P Require Import Prelude Abi Kernel UserMem Firmware ModuleInit Registers StructRW.
From S2P Require Import NoStructRW Ioctl OpenRelease Proc Driver Process ReaderWriter.
From S2P Require Import StructReaderWriter.
Local Open Scope Z_scope.

(** ** Model *)

Definition DEVICE_NAME : string := "/dev/mtcadummys0".

Section Model.
Context {U : Type} `{UserSpace U} `{ByteOrder} `{IoctlEncoding} `{Vfs}.

(** The address of [readWriteInstruction]. *)
Variable frame : Z.

(** Setting the fields of the instruction and writing it; a [DeviceIOException]
    where not the whole instruction is accepted. *)
Definition write_instruction (fd : nat) (readWriteInstruction : device_rw) :
    client (U:=U) unit :=
  _ ← store_bytes frame (bytes_of_device_rw readWriteInstruction);
  status ← libc_write fd frame sizeof_device_rw;
  if negb (wrap64 status =? sizeof_device_rw) then throw "DeviceIOException" else mret tt.

Definition instruction (offset data : Z) : device_rw :=
  DeviceRw offset data RW_D32 0 sizeof_device_rw 0.

(** The block in [try]. *)
Definition run_daq (fd : nat) : client (U:=U) unit :=
  _ ← write_instruction fd (instruction MTCADUMMY_WORD_ADC_ENA 0x1);
  _ ← write_instruction fd (instruction MTCADUMMY_WORD_CLK_RST 0x1);
  _ ← write_instruction fd (instruction MTCADUMMY_WORD_ADC_ENA 0x1);
  write_instruction fd (instruction MTCADUMMY_WORD_ADC_ENA 0x0).

(** [try { ... } catch(DeviceIOException&) { ... }]: the handler only prints. *)
Definition catch_io (c : client (U:=U) unit) : client (U:=U) unit := λ s,
  match c s with
  | Done (Thrown _, s') => Done (Returned tt, s')
  | r => r
  end.

(** The exit status. *)
Definition main : client (U:=U) Z :=
  fileDescriptor ← libc_open DEVICE_NAME;
  if fileDescriptor <? 0 then mret 1 else
  _ ← catch_io (run_daq (Z.to_nat fileDescriptor));
  _ ← libc_close (Z.to_nat fileDescriptor);
  mret 0.
End Model.

(** ** What the writes do to the device *)

(** The device after the four writes: two samplings with a reset in between. *)
Definition daq_register (dev : mtcaDummyData) (a : Z) : Z :=
  if a =? MTCADUMMY_WORD_ADC_ENA then 0
  else if a =? MTCADUMMY_WORD_CLK_CNT_0 then nSamples
  else if (a =? MTCADUMMY_WORD_CLK_RST) || existsb (Z.eqb a) clock_registers then 0
  else register dev a.

Definition daq_dma (dma : list Z) : list Z := parabola ++ drop (Z.to_nat nSamples) dma.

Definition daq_writes : list (Z * Z) :=
  [(MTCADUMMY_WORD_ADC_ENA, 1); (MTCADUMMY_WORD_CLK_RST, 1);
   (MTCADUMMY_WORD_ADC_ENA, 1); (MTCADUMMY_WORD_ADC_ENA, 0)].

Definition written_device (spi : bool) (dev : mtcaDummyData) (ws : list (Z * Z)) : mtcaDummyData :=
  foldl (λ dev '(off, v), (word_write spi SystemBar off v dev).2) dev ws.

Lemma written_device_registers spi dev a :
  length (systemBar dev) = 32%nat → is_register a = true →
  register (written_device spi dev daq_writes) a = daq_register dev a.
Proof.
  intros Hl. apply register_of_words. intros i Hi. unfold daq_register. rewrite register_word.
  unfold written_device, daq_writes, word_write, fw_dev. cbn [foldl snd systemBar set_bar get_bar dmaBar].
  destruct dev as [? ? ? ? ? ? l ?]. cbn [systemBar] in *. explode l.
  assert (i ∈ seqZ 0 32) as Hin by (apply elem_of_seqZ; lia). clear Hi Hl.
  vm_compute in Hin.
  repeat (apply elem_of_cons in Hin as [->|Hin]; [vm_compute; by destruct spi|]).
  by apply not_elem_of_nil in Hin.
Qed.

Lemma word_write_system spi off v dev :
  length (systemBar (word_write spi SystemBar off v dev).2) = 32%nat.
Proof. done. Qed.

Lemma word_write_dma spi off v dev :
  length (systemBar dev) = 32%nat → is_register off = true →
  dmaBar (word_write spi SystemBar off v dev).2 =
    if (off =? MTCADUMMY_WORD_ADC_ENA) && negb (v =? 0)
    then daq_dma (dmaBar dev) else dmaBar dev.
Proof.
  intros Hl Hr. unfold is_register in Hr. unfold word_write, fw_dev, fw_dma, daq_dma, REG, sizeof_u32.
  cbn [snd dmaBar systemBar set_bar get_bar]. by rewrite nthz_setz_eq by lia.
Qed.

Lemma daq_dma_twice dma : daq_dma (daq_dma dma) = daq_dma dma.
Proof. done. Qed.

Lemma written_device_dma spi dev :
  length (systemBar dev) = 32%nat →
  dmaBar (written_device spi dev daq_writes) = daq_dma (dmaBar dev).
Proof.
  intros Hl. unfold written_device, daq_writes. cbn [foldl].
  by rewrite !word_write_dma.
Qed.

(** Opening and closing do not show in the bars. *)
Lemma register_count_use k dev a : register (count_use k dev) a = register dev a.
Proof. done. Qed.

Lemma dmaBar_count_use k dev : dmaBar (count_use k dev) = dmaBar dev.
Proof. done. Qed.

Lemma daq_register_count_use k dev a : daq_register (count_use k dev) a = daq_register dev a.
Proof. done. Qed.

(** ** Running the program *)

Section Running.
Context {U : Type} `{UserSpace U} `{ByteOrder} `{IoctlEncoding} `{Vfs}.
Context (frame : Z) (fd : nat).
Implicit Types s : system (U:=U).

(** One instruction for a register that can be written. *)
Lemma write_instruction_correct serves s dev off v :
  (∀ ops, serves ops → takes_requests ops) →
  connected serves fd 0 dev s → accessible (memory s) frame 24 →
  is_register off = true → fw_broken off = false → is_u32 v →
  let dev' := (word_write (spi_error (control (kernel s))) SystemBar off v dev).2 in
  ∃ u, write_instruction frame fd (instruction off v) s = Done (Returned tt, after 0 dev' u s) ∧
    changes_only (within frame 24) (memory s) u ∧ connected serves fd 0 dev' (after 0 dev' u s).
Proof.
  intros Hserves Hcon Ha Hr Hbr Hv dev'. unfold write_instruction, is_register in *.
  set (r0 := instruction off v).
  assert (is_device_rw r0) as Hr0.
  { unfold r0, instruction, is_device_rw, is_u32, RW_D32, sizeof_device_rw in *. cbn. lia. }
  destruct (run_store frame (bytes_of_device_rw r0) s) as (u1 & E1 & Hb1 & Hc1);
    [by rewrite length_bytes_of_device_rw|].
  rewrite length_bytes_of_device_rw in Hc1. change (Z.of_nat 24) with 24 in Hc1.
  exists u1. rewrite (bind_returned _ _ _ _ _ E1).
  assert (connected takes_requests fd 0 dev (with_memory u1 s)) as Hcon1.
  { apply connected_memory. destruct Hcon as [? ? ? ? ? ? ? (ops & ? & ?)]. split; try done.
    exists ops. auto. }
  pose proof (run_struct_write fd 0 dev frame sizeof_device_rw _ Hcon1) as Ew.
  unfold write_outcome in Ew. cbn [kernel with_memory user with_user control] in Ew.
  rewrite (con_write _ _ _ _ _ Hcon) in Ew.
  change sizeof_device_rw with 24 in *. rewrite (request_in_frame frame u1 r0 Hr0 Hb1) in Ew.
  assert (d32_target r0 = Some (SystemBar, off / 4)) as Et.
  { unfold d32_target, r0, instruction. cbn [barx_rw offset_rw select_bar].
    change (select_bar 0) with (Some (SystemBar, 128)). cbv iota beta.
    by replace ((off mod 4 =? 0) && (off <? 128)) with true by lia. }
  assert (struct_effect (spi_error (control (kernel s))) dev r0 = (24, dev')) as Ef.
  { unfold struct_effect. rewrite Et. unfold dev', word_write. cbn. by rewrite Hbr. }
  rewrite Ef in Ew. rewrite (bind_returned _ _ _ _ _ (Ew ltac:(unfold MAX_RW_COUNT; lia))).
  split_and!; [done|done|].
  eapply connected_after; [done|apply wf_word_write; [apply Hcon|done]|done].
Qed.

(** The four instructions. *)
Lemma run_daq_correct serves s dev :
  (∀ ops, serves ops → takes_requests ops) →
  connected serves fd 0 dev s → accessible (memory s) frame 24 →
  let dev' := written_device (spi_error (control (kernel s))) dev daq_writes in
  ∃ u, run_daq frame fd s = Done (Returned tt, after 0 dev' u s) ∧
    changes_only (within frame 24) (memory s) u ∧ connected serves fd 0 dev' (after 0 dev' u s).
Proof.
  intros Hserves Hcon Ha.
  assert (is_u32 0 ∧ is_u32 1) as [Hu0 Hu1] by (unfold is_u32; lia).
  set (spi := spi_error (control (kernel s))).
  destruct (write_instruction_correct serves s dev MTCADUMMY_WORD_ADC_ENA 1)
    as (u1 & E1 & Hc1 & Hcon1); try done.
  set (s1 := after 0 _ u1 s) in *.
  assert (accessible (memory s1) frame 24) as Ha1 by by eapply accessible_changed.
  destruct (write_instruction_correct serves s1 _ MTCADUMMY_WORD_CLK_RST 1 Hserves Hcon1)
    as (u2 & E2 & Hc2 & Hcon2); try done.
  set (s2 := after 0 _ u2 s1) in *.
  assert (accessible (memory s2) frame 24) as Ha2 by by eapply (accessible_changed _ u1).
  destruct (write_instruction_correct serves s2 _ MTCADUMMY_WORD_ADC_ENA 1 Hserves Hcon2)
    as (u3 & E3 & Hc3 & Hcon3); try done.
  set (s3 := after 0 _ u3 s2) in *.
  assert (accessible (memory s3) frame 24) as Ha3 by by eapply (accessible_changed _ u2).
  destruct (write_instruction_correct serves s3 _ MTCADUMMY_WORD_ADC_ENA 0 Hserves Hcon3)
    as (u4 & E4 & Hc4 & Hcon4); try done.
  exists u4. split_and!.
  - unfold run_daq. rewrite (bind_returned _ _ _ _ _ E1), (bind_returned _ _ _ _ _ E2).
    rewrite (bind_returned _ _ _ _ _ E3), E4. unfold s3, s2, s1. by rewrite !after_after.
  - etrans; [exact Hc1|]. etrans; [exact Hc2|]. etrans; [exact Hc3|exact Hc4].
  - unfold s3, s2, s1 in Hcon4. by rewrite !after_after in Hcon4.
Qed.
End Running.

Section Property.
Context {U : Type} `{UserSpace U} `{ByteOrder} `{IoctlEncoding} `{Vfs}.
Context (frame : Z).
Implicit Types s : system (U:=U).

Lemma open_of_ReaderWriter path s fd s' :
  ReaderWriter path s = Done (Returned fd, s') →
  ∃ z, libc_open path s = Done (Returned z, s') ∧ fd = Z.to_nat z ∧ 0 < z.
Proof.
  unfold ReaderWriter, mbind, client_bind.
  destruct (libc_open path s) as [[[z| |] s1]| |]; try done.
  case (Z.leb_spec z 0); [done|]. intros ? [= <- <-]. eauto.
Qed.

Lemma close_of_delete fd s s' :
  delete_ReaderWriter fd s = Done (Returned tt, s') →
  ∃ z, libc_close fd s = Done (Returned z, s').
Proof.
  unfold delete_ReaderWriter, mbind, client_bind.
  destruct (libc_close fd s) as [[[z| |] s1]| |]; try done. intros [= <-]. eauto.
Qed.

Lemma catch_io_returned (c : client (U:=U) unit) s s' :
  c s = Done (Returned tt, s') → catch_io c s = Done (Returned tt, s').
Proof. intros E. unfold catch_io. by rewrite E. Qed.

Lemma main_run s dev :
  quiet 0 dev s → cdev dev = mtcaDummyFileOps → accessible (memory s) frame 24 →
  let dev' := written_device (spi_error (control (kernel s))) (count_use 1 dev) daq_writes in
  ∃ s', main frame s = Done (Returned 0, s') ∧ files s' = files s ∧
    devs (kernel s') = <[0%nat := count_use (-1) dev']> (devs (kernel s)) ∧
    changes_only (within frame 24) (memory s) (memory s').
Proof.
  intros Hq Hop Ha dev'. set (fd := free_fd (files s)).
  assert (table_of (cdev dev) = mtcaDummyFileOps_table) as Ht by by rewrite Hop.
  destruct (connect (eq mtcaDummyFileOps_table) DEVICE_NAME 0 dev s Hq) as (s1 & E1 & Hcon & Es1);
    [by vm_compute|done|by rewrite Ht|].
  destruct (open_of_ReaderWriter _ _ _ _ E1) as (z & Eo & Hz & Hpos).
  assert (∀ ops, mtcaDummyFileOps_table = ops → takes_requests ops) as Htakes by by intros ? <-.
  destruct (run_daq_correct frame fd _ s1 (count_use 1 dev) Htakes Hcon) as (u & Ed & Hc & Hcon');
    [by rewrite Es1|].
  pose proof (close_connected _ _ _ _ _ Hcon' eq_refl) as Ec.
  destruct (close_of_delete _ _ _ Ec) as [r Ec'].
  pose proof (catch_io_returned _ _ _ Ed) as Ek.
  eexists. split_and!.
  - unfold main. rewrite (bind_returned _ _ _ _ _ Eo), (proj2 (Z.ltb_ge z 0)), <-Hz by lia.
    rewrite (bind_returned _ _ _ _ _ Ek).
    by rewrite (bind_returned _ _ _ _ _ Ec').
  - rewrite Es1. cbn. rewrite delete_insert_id by apply free_fd_free. done.
  - rewrite Es1. cbn. by rewrite !list_insert_insert_eq.
  - rewrite Es1 in Hc. exact Hc.
Qed.

(** A run of the program is a run of the system. *)
Lemma main_stays scan_i : stays_reachable scan_i (main (U:=U) frame).
Proof.
  assert (∀ fd r, stays_reachable scan_i (write_instruction (U:=U) frame fd r)) as Hw.
  { intros fd r. apply stays_bind; [apply stays_store|intros _].
    apply stays_bind; [apply stays_libc_write|intros status].
    destruct (negb _); [apply stays_throw|apply stays_ret]. }
  apply stays_bind; [apply stays_libc_open|intros z]. destruct (z <? 0); [apply stays_ret|].
  apply stays_bind; [|intros _; apply stays_bind; [apply stays_libc_close|intros _; apply stays_ret]].
  intros major u s r s' Hl. unfold catch_io.
  assert (stays_reachable scan_i (run_daq (U:=U) frame (Z.to_nat z))) as Hd
    by (repeat first [apply Hw | apply stays_bind; [|intros _]]).
  destruct (run_daq _ _ s) as [[[|what|] s1]| |] eqn:E; [| | |done|done];
    intros [= <- <-]; by eapply Hd.
Qed.

(** C28: the manual test program. Run on the driver in any state that system calls
    can have left it in, with no open, read or write errors injected and no signal
    pending, it ends with exit status 0 and with the files as before, and leaves
    the first device as its comments announce: 25 samples of a parabola at the
    beginning of the DMA memory and their number in CLK_CNT_0, the other clock
    registers cleared, ADC_ENA and CLK_RST 0, everything else as it was; the other
    devices are not touched. *)
Theorem main_correct (scan_i : list byte → option Z) major u s dev
    (Hr : sys_reachable scan_i major u s) (Hs : signals (kernel s) = [])
    (Ho : open_error (control (kernel s)) = false)
    (Hre : read_error (control (kernel s)) = false)
    (Hwe : write_error (control (kernel s)) = false)
    (Hdev : devs (kernel s) !! 0%nat = Some dev) (Ha : accessible (memory s) frame 24) :
  ∃ s' dev', main frame s = Done (Returned 0, s') ∧
    sys_reachable scan_i major u s' ∧ files s' = files s ∧
    devs (kernel s') !! 0%nat = Some dev' ∧
    (∀ a, is_register a = true → register dev' a = daq_register dev a) ∧
    dmaBar dev' = daq_dma (dmaBar dev) ∧
    (∀ d, d ≠ 0%nat → devs (kernel s') !! d = devs (kernel s) !! d).
Proof.
  pose proof (sys_inv_reachable scan_i major u s Hr) as Hinv.
  pose proof (inv_wf _ _ Hinv) as Hwf. pose proof (proj2 Hwf _ _ Hdev) as Hw.
  assert (quiet 0 dev s) as Hq by (split; try done; apply Hinv).
  destruct (inv_devs _ _ Hinv 0%nat dev Hdev) as [Hop _].
  destruct (main_run s dev Hq Hop Ha) as (s' & E & Hf & Hd & _).
  pose proof (wf_dev_bar_length _ _ SystemBar Hw) as Hl. cbn in Hl.
  assert (length (systemBar (count_use 1 dev)) = 32%nat) as Hl1 by (cbn; lia).
  eexists s', _. split_and!; [exact E| |exact Hf|..].
  - by eapply main_stays.
  - rewrite Hd. apply list_lookup_insert_eq. by eapply lookup_lt_Some.
  - intros a Har. rewrite register_count_use, written_device_registers by done.
    apply daq_register_count_use.
  - rewrite dmaBar_count_use, written_device_dma by done. by rewrite dmaBar_count_use.
  - intros d Hne. rewrite Hd. by apply list_lookup_insert_ne.
Qed.
End Property.

(** ** Example *)

#[local] Existing Instance little_endian.
#[local] Existing Instance asm_generic_ioctl.
#[local] Existing Instance linux_vfs.

(** The driver just loaded, and a page of memory for the stack. *)
Definition sample_stack : system (U:=gmap Z byte) :=
  System (loaded_state 240 (umem_put 4096 (replicate (Z.to_nat 4096) x00) ∅)) ∅.

Lemma main_correct_witness :
  ∃ s' dev', main 4096 sample_stack = Done (Returned 0, s') ∧
    devs (kernel s') !! 0%nat = Some dev' ∧
    register dev' MTCADUMMY_WORD_CLK_CNT_0 = 25 ∧
    register dev' MTCADUMMY_WORD_DUMMY = MTCADUMMY_DMMY_AS_ASCII ∧ nthz (dmaBar dev') 24 = 576.
Proof.
  destruct (main_correct 4096 decimal_scan 240 (umem_put 4096 (replicate (Z.to_nat 4096) x00) ∅)
    sample_stack (fresh_device 240 0)) as (s' & dev' & E & _ & _ & Hd & Hr & Hdma & _).
  - apply rtc_refl.
  - reflexivity.
  - reflexivity.
  - reflexivity.
  - reflexivity.
  - apply loaded_lookup. lia.
  - apply umem_put_accessible; [lia|]. rewrite length_replicate. lia.
  - exists s', dev'. split; [exact E|]. split; [exact Hd|].
    rewrite !Hr by reflexivity. rewrite Hdma.
    split; [reflexivity|]. split; vm_compute; reflexivity.
Defined.
